(** * phy_gnn: data preparation, trainer loop, normalisation transforms

    A shallow embedding of the parts of the repository that its
    specification talks about:

    - [pkg/utils/io.py]                                  ([Module Io])
    - [pkg/train/trainer/base_trainer.py]                ([Module BaseTrainer])
    - [pkg/train/module/data_transform.py]               ([Module DataTransform])
    - [task/passive_biv/data/datasets_preparation_hdf5.py]
                                                         ([Module Preparation])

    Python exceptions are values of [exn]; a call that may raise returns a
    [result].  Floating point numbers are modelled by rationals ([Q]):
    the statements below are about the exact arithmetic the code writes
    down, not about rounding. *)

From Stdlib Require Import ZArith QArith String Ascii List Lia Permutation.
From Stdlib Require Import DecimalString DecimalN DecimalPos Qminmax Lqa.
From stdpp Require Import gmap strings list fin_maps.

Local Open Scope string_scope.
Local Open Scope Z_scope.

(* ===================================================================== *)
(** ** Python values shared by all modules                                *)
(* ===================================================================== *)

Module Py.

(** The exceptions the modelled code can raise, each with its message
    (or the offending key or path). *)
Inductive exn : Set :=
| ValueError (msg : string)
| TypeError (msg : string)
| KeyError (key : string)
| IndexError (msg : string)
| ZeroDivisionError
| AttributeError (msg : string)
| RuntimeError (msg : string)
| FileNotFoundError (path : string)
| Exception (msg : string).

Inductive result (A : Type) : Type :=
| Ok (a : A)
| Raise (e : exn).
Arguments Ok {A} a.
Arguments Raise {A} e.

Definition bind {A B} (r : result A) (k : A -> result B) : result B :=
  match r with
  | Ok a => k a
  | Raise e => Raise e
  end.

Definition is_ok {A} (r : result A) : bool :=
  match r with Ok _ => true | Raise _ => false end.

(** [d[key]] on a dictionary. *)
Definition getitem {V} (d : gmap string V) (key : string) : result V :=
  match d !! key with
  | Some v => Ok v
  | None => Raise (KeyError key)
  end.

(** [str(n)] for a non-negative integer. *)
Definition str_of_N (n : N) : string :=
  NilZero.string_of_uint (N.to_uint n).

(** [len(s)] as Python sees it. *)
Definition len {A} (l : list A) : Z := Z.of_nat (List.length l).

(** The scalar values a YAML configuration holds. *)
Inductive value : Type :=
| VNone
| VBool (b : bool)
| VInt (z : Z)
| VFloat (q : Q)
| VStr (s : string).

(** [v == s] for a string literal [s]. *)
Definition eq_str (v : value) (s : string) : bool :=
  match v with
  | VStr s' => String.eqb s' s
  | _ => false
  end.

End Py.

Import Py.

Declare Scope py_scope.
Delimit Scope py_scope with py.
Notation "x <- r ;; k" := (Py.bind r (fun x => k))
  (at level 100, r at next level, right associativity) : py_scope.
Local Open Scope py_scope.

(* ===================================================================== *)
(** ** pkg/utils/io.py                                                    *)
(* ===================================================================== *)

Module Io.

Definition sep : ascii := "/"%char.

Definition is_sep (c : ascii) : bool := Ascii.eqb c sep.

Definition nonempty (s : string) : bool :=
  match s with EmptyString => false | String _ _ => true end.

(** [sep in s] *)
Fixpoint has_sep (s : string) : bool :=
  match s with
  | EmptyString => false
  | String c rest => is_sep c || has_sep rest
  end.

(** [s == sep * len(s)] *)
Fixpoint all_sep (s : string) : bool :=
  match s with
  | EmptyString => true
  | String c rest => is_sep c && all_sep rest
  end.

(** [p[:p.rfind(sep) + 1]]: the prefix of [p] up to and including its
    last separator, empty when [p] has none. *)
Fixpoint head_of (p : string) : string :=
  match p with
  | EmptyString => EmptyString
  | String c rest =>
      if has_sep p then String c (head_of rest) else EmptyString
  end.

(** [s.rstrip(sep)] *)
Fixpoint rstrip_sep (s : string) : string :=
  match s with
  | EmptyString => EmptyString
  | String c rest =>
      match rstrip_sep rest with
      | EmptyString => if is_sep c then EmptyString else String c EmptyString
      | r => String c r
      end
  end.

(** [os.path.dirname] of posixpath:
<<
    i = p.rfind(sep) + 1
    head = p[:i]
    if head and head != sep*len(head):
        head = head.rstrip(sep)
    return head
>> *)
Definition dirname (p : string) : string :=
  let head := head_of p in
  if nonempty head && negb (all_sep head) then rstrip_sep head else head.

(** [s.endswith(sep)] *)
Fixpoint endswith_sep (s : string) : bool :=
  match s with
  | EmptyString => false
  | String c EmptyString => is_sep c
  | String _ rest => endswith_sep rest
  end.

(** [os.path.join(a, b)] of posixpath for one component [b]. *)
Definition join (a b : string) : string :=
  match b with
  | String c _ =>
      if is_sep c then b
      else if negb (nonempty a) || endswith_sep a then a ++ b
      else a ++ String sep b
  | EmptyString =>
      if negb (nonempty a) || endswith_sep a then a else a ++ String sep ""
  end.

Definition get_cur_abs_dir (path : string) : string := dirname path.

(** A path is relative when it does not begin with a separator. *)
Definition relative (p : string) : bool :=
  match p with
  | EmptyString => true
  | String c _ => negb (is_sep c)
  end.


Section GetRepoPath.
(** [os.path.exists], the file system the function looks at. *)
Variable exists_ : string -> bool.

(** The [while] loop of [get_repo_path].  [fuel] bounds the number of
    times the loop condition is evaluated; [None] means that the loop
    is still running when the fuel is used up. *)
Fixpoint repo_loop (fuel : nat) (script_directory : string) : option string :=
  match fuel with
  | O => None
  | S fuel' =>
      if nonempty script_directory
         && negb (exists_ (join script_directory ".git"))
      then repo_loop fuel' (dirname script_directory)
      else Some script_directory
  end.

Definition get_repo_path (fuel : nat) (path : string) : option string :=
  repo_loop fuel (dirname path).

End GetRepoPath.

End Io.

(* ===================================================================== *)
(** ** pkg/train/trainer/base_trainer.py                                  *)
(* ===================================================================== *)

Module BaseTrainer.

(** The two loss modules [create_loss] knows. *)
Inductive loss_module : Type :=
| MSELoss
| EuclideanDistanceMSE.

(** The part of the trainer object [create_loss] reads and writes:
    [self.task_trainer["loss_param"]] and [self.loss]. *)
Record trainer : Type := {
  loss_param : gmap string string;
  loss : option loss_module;
}.

Definition set_loss (l : loss_module) (self : trainer) : trainer :=
  {| loss_param := loss_param self; loss := Some l |}.

(** [create_loss]: the object after the call and how the call ends.
<<
    if loss_param["name"] == "mse":
        self.loss = nn.MSELoss()
    if loss_param["name"] == "euclidean_distance_mse":
        self.loss = EuclideanDistanceMSE()
    else:
        raise ValueError(...)
>> *)
Definition create_loss (self : trainer) : trainer * result unit :=
  match getitem (loss_param self) "name" with
  | Raise e => (self, Raise e)
  | Ok name =>
      let self1 :=
        if String.eqb name "mse" then set_loss MSELoss self else self in
      if String.eqb name "euclidean_distance_mse"
      then (set_loss EuclideanDistanceMSE self1, Ok tt)
      else (self1, Raise (ValueError
              ("loss name do not set properly, please check: " ++ name)))
  end.

(** *** [TrainerConfig._create_logs_path] *)

(** The entries of [self.task_base] and the attributes the method
    uses.  [log_dir] and [overwrite_exp_folder] are [None] when the
    configuration does not have them. *)
Record logs_config : Type := {
  task_name : string;
  exp_name : string;
  repo_path : string;
  log_dir : option string;
  overwrite_exp_folder : option bool;
  logs_base_path : option string;
}.

Definition set_logs_base_path (p : string) (self : logs_config) : logs_config :=
  {| task_name := task_name self;
     exp_name := exp_name self;
     repo_path := repo_path self;
     log_dir := log_dir self;
     overwrite_exp_folder := overwrite_exp_folder self;
     logs_base_path := Some p |}.

(** [f"{self.task_base['repo_path']}/log"] or [f"{log_dir}/log"] *)
Definition log_path_of (self : logs_config) : string :=
  let log_path := default "" (log_dir self) in
  if String.eqb log_path "" then repo_path self ++ "/log" else log_path ++ "/log".

(** [f"{log_path}/{self.task_name}/{self.exp_name}"] *)
Definition exp_logs_path_of (self : logs_config) : string :=
  (log_path_of self ++ "/" ++ task_name self) ++ "/" ++ exp_name self.

Definition overwrite_error (exp_logs_path : string) : exn :=
  ValueError ("the current " ++ exp_logs_path
              ++ " directory can't be overwrite, please choice a new exp folder name").

Section CreateLogsPath.
(** The file system is left open: [exists_] is [os.path.exists],
    [makedirs] is [os.makedirs], and [MODEL_TRAIN] is the constant of
    [common/constant.py]. *)
Context {fs : Type}.
Variable exists_ : fs -> string -> bool.
Variable makedirs : string -> fs -> fs.
Variable MODEL_TRAIN : string.

(** [if not os.path.exists(p): os.makedirs(p)] *)
Definition ensure_dir (p : string) (f : fs) : fs :=
  if exists_ f p then f else makedirs p f.

(** [_create_logs_path]: the object and the file system after the call,
    and how the call ends. *)
Definition _create_logs_path (task_type : string) (self : logs_config) (f : fs)
    : (logs_config * fs) * result unit :=
  if negb (String.eqb task_type MODEL_TRAIN) then ((self, f), Ok tt)
  else
    let log_path := log_path_of self in
    let f1 := ensure_dir log_path f in
    let task_logs_path := log_path ++ "/" ++ task_name self in
    let f2 := ensure_dir task_logs_path f1 in
    let exp_logs_path := task_logs_path ++ "/" ++ exp_name self in
    if negb (exists_ f2 exp_logs_path)
    then ((set_logs_base_path exp_logs_path self, makedirs exp_logs_path f2), Ok tt)
    else if negb (default true (overwrite_exp_folder self))
    then ((self, f2), Raise (overwrite_error exp_logs_path))
    else ((set_logs_base_path exp_logs_path self, f2), Ok tt).

End CreateLogsPath.

(** *** [create_optimize] *)

Section CreateOptimize.
(** The model and the optimizer are objects of the framework;
    [Adam m lr] is [torch.optim.Adam(m.parameters(), lr=lr)], and
    [str_of v] is the text an f-string prints for [v]. *)
Context {model optimizer : Type}.
Variable Adam : model -> value -> result optimizer.
Variable str_of : value -> string.

(** [create_optimize] on [self.task_trainer["optimizer_param"]],
    [self.model] and [self.optimizer]: the optimizer after the call and
    how the call ends.
<<
    if optimizer_param["name"] == "adam":
        self.optimizer = torch.optim.Adam(self.model.parameters(),
                                          lr=optimizer_param["learning_rate"])
    else:
        raise ValueError(f"... please check: {optimizer_param['optimizer']}")
>> *)
Definition create_optimize (optimizer_param : gmap string value)
    (self_model : option model) (self_optimizer : option optimizer)
    : option optimizer * result unit :=
  match getitem optimizer_param "name" with
  | Raise e => (self_optimizer, Raise e)
  | Ok name =>
      if eq_str name "adam" then
        match self_model with
        | None =>
            (self_optimizer,
             Raise (AttributeError "'NoneType' object has no attribute 'parameters'"))
        | Some m =>
            match (lr <- getitem optimizer_param "learning_rate" ;; Adam m lr) with
            | Ok o => (Some o, Ok tt)
            | Raise e => (self_optimizer, Raise e)
            end
        end
      else
        (self_optimizer,
         v <- getitem optimizer_param "optimizer" ;;
         Raise (ValueError
                  ("optimizer name do not set properly, please check: " ++ str_of v)))
  end.

End CreateOptimize.

(** *** [create_metrics] *)

(** The two functions of [torchmetrics.functional] the trainer knows. *)
Inductive metric_fn : Type :=
| MeanAbsoluteError
| ExplainedVariance.

(** The function registered for a name, if the name is known. *)
Definition metric_of (p : string) : option metric_fn :=
  if String.eqb p "mean_absolute_error" then Some MeanAbsoluteError
  else if String.eqb p "explained_variance" then Some ExplainedVariance
  else None.

(** The loop of [create_metrics] over the names still to come, on
    [self.metrics] as filled so far:
<<
    for p in metrics_param:
        if p == "mean_absolute_error":
            self.metrics["mean_absolute_error"] = ...mean_absolute_error
        elif p == "explained_variance":
            self.metrics["explained_variance"] = ...explained_variance
        else:
            raise ValueError(f"metrics name do not set properly, please check: {p}")
>> *)
Fixpoint register_metrics (names : list string) (metrics : gmap string metric_fn)
    : gmap string metric_fn * result unit :=
  match names with
  | [] => (metrics, Ok tt)
  | p :: rest =>
      if String.eqb p "mean_absolute_error"
      then register_metrics rest (<["mean_absolute_error" := MeanAbsoluteError]> metrics)
      else if String.eqb p "explained_variance"
      then register_metrics rest (<["explained_variance" := ExplainedVariance]> metrics)
      else (metrics,
            Raise (ValueError
                     ("metrics name do not set properly, please check: " ++ p)))
  end.

(** [create_metrics]; [metrics_param] is
    [self.task_trainer.get("metrics_param", {})] as the names it
    iterates over, [None] when the key is absent. *)
Definition create_metrics (metrics_param : option (list string))
    (metrics : gmap string metric_fn) : gmap string metric_fn * result unit :=
  register_metrics (default [] metrics_param) metrics.

(** *** [compute_loss] and [compute_metrics] *)

Section ComputeLoss.
(** Tensors and what the loss returns are left open. *)
Context {T L : Type}.

(** The loop shared by [compute_loss] and [compute_metrics]:
<<
    for label_name in self.labels:
        prediction = predictions[label_name]
        label = labels[label_name]
        losses[label_name] = self.loss(prediction, label)
>>
    with [fn] for [self.loss] (or [metrics_func]), [None] when it is
    not set. *)
Fixpoint compute_for_labels (fn : option (T -> T -> result L))
    (predictions labels : gmap string T) (names : list string)
    (losses : gmap string L) : result (gmap string L) :=
  match names with
  | [] => Ok losses
  | label_name :: rest =>
      prediction <- getitem predictions label_name ;;
      label <- getitem labels label_name ;;
      v <- match fn with
           | Some f => f prediction label
           | None => Raise (TypeError "'NoneType' object is not callable")
           end ;;
      compute_for_labels fn predictions labels rest (<[label_name := v]> losses)
  end.

(** [compute_loss] with [self.labels] and [self.loss]; [compute_metrics]
    is the same function with [metrics_func] for [self.loss]. *)
Definition compute_loss (self_labels : option (list string))
    (self_loss : option (T -> T -> result L))
    (predictions labels : gmap string T) : result (gmap string L) :=
  match self_labels with
  | None => Raise (TypeError "'NoneType' object is not iterable")
  | Some names => compute_for_labels self_loss predictions labels names ∅
  end.

(** The loss function is set, both dictionaries have the label name, and
    the loss of the two entries is [v]. *)
Definition label_loss (fn : option (T -> T -> result L))
    (predictions labels : gmap string T) (name : string) (v : L) : Prop :=
  exists f prediction label,
    fn = Some f
    /\ predictions !! name = Some prediction
    /\ labels !! name = Some label
    /\ f prediction label = Ok v.

End ComputeLoss.

(** *** [train_step] *)

(** [sub in s] on strings. *)
Fixpoint contains (sub s : string) : bool :=
  String.prefix sub s
  || match s with
     | EmptyString => false
     | String _ rest => contains sub rest
     end.

(** What [self.compute_loss] hands back: a tensor, a dictionary of
    tensors, or something else.  Tensors appear through [.item()]. *)
Inductive loss_value : Type :=
| LossTensor (item : Q)
| LossDict (items : gmap string Q)
| LossOther.

(** The deep-learning framework as [train_step] uses it.  The state
    [model_state] stands for model, optimizer and scheduler together.
    - [forward_loss] is [post_transform_data], [model(train_inputs)] and
      [self.compute_loss];
    - [has_grad_problem] is the [check_grad] scan after [zero_grad] and
      [backward];
    - [optimizer_step] is [optimizer.step(); scheduler.step()];
    - [time_at k] is the value of the k-th call of [time.time()].
    [self.callback.on_train_batch_end] is handed the metrics dictionary;
    the callbacks only read it, so the call is recorded with the
    dictionary's content at that moment. *)
Class Framework : Type := {
  model_state : Type;
  batch_data : Type;
  set_train_mode : model_state -> model_state;
  forward_loss : model_state -> batch_data -> result loss_value;
  has_grad_problem : model_state -> batch_data -> bool;
  optimizer_step : model_state -> batch_data -> model_state;
  get_last_lr : model_state -> Q;
  time_at : nat -> Q;
}.

Section TrainStep.
Context `{Framework}.

Record run_state : Type := {
  net : model_state;
  clock : nat;
  batch_end_calls : list (nat * gmap string Q);
}.

Definition tick (k : nat) (st : run_state) : run_state :=
  {| net := net st; clock := (k + clock st)%nat;
     batch_end_calls := batch_end_calls st |}.

(** [metrics[key] = metrics[key] + v if key in metrics else v] *)
Definition accumulate (key : string) (v : Q)
    (metrics : gmap string Q) : gmap string Q :=
  <[key := match metrics !! key with
           | Some old => (old + v)%Q
           | None => v
           end]> metrics.

(** The [isinstance] cascade on the loss: the updated metrics, or the
    exception of [total_loss.backward()] when [total_loss] is not a
    tensor. *)
Definition record_loss (loss : loss_value)
    (metrics : gmap string Q) : result (gmap string Q) :=
  match loss with
  | LossTensor item => Ok (accumulate "train_loss" item metrics)
  | LossDict items =>
      if decide (items = ∅)
      then Raise (AttributeError "'int' object has no attribute 'backward'")
      else Ok (fold_left
                 (fun m entry =>
                    accumulate (fst entry ++ "_train_loss") (snd entry) m)
                 (map_to_list items) metrics)
  | LossOther =>
      Raise (AttributeError "'NoneType' object has no attribute 'backward'")
  end.

(** The [metrics.update] call at the end of a step: the four timings
    and the learning rate. *)
Definition update_times (t0 t1 t2 t3 lr : Q)
    (metrics : gmap string Q) : gmap string Q :=
  <["lr" := lr]>
    (<["time_per_step" := (t3 - t0)%Q]>
       (<["time_2_bw" := (t3 - t2)%Q]>
          (<["time_2_fw" := (t2 - t1)%Q]>
             (<["time_2_device" := (t1 - t0)%Q]> metrics)))).

(** The body of the [for] loop for one batch, after the [break] test. *)
Definition train_batch (data : batch_data) (batch : nat)
    (metrics : gmap string Q) (st : run_state)
    : run_state * result (gmap string Q) :=
  let step_time_start := time_at (clock st) in
  let time_2_device := time_at (1 + clock st) in
  match forward_loss (net st) data with
  | Raise e => (tick 2 st, Raise e)
  | Ok loss =>
      let time_2_fw := time_at (2 + clock st) in
      match record_loss loss metrics with
      | Raise e => (tick 3 st, Raise e)
      | Ok metrics1 =>
          if has_grad_problem (net st) data
          then (tick 3 st, Raise (Exception "value error, has grad problem"))
          else
            let net' := optimizer_step (net st) data in
            let time_2_bw := time_at (3 + clock st) in
            let metrics2 :=
              update_times step_time_start time_2_device time_2_fw
                time_2_bw (get_last_lr net') metrics1 in
            ({| net := net'; clock := (4 + clock st)%nat;
                batch_end_calls := batch_end_calls st ++ [(batch, metrics2)] |},
             Ok metrics2)
      end
  end.

(** [batch == per_epoch_steps] *)
Definition reached (per_epoch_steps : option Z) (batch : nat) : bool :=
  match per_epoch_steps with
  | Some k => Z.of_nat batch =? k
  | None => false
  end.

(** [for _, data in enumerate(data_loader): ...]; returns [batch] and
    [metrics] as they are when the loop is left. *)
Fixpoint train_loop (per_epoch_steps : option Z)
    (data_loader : list batch_data) (batch : nat)
    (metrics : gmap string Q) (st : run_state)
    : run_state * result (nat * gmap string Q) :=
  match data_loader with
  | [] => (st, Ok (batch, metrics))
  | data :: rest =>
      if reached per_epoch_steps batch then (st, Ok (batch, metrics))
      else
        match train_batch data batch metrics st with
        | (st', Raise e) => (st', Raise e)
        | (st', Ok metrics') =>
            train_loop per_epoch_steps rest (S batch) metrics' st'
        end
  end.

Definition is_loss_or_error (p : string) : bool :=
  contains "loss" p || contains "error" p.

(** [metrics[p] / batch] with an integer [batch]. *)
Definition div_batch (v : Q) (batch : nat) : result Q :=
  match batch with
  | O => Raise ZeroDivisionError
  | S _ => Ok (v / inject_Z (Z.of_nat batch))%Q
  end.

(** The closing loop
<<
    for p in metrics:
        if "loss" in p or "error" in p:
            metrics[p] = metrics[p] / batch
>> *)
Definition average_metrics (batch : nat)
    (metrics : gmap string Q) : result (gmap string Q) :=
  fold_left
    (fun acc p =>
       m <- acc ;;
       if is_loss_or_error p
       then v <- getitem m p ;;
            q <- div_batch v batch ;;
            Ok (<[p := q]> m)
       else Ok m)
    (map fst (map_to_list metrics)) (Ok metrics).

Definition train_step (per_epoch_steps : option Z)
    (data_loader : list batch_data) (st : run_state)
    : run_state * result (gmap string Q) :=
  let st0 := {| net := set_train_mode (net st); clock := clock st;
                batch_end_calls := batch_end_calls st |} in
  match train_loop per_epoch_steps data_loader 0 ∅ st0 with
  | (st', Raise e) => (st', Raise e)
  | (st', Ok (batch, metrics)) => (st', average_metrics batch metrics)
  end.

(** The test [train] makes before it builds the loaders:
<<
    if not task_trainer.get("per_epoch_steps", None)
       and task_trainer.get("infinite", False):
        raise ValueError(...)
>> *)
Definition train_guard (per_epoch_steps : option Z) (infinite : bool) : result unit :=
  let set :=
    match per_epoch_steps with
    | Some k => negb (k =? 0)
    | None => false
    end in
  if negb set && infinite
  then Raise (ValueError "when infinite = True, please setup the per_epoch_steps")
  else Ok tt.

(** The batches a run of the loop completes, each with the loss it
    computed: the loop's control flow without the bookkeeping.  [n] is
    the state of the model when the loop reaches [data_loader]. *)
Fixpoint processed (per_epoch_steps : option Z)
    (data_loader : list batch_data) (batch : nat) (n : model_state)
    : list loss_value :=
  match data_loader with
  | [] => []
  | data :: rest =>
      if reached per_epoch_steps batch then []
      else
        match forward_loss n data with
        | Ok loss =>
            if is_ok (record_loss loss ∅) && negb (has_grad_problem n data)
            then loss :: processed per_epoch_steps rest (S batch)
                           (optimizer_step n data)
            else []
        | Raise _ => []
        end
  end.

(** What one batch's loss adds under a metrics key. *)
Definition contribution (key : string) (loss : loss_value) : Q :=
  match loss with
  | LossTensor item => if String.eqb key "train_loss" then item else 0%Q
  | LossDict items =>
      fold_left
        (fun acc entry =>
           if String.eqb key (fst entry ++ "_train_loss")
           then (acc + snd entry)%Q else acc)
        (map_to_list items) 0%Q
  | LossOther => 0%Q
  end.

(** The sum accumulated under [key] over a run of batches. *)
Definition loss_sum (key : string) (losses : list loss_value) : Q :=
  fold_right Qplus 0%Q (map (contribution key) losses).

(** The number of [on_train_batch_end] calls between two states: the
    number of batches that ran to their end. *)
Definition batches_done (st st' : run_state) : nat :=
  (length (batch_end_calls st') - length (batch_end_calls st))%nat.

(** The number stored under a key, [0] when the key is absent. *)
Definition mval (m : gmap string Q) (key : string) : Q :=
  default 0%Q (m !! key).

(** The value the closing loop leaves under a key that held [v]. *)
Definition averaged (batch : nat) (p : string) (v : Q) : Q :=
  if is_loss_or_error p then (v / inject_Z (Z.of_nat batch))%Q else v.

(** The metrics a batch that starts at clock [c] leaves: its four clock
    readings and the learning rate [lr] on top of [m1]. *)
Definition stamped (c : nat) (lr : Q) (m1 : gmap string Q) : gmap string Q :=
  update_times (time_at c) (time_at (1 + c)) (time_at (2 + c)) (time_at (3 + c)) lr m1.

End TrainStep.

(** *** [validation_step] *)

(** What [self.compute_metrics] hands back: an object with [.item()]
    (a tensor), an object with [.items()] (a dictionary of tensors), or
    an object with neither, given by the name of its type. *)
Inductive metric_value : Type :=
| MetricTensor (item : Q)
| MetricDict (items : gmap string Q)
| MetricOther (type_name : string).

(** What [validation_step] calls besides the framework:
    - [validation_step_check], which subclasses override;
    - [val_forward] is [post_transform_val_data] and [model(val_inputs)];
    - [compute_validation_loss] on the outputs and the labels of the
      batch;
    - [metric_names] are the keys of [self.metrics] in their order, and
      [compute_metrics p] is [self.compute_metrics(self.metrics[p], ...)]. *)
Class Validation `{Framework} : Type := {
  outputs : Type;
  set_eval_mode : model_state -> model_state;
  validation_step_check : Z -> bool -> bool;
  val_forward : model_state -> batch_data -> result outputs;
  compute_validation_loss : outputs -> batch_data -> result loss_value;
  metric_names : list string;
  compute_metrics : string -> outputs -> batch_data -> result metric_value;
}.

Definition no_attribute (type_name attr : string) : exn :=
  AttributeError ("'" ++ type_name ++ "' object has no attribute '" ++ attr ++ "'").

Section ValidationStep.
Context `{Validation}.

(** The metrics loop of the tensor branch:
<<
    for p in self.metrics:
        results = self.compute_metrics(self.metrics[p], outputs, val_labels)
        metrics[f"val_{p}"] = (metrics[f"val_{p}"] + results.item()
                               if f"val_{p}" in metrics else results.item())
>> *)
Definition val_metrics_tensor (outs : outputs) (data : batch_data)
    (metrics : gmap string Q) : result (gmap string Q) :=
  fold_left
    (fun acc p =>
       m <- acc ;;
       results <- compute_metrics p outs data ;;
       match results with
       | MetricTensor item => Ok (accumulate ("val_" ++ p) item m)
       | MetricDict _ => Raise (no_attribute "dict" "item")
       | MetricOther t => Raise (no_attribute t "item")
       end)
    metric_names (Ok metrics).

(** The metrics loop of the dictionary branch:
<<
    for p in self.metrics:
        results = self.compute_metrics(self.metrics[p], outputs, val_labels)
        for name, r in results.items():
            metrics[f"val_{name}_{p}"] = (metrics[f"val_{name}_{p}"] + r.item()
                                          if f"val_{name}_{p}" in metrics else r.item())
>> *)
Definition val_metrics_dict (outs : outputs) (data : batch_data)
    (metrics : gmap string Q) : result (gmap string Q) :=
  fold_left
    (fun acc p =>
       m <- acc ;;
       results <- compute_metrics p outs data ;;
       match results with
       | MetricDict rs =>
           Ok (fold_left
                 (fun m entry =>
                    accumulate ("val_" ++ fst entry ++ "_" ++ p) (snd entry) m)
                 (map_to_list rs) m)
       | MetricTensor _ => Raise (no_attribute "Tensor" "items")
       | MetricOther t => Raise (no_attribute t "items")
       end)
    metric_names (Ok metrics).

(** The body of the validation loop for one batch, after
    [total_batch += 1]. *)
Definition val_batch (n : model_state) (data : batch_data)
    (metrics : gmap string Q) : result (gmap string Q) :=
  outs <- val_forward n data ;;
  loss <- compute_validation_loss outs data ;;
  match loss with
  | LossTensor item =>
      val_metrics_tensor outs data (accumulate "val_loss" item metrics)
  | LossDict items =>
      val_metrics_dict outs data
        (fold_left
           (fun m entry => accumulate (fst entry ++ "_val_loss") (snd entry) m)
           (map_to_list items) metrics)
  | LossOther => Ok metrics
  end.

(** [for _, val_data in enumerate(data_loader): ...]; returns
    [total_batch] and [metrics] as they are after the loop. *)
Fixpoint val_loop (n : model_state) (data_loader : list batch_data)
    (total_batch : nat) (metrics : gmap string Q)
    : result (nat * gmap string Q) :=
  match data_loader with
  | [] => Ok (total_batch, metrics)
  | data :: rest =>
      m <- val_batch n data metrics ;;
      val_loop n rest (S total_batch) m
  end.

(** The closing loop
<<
    for p in metrics:
        metrics[p] = metrics[p] / total_batch
>> *)
Definition average_all (total_batch : nat)
    (metrics : gmap string Q) : result (gmap string Q) :=
  fold_left
    (fun acc p =>
       m <- acc ;;
       v <- getitem m p ;;
       q <- div_batch v total_batch ;;
       Ok (<[p := q]> m))
    (map fst (map_to_list metrics)) (Ok metrics).

(** [validation_step]: the state of the model after the call and what
    the call returns or raises. *)
Definition validation_step (n : model_state) (data_loader : list batch_data)
    (epoch : Z) (is_last_epoch : bool) : model_state * result (gmap string Q) :=
  if negb (validation_step_check epoch is_last_epoch) then (n, Ok ∅)
  else
    let n' := set_eval_mode n in
    (n', r <- val_loop n' data_loader 0 ∅ ;; average_all (fst r) (snd r)).

(** What one batch records under a key: the entry it leaves there when
    it starts from the empty dictionary, [0] when it leaves none. *)
Definition val_contribution (n : model_state) (key : string)
    (data : batch_data) : Q :=
  match val_batch n data ∅ with
  | Ok m => mval m key
  | Raise _ => 0%Q
  end.

(** The sum recorded under [key] over the batches of a loader. *)
Definition val_sum (n : model_state) (key : string)
    (data_loader : list batch_data) : Q :=
  fold_right Qplus 0%Q (map (val_contribution n key) data_loader).

(** Two runs of the same additions on two dictionaries change every
    entry by the same amount. *)
Definition same_change (m m1 m' m1' : gmap string Q) : Prop :=
  forall key, (mval m1 key + mval m' key == mval m1' key + mval m key)%Q.

End ValidationStep.

End BaseTrainer.

(* ===================================================================== *)
(** ** common/constant.py                                                 *)
(* ===================================================================== *)

(** The constants module is not part of the sources at hand; the names it
    exports are taken as parameters. *)
Class CommonConstant : Type := {
  DARWIN : string;
  TRAIN_NAME : string;
  VALIDATION_NAME : string;
  MAX_VAL : string;
  MIN_VAL : string;
  MEAN_VAL : string;
  STD_VAL : string;
}.

(* ===================================================================== *)
(** ** pkg/train/module/data_transform.py                                 *)
(* ===================================================================== *)

Module DataTransform.

(** Tensors of up to two dimensions: a 0-d scalar, a vector, or a list
    of rows.  (A 2-d tensor without rows does not carry its number of
    columns.) *)
Inductive tensor : Type :=
| T0 (x : Q)
| T1 (v : list Q)
| T2 (rows : list (list Q)).

Definition size_error : exn :=
  RuntimeError "The size of tensor a must match the size of tensor b".

Fixpoint map_result {A B} (f : A -> result B) (l : list A) : result (list B) :=
  match l with
  | [] => Ok []
  | a :: rest => b <- f a ;; bs <- map_result f rest ;; Ok (b :: bs)
  end.

(** Broadcasting along one dimension: equal sizes, or one side of
    size 1. *)
Definition bcast {A B C} (op : A -> B -> result C)
    (a : list A) (b : list B) : result (list C) :=
  if (length a =? length b)%nat then
    map_result (fun p => op (fst p) (snd p)) (zip a b)
  else
    match a, b with
    | _, [y] => map_result (fun x => op x y) a
    | [x], _ => map_result (fun y => op x y) b
    | _, _ => Raise size_error
    end.

Definition bcast1 (op : Q -> Q -> Q) : list Q -> list Q -> result (list Q) :=
  bcast (fun x y => Ok (op x y)).

(** An elementwise binary operator with broadcasting. *)
Definition binop (op : Q -> Q -> Q) (a b : tensor) : result tensor :=
  match a, b with
  | T0 x, T0 y => Ok (T0 (op x y))
  | T0 x, T1 v => Ok (T1 (map (op x) v))
  | T1 v, T0 y => Ok (T1 (map (fun x => op x y) v))
  | T0 x, T2 rows => Ok (T2 (map (map (op x)) rows))
  | T2 rows, T0 y => Ok (T2 (map (map (fun x => op x y)) rows))
  | T1 v, T1 w => r <- bcast1 op v w ;; Ok (T1 r)
  | T2 rows, T1 w => r <- map_result (fun row => bcast1 op row w) rows ;; Ok (T2 r)
  | T1 v, T2 rows => r <- map_result (fun row => bcast1 op v row) rows ;; Ok (T2 r)
  | T2 rows, T2 rows' => r <- bcast (bcast1 op) rows rows' ;; Ok (T2 r)
  end.

(** [a - b] and [a / b] on tensors.  The numbers are the exact
    difference and quotient, which is what floating point gives, up to
    rounding, as long as its result is finite.  Where the code's result
    is not finite ([inf] after an overflow, [inf] or [nan] after a
    division by zero) a tensor here holds no such value: statements
    about the range of a quotient, or about equal results, ask for a
    non-zero divisor ([strictly_above], a non-zero deviation) and for
    differences that do not overflow ([range_fits]). *)
Definition sub : tensor -> tensor -> result tensor := binop Qminus.
Definition div : tensor -> tensor -> result tensor := binop Qdiv.

Definition reduce_error : exn :=
  IndexError "Expected reduction dim 0 to have non-zero size".

(** [torch.max(array, 0).values] and [torch.min(array, 0).values],
    for a reduction [red] that is [Qmax] or [Qmin]. *)
Definition reduce0 (red : Q -> Q -> Q) (array : tensor) : result tensor :=
  match array with
  | T0 x => Ok (T0 x)
  | T1 [] => Raise reduce_error
  | T1 (x :: v) => Ok (T0 (fold_left red v x))
  | T2 [] => Raise reduce_error
  | T2 (row :: rows) => Ok (T1 (fold_left (zip_with red) rows row))
  end.

(** [torch.max(t)] and [torch.min(t)] over all elements. *)
Definition reduce_all (red : Q -> Q -> Q) (t : tensor) : result tensor :=
  match t with
  | T0 x => Ok (T0 x)
  | T1 v =>
      match v with
      | [] => Raise (RuntimeError "cannot reduce an empty tensor")
      | x :: v' => Ok (T0 (fold_left red v' x))
      end
  | T2 rows =>
      match concat rows with
      | [] => Raise (RuntimeError "cannot reduce an empty tensor")
      | x :: v' => Ok (T0 (fold_left red v' x))
      end
  end.

Definition torch_max0 := reduce0 Qmax.
Definition torch_min0 := reduce0 Qmin.
Definition torch_max := reduce_all Qmax.
Definition torch_min := reduce_all Qmin.

Abbreviation dict := (gmap string tensor).
Abbreviation sample := (dict * dict)%type.

(** The attributes of a [Norm] object.  [feature_config] is what
    [load_stats_file] or [load_stats_value] produced: for every
    configured name the statistics stored under it. *)
Record Norm : Type := {
  feature_config : gmap string (gmap string tensor);
  global_scaling : bool;
  coarse_dim : bool;
}.

(** The loop shape shared by the four loops of the two [__call__]
    methods:
<<
    for name, fea in d.items():
        if name in self.feature_config:
            ...
            d[name] = transform(name, fea)
>>
    [items] are the entries still to visit, [d] the dictionary as
    updated so far.  When [transform] raises, the loop stops and leaves
    [d] as it is then. *)
Fixpoint for_items (self : Norm) (transform : string -> tensor -> result tensor)
    (items : list (string * tensor)) (d : dict) : dict * result unit :=
  match items with
  | [] => (d, Ok tt)
  | (name, fea) :: rest =>
      if decide (is_Some (feature_config self !! name)) then
        match transform name fea with
        | Ok fea' => for_items self transform rest (<[name := fea']> d)
        | Raise e => (d, Raise e)
        end
      else for_items self transform rest d
  end.

(** A [__call__]: the context loop, then the feature loop.  The
    dictionaries are updated in place and returned; the first component
    is their content when the call ends or raises. *)
Definition call (self : Norm) (transform : string -> tensor -> result tensor)
    (s : sample) : sample * result unit :=
  let '(context, feature) := s in
  match for_items self transform (map_to_list context) context with
  | (context', Raise e) => ((context', feature), Raise e)
  | (context', Ok _) =>
      let '(feature', r) :=
        for_items self transform (map_to_list feature) feature in
      ((context', feature'), r)
  end.

Section Transforms.
Context `{CommonConstant}.

(** *** MaxMinNorm *)

Definition _calculate_max_min (array : tensor) : result (tensor * tensor) :=
  mx <- torch_max0 array ;; mn <- torch_min0 array ;; Ok (mx, mn).

Definition _normal_max_min_transform (array max_norm_val min_norm_val : tensor)
    : result tensor :=
  num <- sub array min_norm_val ;;
  den <- sub max_norm_val min_norm_val ;;
  div num den.

(** The statistics a [MaxMinNorm] loop picks for one configured entry:
    [max_val] and [min_val] after the [global_scaling] and [coarse_dim]
    tests. *)
Definition max_min_stats (self : Norm) (name : string) (fea : tensor)
    : result (tensor * tensor) :=
  mm <- (if global_scaling self then
           stats <- getitem (feature_config self) name ;;
           mx <- getitem stats MAX_VAL ;;
           mn <- getitem stats MIN_VAL ;;
           Ok (mx, mn)
         else _calculate_max_min fea) ;;
  if coarse_dim self then
    mx <- torch_max (fst mm) ;;
    mn <- torch_min (snd mm) ;;
    Ok (mx, mn)
  else Ok mm.

(** The body of a [MaxMinNorm] loop for one configured entry. *)
Definition max_min_entry (self : Norm) (name : string) (fea : tensor)
    : result tensor :=
  mm <- max_min_stats self name fea ;;
  _normal_max_min_transform fea (fst mm) (snd mm).

Definition MaxMinNorm_call (self : Norm) (s : sample) : sample * result unit :=
  call self (max_min_entry self) s.

(** *** NormalNorm *)

Definition _normal_transform (array mean_val std_val : tensor) : result tensor :=
  num <- sub array mean_val ;; div num std_val.

Definition normal_entry (self : Norm) (name : string) (fea : tensor)
    : result tensor :=
  stats <- getitem (feature_config self) name ;;
  mean_val <- getitem stats MEAN_VAL ;;
  std_val <- getitem stats STD_VAL ;;
  _normal_transform fea mean_val std_val.

Definition NormalNorm_call (self : Norm) (s : sample) : sample * result unit :=
  call self (normal_entry self) s.

End Transforms.

(** The value [(x - min) / (max - min)] of one entry. *)
Definition scaled (x mn mx : Q) : Q := ((x - mn) / (mx - mn))%Q.

(** A row scaled entry by entry with per-column statistics. *)
Definition scale_row (row mins maxs : list Q) : list Q :=
  zip_with (fun x mm => scaled x (fst mm) (snd mm)) row (zip mins maxs).

(** A tensor scaled with the statistics of its columns (2-d) or with one
    minimum and maximum (vector, scalar). *)
Definition scaled_tensor (t mx mn : tensor) : tensor :=
  match t, mx, mn with
  | T2 rows, T1 maxs, T1 mins => T2 (map (fun row => scale_row row mins maxs) rows)
  | T1 v, T0 mx, T0 mn => T1 (map (fun x => scaled x mn mx) v)
  | T0 x, T0 mx, T0 mn => T0 (scaled x mn mx)
  | _, _, _ => t
  end.

(** The entry in row [i] and column [j] of a 2-d tensor. *)
Definition entry (t : tensor) (i j : nat) : option Q :=
  match t with
  | T2 rows => row ← rows !! i; row !! j
  | _ => None
  end.

(** All entries of a tensor satisfy [P]. *)
Definition all_entries (P : Q -> Prop) (t : tensor) : Prop :=
  match t with
  | T0 x => P x
  | T1 v => Forall P v
  | T2 rows => Forall (Forall P) rows
  end.

Definition in_unit (q : Q) : Prop := (0 <= q /\ q <= 1)%Q.

(** A 2-d tensor whose rows all have [c] entries. *)
Definition rectangular (c : nat) (rows : list (list Q)) : Prop :=
  Forall (fun row => length row = c) rows.

Definition well_shaped (t : tensor) : Prop :=
  match t with
  | T2 rows => exists c, rectangular c rows
  | _ => True
  end.

(** Column by column, [mins] is below and [maxs] above every row. *)
Definition column_bounds (rows : list (list Q)) (maxs mins : list Q) : Prop :=
  Forall (fun row => Forall2 Qle mins row /\ Forall2 Qle row maxs) rows.

(** Every entry of [vals] occurs in its column of [rows]. *)
Definition attained (rows : list (list Q)) (vals : list Q) : Prop :=
  forall j v, vals !! j = Some v -> exists row, row ∈ rows /\ row !! j = Some v.

(** [mx] and [mn] are the maximum and the minimum of [t] along
    dimension 0: per column for a 2-d tensor, over all entries for a
    vector. *)
Definition dim0_extrema (t mx mn : tensor) : Prop :=
  match t, mx, mn with
  | T2 rows, T1 maxs, T1 mins =>
      column_bounds rows maxs mins /\ attained rows maxs /\ attained rows mins
  | T1 v, T0 mx, T0 mn =>
      (mx ∈ v /\ Forall (fun x => (x <= mx)%Q) v)
      /\ (mn ∈ v /\ Forall (fun x => (mn <= x)%Q) v)
  | T0 x, T0 mx, T0 mn => mx = x /\ mn = x
  | _, _, _ => False
  end.

(** Every maximum is strictly above its minimum. *)
Definition strictly_above (mx mn : tensor) : Prop :=
  match mx, mn with
  | T1 maxs, T1 mins => Forall2 Qlt mins maxs
  | T0 mx, T0 mn => (mn < mx)%Q
  | _, _ => False
  end.

(** The largest finite number of [torch.float32], the type [ToTensor]
    gives to the entries described as [float]: [(2 - 2^-23) * 2^127]. *)
Definition float32_max : Q := inject_Z (2 ^ 128 - 2 ^ 104).

(** The largest number of [torch.int64], the type [ToTensor] gives to
    the entries described as [int].  A difference up to it overflows in
    neither of the two types: it is below [float32_max]. *)
Definition int64_max : Q := inject_Z (2 ^ 63 - 1).

(** No difference [max - min] overflows: each is at most [int64_max].
    (Every difference [x - min] the transform forms lies between [0]
    and [max - min].) *)
Definition range_fits (mx mn : tensor) : Prop :=
  match mx, mn with
  | T1 maxs, T1 mins => Forall2 (fun lo hi => (hi - lo <= int64_max)%Q) mins maxs
  | T0 mx, T0 mn => (mx - mn <= int64_max)%Q
  | _, _ => False
  end.

(** The dictionary of a sample a side names: the context ([true]) or the
    features ([false]). *)
Definition side_of (side : bool) (s : sample) : dict :=
  if side then fst s else snd s.

(** The value [(x - mean) / std] of one entry. *)
Definition standard (x mu sd : Q) : Q := ((x - mu) / sd)%Q.

(** A tensor standardised with the statistics of its columns (2-d) or
    with one mean and deviation (vector, scalar). *)
Definition standard_tensor (t mean std : tensor) : tensor :=
  match t, mean, std with
  | T2 rows, T1 means, T1 stds =>
      T2 (map (fun row =>
                 zip_with (fun x ms => standard x (fst ms) (snd ms)) row (zip means stds))
              rows)
  | T1 v, T0 mu, T0 sd => T1 (map (fun x => standard x mu sd) v)
  | T0 x, T0 mu, T0 sd => T0 (standard x mu sd)
  | _, _, _ => t
  end.

(** Two tensors of the same shape with equal numbers at every place. *)
Definition tensor_equiv (a b : tensor) : Prop :=
  match a, b with
  | T0 x, T0 y => (x == y)%Q
  | T1 v, T1 w => Forall2 Qeq v w
  | T2 rows, T2 rows' => Forall2 (Forall2 Qeq) rows rows'
  | _, _ => False
  end.

(** *** The loop of the transforms that act on configured entries *)

Section Configured.
(** [C] is what the configuration holds for a name, [T] the tensors. *)
Context {C T : Type}.

(** The loop shape of [ClampTensor], [SqueezeDataDim] and
    [UnSqueezeDataDim], as [for_items] above:
<<
    for name, fea in d.items():
        if name in config:
            d[name] = transform(name, fea)
>> *)
Fixpoint for_configured (config : gmap string C)
    (transform : string -> T -> result T)
    (items : list (string * T)) (d : gmap string T) : gmap string T * result unit :=
  match items with
  | [] => (d, Ok tt)
  | (name, fea) :: rest =>
      if decide (is_Some (config !! name)) then
        match transform name fea with
        | Ok fea' => for_configured config transform rest (<[name := fea']> d)
        | Raise e => (d, Raise e)
        end
      else for_configured config transform rest d
  end.

(** The context loop, then the feature loop. *)
Definition call_configured (config : gmap string C)
    (transform : string -> T -> result T)
    (s : gmap string T * gmap string T)
    : (gmap string T * gmap string T) * result unit :=
  let '(context, feature) := s in
  match for_configured config transform (map_to_list context) context with
  | (context', Raise e) => ((context', feature), Raise e)
  | (context', Ok _) =>
      let '(feature', r) :=
        for_configured config transform (map_to_list feature) feature in
      ((context', feature'), r)
  end.

End Configured.

(** *** ClampTensor *)

Definition map_tensor (f : Q -> Q) (t : tensor) : tensor :=
  match t with
  | T0 x => T0 (f x)
  | T1 v => T1 (map f v)
  | T2 rows => T2 (map (map f) rows)
  end.

(** [t.clamp(min_val, max_val)]: every entry [x] becomes
    [min(max(x, min_val), max_val)]. *)
Definition clamp (min_val max_val : Q) (t : tensor) : tensor :=
  map_tensor (fun x => Qmin (Qmax x min_val) max_val) t.

Section Clamp.
Context `{CommonConstant}.

(** The body of a [ClampTensor] loop for one configured entry. *)
Definition clamp_entry (clamp_config : gmap string (gmap string Q))
    (name : string) (fea : tensor) : result tensor :=
  limits <- getitem clamp_config name ;;
  max_val <- getitem limits MAX_VAL ;;
  min_val <- getitem limits MIN_VAL ;;
  Ok (clamp min_val max_val fea).

Definition ClampTensor_call (clamp_config : gmap string (gmap string Q))
    (s : sample) : sample * result unit :=
  call_configured clamp_config (clamp_entry clamp_config) s.

End Clamp.

(** *** SqueezeDataDim and UnSqueezeDataDim *)

(** For these two only the shape of a tensor matters: a tensor is its
    shape and its numbers in row-major order. *)
Record shaped : Type := {
  shape : list nat;
  data : list Q;
}.

(** A dimension argument brought into the range of a tensor with
    [dim_post_expr] dimensions; negative arguments count from the end,
    and a scalar is treated as having one dimension. *)
Definition wrap_dim (dim : Z) (dim_post_expr : nat) : result nat :=
  let n := Z.of_nat (Nat.max dim_post_expr 1) in
  if (dim <? - n) || (n - 1 <? dim)
  then Raise (IndexError "Dimension out of range")
  else Ok (Z.to_nat (if dim <? 0 then dim + n else dim)).

(** [t.squeeze(dim=dim)]: the dimension is removed if its size is 1. *)
Definition squeeze (dim : Z) (t : shaped) : result shaped :=
  k <- wrap_dim dim (length (shape t)) ;;
  Ok (match shape t !! k with
      | Some 1%nat => {| shape := delete k (shape t); data := data t |}
      | _ => t
      end).

(** [t.unsqueeze(dim=dim)]: a dimension of size 1 is inserted. *)
Definition unsqueeze (dim : Z) (t : shaped) : result shaped :=
  k <- wrap_dim dim (S (length (shape t))) ;;
  Ok {| shape := take k (shape t) ++ 1%nat :: drop k (shape t); data := data t |}.

Definition squeeze_entry (feature_config : gmap string Z)
    (name : string) (fea : shaped) : result shaped :=
  dim <- getitem feature_config name ;; squeeze dim fea.

Definition unsqueeze_entry (feature_config : gmap string Z)
    (name : string) (fea : shaped) : result shaped :=
  dim <- getitem feature_config name ;; unsqueeze dim fea.

Definition SqueezeDataDim_call (feature_config : gmap string Z)
    (s : gmap string shaped * gmap string shaped) :=
  call_configured feature_config (squeeze_entry feature_config) s.

Definition UnSqueezeDataDim_call (feature_config : gmap string Z)
    (s : gmap string shaped * gmap string shaped) :=
  call_configured feature_config (unsqueeze_entry feature_config) s.

(** *** ToTensor *)

Inductive dtype : Type :=
| float32
| int64.

Definition convert_type : gmap string dtype :=
  {[ "float" := float32; "int" := int64 ]}.

Section ToTensor.
(** [A] is what a sample holds before the conversion, [T] the tensors;
    [tensor_of dt fea] is [torch.tensor(fea, dtype=dt)]. *)
Context {A T : Type}.
Variable tensor_of : dtype -> A -> result T.

(** One of the two loops of [ToTensor.__call__]:
<<
    for name, fea in context.items():
        if name not in self.context_list:
            raise ValueError(f"please check your feature list and add {name}")
        context_tensor[name] = torch.tensor(
            fea, dtype=self.convert_type[self.context_list[name]])
>> *)
Fixpoint to_tensor_loop (description : gmap string string)
    (items : list (string * A)) (out : gmap string T) : result (gmap string T) :=
  match items with
  | [] => Ok out
  | (name, fea) :: rest =>
      if decide (is_Some (description !! name)) then
        kind <- getitem description name ;;
        dt <- getitem convert_type kind ;;
        t <- tensor_of dt fea ;;
        to_tensor_loop description rest (<[name := t]> out)
      else Raise (ValueError ("please check your feature list and add " ++ name))
  end.

(** The entry [fea] under [name] is described, with a known type, and
    converts to [t]. *)
Definition converted (description : gmap string string)
    (name : string) (fea : A) (t : T) : Prop :=
  exists kind dt,
    description !! name = Some kind
    /\ convert_type !! kind = Some dt
    /\ tensor_of dt fea = Ok t.

Definition ToTensor_call (context_list feature_list : gmap string string)
    (s : gmap string A * gmap string A) : result (gmap string T * gmap string T) :=
  context_tensor <- to_tensor_loop context_list (map_to_list (fst s)) ∅ ;;
  feature_tensor <- to_tensor_loop feature_list (map_to_list (snd s)) ∅ ;;
  Ok (context_tensor, feature_tensor).

End ToTensor.

(** *** CovertToModelInputs *)

Section ModelInputs.
Context {T : Type}.

(** The labels a call builds: a dictionary when [multi_obj] is set,
    else the last label it met, [None] before it meets one. *)
Inductive labels_value : Type :=
| LabelsDict (d : gmap string T)
| LabelsOne (fea : T)
| LabelsNone.

(** [name in self.labels_name] *)
Definition is_label (labels_name : list string) (name : string) : bool :=
  bool_decide (name ∈ labels_name).

(** One of the two loops of [CovertToModelInputs.__call__], on the
    inputs and labels built so far:
<<
    for name, fea in context.items():
        if name not in self.labels_name:
            inputs[name] = fea
        else:
            if self.multi_obj:
                labels[name] = fea
            else:
                labels = fea
>> *)
Fixpoint split_items (labels_name : list string) (multi_obj : bool)
    (items : list (string * T)) (inputs : gmap string T) (labels : labels_value)
    : gmap string T * labels_value :=
  match items with
  | [] => (inputs, labels)
  | (name, fea) :: rest =>
      if is_label labels_name name then
        split_items labels_name multi_obj rest inputs
          (if multi_obj then
             (* [labels] is the dictionary it was created as *)
             match labels with
             | LabelsDict d => LabelsDict (<[name := fea]> d)
             | other => other
             end
           else LabelsOne fea)
      else split_items labels_name multi_obj rest (<[name := fea]> inputs) labels
  end.

Definition CovertToModelInputs_call (labels_name : list string) (multi_obj : bool)
    (s : gmap string T * gmap string T) : gmap string T * labels_value :=
  let '(inputs, labels) :=
    split_items labels_name multi_obj (map_to_list (fst s)) ∅
      (if multi_obj then LabelsDict ∅ else LabelsNone) in
  split_items labels_name multi_obj (map_to_list (snd s)) inputs labels.

(** The same call on two dictionaries given by their items in insertion
    order, the order in which [dict.items()] yields them.  (A [gmap]
    does not record it: [CovertToModelInputs_call] visits the items in
    the order of [map_to_list], which is enough wherever the order of
    the visits does not matter.) *)
Definition CovertToModelInputs_ordered (labels_name : list string) (multi_obj : bool)
    (context feature : list (string * T)) : gmap string T * labels_value :=
  let '(inputs, labels) :=
    split_items labels_name multi_obj context ∅
      (if multi_obj then LabelsDict ∅ else LabelsNone) in
  split_items labels_name multi_obj feature inputs labels.

End ModelInputs.

End DataTransform.

(* ===================================================================== *)
(** ** task/passive_biv/data/datasets_preparation_hdf5.py                 *)
(* ===================================================================== *)

Module Preparation.

(** *** NumPy arrays and the operations the class uses *)

(** What [np.loadtxt] returns: a 0-d, 1-d or 2-d array. *)
Inductive ndarray : Type :=
| A0 (x : Q)
| A1 (v : list Q)
| A2 (rows : list (list Q)).

Definition same_width (rows : list (list Q)) : bool :=
  forallb (fun row => (length row =? length (hd [] rows))%nat) rows.

(** The array [np.loadtxt] builds from the rows of a CSV file: rows of
    different lengths are refused, and axes of length one are squeezed
    away. *)
Definition squeeze (rows : list (list Q)) : result ndarray :=
  if negb (same_width rows)
  then Raise (ValueError "the number of columns changed")
  else
    match rows with
    | [] => Ok (A1 [])
    | [row] =>
        match row with
        | [x] => Ok (A0 x)
        | _ => Ok (A1 row)
        end
    | _ => if (length (hd [] rows) =? 1)%nat
           then Ok (A1 (map (hd 0%Q) rows))
           else Ok (A2 rows)
    end.

(** [l[a:b]] for constants [0 <= a <= b]. *)
Definition slice {A} (a b : nat) (l : list A) : list A :=
  firstn (b - a) (skipn a l).

(** [arr[:, a:b]] *)
Definition slice_cols (a b : nat) (arr : ndarray) : result ndarray :=
  match arr with
  | A2 rows => Ok (A2 (map (slice a b) rows))
  | _ => Raise (IndexError "too many indices for array")
  end.

(** [arr[:, a:]] *)
Definition slice_cols_from (a : nat) (arr : ndarray) : result ndarray :=
  match arr with
  | A2 rows => Ok (A2 (map (skipn a) rows))
  | _ => Raise (IndexError "too many indices for array")
  end.

(** [l[idx]] with Python's negative indices. *)
Definition py_index {A} (l : list A) (idx : Z) : result A :=
  let n := len l in
  let i := if idx <? 0 then idx + n else idx in
  if (0 <=? i) && (i <? n) then
    match l !! Z.to_nat i with
    | Some a => Ok a
    | None => Raise (IndexError "index out of bounds")
    end
  else Raise (IndexError "index out of bounds").

(** [arr[idx]] *)
Definition row_at (idx : Z) (arr : ndarray) : result ndarray :=
  match arr with
  | A2 rows => r <- py_index rows idx ;; Ok (A1 r)
  | A1 v => x <- py_index v idx ;; Ok (A0 x)
  | A0 _ => Raise (IndexError "invalid index to scalar variable")
  end.

(** [arr.shape[0]] *)
Definition shape0 (arr : ndarray) : result nat :=
  match arr with
  | A2 rows => Ok (length rows)
  | A1 v => Ok (length v)
  | A0 _ => Raise (IndexError "tuple index out of range")
  end.

(** [a, b = arr.shape]; only the first component is used. *)
Definition shape2 (arr : ndarray) : result nat :=
  match arr with
  | A2 rows => Ok (length rows)
  | _ => Raise (ValueError "not enough values to unpack (expected 2)")
  end.

(** [arr[select_nodes, :]] *)
Definition take_rows (select_nodes : list nat) (arr : ndarray) : result ndarray :=
  match arr with
  | A2 rows =>
      r <- DataTransform.map_result
             (fun i => match rows !! i with
                       | Some row => Ok row
                       | None => Raise (IndexError "index out of bounds")
                       end) select_nodes ;;
      Ok (A2 r)
  | _ => Raise (IndexError "too many indices for array")
  end.

(** [np.concatenate([a, b], axis=0)] *)
Definition concatenate (a b : ndarray) : result ndarray :=
  match a, b with
  | A2 ra, A2 rb =>
      if (length (hd [] ra) =? length (hd [] rb))%nat
      then Ok (A2 (ra ++ rb))
      else Raise (ValueError "all the input array dimensions except for the concatenation axis must match exactly")
  | A1 va, A1 vb => Ok (A1 (va ++ vb))
  | A0 _, _ | _, A0 _ =>
      Raise (ValueError "zero-dimensional arrays cannot be concatenated")
  | _, _ =>
      Raise (ValueError "all the input arrays must have same number of dimensions")
  end.

(** [np.int32(x)] and [.astype(np.int32)] on integers: the value modulo
    2^32, read as a signed 32-bit number. *)
Definition int32 (x : Z) : Z := (x + 2 ^ 31) mod 2 ^ 32 - 2 ^ 31.

(** [a // b] *)
Definition floordiv (a b : Z) : result Z :=
  if b =? 0 then Raise ZeroDivisionError else Ok (a / b).

Fixpoint cumsum (acc : nat) (l : list nat) : list nat :=
  match l with
  | [] => []
  | x :: rest => (acc + x)%nat :: cumsum (acc + x) rest
  end.

(** [np.array_split(ary, n)] for an integer [n]:
<<
    Neach_section, extras = divmod(Ntotal, Nsections)
    section_sizes = ([0] + extras * [Neach_section+1]
                         + (Nsections-extras) * [Neach_section])
    div_points = array(section_sizes).cumsum()
    for i in range(Nsections):
        sub_arys.append(ary[div_points[i]:div_points[i + 1]])
>> *)
Definition section_sizes (Ntotal Nsections : nat) : list nat :=
  let Neach_section := (Ntotal / Nsections)%nat in
  let extras := (Ntotal mod Nsections)%nat in
  repeat (S Neach_section) extras ++ repeat Neach_section (Nsections - extras).

Definition array_split {A} (ary : list A) (n : Z) : result (list (list A)) :=
  if n <=? 0 then Raise (ValueError "number sections must be larger than 0.")
  else
    let div_points := cumsum 0 (0%nat :: section_sizes (length ary) (Z.to_nat n)) in
    Ok (map (fun p => slice (fst p) (snd p) ary) (zip div_points (tl div_points))).

(** The same chunks as successive takes: [sizes] entries from position
    [a] on. *)
Fixpoint split_at {A} (a : nat) (sizes : list nat) (ary : list A) : list (list A) :=
  match sizes with
  | [] => []
  | s :: rest => firstn s (skipn a ary) :: split_at (a + s) rest ary
  end.

(** *** Formatting *)

(** ["0" * k] *)
Fixpoint zeros (k : nat) : string :=
  match k with
  | O => ""
  | S k' => String "0" (zeros k')
  end.

(** [digits.zfill(width)] for a string of digits. *)
Definition zfill (width : nat) (digits : string) : string :=
  zeros (width - String.length digits) ++ digits.

(** Reading a number back from what [format_04d] prints. *)
Definition parse_04d (s : string) : option Z :=
  match s with
  | String "-" digits =>
      option_map (fun d => - Z.of_N (N.of_uint d)) (NilEmpty.uint_of_string digits)
  | _ => option_map (fun d => Z.of_N (N.of_uint d)) (NilEmpty.uint_of_string s)
  end.

(** [k] leading zeros in front of a decimal number. *)
Fixpoint pad_uint (k : nat) (d : Decimal.uint) : Decimal.uint :=
  match k with
  | O => d
  | S k' => Decimal.D0 (pad_uint k' d)
  end.

(** [f"{z:04d}"] *)
Definition format_04d (z : Z) : string :=
  if z <? 0 then String "-" (zfill 3 (str_of_N (Z.abs_N z)))
  else zfill 4 (str_of_N (Z.to_N z)).

(** [f"/ct_case_{idx + 1:04d}.csv"] *)
Definition read_file_name (idx : Z) : string :=
  "/ct_case_" ++ format_04d (idx + 1) ++ ".csv".

(** [f"idx_{idx}"] *)
Definition group_name (idx : nat) : string :=
  "idx_" ++ str_of_N (N.of_nat idx).

(** *** The world the class acts on *)

(** One sample as it is stored: the eleven datasets of a group. *)
Record sample_dict : Type := {
  index : list Z;
  points : list Z;
  node_coord : ndarray;
  laplace_coord : ndarray;
  fiber_and_sheet : ndarray;
  edges_indices : list (list Z);
  mat_param : ndarray;
  pressure : ndarray;
  shape_coeffs : ndarray;
  displacement : ndarray;
  stress : ndarray;
}.

(** An HDF5 file: its groups in the order they were created. *)
Abbreviation h5file := (list (string * sample_dict)).

(** A call of [stats_analysis]: name, data ([None] when no sample was
    read), axis, path, [write_to_path]. *)
Definition stats_call : Type := string * option ndarray * nat * string * bool.

(** Code outside the sources at hand, taken as parameters:
    - [random_choice g n k] is [np.random.choice(n, size=k, replace=False)];
    - [edges_ny] and [edges_nb] are [generate_distance_based_edges_ny]
      and [generate_distance_based_edges_nb] of
      [pkg.data_utils.edge_generation].
    All of them may use the random generator, whose state is [rng_state]. *)
Class External : Type := {
  rng_state : Type;
  random_choice : rng_state -> nat -> nat -> list nat * rng_state;
  edges_ny : rng_state -> list (list (list Q)) -> list Z -> list Z -> list Z ->
             result (list (list (list Z))) * rng_state;
  edges_nb : rng_state -> list (list Q) -> list Z -> list Z ->
             result (list (list Z)) * rng_state;
}.

Section WithExternal.
Context `{CommonConstant} `{External}.

(** The files on disk, a log of the [np.loadtxt] calls, the HDF5
    files written (each with the groups it had when it was closed),
    the calls of [stats_analysis], and the random generator. *)
Record world : Type := {
  csv_files : gmap string (list (list Q));
  loadtxt_calls : list string;
  h5_written : list (string * h5file);
  stats_calls : list stats_call;
  rng : rng_state;
}.

(** A method body: it changes the world and returns or raises. *)
Definition M (A : Type) : Type := world -> world * result A.

Definition ret {A} (a : A) : M A := fun w => (w, Ok a).

Definition lift {A} (r : result A) : M A := fun w => (w, r).

Definition mbind {A B} (m : M A) (k : A -> M B) : M B :=
  fun w =>
    match m w with
    | (w', Ok a) => k a w'
    | (w', Raise e) => (w', Raise e)
    end.

Notation "x <~ m ;; k" := (mbind m (fun x => k))
  (at level 100, m at next level, right associativity).

(** [for a in l: body(a)], collecting what the bodies produce. *)
Fixpoint for_each {A B} (body : A -> M B) (l : list A) : M (list B) :=
  match l with
  | [] => ret []
  | a :: rest => b <~ body a ;; bs <~ for_each body rest ;; ret (b :: bs)
  end.

(** [for a in l: acc = body(acc, a)] *)
Fixpoint for_fold {A S} (body : S -> A -> M S) (l : list A) (acc : S) : M S :=
  match l with
  | [] => ret acc
  | a :: rest => acc' <~ body acc a ;; for_fold body rest acc'
  end.

Definition loadtxt (path : string) : M ndarray :=
  fun w =>
    let w' := {| csv_files := csv_files w;
                 loadtxt_calls := loadtxt_calls w ++ [path];
                 h5_written := h5_written w;
                 stats_calls := stats_calls w;
                 rng := rng w |} in
    match csv_files w !! path with
    | Some rows => (w', squeeze rows)
    | None => (w', Raise (FileNotFoundError path))
    end.

(** [with h5py.File(path, "w") as f: ...] with the groups created in
    the block. *)
Definition write_h5 (path : string) (groups : h5file) : M unit :=
  fun w =>
    ({| csv_files := csv_files w;
        loadtxt_calls := loadtxt_calls w;
        h5_written := h5_written w ++ [(path, groups)];
        stats_calls := stats_calls w;
        rng := rng w |}, Ok tt).

Definition stats_analysis (name : string) (data : option ndarray) (axis : nat)
    (path : string) (write_to_path : bool) : M unit :=
  fun w =>
    ({| csv_files := csv_files w;
        loadtxt_calls := loadtxt_calls w;
        h5_written := h5_written w;
        stats_calls := stats_calls w ++ [(name, data, axis, path, write_to_path)];
        rng := rng w |}, Ok tt).

(** Running code that only touches the random generator. *)
Definition with_rng {A} (f : rng_state -> A * rng_state) : M A :=
  fun w =>
    let '(a, g) := f (rng w) in
    ({| csv_files := csv_files w;
        loadtxt_calls := loadtxt_calls w;
        h5_written := h5_written w;
        stats_calls := stats_calls w;
        rng := g |}, Ok a).

(** *** The object *)

(** The attributes the methods read.  The two downsampling settings are
    handed to [np.random.choice] as its [size], so they are integers
    here; [None] is a setting absent from the configuration. *)
Record PassiveBiVPreparationDataset : Type := {
  data_type : string;
  platform : string;
  sample_indices : list Z;
  chunk_file_size : Z;
  sections : list Z;
  nodes_per_sections : list Z;
  train_down_sampling_node : option Z;
  val_down_sampling_node : option Z;
  global_feature_data_path : string;
  shape_data_path : string;
  inputs_data_path : string;
  outputs_data_path : string;
  (** [self.dataset_h5_path.format(i)] *)
  dataset_h5_path : nat -> string;
  node_coord_stats_path : string;
  node_laplace_coord_stats_path : string;
  fiber_and_sheet_stats_path : string;
  mat_param_stats_path : string;
  pressure_stats_path : string;
  shape_coeff_stats_path : string;
  displacement_stats_path : string;
  stress_stats_path : string;
}.

(** The same object with other [sample_indices]. *)
Definition set_sample_indices (self : PassiveBiVPreparationDataset)
    (indices : list Z) : PassiveBiVPreparationDataset :=
  {| data_type := data_type self;
     platform := platform self;
     sample_indices := indices;
     chunk_file_size := chunk_file_size self;
     sections := sections self;
     nodes_per_sections := nodes_per_sections self;
     train_down_sampling_node := train_down_sampling_node self;
     val_down_sampling_node := val_down_sampling_node self;
     global_feature_data_path := global_feature_data_path self;
     shape_data_path := shape_data_path self;
     inputs_data_path := inputs_data_path self;
     outputs_data_path := outputs_data_path self;
     dataset_h5_path := dataset_h5_path self;
     node_coord_stats_path := node_coord_stats_path self;
     node_laplace_coord_stats_path := node_laplace_coord_stats_path self;
     fiber_and_sheet_stats_path := fiber_and_sheet_stats_path self;
     mat_param_stats_path := mat_param_stats_path self;
     pressure_stats_path := pressure_stats_path self;
     shape_coeff_stats_path := shape_coeff_stats_path self;
     displacement_stats_path := displacement_stats_path self;
     stress_stats_path := stress_stats_path self |}.

(** Truth value of an optional number: [None] and [0] are false. *)
Definition truthy (x : option Z) : bool :=
  match x with
  | Some k => negb (k =? 0)
  | None => false
  end.

(** The two ways the guard [num_down_sample_node > num_nodes] of
    [_down_sampling_node] ends in an exception. *)
Definition node_count_error : exn :=
  ValueError "num_down_sample_node error, please carefully choice the node number".

Definition none_compare_error : exn :=
  TypeError "'>' not supported between instances of 'NoneType' and 'int'".

(** The node count [_down_sampling_node] asks for. *)
Definition num_down_sample_node (self : PassiveBiVPreparationDataset) : option Z :=
  if String.eqb (data_type self) TRAIN_NAME
  then train_down_sampling_node self
  else val_down_sampling_node self.

Definition _down_sampling_node (self : PassiveBiVPreparationDataset)
    (record_inputs record_outputs : ndarray) : M (ndarray * ndarray) :=
  num_nodes <~ lift (shape2 record_inputs) ;;
  _ <~ lift (shape2 record_outputs) ;;
  match num_down_sample_node self with
  | None => lift (Raise none_compare_error)
  | Some k =>
      if k >? Z.of_nat num_nodes
      then lift (Raise node_count_error)
      else if k <? 0
      then lift (Raise (ValueError "negative dimensions are not allowed"))
      else
        select_nodes <~ with_rng (fun g => random_choice g num_nodes (Z.to_nat k)) ;;
        ri <~ lift (take_rows select_nodes record_inputs) ;;
        ro <~ lift (take_rows select_nodes record_outputs) ;;
        ret (ri, ro)
  end.

Definition _generate_distance_based_edges (self : PassiveBiVPreparationDataset)
    (node_coords : list (list Q)) : M (list (list (list Z))) :=
  if String.eqb (platform self) DARWIN then
    r <~ with_rng (fun g => edges_ny g [node_coords] [0]
                              (sections self) (nodes_per_sections self)) ;;
    lift r
  else
    r <~ with_rng (fun g => edges_nb g node_coords
                              (sections self) (nodes_per_sections self)) ;;
    lift (e <- r ;; Ok [map (map int32) e]).

(** The rows of a 2-d array. *)
Definition rows_of (arr : ndarray) : result (list (list Q)) :=
  match arr with
  | A2 rows => Ok rows
  | _ => Raise (IndexError "too many indices for array")
  end.

(** The body of the inner loop of [_data_generation] for one [idx]. *)
Definition generate_sample (self : PassiveBiVPreparationDataset)
    (data_global_feature data_shape_coeff : ndarray) (idx : Z) : M sample_dict :=
  record_inputs <~ loadtxt (inputs_data_path self ++ read_file_name idx) ;;
  record_outputs <~ loadtxt (outputs_data_path self ++ read_file_name idx) ;;
  points <~ lift (shape0 record_inputs) ;;
  io1 <~ (if String.eqb (data_type self) VALIDATION_NAME
             || truthy (val_down_sampling_node self)
          then _down_sampling_node self record_inputs record_outputs
          else ret (record_inputs, record_outputs)) ;;
  io2 <~ (if String.eqb (data_type self) TRAIN_NAME
             && truthy (train_down_sampling_node self)
          then _down_sampling_node self (fst io1) (snd io1)
          else ret io1) ;;
  let record_inputs := fst io2 in
  let record_outputs := snd io2 in
  coords <~ lift (c <- slice_cols 0 3 record_inputs ;; rows_of c) ;;
  edge <~ _generate_distance_based_edges self coords ;;
  lift (
    node_coord <- slice_cols 0 3 record_inputs ;;
    laplace_coord <- slice_cols 3 11 record_inputs ;;
    fiber_and_sheet <- slice_cols 11 17 record_inputs ;;
    edge0 <- py_index edge 0 ;;
    mat_param <- (a <- slice_cols 1 7 data_global_feature ;; row_at idx a) ;;
    pressure <- (a <- slice_cols 7 9 data_global_feature ;; row_at idx a) ;;
    shape_coeffs <- (a <- slice_cols 1 59 data_shape_coeff ;; row_at idx a) ;;
    displacement <- slice_cols 0 3 record_outputs ;;
    stress <- slice_cols 3 4 record_outputs ;;
    Ok {| index := [int32 idx];
          points := [int32 (Z.of_nat points)];
          node_coord := node_coord;
          laplace_coord := laplace_coord;
          fiber_and_sheet := fiber_and_sheet;
          edges_indices := map (map int32) edge0;
          mat_param := mat_param;
          pressure := pressure;
          shape_coeffs := shape_coeffs;
          displacement := displacement;
          stress := stress |}).

(** [enumerate(l, start=k)] *)
Fixpoint enumerate_from {A} (k : nat) (l : list A) : list (nat * A) :=
  match l with
  | [] => []
  | a :: rest => (k, a) :: enumerate_from (S k) rest
  end.

Definition enumerate {A} (l : list A) : list (nat * A) := enumerate_from 0 l.

(** The groups [idx_0], [idx_1], ... created for the samples of one
    chunk:
<<
    for idx, sample_dict in enumerate(datasets):
        group = f.create_group(f"idx_{idx}")
>> *)
Definition groups_of (datasets : list sample_dict) : h5file :=
  map (fun p => (group_name (fst p), snd p)) (enumerate datasets).

(** The body of the outer loop for chunk [i]. *)
Definition generate_chunk (self : PassiveBiVPreparationDataset)
    (data_global_feature data_shape_coeff : ndarray)
    (ichunk : nat * list Z) : M unit :=
  datasets <~ for_each (generate_sample self data_global_feature data_shape_coeff)
                (snd ichunk) ;;
  write_h5 (dataset_h5_path self (fst ichunk)) (groups_of datasets).

Definition _data_generation (self : PassiveBiVPreparationDataset) : M unit :=
  data_global_feature <~ loadtxt (global_feature_data_path self) ;;
  data_shape_coeff <~ loadtxt (shape_data_path self) ;;
  n <~ lift (floordiv (len (sample_indices self)) (chunk_file_size self)) ;;
  chunks <~ lift (array_split (sample_indices self) n) ;;
  _ <~ for_each (generate_chunk self data_global_feature data_shape_coeff)
         (enumerate chunks) ;;
  ret tt.

(** *** Statistics *)

(** [x if acc is None else np.concatenate([acc, x], axis=0)] *)
Definition extend (acc : option ndarray) (x : ndarray) : result (option ndarray) :=
  match acc with
  | None => Ok (Some x)
  | Some a => r <- concatenate a x ;; Ok (Some r)
  end.

Definition node_stats_step (self : PassiveBiVPreparationDataset)
    (acc : option ndarray * option ndarray * option ndarray) (idx : nat)
    : M (option ndarray * option ndarray * option ndarray) :=
  let '(node_coord_set, laplace_coord_set, fiber_and_sheet_set) := acc in
  record_inputs <~ loadtxt (inputs_data_path self ++ read_file_name (Z.of_nat idx)) ;;
  lift (
    node_coord <- slice_cols 0 3 record_inputs ;;
    node_coord_set <- extend node_coord_set node_coord ;;
    laplace_coord <- slice_cols 3 11 record_inputs ;;
    laplace_coord_set <- extend laplace_coord_set laplace_coord ;;
    fiber_and_sheet <- slice_cols 11 17 record_inputs ;;
    fiber_and_sheet_set <- extend fiber_and_sheet_set fiber_and_sheet ;;
    Ok (node_coord_set, laplace_coord_set, fiber_and_sheet_set)).

Definition _data_node_stats (self : PassiveBiVPreparationDataset)
    (write_to_path : bool) : M unit :=
  sets <~ for_fold (node_stats_step self)
            (seq 0 (length (sample_indices self))) (None, None, None) ;;
  let '(node_coord_set, laplace_coord_set, fiber_and_sheet_set) := sets in
  _ <~ stats_analysis "node_coord" node_coord_set 0
         (node_coord_stats_path self) write_to_path ;;
  _ <~ stats_analysis "laplace_coord" laplace_coord_set 0
         (node_laplace_coord_stats_path self) write_to_path ;;
  stats_analysis "fiber_and_sheet" fiber_and_sheet_set 0
    (fiber_and_sheet_stats_path self) write_to_path.

Definition _data_global_feature_stats (self : PassiveBiVPreparationDataset)
    (write_to_path : bool) : M unit :=
  data_global_feature <~ loadtxt (global_feature_data_path self) ;;
  data_shape_coeff <~ loadtxt (shape_data_path self) ;;
  a <~ lift (slice_cols 1 7 data_global_feature) ;;
  _ <~ stats_analysis "mat_param" (Some a) 0 (mat_param_stats_path self) write_to_path ;;
  b <~ lift (slice_cols 7 9 data_global_feature) ;;
  _ <~ stats_analysis "pressure" (Some b) 0 (pressure_stats_path self) write_to_path ;;
  c <~ lift (slice_cols_from 1 data_shape_coeff) ;;
  stats_analysis "shape_coeffs" (Some c) 0 (shape_coeff_stats_path self) write_to_path.

Definition label_stats_step (self : PassiveBiVPreparationDataset)
    (acc : option ndarray * option ndarray) (idx : nat)
    : M (option ndarray * option ndarray) :=
  let '(displacement_set, stress_set) := acc in
  record_output <~ loadtxt (outputs_data_path self ++ read_file_name (Z.of_nat idx)) ;;
  lift (
    displacement <- slice_cols 0 3 record_output ;;
    displacement_set <- extend displacement_set displacement ;;
    stress <- slice_cols 3 4 record_output ;;
    stress_set <- extend stress_set stress ;;
    Ok (displacement_set, stress_set)).

Definition _data_label_stats (self : PassiveBiVPreparationDataset)
    (write_to_path : bool) : M unit :=
  sets <~ for_fold (label_stats_step self)
            (seq 0 (length (sample_indices self))) (None, None) ;;
  let '(displacement_set, stress_set) := sets in
  _ <~ stats_analysis "displacement" displacement_set 0
         (displacement_stats_path self) write_to_path ;;
  stats_analysis "stress" stress_set 0 (stress_stats_path self) write_to_path.

Definition _data_stats (self : PassiveBiVPreparationDataset) : M unit :=
  _ <~ _data_node_stats self true ;;
  _ <~ _data_global_feature_stats self true ;;
  _data_label_stats self true.

(** Whether [_data_generation] calls [_down_sampling_node] at all. *)
Definition downsampled (self : PassiveBiVPreparationDataset) : bool :=
  (String.eqb (data_type self) VALIDATION_NAME
   || truthy (val_down_sampling_node self))
  || (String.eqb (data_type self) TRAIN_NAME
      && truthy (train_down_sampling_node self)).

(** The world [w'] is [w] after reading [reads], writing the HDF5 files
    [writes] and calling [stats_analysis] as in [stats]; the CSV files
    are untouched. *)
Definition extends (w w' : world) (reads : list string)
    (writes : list (string * h5file)) (stats : list stats_call) : Prop :=
  csv_files w' = csv_files w
  /\ loadtxt_calls w' = (loadtxt_calls w ++ reads)%list
  /\ h5_written w' = (h5_written w ++ writes)%list
  /\ stats_calls w' = (stats_calls w ++ stats)%list.

(** Between [w] and [w'] the files of [expected] were read, in order:
    all of them when the step returned, the first few when it raised. *)
Definition reads_upto {A} (expected : list string) (w w' : world) (r : result A)
    : Prop :=
  exists reads,
    loadtxt_calls w' = (loadtxt_calls w ++ reads)%list
    /\ reads `prefix_of` expected
    /\ (is_ok r = true -> reads = expected).

(** The stored sample [s] for index [idx], given the rows [raw_in] of
    its input file and the rows [rin], [rout] of inputs and outputs that
    are kept, and the edges [edge0] generated for them. *)
Definition stored_sample (idx : Z) (raw_in rin rout : list (list Q))
    (edge0 : list (list Z)) (s : sample_dict) : Prop :=
  index s = [int32 idx]
  /\ points s = [int32 (Z.of_nat (length raw_in))]
  /\ node_coord s = A2 (map (slice 0 3) rin)
  /\ laplace_coord s = A2 (map (slice 3 11) rin)
  /\ fiber_and_sheet s = A2 (map (slice 11 17) rin)
  /\ displacement s = A2 (map (slice 0 3) rout)
  /\ stress s = A2 (map (slice 3 4) rout)
  /\ edges_indices s = map (map int32) edge0.

(** What [_data_generation] stores for [idx] when the CSV files are
    [files]: the rows kept are all rows of the two files, or, when
    downsampling applies, the rows [sel] selects from both. *)
Definition sample_spec (self : PassiveBiVPreparationDataset)
    (files : gmap string (list (list Q))) (idx : Z) (s : sample_dict) : Prop :=
  exists raw_in raw_out rin rout edge edge0 w1 w2,
    files !! (inputs_data_path self ++ read_file_name idx) = Some raw_in
    /\ files !! (outputs_data_path self ++ read_file_name idx) = Some raw_out
    /\ ((downsampled self = false /\ rin = raw_in /\ rout = raw_out)
        \/ (downsampled self = true
            /\ exists sel, take_rows sel (A2 raw_in) = Ok (A2 rin)
                        /\ take_rows sel (A2 raw_out) = Ok (A2 rout)))
    /\ _generate_distance_based_edges self (map (slice 0 3) rin) w1 = (w2, Ok edge)
    /\ py_index edge 0 = Ok edge0
    /\ stored_sample idx raw_in rin rout edge0 s.

(** The files a pass is to read, in reading order. *)
(** The two files read for one sample. *)
Definition sample_files (self : PassiveBiVPreparationDataset) (idx : Z) : list string :=
  [inputs_data_path self ++ read_file_name idx;
   outputs_data_path self ++ read_file_name idx].

Definition generation_sample_files (self : PassiveBiVPreparationDataset)
    : list string :=
  flat_map (sample_files self) (sample_indices self).

Definition generation_input_files (self : PassiveBiVPreparationDataset)
    : list string :=
  map (fun idx => inputs_data_path self ++ read_file_name idx) (sample_indices self).

Definition generation_output_files (self : PassiveBiVPreparationDataset)
    : list string :=
  map (fun idx => outputs_data_path self ++ read_file_name idx) (sample_indices self).

Definition node_stats_files (self : PassiveBiVPreparationDataset) : list string :=
  map (fun idx => inputs_data_path self ++ read_file_name (Z.of_nat idx))
      (seq 0 (length (sample_indices self))).

Definition label_stats_files (self : PassiveBiVPreparationDataset) : list string :=
  map (fun idx => outputs_data_path self ++ read_file_name (Z.of_nat idx))
      (seq 0 (length (sample_indices self))).

(** The columns [a:b] of the tables of a run of files, stacked in file
    order as the statistics loops build them; [None] when there is no
    file. *)
Definition stacked (a b : nat) (tables : list (list (list Q))) : option ndarray :=
  match tables with
  | [] => None
  | _ => Some (A2 (concat (map (map (slice a b)) tables)))
  end.

(** The eight calls of [stats_analysis] a statistics pass makes. *)
Definition stats_pass_calls (self : PassiveBiVPreparationDataset)
    (inputs outputs : list (list (list Q))) (gf sc : list (list Q))
    : list stats_call :=
  [("node_coord", stacked 0 3 inputs, 0%nat, node_coord_stats_path self, true);
   ("laplace_coord", stacked 3 11 inputs, 0%nat, node_laplace_coord_stats_path self, true);
   ("fiber_and_sheet", stacked 11 17 inputs, 0%nat, fiber_and_sheet_stats_path self, true);
   ("mat_param", Some (A2 (map (slice 1 7) gf)), 0%nat, mat_param_stats_path self, true);
   ("pressure", Some (A2 (map (slice 7 9) gf)), 0%nat, pressure_stats_path self, true);
   ("shape_coeffs", Some (A2 (map (skipn 1) sc)), 0%nat, shape_coeff_stats_path self, true);
   ("displacement", stacked 0 3 outputs, 0%nat, displacement_stats_path self, true);
   ("stress", stacked 3 4 outputs, 0%nat, stress_stats_path self, true)].

End WithExternal.

End Preparation.

(* ===================================================================== *)
(** ** Small concrete instances                                           *)
(* ===================================================================== *)

(** Instances of the parameters above on which the definitions can be
    run. *)
Module Examples.

(** A framework whose batches are numbers and whose loss is the batch
    itself; the model state counts the optimizer steps. *)
Definition counting_framework : BaseTrainer.Framework :=
  {| BaseTrainer.model_state := nat;
     BaseTrainer.batch_data := Q;
     BaseTrainer.set_train_mode := fun n => n;
     BaseTrainer.forward_loss := fun _ data => Ok (BaseTrainer.LossTensor data);
     BaseTrainer.has_grad_problem := fun _ _ => false;
     BaseTrainer.optimizer_step := fun n _ => S n;
     BaseTrainer.get_last_lr := fun _ => 1%Q;
     BaseTrainer.time_at := fun k => inject_Z (Z.of_nat k) |}.

Definition fresh_run : @BaseTrainer.run_state counting_framework :=
  @BaseTrainer.Build_run_state counting_framework 0%nat 0%nat [].

(** Validation on the same framework: the loss is the batch itself and
    the one metric is its square. *)
Definition counting_validation : @BaseTrainer.Validation counting_framework :=
  @BaseTrainer.Build_Validation counting_framework Q
    (fun n : nat => n)
    (fun _ _ => true)
    (fun (_ : nat) (data : Q) => Ok data)
    (fun (outs _ : Q) => Ok (BaseTrainer.LossTensor outs))
    ["mean_absolute_error"]
    (fun _ (outs _ : Q) => Ok (BaseTrainer.MetricTensor (outs * outs)%Q)).

(** Values for the constants of [common/constant.py]. *)
Definition constants : CommonConstant :=
  {| DARWIN := "Darwin";
     TRAIN_NAME := "train";
     VALIDATION_NAME := "validation";
     MAX_VAL := "max_val";
     MIN_VAL := "min_val";
     MEAN_VAL := "mean_val";
     STD_VAL := "std_val" |}.

(** Statistics configured for [node_coord] only. *)
Definition node_stats : gmap string DataTransform.tensor :=
  {[ "max_val" := DataTransform.T1 [1%Q; 20%Q];
     "min_val" := DataTransform.T1 [0%Q; 10%Q];
     "mean_val" := DataTransform.T1 [(1 # 2)%Q; 15%Q];
     "std_val" := DataTransform.T1 [(1 # 2)%Q; 5%Q] ]}.

(** Per-sample statistics, column by column. *)
Definition column_norm : DataTransform.Norm :=
  {| DataTransform.feature_config := {[ "node_coord" := node_stats ]};
     DataTransform.global_scaling := false;
     DataTransform.coarse_dim := false |}.

(** Per-sample statistics with [coarse_dim] switched on. *)
Definition coarse_norm : DataTransform.Norm :=
  {| DataTransform.feature_config := {[ "node_coord" := node_stats ]};
     DataTransform.global_scaling := false;
     DataTransform.coarse_dim := true |}.

(** A sample with one context entry and one feature of two nodes. *)
Definition node_sample : DataTransform.sample :=
  ({[ "pressure" := DataTransform.T1 [1%Q; 2%Q] ]},
   {[ "node_coord" := DataTransform.T2 [[0%Q; 10%Q]; [1%Q; 20%Q]] ]}).

(** Stand-ins for the code outside the sources: the random choice takes
    the first [k] indices, and both edge generators link every node to
    itself. *)
Definition self_edges (coords : list (list Q)) : list (list Z) :=
  map (fun j => [Z.of_nat j]) (seq 0 (length coords)).

Definition toy_external : Preparation.External :=
  {| Preparation.rng_state := nat;
     Preparation.random_choice := fun g _ k => (seq 0 k, S g);
     Preparation.edges_ny := fun g batch _ _ _ => (Ok (map self_edges batch), g);
     Preparation.edges_nb := fun g coords _ _ => (Ok (self_edges coords), g) |}.

(** A table of [rows] x [cols] numbers counting up from [base]. *)
Definition table (rows cols : nat) (base : Z) : list (list Q) :=
  map (fun r => map (fun c => inject_Z (base + Z.of_nat (r * cols + c))) (seq 0 cols))
      (seq 0 rows).

(** Five cases with two nodes each, and the two global tables. *)
Definition five_files : gmap string (list (list Q)) :=
  list_to_map
    ([("global.csv", table 5 9 0); ("shape.csv", table 5 59 0)]
       ++ flat_map
            (fun i => [("inputs" ++ Preparation.read_file_name i, table 2 17 (100 * i));
                       ("outputs" ++ Preparation.read_file_name i, table 2 4 (100 * i))])
            [0; 1; 2; 3; 4]).

(** A preparation object for [sample_indices] and [chunk_file_size],
    without downsampling, on a platform other than Darwin. *)
Definition preparation (data_type : string) (sample_indices : list Z)
    (chunk_file_size : Z) (val_down_sampling_node : option Z)
    : @Preparation.PassiveBiVPreparationDataset :=
  {| Preparation.data_type := data_type;
     Preparation.platform := "Linux";
     Preparation.sample_indices := sample_indices;
     Preparation.chunk_file_size := chunk_file_size;
     Preparation.sections := [0; 10];
     Preparation.nodes_per_sections := [5];
     Preparation.train_down_sampling_node := None;
     Preparation.val_down_sampling_node := val_down_sampling_node;
     Preparation.global_feature_data_path := "global.csv";
     Preparation.shape_data_path := "shape.csv";
     Preparation.inputs_data_path := "inputs";
     Preparation.outputs_data_path := "outputs";
     Preparation.dataset_h5_path := fun i => "data_" ++ str_of_N (N.of_nat i) ++ ".h5";
     Preparation.node_coord_stats_path := "node_coord_stats";
     Preparation.node_laplace_coord_stats_path := "laplace_coord_stats";
     Preparation.fiber_and_sheet_stats_path := "fiber_and_sheet_stats";
     Preparation.mat_param_stats_path := "mat_param_stats";
     Preparation.pressure_stats_path := "pressure_stats";
     Preparation.shape_coeff_stats_path := "shape_coeff_stats";
     Preparation.displacement_stats_path := "displacement_stats";
     Preparation.stress_stats_path := "stress_stats" |}.

Definition five_samples : Preparation.PassiveBiVPreparationDataset :=
  preparation "train" [0; 1; 2; 3; 4] 2 None.

Definition start : @Preparation.world toy_external :=
  @Preparation.Build_world toy_external five_files [] [] [] 0%nat.

(** Limits configured for [pressure] only. *)
Definition clamp_limits : gmap string (gmap string Q) :=
  {[ "pressure" := {[ "max_val" := (3 # 2)%Q; "min_val" := 0%Q ]} ]}.

(** A sample of tensors with their shapes: a matrix of two rows and
    three columns, and a vector that no configuration names. *)
Definition shaped_sample
    : gmap string DataTransform.shaped * gmap string DataTransform.shaped :=
  ({[ "pressure" := {| DataTransform.shape := [2; 3]%nat;
                       DataTransform.data := [1; 2; 3; 4; 5; 6]%Q |} ]},
   {[ "node_coord" := {| DataTransform.shape := [2]%nat;
                         DataTransform.data := [7; 8]%Q |} ]}).

(** [pressure] gets a new last dimension. *)
Definition last_dim : gmap string Z := {[ "pressure" := (-1)%Z ]}.

(** A file system as the list of the directories it holds. *)
Definition listed (f : list string) (p : string) : bool :=
  existsb (String.eqb p) f.

Definition add_dir (p : string) (f : list string) : list string := p :: f.

(** An experiment that may not reuse its folder. *)
Definition experiment : BaseTrainer.logs_config :=
  {| BaseTrainer.task_name := "passive_biv";
     BaseTrainer.exp_name := "run_1";
     BaseTrainer.repo_path := "/repo";
     BaseTrainer.log_dir := None;
     BaseTrainer.overwrite_exp_folder := Some false;
     BaseTrainer.logs_base_path := None |}.

End Examples.

(* ===================================================================== *)
(** * Properties                                                          *)
(* ===================================================================== *)

(** ** Strings *)

Lemma append_inj_l (p a b : string) : p ++ a = p ++ b -> a = b.
Proof.
  induction p as [|c p IH]; [auto|].
  change (String c p ++ a) with (String c (p ++ a)).
  change (String c p ++ b) with (String c (p ++ b)).
  intros [= Heq]. auto.
Qed.

Lemma length_append (a b : string) :
  String.length (a ++ b) = (String.length a + String.length b)%nat.
Proof.
  induction a as [|c a IH]; [reflexivity|].
  change (String c a ++ b) with (String c (a ++ b)).
  cbn [String.length]. rewrite IH. reflexivity.
Qed.

Lemma append_inj_r (s a b : string) : a ++ s = b ++ s -> a = b.
Proof.
  revert b. induction a as [|c a IH]; intros [|c' b]; cbn; intros Heq.
  - reflexivity.
  - apply (f_equal String.length) in Heq.
    rewrite !length_append in Heq. cbn [String.length] in Heq. lia.
  - apply (f_equal String.length) in Heq.
    rewrite !length_append in Heq. cbn [String.length] in Heq. lia.
  - change (String c a ++ s) with (String c (a ++ s)) in Heq.
    change (String c' b ++ s) with (String c' (b ++ s)) in Heq.
    injection Heq as -> Heq. f_equal. apply IH, Heq.
Qed.


(** ** pkg/utils/io.py: [get_repo_path] *)

Section GetRepoPathFacts.
Import Io.
Variable exists_ : string -> bool.

(** The parent of the root directory is the root directory. *)
Lemma dirname_root : dirname "/" = "/".
Proof. reflexivity. Qed.

(** Once the loop holds a directory that is its own parent and has no
    [.git] entry, it never leaves. *)
Lemma repo_loop_stuck (d : string) :
  nonempty d = true ->
  dirname d = d ->
  exists_ (join d ".git") = false ->
  forall fuel, repo_loop exists_ fuel d = None.
Proof.
  intros Hne Hfix Hgit fuel.
  induction fuel as [|fuel IH]; cbn [repo_loop]; [reflexivity|].
  rewrite Hne, Hgit, Hfix. exact IH.
Qed.

(** Whatever the loop returns is the empty string or a directory with a
    [.git] entry. *)
Lemma repo_loop_sound (fuel : nat) (d r : string) :
  repo_loop exists_ fuel d = Some r ->
  r = "" \/ exists_ (join r ".git") = true.
Proof.
  revert d. induction fuel as [|fuel IH]; intros d; cbn [repo_loop];
    [discriminate|].
  destruct (nonempty d) eqn:Hne; cbn [andb].
  - destruct (exists_ (join d ".git")) eqn:Hgit; cbn [negb].
    + intros [= <-]. right. exact Hgit.
    + apply IH.
  - intros [= <-]. left. destruct d; [reflexivity | discriminate].
Qed.

(** More fuel does not change a result. *)
Lemma repo_loop_mono (fuel fuel' : nat) (d r : string) :
  (fuel <= fuel')%nat ->
  repo_loop exists_ fuel d = Some r ->
  repo_loop exists_ fuel' d = Some r.
Proof.
  revert fuel' d. induction fuel as [|fuel IH]; intros fuel' d Hle;
    cbn [repo_loop]; [discriminate|].
  destruct fuel' as [|fuel']; [lia|]. cbn [repo_loop].
  destruct (nonempty d && negb (exists_ (join d ".git"))); [|auto].
  apply IH. lia.
Qed.
End GetRepoPathFacts.

Section RelativePaths.
Import Io.
Variable exists_ : string -> bool.

Lemma head_of_length (p : string) :
  (String.length (head_of p) <= String.length p)%nat.
Proof.
  induction p as [|c p IH]; [reflexivity|].
  cbn [head_of]. destruct (has_sep (String c p)); cbn [String.length]; lia.
Qed.

Lemma head_of_ends (p : string) :
  nonempty (head_of p) = true -> endswith_sep (head_of p) = true.
Proof.
  induction p as [|c p IH]; [discriminate|].
  cbn [head_of]. destruct (has_sep (String c p)) eqn:Hsep; [|discriminate].
  intros _. cbn [endswith_sep].
  destruct (head_of p) as [|c' h] eqn:Hh.
  - cbn [has_sep] in Hsep. destruct (is_sep c); [reflexivity|].
    cbn [orb] in Hsep. exfalso. clear IH. revert Hsep Hh.
    destruct p as [|c2 p]; [discriminate|]. intros Hsep. cbn [head_of].
    rewrite Hsep. discriminate.
  - apply IH. reflexivity.
Qed.

Lemma rstrip_sep_shorter (s : string) :
  (String.length (rstrip_sep s) <= String.length s)%nat
  /\ (endswith_sep s = true -> (String.length (rstrip_sep s) < String.length s)%nat).
Proof.
  induction s as [|c s [IHle IHlt]]; [split; [reflexivity | discriminate]|].
  cbn [rstrip_sep endswith_sep String.length].
  destruct s as [|c' s'].
  - cbn [rstrip_sep]. destruct (is_sep c); cbn [String.length];
      split; intros; first [lia | discriminate].
  - destruct (rstrip_sep (String c' s')) as [|r0 r] eqn:Hr.
    + destruct (is_sep c); cbn [String.length] in *; split; intros; lia.
    + cbn [String.length] in *. split; [lia|]. intros Hend.
      specialize (IHlt Hend). lia.
Qed.

Lemma rstrip_sep_relative (c : ascii) (s : string) :
  is_sep c = false ->
  exists r, rstrip_sep (String c s) = String c r.
Proof.
  intros Hc. cbn [rstrip_sep]. destruct (rstrip_sep s) as [|r0 r].
  - rewrite Hc. eauto.
  - eauto.
Qed.

(** The parent of a relative path is relative and strictly shorter. *)
Lemma dirname_relative (d : string) :
  nonempty d = true -> relative d = true ->
  relative (dirname d) = true
  /\ (String.length (dirname d) < String.length d)%nat.
Proof.
  destruct d as [|c rest]; [discriminate|]. intros _ Hrel. cbn [relative] in Hrel.
  apply negb_true_iff in Hrel. unfold dirname.
  pose proof (head_of_length (String c rest)) as Hlen.
  pose proof (head_of_ends (String c rest)) as Hend.
  cbn [head_of] in *. destruct (has_sep (String c rest)).
  - cbn [nonempty all_sep andb negb] in *. rewrite Hrel in *. cbn [andb negb].
    destruct (rstrip_sep_relative c (head_of rest) Hrel) as [r Hr].
    destruct (rstrip_sep_shorter (String c (head_of rest))) as [_ Hlt].
    specialize (Hlt (Hend eq_refl)). rewrite Hr in *. cbn [relative].
    rewrite Hrel. split; [reflexivity | lia].
  - cbn. split; [reflexivity | lia].
Qed.

(** On a relative directory the loop ends within as many rounds as the
    directory has characters, plus one. *)
Lemma repo_loop_relative (n : nat) :
  forall d : string,
    (String.length d <= n)%nat -> relative d = true ->
    exists r, repo_loop exists_ (S n) d = Some r.
Proof.
  induction n as [|n IH]; intros d Hlen Hrel.
  - destruct d; [|cbn in Hlen; lia]. exists "". reflexivity.
  - cbn [repo_loop].
    destruct (nonempty d && negb (exists_ (join d ".git"))) eqn:Hcond; [|eauto].
    apply andb_true_iff in Hcond as [Hne _].
    destruct (dirname_relative d Hne Hrel) as [Hrel' Hlt].
    apply (IH (dirname d)); [lia | exact Hrel'].
Qed.

(** [get_repo_path] returns on every relative path. *)
Lemma get_repo_path_relative (path : string) :
  relative path = true ->
  exists r, get_repo_path exists_ (S (String.length path)) path = Some r.
Proof.
  intros Hrel. unfold get_repo_path. apply repo_loop_relative.
  - destruct path as [|c rest]; [cbn; lia|].
    destruct (dirname_relative (String c rest) eq_refl Hrel) as [_ Hlt]. lia.
  - destruct path as [|c rest]; [reflexivity|].
    destruct (dirname_relative (String c rest) eq_refl Hrel) as [Hr _]. exact Hr.
Qed.

(** What the loop returns is the first directory of the walk at which it
    may stop: every directory before it is non-empty and has no [.git]
    entry. *)
Lemma repo_loop_first (fuel : nat) :
  forall (d r : string),
    repo_loop exists_ fuel d = Some r ->
    exists k,
      r = Nat.iter k dirname d
      /\ forall j, (j < k)%nat ->
           nonempty (Nat.iter j dirname d) = true
           /\ exists_ (join (Nat.iter j dirname d) ".git") = false.
Proof.
  induction fuel as [|fuel IH]; intros d r; cbn [repo_loop]; [discriminate|].
  destruct (nonempty d && negb (exists_ (join d ".git"))) eqn:Hcond.
  - intros Hloop. destruct (IH _ _ Hloop) as (k & -> & Hbefore).
    exists (S k). split; [symmetry; apply Nat.iter_succ_r|].
    intros [|j] Hj.
    + cbn [Nat.iter]. apply andb_true_iff in Hcond as [Hne Hgit].
      apply negb_true_iff in Hgit. auto.
    + rewrite Nat.iter_succ_r. apply Hbefore. lia.
  - intros [= <-]. exists 0%nat. split; [reflexivity|]. intros j Hj. lia.
Qed.

End RelativePaths.

Example get_repo_path_relative_example :
  Io.get_repo_path (fun p => String.eqb p "repo/.git") 10 "repo/pkg/utils/io.py"
  = Some "repo".
Proof. reflexivity. Qed.

Example get_repo_path_no_git_example :
  Io.get_repo_path (fun _ => false) 10 "repo/pkg/utils/io.py" = Some "".
Proof. reflexivity. Qed.

Section AbsolutePaths.
Import Io.

Lemma rstrip_sep_empty (s : string) :
  rstrip_sep s = "" -> all_sep s = true.
Proof.
  induction s as [|c s IH]; [reflexivity|]. cbn [rstrip_sep all_sep].
  destruct (rstrip_sep s) as [|r0 r]; [|discriminate].
  destruct (is_sep c); [|discriminate]. intros _. apply IH. reflexivity.
Qed.

(** The parent of an absolute path is absolute: the walk never reaches
    the empty string. *)
Lemma dirname_absolute (d : string) :
  relative d = false -> relative (dirname d) = false.
Proof.
  destruct d as [|c rest]; [discriminate|]. cbn [relative]. intros Hc.
  apply negb_false_iff in Hc. unfold dirname. cbn [head_of has_sep].
  rewrite Hc. cbn [orb nonempty andb].
  destruct (all_sep (String c (head_of rest))) eqn:Hall; cbn [negb].
  - cbn [relative]. rewrite Hc. reflexivity.
  - cbn [rstrip_sep]. destruct (rstrip_sep (head_of rest)) as [|r0 r] eqn:Hr.
    + apply rstrip_sep_empty in Hr. cbn [all_sep] in Hall.
      rewrite Hc, Hr in Hall. discriminate.
    + cbn [relative]. rewrite Hc. reflexivity.
Qed.

(** Without any [.git] entry the loop never leaves an absolute
    directory. *)
Lemma repo_loop_absolute (fuel : nat) :
  forall d : string,
    relative d = false -> repo_loop (fun _ => false) fuel d = None.
Proof.
  induction fuel as [|fuel IH]; intros d Hd; [reflexivity|].
  cbn [repo_loop]. destruct d as [|c rest]; [discriminate|].
  cbn [nonempty andb negb]. apply IH, dirname_absolute, Hd.
Qed.

End AbsolutePaths.

(** C10.  [get_repo_path] does not return on every path.  When no
    directory has a [.git] entry, the walk from an absolute path stays
    among absolute paths (the parent of [/] is [/]) and never reaches the
    empty string that ends the loop: whatever the fuel, no result comes
    out, where the empty string was to be returned. *)
Theorem get_repo_path_absolute_diverges (path : string) (fuel : nat) :
  Io.relative path = false ->
  Io.get_repo_path (fun _ => false) fuel path = None.
Proof.
  intros Habs. unfold Io.get_repo_path.
  apply repo_loop_absolute, dirname_absolute, Habs.
Qed.

Lemma get_repo_path_absolute_diverges_witness :
  Io.get_repo_path (fun _ => false) 1000 "/a/b.py" = None.
Proof.
  apply (get_repo_path_absolute_diverges "/a/b.py" 1000). reflexivity.
Defined.

(** ** pkg/train/trainer/base_trainer.py: [create_loss] *)

(** [create_loss] ends normally exactly for the name
    [euclidean_distance_mse]. *)
Lemma create_loss_ok_iff (self : BaseTrainer.trainer) :
  is_ok (snd (BaseTrainer.create_loss self)) = true <->
  BaseTrainer.loss_param self !! "name" = Some "euclidean_distance_mse".
Proof.
  unfold BaseTrainer.create_loss, getitem.
  destruct (BaseTrainer.loss_param self !! "name") as [name|] eqn:Hname; simpl.
  - destruct (String.eqb name "euclidean_distance_mse") eqn:Heq; simpl.
    + apply String.eqb_eq in Heq. subst. split; auto.
    + apply String.eqb_neq in Heq. split; [discriminate|].
      intros [= ->]. contradiction.
  - split; discriminate.
Qed.

(** C6.  With [loss_param["name"] == "mse"], [create_loss] stores
    [nn.MSELoss()] in [self.loss] and then raises [ValueError]: the second
    test is an [if], not an [elif], so its [else] branch also catches the
    name [mse]. *)
Theorem create_loss_mse_raises (self : BaseTrainer.trainer) :
  BaseTrainer.loss_param self !! "name" = Some "mse" ->
  BaseTrainer.loss (fst (BaseTrainer.create_loss self)) = Some BaseTrainer.MSELoss
  /\ snd (BaseTrainer.create_loss self)
     = Raise (ValueError "loss name do not set properly, please check: mse").
Proof.
  intros Hname. unfold BaseTrainer.create_loss, getitem. rewrite Hname.
  split; reflexivity.
Qed.

Lemma create_loss_mse_raises_witness :
  let self := {| BaseTrainer.loss_param := {["name" := "mse"]};
                 BaseTrainer.loss := None |} in
  BaseTrainer.loss (fst (BaseTrainer.create_loss self)) = Some BaseTrainer.MSELoss
  /\ snd (BaseTrainer.create_loss self)
     = Raise (ValueError "loss name do not set properly, please check: mse").
Proof.
  intros self. apply (create_loss_mse_raises self). vm_compute. reflexivity.
Defined.

(** The other recognised name is accepted. *)
Example create_loss_euclidean :
  BaseTrainer.create_loss
    {| BaseTrainer.loss_param := {["name" := "euclidean_distance_mse"]};
       BaseTrainer.loss := None |}
  = ({| BaseTrainer.loss_param := {["name" := "euclidean_distance_mse"]};
        BaseTrainer.loss := Some BaseTrainer.EuclideanDistanceMSE |}, Ok tt).
Proof. vm_compute. reflexivity. Qed.

(** ** pkg/train/trainer/base_trainer.py: [train_step] *)

Section TrainStepFacts.
Import BaseTrainer.
Context `{F : Framework}.


Lemma mval_accumulate (key k : string) (v : Q) (m : gmap string Q) :
  (mval (accumulate k v m) key == mval m key + (if String.eqb key k then v else 0))%Q.
Proof.
  unfold mval, accumulate.
  destruct (String.eqb key k) eqn:Heq.
  - apply String.eqb_eq in Heq. subst k. rewrite lookup_insert_eq.
    destruct (m !! key); simpl; ring.
  - apply String.eqb_neq in Heq. rewrite lookup_insert_ne by congruence.
    ring.
Qed.

Lemma fold_accumulate_mval (key : string) (l : list (string * Q)) :
  forall (m : gmap string Q) (base a : Q),
    (mval m key == base + a)%Q ->
    (mval (fold_left (fun m entry => accumulate (fst entry ++ "_train_loss") (snd entry) m) l m) key
     == base + fold_left (fun acc entry =>
                  if String.eqb key (fst entry ++ "_train_loss")
                  then (acc + snd entry)%Q else acc) l a)%Q.
Proof.
  induction l as [|[name item] l IH]; intros m base a Hm; simpl; [exact Hm|].
  apply IH. rewrite mval_accumulate, Hm.
  destruct (String.eqb key (name ++ "_train_loss")); ring.
Qed.

Lemma record_loss_mval (loss : loss_value) (metrics m1 : gmap string Q) (key : string) :
  record_loss loss metrics = Ok m1 ->
  (mval m1 key == mval metrics key + contribution key loss)%Q.
Proof.
  destruct loss as [item|items|]; simpl; [| |discriminate].
  - intros [= <-]. apply mval_accumulate.
  - destruct (decide (items = ∅)); [discriminate|]. intros [= <-].
    apply fold_accumulate_mval. ring.
Qed.

Lemma record_loss_is_ok (loss : loss_value) (m m' : gmap string Q) :
  is_ok (record_loss loss m) = is_ok (record_loss loss m').
Proof.
  destruct loss as [item|items|]; simpl; try reflexivity.
  destruct (decide (items = ∅)); reflexivity.
Qed.

Lemma update_times_lookup (t0 t1 t2 t3 lr : Q) (m : gmap string Q) (key : string) :
  is_loss_or_error key = true ->
  update_times t0 t1 t2 t3 lr m !! key = m !! key.
Proof.
  intros Hkey. unfold update_times.
  rewrite !lookup_insert_ne; [reflexivity| | | | |];
    intros <-; vm_compute in Hkey; discriminate.
Qed.


(** What a batch that runs to its end does. *)
Lemma train_batch_ok (data : batch_data) (batch : nat)
    (metrics m2 : gmap string Q) (st st' : run_state) :
  train_batch data batch metrics st = (st', Ok m2) ->
  exists loss m1,
    forward_loss (net st) data = Ok loss
    /\ record_loss loss metrics = Ok m1
    /\ has_grad_problem (net st) data = false
    /\ net st' = optimizer_step (net st) data
    /\ batch_end_calls st' = (batch_end_calls st ++ [(batch, m2)])%list
    /\ (forall key, is_loss_or_error key = true -> m2 !! key = m1 !! key).
Proof.
  unfold train_batch.
  destruct (forward_loss (net st) data) as [loss|e]; [|intros [= _ ?]; discriminate].
  destruct (record_loss loss metrics) as [m1|e] eqn:Hrec; [|intros [= _ ?]; discriminate].
  destruct (has_grad_problem (net st) data) eqn:Hgrad; [intros [= _ ?]; discriminate|].
  intros [= <- <-]. exists loss, m1. simpl.
  repeat split; auto. intros key Hkey. apply update_times_lookup, Hkey.
Qed.

(** A batch that raises leaves the callback log as it was. *)
Lemma train_batch_raise (data : batch_data) (batch : nat)
    (metrics : gmap string Q) (st st' : run_state) (e : exn) :
  train_batch data batch metrics st = (st', Raise e) ->
  batch_end_calls st' = batch_end_calls st.
Proof.
  unfold train_batch.
  destruct (forward_loss (net st) data) as [loss|e0]; [|intros [= <- _]; reflexivity].
  destruct (record_loss loss metrics) as [m1|e0]; [|intros [= <- _]; reflexivity].
  destruct (has_grad_problem (net st) data); [intros [= <- _]; reflexivity|].
  discriminate.
Qed.

(** The loop invariant: counter, callback log and accumulated sums. *)
Lemma train_loop_ok (pes : option Z) (data_loader : list batch_data) :
  forall (batch : nat) (metrics : gmap string Q) (st st' : run_state)
         (batch' : nat) (metrics' : gmap string Q),
    train_loop pes data_loader batch metrics st = (st', Ok (batch', metrics')) ->
    let done := processed pes data_loader batch (net st) in
    batch' = (batch + length done)%nat
    /\ length (batch_end_calls st') = (length (batch_end_calls st) + length done)%nat
    /\ (done = [] -> metrics' = metrics)
    /\ (forall key, is_loss_or_error key = true ->
          (mval metrics' key == mval metrics key + loss_sum key done)%Q).
Proof.
  induction data_loader as [|data rest IH]; intros batch metrics st st' batch' metrics';
    cbn [train_loop processed].
  - intros [= <- <- <-]. cbn. repeat split; auto; try lia.
    intros key _. unfold loss_sum. simpl. ring.
  - destruct (reached pes batch).
    + intros [= <- <- <-]. cbn. repeat split; auto; try lia.
      intros key _. unfold loss_sum. simpl. ring.
    + destruct (train_batch data batch metrics st) as [st1 [m2|e]] eqn:Hb;
        [|discriminate].
      intros Hloop.
      destruct (train_batch_ok _ _ _ _ _ _ Hb)
        as (loss & m1 & Hfw & Hrec & Hgrad & Hnet & Hcalls & Hm2).
      rewrite Hfw, (record_loss_is_ok loss ∅ metrics), Hrec, Hgrad. cbn.
      specialize (IH _ _ _ _ _ _ Hloop). cbn in IH. rewrite Hnet in IH.
      destruct IH as (Hb' & Hlen & _ & Hsum).
      repeat split.
      * lia.
      * rewrite Hlen, Hcalls, length_app. simpl. lia.
      * discriminate.
      * intros key Hkey. rewrite (Hsum key Hkey).
        unfold loss_sum. simpl. fold (loss_sum key
          (processed pes rest (S batch) (optimizer_step (net st) data))).
        assert (Hk : (mval m2 key == mval metrics key + contribution key loss)%Q).
        { unfold mval at 1. rewrite (Hm2 key Hkey). fold (mval m1 key).
          apply record_loss_mval, Hrec. }
        rewrite Hk. unfold loss_sum. ring.
Qed.

(** With a non-negative [per_epoch_steps] the counter never passes it. *)
Lemma processed_bound (k : Z) (data_loader : list batch_data) :
  forall (batch : nat) (n : model_state),
    Z.of_nat batch <= k ->
    Z.of_nat (batch + length (processed (Some k) data_loader batch n)) <= k.
Proof.
  induction data_loader as [|data rest IH]; intros batch n Hle; cbn [processed].
  - simpl. lia.
  - unfold reached. destruct (Z.eqb_spec (Z.of_nat batch) k) as [Heq|Hne].
    + simpl. lia.
    + destruct (forward_loss n data) as [loss|e]; [|simpl; lia].
      destruct (is_ok (record_loss loss ∅) && negb (has_grad_problem n data));
        [|simpl; lia].
      cbn [length]. specialize (IH (S batch) (optimizer_step n data)).
      replace (batch + S (length (processed (Some k) rest (S batch) (optimizer_step n data))))%nat
        with (S batch + length (processed (Some k) rest (S batch) (optimizer_step n data)))%nat by lia.
      apply IH. lia.
Qed.

(** However the loop ends, it has completed no more batches than the
    loader has, and no more than a non-negative [per_epoch_steps]
    leaves room for. *)
Lemma train_loop_calls (pes : option Z) (data_loader : list batch_data) :
  forall (batch : nat) (metrics : gmap string Q) (st st' : run_state)
         (r : result (nat * gmap string Q)),
    train_loop pes data_loader batch metrics st = (st', r) ->
    (length (batch_end_calls st) <= length (batch_end_calls st'))%nat
    /\ (length (batch_end_calls st') <= length (batch_end_calls st) + length data_loader)%nat
    /\ (forall k, pes = Some k -> Z.of_nat batch <= k ->
          Z.of_nat (length (batch_end_calls st') + batch)
          <= Z.of_nat (length (batch_end_calls st)) + k).
Proof.
  induction data_loader as [|data rest IH]; intros batch metrics st st' r;
    cbn [train_loop].
  - intros [= <- <-]. simpl. repeat split; try lia.
  - destruct (reached pes batch) eqn:Hreach.
    + intros [= <- <-]. simpl. repeat split; try lia.
    + destruct (train_batch data batch metrics st) as [st1 [m2|e]] eqn:Hb.
      * intros Hloop. apply IH in Hloop. destruct Hloop as (H1 & H2 & H3).
        destruct (train_batch_ok _ _ _ _ _ _ Hb)
          as (loss & m1 & _ & _ & _ & _ & Hcalls & _).
        rewrite Hcalls, length_app in *. simpl in *.
        repeat split; try lia.
        intros k -> Hle. unfold reached in Hreach.
        apply Z.eqb_neq in Hreach.
        specialize (H3 k eq_refl). lia.
      * intros [= <- <-]. rewrite (train_batch_raise _ _ _ _ _ _ Hb).
        simpl. repeat split; try lia.
Qed.



Lemma average_fold (batch : nat) (keys : list string) :
  batch <> 0%nat ->
  NoDup keys ->
  forall acc : gmap string Q,
    (forall p, p ∈ keys -> is_Some (acc !! p)) ->
    exists acc',
      fold_left
        (fun acc p =>
           Py.bind acc (fun m =>
           if is_loss_or_error p
           then Py.bind (getitem m p) (fun v =>
                Py.bind (div_batch v batch) (fun q => Ok (<[p := q]> m)))
           else Ok m))
        keys (Ok acc) = Ok acc'
      /\ forall p, acc' !! p =
           if decide (p ∈ keys) then averaged batch p <$> acc !! p else acc !! p.
Proof.
  intros Hbatch Hnodup. induction Hnodup as [|k keys Hk Hnodup IH]; intros acc Hdom.
  - exists acc. split; [reflexivity|]. intros p.
    destruct (decide (p ∈ [])) as [Hin|_]; [|reflexivity].
    apply elem_of_nil in Hin. contradiction.
  - cbn [fold_left Py.bind].
    destruct (Hdom k) as [v Hv]; [left|].
    assert (Hstep : exists acc1,
               (if is_loss_or_error k
                then Py.bind (getitem acc k) (fun v =>
                     Py.bind (div_batch v batch) (fun q => Ok (<[k := q]> acc)))
                else Ok acc) = Ok acc1
               /\ acc1 !! k = Some (averaged batch k v)
               /\ forall p, p <> k -> acc1 !! p = acc !! p).
    { unfold averaged. destruct (is_loss_or_error k).
      - unfold getitem. rewrite Hv. cbn [Py.bind]. unfold div_batch.
        destruct batch as [|b]; [contradiction|]. cbn [Py.bind].
        eexists. split; [reflexivity|]. split.
        + apply lookup_insert_eq.
        + intros p Hp. apply lookup_insert_ne. congruence.
      - exists acc. auto. }
    destruct Hstep as (acc1 & -> & Hk1 & Hother).
    destruct (IH acc1) as (acc' & Hfold & Hacc').
    { intros p Hp. destruct (decide (p = k)) as [->|Hne].
      - rewrite Hk1. eauto.
      - rewrite (Hother p Hne). apply Hdom. right. exact Hp. }
    exists acc'. split; [exact Hfold|]. intros p. rewrite Hacc'.
    destruct (decide (p = k)) as [->|Hne].
    + destruct (decide (k ∈ keys)) as [Hin|_]; [contradiction|].
      destruct (decide (k ∈ k :: keys)) as [_|Hnin]; [|exfalso; apply Hnin; left].
      rewrite Hk1, Hv. reflexivity.
    + rewrite (Hother p Hne).
      destruct (decide (p ∈ keys)) as [Hin|Hnin];
        destruct (decide (p ∈ k :: keys)) as [Hin'|Hnin']; try reflexivity.
      * exfalso. apply Hnin'. right. exact Hin.
      * apply elem_of_cons in Hin'. destruct Hin' as [->|Hin']; contradiction.
Qed.

(** With a positive batch count the closing loop divides the entries
    named after a loss or an error, and keeps the others. *)
Lemma average_metrics_ok (batch : nat) (metrics : gmap string Q) :
  batch <> 0%nat ->
  exists metrics',
    average_metrics batch metrics = Ok metrics'
    /\ forall p, metrics' !! p = averaged batch p <$> metrics !! p.
Proof.
  intros Hbatch. unfold average_metrics.
  destruct (average_fold batch (map fst (map_to_list metrics)) Hbatch
              (NoDup_fst_map_to_list metrics) metrics) as (m' & Hfold & Hm').
  { intros p Hp. apply list_elem_of_fmap in Hp. destruct Hp as ([p' v] & -> & Hin).
    apply elem_of_map_to_list in Hin. simpl. eauto. }
  exists m'. split; [exact Hfold|]. intros p. rewrite Hm'.
  destruct (decide (p ∈ map fst (map_to_list metrics))) as [_|Hnin]; [reflexivity|].
  destruct (metrics !! p) as [v|] eqn:Hp; [|reflexivity].
  exfalso. apply Hnin. apply list_elem_of_fmap. exists (p, v). split; [reflexivity|].
  apply elem_of_map_to_list. exact Hp.
Qed.

Lemma average_metrics_empty (batch : nat) : average_metrics batch ∅ = Ok ∅.
Proof. unfold average_metrics. rewrite map_to_list_empty. reflexivity. Qed.

End TrainStepFacts.

Section TrainStepPrefix.
Import BaseTrainer.
Context `{F : Framework}.

(** With [per_epoch_steps = k] the loop never looks past the first [k]
    batches of the loader. *)
Lemma train_loop_prefix (k : nat) (data_loader : list batch_data) :
  forall (batch : nat) (metrics : gmap string Q) (st : run_state),
    (batch <= k)%nat ->
    train_loop (Some (Z.of_nat k)) data_loader batch metrics st
    = train_loop (Some (Z.of_nat k)) (firstn (k - batch) data_loader) batch metrics st.
Proof.
  induction data_loader as [|data rest IH]; intros batch metrics st Hle.
  - rewrite firstn_nil. reflexivity.
  - cbn [train_loop]. unfold reached.
    destruct (Z.eqb_spec (Z.of_nat batch) (Z.of_nat k)) as [Heq|Hne].
    + replace (k - batch)%nat with 0%nat by lia. reflexivity.
    + destruct (k - batch)%nat as [|n] eqn:Hn; [lia|].
      cbn [firstn train_loop]. unfold reached.
      destruct (Z.eqb_spec (Z.of_nat batch) (Z.of_nat k)) as [Heq|_]; [contradiction|].
      destruct (train_batch data batch metrics st) as [st' [m'|e]]; [|reflexivity].
      replace n with (k - S batch)%nat by lia. apply IH. lia.
Qed.

Lemma train_step_prefix (k : Z) (data_loader : list batch_data) (st : run_state) :
  0 <= k ->
  train_step (Some k) data_loader st
  = train_step (Some k) (firstn (Z.to_nat k) data_loader) st.
Proof.
  intros Hk. unfold train_step.
  rewrite <- (Z2Nat.id k Hk) at 1 3.
  rewrite (train_loop_prefix (Z.to_nat k) data_loader 0) by lia.
  rewrite Nat.sub_0_r, Z2Nat.id by exact Hk. reflexivity.
Qed.

(** *** What a loss adds under its key *)

Lemma contribution_tensor (item : Q) :
  contribution "train_loss" (LossTensor item) = item.
Proof. reflexivity. Qed.

Lemma fold_contribution (name : string) (l : list (string * Q)) :
  NoDup (map fst l) ->
  forall a : Q,
    let total :=
      fold_left (fun acc entry =>
                   if String.eqb (name ++ "_train_loss") (fst entry ++ "_train_loss")
                   then (acc + snd entry)%Q else acc) l a in
    (forall item, (name, item) ∈ l -> (total == a + item)%Q)
    /\ (name ∉ map fst l -> (total == a)%Q).
Proof.
  induction l as [|[n item] l IH]; intros Hnodup a; cbn [fold_left map fst snd].
  - split; [|reflexivity]. intros item Hin. apply elem_of_nil in Hin. contradiction.
  - apply NoDup_cons in Hnodup as [Hfresh Hnodup].
    destruct (String.eqb_spec (name ++ "_train_loss") (n ++ "_train_loss")) as [Heq|Hne].
    + apply append_inj_r in Heq. subst n.
      destruct (IH Hnodup (a + item)%Q) as [_ Hout]. split.
      * intros item' Hin. apply elem_of_cons in Hin as [[= <-]|Hin].
        -- apply Hout, Hfresh.
        -- exfalso. apply Hfresh. apply list_elem_of_fmap.
           exists (name, item'). auto.
      * intros Hnot. exfalso. apply Hnot. left.
    + destruct (IH Hnodup a) as [Hin Hout]. split.
      * intros item' Hi. apply elem_of_cons in Hi as [[= <- <-]|Hi];
          [contradiction | apply Hin, Hi].
      * intros Hnot. apply Hout. intros Hmem. apply Hnot. right. exact Hmem.
Qed.

(** Under the key of one of its names a dictionary of losses adds that
    name's loss, and nothing under the key of a name it lacks. *)
Lemma contribution_dict (items : gmap string Q) (name : string) :
  (contribution (name ++ "_train_loss") (LossDict items)
   == default 0%Q (items !! name))%Q.
Proof.
  unfold contribution.
  destruct (fold_contribution name (map_to_list items)
              (NoDup_fst_map_to_list items) 0%Q) as [Hin Hout].
  destruct (items !! name) as [item|] eqn:Hname; cbn [default].
  - rewrite (Hin item); [apply Qplus_0_l|]. apply elem_of_map_to_list, Hname.
  - apply Hout. intros Hmem. apply list_elem_of_fmap in Hmem as ([n v] & Heq & Hmem).
    cbn in Heq. subst n. apply elem_of_map_to_list in Hmem. congruence.
Qed.

End TrainStepPrefix.

(** C7 (amended).  When [per_epoch_steps] is set to a non-negative
    number, a call of [train_step] completes at most that many batches,
    however it ends.  When it returns, every entry of the returned
    metrics whose name contains [loss] or [error] is the sum accumulated
    under that name over the completed batches, divided by their
    number. *)
Theorem train_step_steps_and_averages `{F : BaseTrainer.Framework}
    (per_epoch_steps : option Z) (data_loader : list BaseTrainer.batch_data)
    (st st' : BaseTrainer.run_state) (r : result (gmap string Q)) :
  BaseTrainer.train_step per_epoch_steps data_loader st = (st', r) ->
  (forall k, per_epoch_steps = Some k -> 0 <= k ->
     Z.of_nat (BaseTrainer.batches_done st st') <= k)
  /\ (forall metrics, r = Ok metrics ->
        let done := BaseTrainer.processed per_epoch_steps data_loader 0
                      (BaseTrainer.set_train_mode (BaseTrainer.net st)) in
        BaseTrainer.batches_done st st' = length done
        /\ forall key q,
             BaseTrainer.is_loss_or_error key = true ->
             metrics !! key = Some q ->
             (q == BaseTrainer.loss_sum key done / inject_Z (Z.of_nat (length done)))%Q).
Proof.
  unfold BaseTrainer.train_step, BaseTrainer.batches_done.
  set (st0 := {| BaseTrainer.net := BaseTrainer.set_train_mode (BaseTrainer.net st);
                 BaseTrainer.clock := BaseTrainer.clock st;
                 BaseTrainer.batch_end_calls := BaseTrainer.batch_end_calls st |}).
  destruct (BaseTrainer.train_loop per_epoch_steps data_loader 0 ∅ st0)
    as [st1 res] eqn:Hloop.
  pose proof (train_loop_calls _ _ _ _ _ _ _ Hloop) as (Hge & _ & Hk).
  intros Hres. destruct res as [[b m]|e]; injection Hres as <- Hr.
  - split.
    + intros k Hpes Hk0. specialize (Hk k Hpes). simpl in Hk, Hge. lia.
    + intros metrics ->.
      destruct (train_loop_ok _ _ _ _ _ _ _ _ Hloop) as (Hb & Hlen & Hnil & Hsum).
      simpl in Hb, Hlen, Hnil, Hsum. split; [lia|].
      intros key q Hkey Hq.
      destruct (BaseTrainer.processed per_epoch_steps data_loader 0
                  (BaseTrainer.set_train_mode (BaseTrainer.net st))) as [|l done] eqn:Hdone.
      * rewrite (Hnil eq_refl), average_metrics_empty in Hr.
        injection Hr as <-. rewrite lookup_empty in Hq. discriminate.
      * destruct (average_metrics_ok b m) as (m' & Hm' & Hlook); [simpl in Hb; lia|].
        rewrite Hm' in Hr. injection Hr as <-.
        rewrite Hlook in Hq. destruct (m !! key) as [v|] eqn:Hv; [|discriminate].
        injection Hq as <-. unfold BaseTrainer.averaged. rewrite Hkey.
        specialize (Hsum key Hkey). unfold BaseTrainer.mval in Hsum.
        rewrite Hv, lookup_empty in Hsum. simpl in Hsum.
        subst b. rewrite Hsum. simpl length.
        rewrite Qplus_0_l. reflexivity.
  - split.
    + intros k Hpes Hk0. specialize (Hk k Hpes). simpl in Hk, Hge. lia.
    + intros metrics Hm. subst r. discriminate.
Qed.

(** A negative [per_epoch_steps] counts as set for the test in [train],
    also with an infinite loader. *)
Example train_guard_negative : BaseTrainer.train_guard (Some (-1)) true = Ok tt.
Proof. reflexivity. Qed.

Example train_guard_unset :
  is_ok (BaseTrainer.train_guard None true) = false
  /\ is_ok (BaseTrainer.train_guard (Some 0) true) = false.
Proof. split; reflexivity. Qed.

(** C7, as stated, fails for a negative [per_epoch_steps]: the counter
    never equals it, so both batches of the loader are processed. *)
Lemma train_step_negative_steps :
  let st' := fst (@BaseTrainer.train_step Examples.counting_framework
                    (Some (-1)) [1%Q; 3%Q] Examples.fresh_run) in
  ~ (Z.of_nat (BaseTrainer.batches_done Examples.fresh_run st') <= -1).
Proof. vm_compute. intros Hle. apply Hle. reflexivity. Qed.

Lemma train_step_steps_and_averages_witness :
  let out := @BaseTrainer.train_step Examples.counting_framework
               (Some 1) [1%Q; 3%Q] Examples.fresh_run in
  (forall k, Some 1 = Some k -> 0 <= k ->
     Z.of_nat (BaseTrainer.batches_done Examples.fresh_run (fst out)) <= k)
  /\ (forall metrics, snd out = Ok metrics ->
        let done := @BaseTrainer.processed Examples.counting_framework
                      (Some 1) [1%Q; 3%Q] 0 0%nat in
        BaseTrainer.batches_done Examples.fresh_run (fst out) = length done
        /\ forall key q,
             BaseTrainer.is_loss_or_error key = true ->
             metrics !! key = Some q ->
             (q == BaseTrainer.loss_sum key done / inject_Z (Z.of_nat (length done)))%Q).
Proof.
  intros out.
  apply (@train_step_steps_and_averages Examples.counting_framework
           (Some 1) [1%Q; 3%Q] Examples.fresh_run (fst out) (snd out)).
  apply surjective_pairing.
Defined.

(** ** pkg/train/module/data_transform.py: the normalisation transforms *)

Lemma getitem_ok {V} (d : gmap string V) (key : string) (v : V) :
  getitem d key = Ok v -> d !! key = Some v.
Proof. unfold getitem. destruct (d !! key); [intros [= ->]; reflexivity | discriminate]. Qed.

Section NormFacts.
Import DataTransform.
Variable self : Norm.
Variable transform : string -> tensor -> result tensor.

(** The loop over the items of a dictionary: what it leaves in the
    dictionary, whether it completes or stops at an exception. *)
Lemma for_items_spec (items : list (string * tensor)) :
  NoDup (map fst items) ->
  forall (d d' : dict) (r : result unit),
    (forall name fea, (name, fea) ∈ items -> d !! name = Some fea) ->
    for_items self transform items d = (d', r) ->
    dom d' = dom d
    /\ (forall name,
          name ∉ map fst items \/ feature_config self !! name = None ->
          d' !! name = d !! name)
    /\ (r = Ok tt ->
        forall name fea,
          (name, fea) ∈ items ->
          is_Some (feature_config self !! name) ->
          exists fea', transform name fea = Ok fea' /\ d' !! name = Some fea').
Proof.
  induction items as [|[name fea] rest IH]; intros Hnodup d d' r Hd; cbn [for_items].
  - intros [= <- <-]. repeat split; auto.
    intros _ name fea Hin. apply elem_of_nil in Hin. contradiction.
  - cbn [map fst] in Hnodup. apply NoDup_cons in Hnodup as [Hfresh Hnodup].
    assert (Hrest : forall d1 : dict,
               (forall k, k <> name -> d1 !! k = d !! k) ->
               forall name' fea', (name', fea') ∈ rest -> d1 !! name' = Some fea').
    { intros d1 Hd1 name' fea' Hin. rewrite Hd1.
      - apply Hd. right. exact Hin.
      - intros ->. apply Hfresh. apply list_elem_of_fmap.
        exists (name, fea'). split; [reflexivity | exact Hin]. }
    destruct (decide (is_Some (feature_config self !! name))) as [Hcfg|Hcfg].
    + destruct (transform name fea) as [fea1|e] eqn:Htr.
      * intros Hloop.
        destruct (IH Hnodup _ _ _ (Hrest (<[name := fea1]> d)
                   (fun k Hk => lookup_insert_ne d name k fea1 (not_eq_sym Hk))) Hloop)
          as (Hdom & Hframe & Hdone).
        split; [|split].
        -- rewrite Hdom, dom_insert_L.
           apply subseteq_union_1_L, singleton_subseteq_l, elem_of_dom.
           rewrite (Hd name fea); [eauto|left].
        -- intros k Hk. rewrite Hframe.
           ++ apply lookup_insert_ne. intros <-. destruct Hk as [Hk|Hk].
              ** apply Hk. cbn. left.
              ** rewrite Hk in Hcfg. destruct Hcfg as [? [=]].
           ++ destruct Hk as [Hk|Hk]; [left|right; exact Hk].
              intros Hin. apply Hk. cbn. right. exact Hin.
        -- intros Hr k v Hin Hk. apply elem_of_cons in Hin as [[= -> ->]|Hin].
           ++ exists fea1. split; [exact Htr|]. rewrite Hframe.
              ** apply lookup_insert_eq.
              ** left. exact Hfresh.
           ++ apply (Hdone Hr k v Hin Hk).
      * intros [= <- <-]. repeat split; auto. discriminate.
    + intros Hloop.
      destruct (IH Hnodup _ _ _ (Hrest d (fun _ _ => eq_refl)) Hloop)
        as (Hdom & Hframe & Hdone).
      split; [exact Hdom|]. split.
      * intros k Hk. apply Hframe. destruct Hk as [Hk|Hk]; [left|right; exact Hk].
        intros Hin. apply Hk. cbn. right. exact Hin.
      * intros Hr k v Hin Hk. apply elem_of_cons in Hin as [[= -> ->]|Hin].
        -- contradiction.
        -- apply (Hdone Hr k v Hin Hk).
Qed.

(** The loop run over the dictionary's own items. *)
Lemma for_items_dict (d d' : dict) (r : result unit) :
  for_items self transform (map_to_list d) d = (d', r) ->
  dom d' = dom d
  /\ (forall name, feature_config self !! name = None -> d' !! name = d !! name)
  /\ (r = Ok tt ->
      forall name fea,
        d !! name = Some fea ->
        is_Some (feature_config self !! name) ->
        exists fea', transform name fea = Ok fea' /\ d' !! name = Some fea').
Proof.
  intros Hloop.
  destruct (for_items_spec (map_to_list d) (NoDup_fst_map_to_list d) d d' r) as (Hdom & Hframe & Hdone).
  - intros name fea Hin. apply elem_of_map_to_list. exact Hin.
  - exact Hloop.
  - split; [exact Hdom|]. split.
    + intros name Hname. apply Hframe. right. exact Hname.
    + intros Hr name fea Hfea. apply Hdone; [exact Hr|].
      apply elem_of_map_to_list. exact Hfea.
Qed.

(** Both dictionaries of a sample after a [__call__]. *)
Lemma call_spec (s s' : sample) (r : result unit) :
  call self transform s = (s', r) ->
  (dom (fst s') = dom (fst s) /\ dom (snd s') = dom (snd s))
  /\ (forall name, feature_config self !! name = None ->
        fst s' !! name = fst s !! name /\ snd s' !! name = snd s !! name)
  /\ (r = Ok tt ->
      forall name fea,
        is_Some (feature_config self !! name) ->
        (fst s !! name = Some fea ->
         exists fea', transform name fea = Ok fea' /\ fst s' !! name = Some fea')
        /\ (snd s !! name = Some fea ->
            exists fea', transform name fea = Ok fea' /\ snd s' !! name = Some fea')).
Proof.
  destruct s as [context feature]. unfold call.
  destruct (for_items self transform (map_to_list context) context) as [context' rc] eqn:Hc.
  destruct (for_items_dict _ _ _ Hc) as (Hdc & Hfc & Hokc).
  destruct rc as [[]|e].
  - destruct (for_items self transform (map_to_list feature) feature) as [feature' rf] eqn:Hf.
    destruct (for_items_dict _ _ _ Hf) as (Hdf & Hff & Hokf).
    intros [= <- <-]. cbn [fst snd]. split; [auto|]. split; [auto|].
    intros Hr name fea Hcfg. split; intros Hfea.
    + apply (Hokc eq_refl name fea Hfea Hcfg).
    + apply (Hokf Hr name fea Hfea Hcfg).
  - intros [= <- <-]. cbn [fst snd]. split; [auto|]. split; [auto|]. discriminate.
Qed.

End NormFacts.

Section MaxMinFacts.
Import DataTransform.

Lemma Qmax_cases (x y : Q) : Qmax x y = x \/ Qmax x y = y.
Proof.
  unfold Qmax, GenericMinMax.gmax. destruct (x ?= y)%Q; auto.
Qed.

Lemma Qmin_cases (x y : Q) : Qmin x y = x \/ Qmin x y = y.
Proof.
  unfold Qmin, GenericMinMax.gmin. destruct (x ?= y)%Q; auto.
Qed.

(** A number between the bounds is scaled into the unit interval. *)
Lemma scaled_in_unit (x mn mx : Q) :
  (mn <= x)%Q -> (x <= mx)%Q -> (mn < mx)%Q -> in_unit ((x - mn) / (mx - mn)).
Proof.
  intros Hlo Hhi Hlt. unfold in_unit.
  assert (Hpos : (0 < mx - mn)%Q) by lra.
  split.
  - apply Qle_shift_div_l; [exact Hpos | lra].
  - apply Qle_shift_div_r; [exact Hpos | lra].
Qed.

(** *** Reductions along dimension 0 *)

Lemma fold_max_spec (v : list Q) :
  forall x : Q,
    fold_left Qmax v x ∈ x :: v
    /\ Forall (fun y => (y <= fold_left Qmax v x)%Q) (x :: v).
Proof.
  induction v as [|y v IH]; intros x; cbn [fold_left].
  - split; [left|]. constructor; [apply Qle_refl | constructor].
  - destruct (IH (Qmax x y)) as (Hin & Hall). split.
    + apply elem_of_cons in Hin as [Hin|Hin].
      * rewrite Hin. destruct (Qmax_cases x y) as [->| ->]; [left | right; left].
      * right; right; exact Hin.
    + inversion Hall as [|m l Hm Hl]; subst.
      constructor; [|constructor; [|exact Hl]].
      * eapply Qle_trans; [apply Q.le_max_l | exact Hm].
      * eapply Qle_trans; [apply Q.le_max_r | exact Hm].
Qed.

Lemma fold_min_spec (v : list Q) :
  forall x : Q,
    fold_left Qmin v x ∈ x :: v
    /\ Forall (fun y => (fold_left Qmin v x <= y)%Q) (x :: v).
Proof.
  induction v as [|y v IH]; intros x; cbn [fold_left].
  - split; [left|]. constructor; [apply Qle_refl | constructor].
  - destruct (IH (Qmin x y)) as (Hin & Hall). split.
    + apply elem_of_cons in Hin as [Hin|Hin].
      * rewrite Hin. destruct (Qmin_cases x y) as [->| ->]; [left | right; left].
      * right; right; exact Hin.
    + inversion Hall as [|m l Hm Hl]; subst.
      constructor; [|constructor; [|exact Hl]].
      * eapply Qle_trans; [exact Hm | apply Q.le_min_l].
      * eapply Qle_trans; [exact Hm | apply Q.le_min_r].
Qed.

Lemma Forall2_Qle_refl (l : list Q) : Forall2 Qle l l.
Proof. induction l; constructor; [apply Qle_refl | assumption]. Qed.

Lemma Forall2_Qle_trans (a b c : list Q) :
  Forall2 Qle a b -> Forall2 Qle b c -> Forall2 Qle a c.
Proof.
  intros Hab. revert c. induction Hab as [|x y a b Hxy Hab IH]; intros c Hbc;
    inversion Hbc; subst; constructor.
  - eapply Qle_trans; eassumption.
  - apply IH. assumption.
Qed.

(** One step of a column-wise reduction with an operator that picks one
    of its arguments. *)
Lemma zip_with_pick (red : Q -> Q -> Q) (acc row : list Q) :
  (forall x y, red x y = x \/ red x y = y) ->
  length acc = length row ->
  length (zip_with red acc row) = length row
  /\ forall j v, zip_with red acc row !! j = Some v ->
       acc !! j = Some v \/ row !! j = Some v.
Proof.
  intros Hpick. revert row. induction acc as [|x acc IH]; intros [|y row] Hlen;
    simpl in Hlen; try discriminate; cbn [zip_with].
  - split; [reflexivity|]. intros j v Hj. rewrite lookup_nil in Hj. discriminate.
  - destruct (IH row) as (Hl & Hj); [lia|]. split; [simpl; lia|].
    intros [|j] v; cbn [lookup list_lookup].
    + intros [= <-]. destruct (Hpick x y) as [->| ->]; auto.
    + apply Hj.
Qed.

Lemma zip_with_max_bounds (acc row : list Q) :
  length acc = length row ->
  Forall2 Qle acc (zip_with Qmax acc row) /\ Forall2 Qle row (zip_with Qmax acc row).
Proof.
  revert row. induction acc as [|x acc IH]; intros [|y row] Hlen;
    simpl in Hlen; try discriminate; cbn [zip_with].
  - split; constructor.
  - destruct (IH row) as (H1 & H2); [lia|].
    split; constructor; auto; [apply Q.le_max_l | apply Q.le_max_r].
Qed.

Lemma zip_with_min_bounds (acc row : list Q) :
  length acc = length row ->
  Forall2 Qle (zip_with Qmin acc row) acc /\ Forall2 Qle (zip_with Qmin acc row) row.
Proof.
  revert row. induction acc as [|x acc IH]; intros [|y row] Hlen;
    simpl in Hlen; try discriminate; cbn [zip_with].
  - split; constructor.
  - destruct (IH row) as (H1 & H2); [lia|].
    split; constructor; auto; [apply Q.le_min_l | apply Q.le_min_r].
Qed.

(** The column-wise maximum of a rectangular block. *)
Lemma fold_zip_max_spec (c : nat) (rows : list (list Q)) :
  rectangular c rows ->
  forall acc : list Q,
    length acc = c ->
    let m := fold_left (zip_with Qmax) rows acc in
    length m = c
    /\ Forall2 Qle acc m
    /\ Forall (fun row => Forall2 Qle row m) rows
    /\ forall j v, m !! j = Some v ->
         acc !! j = Some v \/ exists row, row ∈ rows /\ row !! j = Some v.
Proof.
  intros Hrect. induction Hrect as [|row rows Hrow Hrect IH]; intros acc Hacc;
    cbn [fold_left].
  - repeat split; auto using Forall2_Qle_refl.
  - destruct (zip_with_pick Qmax acc row Qmax_cases) as (Hlen & Hpick); [congruence|].
    destruct (zip_with_max_bounds acc row) as (Hb1 & Hb2); [congruence|].
    destruct (IH (zip_with Qmax acc row)) as (Hl & Hle & Hall & Hatt); [congruence|].
    split; [exact Hl|]. split; [eapply Forall2_Qle_trans; eassumption|]. split.
    + constructor; [eapply Forall2_Qle_trans; eassumption | exact Hall].
    + intros j v Hj. destruct (Hatt j v Hj) as [Hz|(r & Hr & Hrj)].
      * destruct (Hpick j v Hz) as [Ha|Hr]; [left; exact Ha|].
        right. exists row. split; [left | exact Hr].
      * right. exists r. split; [right; exact Hr | exact Hrj].
Qed.

Lemma fold_zip_min_spec (c : nat) (rows : list (list Q)) :
  rectangular c rows ->
  forall acc : list Q,
    length acc = c ->
    let m := fold_left (zip_with Qmin) rows acc in
    length m = c
    /\ Forall2 Qle m acc
    /\ Forall (fun row => Forall2 Qle m row) rows
    /\ forall j v, m !! j = Some v ->
         acc !! j = Some v \/ exists row, row ∈ rows /\ row !! j = Some v.
Proof.
  intros Hrect. induction Hrect as [|row rows Hrow Hrect IH]; intros acc Hacc;
    cbn [fold_left].
  - repeat split; auto using Forall2_Qle_refl.
  - destruct (zip_with_pick Qmin acc row Qmin_cases) as (Hlen & Hpick); [congruence|].
    destruct (zip_with_min_bounds acc row) as (Hb1 & Hb2); [congruence|].
    destruct (IH (zip_with Qmin acc row)) as (Hl & Hle & Hall & Hatt); [congruence|].
    split; [exact Hl|]. split; [eapply Forall2_Qle_trans; eassumption|]. split.
    + constructor; [eapply Forall2_Qle_trans; eassumption|].
      exact Hall.
    + intros j v Hj. destruct (Hatt j v Hj) as [Hz|(r & Hr & Hrj)].
      * destruct (Hpick j v Hz) as [Ha|Hr]; [left; exact Ha|].
        right. exists row. split; [left | exact Hr].
      * right. exists r. split; [right; exact Hr | exact Hrj].
Qed.

(** [_calculate_max_min] returns the extrema along dimension 0. *)
Lemma calculate_max_min_extrema (fea mx mn : tensor) :
  well_shaped fea ->
  _calculate_max_min fea = Ok (mx, mn) ->
  dim0_extrema fea mx mn.
Proof.
  destruct fea as [x|v|rows]; cbn.
  - intros _ [= <- <-]. split; reflexivity.
  - intros _. destruct v as [|x v]; [discriminate|]. cbn. intros [= <- <-].
    cbn. destruct (fold_max_spec v x), (fold_min_spec v x). auto.
  - intros [c Hrect]. destruct rows as [|row rows]; [discriminate|]. cbn.
    intros [= <- <-]. cbn.
    inversion Hrect as [|r rs Hrow Hrest]; subst.
    destruct (fold_zip_max_spec _ rows Hrest row eq_refl) as (_ & Hmle & Hmall & Hmatt).
    destruct (fold_zip_min_spec _ rows Hrest row eq_refl) as (_ & Hnle & Hnall & Hnatt).
    split; [|split].
    + constructor; [split; assumption|].
      apply Forall_forall. intros r Hr.
      rewrite Forall_forall in Hmall, Hnall. split; auto.
    + intros j v Hj. destruct (Hmatt j v Hj) as [Ha|(r & Hr & Hrj)].
      * exists row. split; [left | exact Ha].
      * exists r. split; [right; exact Hr | exact Hrj].
    + intros j v Hj. destruct (Hnatt j v Hj) as [Ha|(r & Hr & Hrj)].
      * exists row. split; [left | exact Ha].
      * exists r. split; [right; exact Hr | exact Hrj].
Qed.


(** *** The transform on matching shapes *)

Lemma map_result_pure {A B} (f : A -> result B) (g : A -> B) (l : list A) :
  Forall (fun a => f a = Ok (g a)) l ->
  map_result f l = Ok (map g l).
Proof.
  induction 1 as [|a l Ha Hl IH]; cbn; [reflexivity|].
  rewrite Ha, IH. reflexivity.
Qed.

Lemma bcast1_same (op : Q -> Q -> Q) (a b : list Q) :
  length a = length b ->
  bcast1 op a b = Ok (zip_with op a b).
Proof.
  intros Hlen. unfold bcast1, bcast. rewrite Hlen, Nat.eqb_refl.
  rewrite (map_result_pure _ (fun p => op (fst p) (snd p))).
  - f_equal. clear Hlen. revert b. induction a as [|x a IH]; intros [|y b];
      cbn; try reflexivity. f_equal. apply IH.
  - apply Forall_forall. reflexivity.
Qed.

Lemma scale_row_zip (row mins maxs : list Q) :
  zip_with Qdiv (zip_with Qminus row mins) (zip_with Qminus maxs mins)
  = scale_row row mins maxs.
Proof.
  unfold scale_row. revert mins maxs.
  induction row as [|x row IH]; intros [|mn mins] [|mx maxs]; cbn; try reflexivity.
  f_equal. apply IH.
Qed.

(** With statistics as wide as the rows, the transform scales every row
    column by column. *)
Lemma transform_rows (rows : list (list Q)) (maxs mins : list Q) :
  Forall (fun row => length row = length mins) rows ->
  length maxs = length mins ->
  _normal_max_min_transform (T2 rows) (T1 maxs) (T1 mins)
  = Ok (scaled_tensor (T2 rows) (T1 maxs) (T1 mins)).
Proof.
  intros Hrows Hmax. unfold _normal_max_min_transform, sub, div. cbn [binop].
  rewrite (map_result_pure _ (fun row => zip_with Qminus row mins)).
  2:{ eapply Forall_impl; [exact Hrows|]. intros row Hrow. apply bcast1_same, Hrow. }
  cbn [Py.bind]. rewrite (bcast1_same _ _ _ Hmax). cbn [Py.bind binop].
  rewrite (map_result_pure _ (fun r => zip_with Qdiv r (zip_with Qminus maxs mins))).
  2:{ apply Forall_forall. intros r Hr. apply list_elem_of_fmap in Hr as (row & -> & Hin).
      rewrite Forall_forall in Hrows. apply bcast1_same.
      rewrite !length_zip_with. rewrite (Hrows row Hin). lia. }
  cbn. f_equal. f_equal. rewrite map_map. apply map_ext. intros row.
  apply scale_row_zip.
Qed.

Lemma transform_vector (v : list Q) (mx mn : Q) :
  _normal_max_min_transform (T1 v) (T0 mx) (T0 mn)
  = Ok (scaled_tensor (T1 v) (T0 mx) (T0 mn)).
Proof.
  unfold _normal_max_min_transform, sub, div. cbn. rewrite map_map. reflexivity.
Qed.

Lemma scale_row_in_unit (row : list Q) :
  forall mins maxs : list Q,
    Forall2 Qle mins row -> Forall2 Qle row maxs -> Forall2 Qlt mins maxs ->
    Forall in_unit (scale_row row mins maxs).
Proof.
  unfold scale_row.
  induction row as [|x row IH]; intros mins maxs Hlo Hhi Hlt;
    inversion Hlo; inversion Hhi; subst; inversion Hlt; subst; cbn.
  - constructor.
  - constructor; [apply scaled_in_unit; assumption | apply IH; assumption].
Qed.

(** Scaling with extrema that differ strictly lands in the unit
    interval. *)
Lemma transform_in_unit (fea mx mn : tensor) :
  dim0_extrema fea mx mn ->
  strictly_above mx mn ->
  _normal_max_min_transform fea mx mn = Ok (scaled_tensor fea mx mn)
  /\ all_entries in_unit (scaled_tensor fea mx mn).
Proof.
  destruct fea as [x|v|rows], mx as [mx|maxs|?], mn as [mn|mins|?];
    cbn [dim0_extrema strictly_above]; try contradiction.
  - intros [-> ->] Hlt. exfalso. revert Hlt. apply Qlt_irrefl.
  - intros [[_ Hmax] [_ Hmin]] Hlt. split; [apply transform_vector|].
    cbn. apply Forall_forall. intros q Hq.
    apply list_elem_of_fmap in Hq as (x & -> & Hx).
    rewrite Forall_forall in Hmax, Hmin. apply scaled_in_unit; auto.
  - intros (Hbounds & _ & _) Hlt. split.
    + apply transform_rows.
      * eapply Forall_impl; [exact Hbounds|]. intros row [Hlo _].
        symmetry. eapply Forall2_length, Hlo.
      * symmetry. eapply Forall2_length, Hlt.
    + cbn. apply Forall_forall. intros r Hr.
      apply list_elem_of_fmap in Hr as (row & -> & Hin).
      unfold column_bounds in Hbounds. rewrite Forall_forall in Hbounds.
      destruct (Hbounds row Hin). apply scale_row_in_unit; assumption.
Qed.

Lemma Forall2_bound_r (P : Q -> Prop) (R : Q -> Q -> Prop) (l k : list Q) :
  (forall x y, R x y -> P x -> P y) ->
  Forall2 R l k -> Forall P l -> Forall P k.
Proof.
  intros Hstep Hall. induction Hall as [|x y l k Hxy Hall IH]; intros Hl; [constructor|].
  inversion Hl; subst. constructor; eauto.
Qed.

Lemma Forall2_bound_l (P : Q -> Prop) (R : Q -> Q -> Prop) (l k : list Q) :
  (forall x y, R x y -> P y -> P x) ->
  Forall2 R l k -> Forall P k -> Forall P l.
Proof.
  intros Hstep Hall. induction Hall as [|x y l k Hxy Hall IH]; intros Hk; [constructor|].
  inversion Hk; subst. constructor; eauto.
Qed.

(** With [coarse_dim], the statistics are reduced once more to the
    overall maximum and minimum; scaling with these also lands in the
    unit interval. *)
Lemma coarse_in_unit (fea col_max col_min mx mn fea' : tensor) :
  dim0_extrema fea col_max col_min ->
  torch_max col_max = Ok mx ->
  torch_min col_min = Ok mn ->
  strictly_above col_max col_min ->
  _normal_max_min_transform fea mx mn = Ok fea' ->
  all_entries in_unit fea'.
Proof.
  destruct fea as [x|v|rows], col_max as [cmx|maxs|?], col_min as [cmn|mins|?];
    cbn [dim0_extrema strictly_above]; try contradiction.
  - intros [-> ->] _ _ Hlt. exfalso. revert Hlt. apply Qlt_irrefl.
  - intros Hext [= <-] [= <-] Hlt Htr.
    destruct (transform_in_unit (T1 v) (T0 cmx) (T0 cmn) Hext Hlt) as [Heq Hunit].
    rewrite Heq in Htr. injection Htr as <-. exact Hunit.
  - intros (Hbounds & _ & _) Hmax Hmin Hlt.
    destruct maxs as [|x maxs]; [discriminate|]. injection Hmax as <-.
    destruct mins as [|y mins]; [discriminate|]. injection Hmin as <-.
    destruct (fold_max_spec maxs x) as [_ Hmaxs].
    destruct (fold_min_spec mins y) as [_ Hmins].
    set (M := fold_left Qmax maxs x) in *. set (m := fold_left Qmin mins y) in *.
    assert (Hstrict : (m < M)%Q).
    { inversion Hlt; subst. inversion Hmaxs; subst. inversion Hmins; subst.
      eapply Qle_lt_trans; [eassumption|]. eapply Qlt_le_trans; eassumption. }
    unfold _normal_max_min_transform, sub, div. cbn. intros [= <-]. cbn.
    rewrite map_map. apply Forall_forall. intros r Hr.
    apply list_elem_of_fmap in Hr as (row & -> & Hin).
    unfold column_bounds in Hbounds. rewrite Forall_forall in Hbounds.
    destruct (Hbounds row Hin) as [Hlo Hhi].
    assert (Hrow_lo : Forall (fun a => (m <= a)%Q) row).
    { eapply (Forall2_bound_r (fun a => (m <= a)%Q)); [|exact Hlo | exact Hmins].
      intros a b Hab Ha. eapply Qle_trans; eassumption. }
    assert (Hrow_hi : Forall (fun a => (a <= M)%Q) row).
    { eapply (Forall2_bound_l (fun a => (a <= M)%Q)); [|exact Hhi | exact Hmaxs].
      intros a b Hab Hb. eapply Qle_trans; eassumption. }
    rewrite map_map. apply Forall_forall. intros q Hq.
    apply list_elem_of_fmap in Hq as (a & -> & Ha).
    rewrite Forall_forall in Hrow_lo, Hrow_hi.
    apply scaled_in_unit; auto.
Qed.

End MaxMinFacts.


(** C9.  A call of [MaxMinNorm] or [NormalNorm], whether it returns or
    raises, leaves both dictionaries with the keys they had, and every
    entry whose name has no configured statistics with the value it
    had: only entries named in [feature_config] are touched. *)
Theorem norm_call_frame `{CommonConstant} (self : DataTransform.Norm)
    (s s' : DataTransform.sample) (r : result unit) :
  DataTransform.MaxMinNorm_call self s = (s', r)
  \/ DataTransform.NormalNorm_call self s = (s', r) ->
  dom (fst s') = dom (fst s)
  /\ dom (snd s') = dom (snd s)
  /\ forall name,
       DataTransform.feature_config self !! name = None ->
       fst s' !! name = fst s !! name /\ snd s' !! name = snd s !! name.
Proof.
  unfold DataTransform.MaxMinNorm_call, DataTransform.NormalNorm_call.
  intros [Hcall|Hcall]; apply call_spec in Hcall;
    destruct Hcall as ((Hc & Hf) & Hframe & _); auto.
Qed.


(** The bound of [range_fits] keeps a difference finite in
    [torch.float32] as well. *)
Lemma int64_max_float32 : (DataTransform.int64_max <= DataTransform.float32_max)%Q.
Proof. vm_compute. discriminate. Qed.

(** A column whose range is beyond [float32_max]: [2^127], [-2^127] and
    [0] are numbers of [torch.float32] and the maximum is strictly above
    the minimum, but [max - min] is [2^128].  In floating point this
    difference is [inf] and the code stores [nan] for the maximum; the
    bound [range_fits] is what sets such a column aside. *)
Example max_min_beyond_float32 :
  let fea := DataTransform.T2 [[inject_Z (2 ^ 127)]; [inject_Z (- 2 ^ 127)]; [0%Q]] in
  exists mx mn,
    DataTransform._calculate_max_min fea = Ok (mx, mn)
    /\ DataTransform.strictly_above mx mn
    /\ ~ DataTransform.range_fits mx mn
    /\ forall lo hi, mn = DataTransform.T1 [lo] -> mx = DataTransform.T1 [hi] ->
         ~ (hi - lo <= DataTransform.float32_max)%Q.
Proof.
  do 2 eexists. split; [vm_compute; reflexivity|]. split; [repeat constructor|]. split.
  - intros Hfits. inversion Hfits as [|lo hi los his Hle _]; subst.
    vm_compute in Hle. apply Hle. reflexivity.
  - intros lo hi [= <-] [= <-] Hle. vm_compute in Hle. apply Hle. reflexivity.
Qed.


Lemma norm_call_frame_witness :
  let out := @DataTransform.NormalNorm_call Examples.constants
               Examples.column_norm Examples.node_sample in
  dom (fst (fst out)) = dom (fst Examples.node_sample)
  /\ dom (snd (fst out)) = dom (snd Examples.node_sample)
  /\ forall name,
       DataTransform.feature_config Examples.column_norm !! name = None ->
       fst (fst out) !! name = fst Examples.node_sample !! name
       /\ snd (fst out) !! name = snd Examples.node_sample !! name.
Proof.
  intros out.
  apply (@norm_call_frame Examples.constants Examples.column_norm
           Examples.node_sample (fst out) (snd out)).
  right. apply surjective_pairing.
Defined.

(** ** task/passive_biv/data/datasets_preparation_hdf5.py: file names *)

Section FormatFacts.
Import Preparation.

Lemma zeros_string_of_uint (k : nat) (d : Decimal.uint) :
  zeros k ++ NilEmpty.string_of_uint d = NilEmpty.string_of_uint (pad_uint k d).
Proof.
  induction k as [|k IH]; [reflexivity|].
  change (zeros (S k) ++ NilEmpty.string_of_uint d)
    with (String "0" (zeros k ++ NilEmpty.string_of_uint d)).
  rewrite IH. reflexivity.
Qed.

Lemma of_uint_pad (k : nat) (d : Decimal.uint) :
  N.of_uint (pad_uint k d) = N.of_uint d.
Proof. induction k as [|k IH]; cbn; [reflexivity|]. exact IH. Qed.

Lemma str_of_N_nil_empty (n : N) :
  str_of_N n = NilEmpty.string_of_uint (N.to_uint n).
Proof.
  unfold str_of_N, NilZero.string_of_uint.
  destruct (N.to_uint n) eqn:Hn; try reflexivity.
  exfalso. destruct n as [|p]; cbn in Hn; [discriminate|].
  exact (DecimalPos.Unsigned.to_uint_nonnil p Hn).
Qed.

Lemma zfill_str (width : nat) (n : N) :
  exists k, zfill width (str_of_N n) = NilEmpty.string_of_uint (pad_uint k (N.to_uint n)).
Proof.
  unfold zfill. rewrite str_of_N_nil_empty. eexists. apply zeros_string_of_uint.
Qed.

Lemma parse_digits (d : Decimal.uint) :
  parse_04d (NilEmpty.string_of_uint d) = Some (Z.of_N (N.of_uint d)).
Proof.
  assert (H : parse_04d (NilEmpty.string_of_uint d)
              = option_map (fun d => Z.of_N (N.of_uint d))
                  (NilEmpty.uint_of_string (NilEmpty.string_of_uint d)))
    by (destruct d; reflexivity).
  rewrite H, NilEmpty.usu. reflexivity.
Qed.

(** What [format_04d] prints reads back as the number printed. *)
Lemma parse_format_04d (z : Z) : parse_04d (format_04d z) = Some z.
Proof.
  unfold format_04d. destruct (Z.ltb_spec z 0) as [Hneg|Hpos].
  - destruct (zfill_str 3 (Z.abs_N z)) as [k ->].
    cbn [parse_04d]. rewrite NilEmpty.usu. cbn [option_map].
    rewrite of_uint_pad, DecimalN.Unsigned.of_to, N2Z.inj_abs_N. f_equal. lia.
  - destruct (zfill_str 4 (Z.to_N z)) as [k ->].
    rewrite parse_digits, of_uint_pad, DecimalN.Unsigned.of_to. f_equal. lia.
Qed.

Lemma format_04d_inj (a b : Z) : format_04d a = format_04d b -> a = b.
Proof.
  intros Heq. apply (f_equal parse_04d) in Heq.
  rewrite !parse_format_04d in Heq. congruence.
Qed.

(** Different indices name different files. *)
Lemma read_file_name_inj (a b : Z) : read_file_name a = read_file_name b -> a = b.
Proof.
  unfold read_file_name. intros Heq.
  apply append_inj_l, append_inj_r, format_04d_inj in Heq. lia.
Qed.

Lemma path_inj (dir : string) (a b : Z) :
  dir ++ read_file_name a = dir ++ read_file_name b -> a = b.
Proof. intros Heq. apply append_inj_l, read_file_name_inj in Heq. exact Heq. Qed.

Example read_file_name_5 : read_file_name 4 = "/ct_case_0005.csv".
Proof. reflexivity. Qed.

Example read_file_name_wide : read_file_name 12344 = "/ct_case_12345.csv".
Proof. reflexivity. Qed.

End FormatFacts.

(** ** task/passive_biv/data/datasets_preparation_hdf5.py: chunks *)

Section ArraySplitFacts.
Import Preparation.
Context {A : Type}.

Lemma cumsum_pairs (ary : list A) (sizes : list nat) :
  forall a : nat,
    map (fun p => slice (fst p) (snd p) ary) (zip (a :: cumsum a sizes) (cumsum a sizes))
    = split_at a sizes ary.
Proof.
  induction sizes as [|s sizes IH]; intros a; cbn [cumsum zip zip_with map split_at];
    [reflexivity|].
  f_equal.
  - unfold slice. cbn [fst snd]. f_equal. lia.
  - apply IH.
Qed.

(** [np.array_split] cuts the array into successive pieces of the sizes
    [section_sizes] lists. *)
Lemma array_split_eq (ary : list A) (n : Z) :
  0 < n ->
  array_split ary n = Ok (split_at 0 (section_sizes (length ary) (Z.to_nat n)) ary).
Proof.
  intros Hn. unfold array_split.
  destruct (Z.leb_spec n 0) as [Hle|_]; [lia|].
  f_equal. cbn [cumsum]. apply (cumsum_pairs ary _ 0%nat).
Qed.

Lemma split_at_length (ary : list A) (sizes : list nat) :
  forall a : nat, length (split_at a sizes ary) = length sizes.
Proof. induction sizes as [|s sizes IH]; intros a; cbn; [reflexivity|]. f_equal. apply IH. Qed.

Lemma split_at_lengths (ary : list A) (sizes : list nat) :
  forall a : nat,
    (a + sum_list sizes <= length ary)%nat ->
    map length (split_at a sizes ary) = sizes.
Proof.
  induction sizes as [|s sizes IH]; intros a Hle; cbn [split_at map]; [reflexivity|].
  change (sum_list (s :: sizes)) with (s + sum_list sizes)%nat in Hle. f_equal.
  - rewrite length_take, length_drop. lia.
  - apply IH. lia.
Qed.

Lemma split_at_concat (ary : list A) (sizes : list nat) :
  forall a : nat,
    concat (split_at a sizes ary) = firstn (sum_list sizes) (skipn a ary).
Proof.
  induction sizes as [|s sizes IH]; intros a; cbn [split_at concat].
  - reflexivity.
  - change (sum_list (s :: sizes)) with (s + sum_list sizes)%nat.
    rewrite IH, <- drop_drop. apply take_take_drop.
Qed.

Lemma sum_list_repeat (x k : nat) : sum_list (repeat x k) = (k * x)%nat.
Proof.
  induction k as [|k IH]; [reflexivity|].
  change (sum_list (repeat x (S k))) with (x + sum_list (repeat x k))%nat.
  rewrite IH. lia.
Qed.

Lemma sum_list_append (l k : list nat) :
  sum_list (l ++ k) = (sum_list l + sum_list k)%nat.
Proof.
  induction l as [|x l IH]; [reflexivity|].
  change (sum_list ((x :: l) ++ k)) with (x + sum_list (l ++ k))%nat.
  change (sum_list (x :: l)) with (x + sum_list l)%nat.
  rewrite IH. lia.
Qed.

Lemma section_sizes_sum (Ntotal Nsections : nat) :
  (0 < Nsections)%nat ->
  sum_list (section_sizes Ntotal Nsections) = Ntotal
  /\ length (section_sizes Ntotal Nsections) = Nsections.
Proof.
  intros Hpos. unfold section_sizes.
  pose proof (Nat.mod_upper_bound Ntotal Nsections ltac:(lia)) as Hmod.
  pose proof (Nat.div_mod_eq Ntotal Nsections) as Hdiv.
  rewrite sum_list_append, !sum_list_repeat, length_app, !repeat_length.
  split; [nia | lia].
Qed.

(** The chunks cover the array in order, and have the listed sizes. *)
Lemma array_split_ok (ary : list A) (n : Z) (chunks : list (list A)) :
  array_split ary n = Ok chunks ->
  0 < n
  /\ length chunks = Z.to_nat n
  /\ concat chunks = ary
  /\ map length chunks = section_sizes (length ary) (Z.to_nat n).
Proof.
  intros Hsplit.
  assert (Hn : 0 < n).
  { unfold array_split in Hsplit. destruct (Z.leb_spec n 0); [discriminate | lia]. }
  rewrite (array_split_eq ary n Hn) in Hsplit. injection Hsplit as <-.
  destruct (section_sizes_sum (length ary) (Z.to_nat n)) as [Hsum Hlen]; [lia|].
  split; [exact Hn|]. split; [|split].
  - rewrite split_at_length. exact Hlen.
  - rewrite split_at_concat, Hsum. cbn [skipn]. apply firstn_all.
  - apply split_at_lengths. rewrite Hsum. lia.
Qed.

End ArraySplitFacts.

(** When the chunk size divides the number of samples, every chunk has
    exactly that size. *)
Lemma section_sizes_divisible (chunk k : nat) :
  (0 < chunk)%nat -> (0 < k)%nat ->
  Preparation.section_sizes (chunk * k) k = repeat chunk k.
Proof.
  intros Hc Hk. unfold Preparation.section_sizes. cbv zeta.
  rewrite Nat.Div0.mod_mul, Nat.div_mul by lia. cbn [repeat app].
  rewrite Nat.sub_0_r. reflexivity.
Qed.

(** Five samples in chunks of two: two sections, of three and two
    samples. *)
Example section_sizes_5_2 :
  Preparation.array_split [0; 1; 2; 3; 4] (5 / 2) = Ok [[0; 1; 2]; [3; 4]].
Proof. reflexivity. Qed.

(** ** task/passive_biv/data/datasets_preparation_hdf5.py: the passes *)

Section PreparationFacts.
Import Preparation.
Context `{C : CommonConstant} `{E : External}.

Lemma bind_ok {A B} (r : result A) (k : A -> result B) (b : B) :
  Py.bind r k = Ok b -> exists a, r = Ok a /\ k a = Ok b.
Proof. destruct r as [a|e]; cbn; [eauto | discriminate]. Qed.

Lemma mbind_ok {A B} (m : M A) (k : A -> M B) (w w' : world) (b : B) :
  mbind m k w = (w', Ok b) ->
  exists a w1, m w = (w1, Ok a) /\ k a w1 = (w', Ok b).
Proof.
  unfold mbind. destruct (m w) as [w1 [a|e]]; [eauto | discriminate].
Qed.

Lemma lift_ok {A} (r : result A) (w w' : world) (a : A) :
  lift r w = (w', Ok a) -> w' = w /\ r = Ok a.
Proof. unfold lift. intros [= <- ->]. auto. Qed.

Lemma ret_ok {A} (a a' : A) (w w' : world) :
  ret a w = (w', Ok a') -> w' = w /\ a' = a.
Proof. unfold ret. intros [= <- <-]. auto. Qed.

Lemma extends_refl (w : world) : extends w w [] [] [].
Proof. unfold extends. rewrite !app_nil_r. auto. Qed.

Lemma extends_trans (w w1 w2 : world) r1 r2 h1 h2 s1 s2 :
  extends w w1 r1 h1 s1 -> extends w1 w2 r2 h2 s2 ->
  extends w w2 (r1 ++ r2) (h1 ++ h2) (s1 ++ s2).
Proof.
  unfold extends. intros (Hc & Hr & Hh & Hs) (Hc' & Hr' & Hh' & Hs').
  rewrite Hc', Hr', Hh', Hs', Hc, Hr, Hh, Hs, !app_assoc. auto.
Qed.

(** [np.loadtxt] logs the path, whatever comes of the call. *)
Lemma loadtxt_spec (path : string) (w w' : world) (r : result ndarray) :
  loadtxt path w = (w', r) ->
  extends w w' [path] [] []
  /\ forall arr, r = Ok arr ->
       exists rows, csv_files w !! path = Some rows /\ squeeze rows = Ok arr.
Proof.
  unfold loadtxt, extends.
  destruct (csv_files w !! path) as [rows|]; intros [= <- <-]; cbn;
    rewrite ?app_nil_r; repeat split; auto.
  - intros arr Harr. eauto.
  - discriminate.
Qed.

Lemma with_rng_spec {A} (f : rng_state -> A * rng_state) (w w' : world) (r : result A) :
  with_rng f w = (w', r) ->
  extends w w' [] [] [] /\ r = Ok (fst (f (rng w))).
Proof.
  unfold with_rng, extends. destruct (f (rng w)) as [a g]. intros [= <- <-]. cbn.
  rewrite !app_nil_r. auto.
Qed.

(** A 2-d array came from a file with exactly these rows. *)
Lemma squeeze_rows (rows rows' : list (list Q)) :
  squeeze rows = Ok (A2 rows') -> rows' = rows.
Proof.
  unfold squeeze. destruct (negb (same_width rows)); [discriminate|].
  destruct rows as [|r1 [|r2 rest]].
  - discriminate.
  - destruct r1 as [|x [|y r]]; discriminate.
  - destruct (length (hd [] (r1 :: r2 :: rest)) =? 1)%nat; [discriminate|].
    intros [= ->]. reflexivity.
Qed.

(** *** Selecting rows *)

Lemma take_rows_ok (sel : list nat) (rows : list (list Q)) (r : ndarray) :
  take_rows sel (A2 rows) = Ok r ->
  exists rs, r = A2 rs /\ Forall2 (fun i row => rows !! i = Some row) sel rs.
Proof.
  unfold take_rows. intros Hr. apply bind_ok in Hr as (rs & Hmap & [= <-]).
  exists rs. split; [reflexivity|].
  revert rs Hmap. induction sel as [|i sel IH]; cbn; intros rs.
  - intros [= <-]. constructor.
  - destruct (rows !! i) as [row|] eqn:Hi; cbn; [|discriminate].
    intros Hrs. apply bind_ok in Hrs as (rs' & Hrs' & [= <-]).
    constructor; auto.
Qed.

Lemma take_rows_intro (sel : list nat) (rows rs : list (list Q)) :
  Forall2 (fun i row => rows !! i = Some row) sel rs ->
  take_rows sel (A2 rows) = Ok (A2 rs).
Proof.
  unfold take_rows. intros Hall.
  assert (Hmap : DataTransform.map_result
            (fun i => match rows !! i with
                      | Some row => Ok row
                      | None => Raise (IndexError "index out of bounds")
                      end) sel = Ok rs).
  { induction Hall as [|i row sel rs Hi Hall IH]; cbn; [reflexivity|].
    rewrite Hi, IH. reflexivity. }
  rewrite Hmap. reflexivity.
Qed.

(** Selecting from a selection is a selection. *)
Lemma select_select (rows r1 r2 : list (list Q)) (sel1 sel2 : list nat) :
  Forall2 (fun i row => rows !! i = Some row) sel1 r1 ->
  Forall2 (fun j row => r1 !! j = Some row) sel2 r2 ->
  Forall2 (fun i row => rows !! i = Some row) (map (fun j => nth j sel1 0%nat) sel2) r2.
Proof.
  intros H1 H2. induction H2 as [|j row sel2 r2 Hj H2 IH]; cbn; constructor; [|exact IH].
  destruct (Forall2_lookup_r _ _ _ _ _ H1 Hj) as (i & Hi & Hrow).
  rewrite (nth_lookup_Some _ _ _ _ Hi). exact Hrow.
Qed.

(** [_down_sampling_node] reads and writes no file; what it returns are
    rows selected from its two arguments by one list of indices. *)
Lemma down_sampling_spec (self : PassiveBiVPreparationDataset)
    (record_inputs record_outputs : ndarray) (w w' : world)
    (r : result (ndarray * ndarray)) :
  _down_sampling_node self record_inputs record_outputs w = (w', r) ->
  extends w w' [] [] []
  /\ forall ri ro, r = Ok (ri, ro) ->
       exists sel,
         take_rows sel record_inputs = Ok ri /\ take_rows sel record_outputs = Ok ro.
Proof.
  unfold _down_sampling_node, mbind, lift, ret.
  destruct (shape2 record_inputs) as [num_nodes|e];
    [|intros [= <- <-]; split; [apply extends_refl | discriminate]].
  destruct (shape2 record_outputs) as [n'|e];
    [|intros [= <- <-]; split; [apply extends_refl | discriminate]].
  destruct (num_down_sample_node self) as [k|];
    [|intros [= <- <-]; split; [apply extends_refl | discriminate]].
  destruct (k >? Z.of_nat num_nodes);
    [intros [= <- <-]; split; [apply extends_refl | discriminate]|].
  destruct (k <? 0);
    [intros [= <- <-]; split; [apply extends_refl | discriminate]|].
  destruct (with_rng (fun g => random_choice g num_nodes (Z.to_nat k)) w)
    as [w1 rsel] eqn:Hrng.
  apply with_rng_spec in Hrng as [Hext ->].
  set (sel := fst (random_choice (rng w) num_nodes (Z.to_nat k))).
  destruct (take_rows sel record_inputs) as [ri|e] eqn:Hri;
    [|intros [= <- <-]; split; [exact Hext | discriminate]].
  destruct (take_rows sel record_outputs) as [ro|e] eqn:Hro.
  - intros [= <- <-]. split; [exact Hext|].
    intros ri' ro' [= <- <-]. exists sel. auto.
  - intros [= <- <-]. split; [exact Hext | discriminate].
Qed.

Lemma edges_extends (self : PassiveBiVPreparationDataset) (coords : list (list Q))
    (w w' : world) (r : result (list (list (list Z)))) :
  _generate_distance_based_edges self coords w = (w', r) ->
  extends w w' [] [] [].
Proof.
  unfold _generate_distance_based_edges, mbind, lift.
  destruct (String.eqb (platform self) DARWIN).
  - destruct (with_rng _ w) as [w1 r1] eqn:Hrng.
    apply with_rng_spec in Hrng as [Hext ->]. intros [= <- _]. exact Hext.
  - destruct (with_rng _ w) as [w1 r1] eqn:Hrng.
    apply with_rng_spec in Hrng as [Hext ->]. intros [= <- _]. exact Hext.
Qed.


Lemma take_rows_A2 (sel : list nat) (arr r : ndarray) :
  take_rows sel arr = Ok r -> exists rows rs, arr = A2 rows /\ r = A2 rs.
Proof.
  destruct arr as [x|v|rows]; try discriminate. intros Hr.
  destruct (take_rows_ok _ _ _ Hr) as (rs & -> & _). eauto.
Qed.

(** One conditional call of [_down_sampling_node] in [_data_generation]. *)
Lemma cond_down_sampling_spec (self : PassiveBiVPreparationDataset) (b : bool)
    (io : ndarray * ndarray) (w w' : world) (r : result (ndarray * ndarray)) :
  (if b then _down_sampling_node self (fst io) (snd io) else ret io) w = (w', r) ->
  extends w w' [] [] []
  /\ forall io', r = Ok io' ->
       (b = false /\ io' = io)
       \/ (b = true
           /\ exists sel, take_rows sel (fst io) = Ok (fst io')
                          /\ take_rows sel (snd io) = Ok (snd io')).
Proof.
  destruct b.
  - intros Hd. apply down_sampling_spec in Hd as [Hext Hd]. split; [exact Hext|].
    intros [ri ro] ->. right. split; [reflexivity|]. apply (Hd ri ro eq_refl).
  - unfold ret. intros [= <- <-]. split; [apply extends_refl|].
    intros io' [= <-]. left. auto.
Qed.

(** Two selections in a row, applied to inputs and outputs alike. *)
Lemma take_rows_twice (sel1 sel2 : list nat) (a b a1 b1 a2 b2 : ndarray) :
  take_rows sel1 a = Ok a1 -> take_rows sel1 b = Ok b1 ->
  take_rows sel2 a1 = Ok a2 -> take_rows sel2 b1 = Ok b2 ->
  exists sel, take_rows sel a = Ok a2 /\ take_rows sel b = Ok b2.
Proof.
  intros Ha Hb Ha2 Hb2.
  destruct (take_rows_A2 _ _ _ Ha) as (ra & ra1 & -> & ->).
  destruct (take_rows_A2 _ _ _ Hb) as (rb & rb1 & -> & ->).
  destruct (take_rows_ok _ _ _ Ha) as (? & [= <-] & Fa).
  destruct (take_rows_ok _ _ _ Hb) as (? & [= <-] & Fb).
  destruct (take_rows_ok _ _ _ Ha2) as (ra2 & -> & Fa2).
  destruct (take_rows_ok _ _ _ Hb2) as (rb2 & -> & Fb2).
  exists (map (fun j => nth j sel1 0%nat) sel2).
  split; apply take_rows_intro; eapply select_select; eassumption.
Qed.

Lemma slice_cols_ok (a b : nat) (arr r : ndarray) :
  slice_cols a b arr = Ok r -> exists rows, arr = A2 rows /\ r = A2 (map (slice a b) rows).
Proof. destruct arr as [x|v|rows]; try discriminate. intros [= <-]. eauto. Qed.

(** The inner loop body: the two files it reads and the sample it
    builds. *)
Lemma generate_sample_spec (self : PassiveBiVPreparationDataset)
    (data_global_feature data_shape_coeff : ndarray) (idx : Z)
    (w w' : world) (s : sample_dict) :
  generate_sample self data_global_feature data_shape_coeff idx w = (w', Ok s) ->
  extends w w' [inputs_data_path self ++ read_file_name idx;
                outputs_data_path self ++ read_file_name idx] [] []
  /\ sample_spec self (csv_files w) idx s.
Proof.
  unfold generate_sample. intros H.
  apply mbind_ok in H as (record_inputs & w1 & Hin & H). cbv beta in H.
  apply loadtxt_spec in Hin as [Hext1 Hin].
  destruct (Hin _ eq_refl) as (raw_in & Hfile_in & Hsq_in). clear Hin.
  apply mbind_ok in H as (record_outputs & w2 & Hout & H). cbv beta in H.
  apply loadtxt_spec in Hout as [Hext2 Hout].
  destruct (Hout _ eq_refl) as (raw_out & Hfile_out & Hsq_out). clear Hout.
  apply mbind_ok in H as (pts & w3 & Hpts & H). cbv beta in H.
  apply lift_ok in Hpts as [-> Hpts].
  apply mbind_ok in H as (io1 & w4 & Hio1 & H). cbv beta in H.
  apply (cond_down_sampling_spec self _ (record_inputs, record_outputs)) in Hio1
    as [Hext3 Hio1]. specialize (Hio1 _ eq_refl).
  apply mbind_ok in H as (io2 & w5 & Hio2 & H). cbv beta zeta in H.
  apply (cond_down_sampling_spec self _ io1) in Hio2 as [Hext4 Hio2].
  specialize (Hio2 _ eq_refl).
  apply mbind_ok in H as (coords & w6 & Hcoords & H). cbv beta in H.
  apply lift_ok in Hcoords as [-> Hcoords].
  apply bind_ok in Hcoords as (c & Hc & Hrows).
  apply slice_cols_ok in Hc as (rin & Hrin & ->). cbn in Hrows. injection Hrows as <-.
  apply mbind_ok in H as (edge & w7 & Hedge & H). cbv beta in H.
  pose proof (edges_extends _ _ _ _ _ Hedge) as Hext5.
  apply lift_ok in H as [-> H].
  apply bind_ok in H as (nc & Hnc & H).
  apply bind_ok in H as (lc & Hlc & H).
  apply bind_ok in H as (fs & Hfs & H).
  apply bind_ok in H as (edge0 & He0 & H).
  apply bind_ok in H as (mp & _ & H).
  apply bind_ok in H as (pr & _ & H).
  apply bind_ok in H as (sh & _ & H).
  apply bind_ok in H as (dp & Hdp & H).
  apply bind_ok in H as (st & Hst & H).
  injection H as <-.
  rewrite Hrin in Hnc, Hlc, Hfs. cbn in Hnc, Hlc, Hfs.
  injection Hnc as <-. injection Hlc as <-. injection Hfs as <-.
  apply slice_cols_ok in Hdp as (rout & Hrout & ->).
  rewrite Hrout in Hst. cbn in Hst. injection Hst as <-.
  split.
  - pose proof (extends_trans _ _ _ _ _ _ _ _ _ Hext1 Hext2) as H12.
    pose proof (extends_trans _ _ _ _ _ _ _ _ _ H12 Hext3) as H13.
    pose proof (extends_trans _ _ _ _ _ _ _ _ _ H13 Hext4) as H14.
    pose proof (extends_trans _ _ _ _ _ _ _ _ _ H14 Hext5) as H15.
    cbn in H15. exact H15.
  - destruct Hext1 as [Hcsv1 _]. rewrite Hcsv1 in Hfile_out.
    assert (Hsel :
      (downsampled self = false /\ record_inputs = A2 rin /\ record_outputs = A2 rout)
      \/ (downsampled self = true
          /\ exists sel, take_rows sel record_inputs = Ok (A2 rin)
                         /\ take_rows sel record_outputs = Ok (A2 rout))).
    { unfold downsampled. destruct io2 as [i2 o2], io1 as [i1 o1].
      cbn [fst snd] in *. subst i2 o2.
      destruct Hio1 as [[Hb1 [= <- <-]]|[Hb1 (sel1 & Hi1 & Ho1)]];
        destruct Hio2 as [[Hb2 [= <- <-]]|[Hb2 (sel2 & Hi2 & Ho2)]];
        rewrite Hb1, Hb2; cbn [orb].
      - left. auto.
      - right. split; [reflexivity|]. eauto.
      - right. split; [reflexivity|]. eauto.
      - right. split; [reflexivity|]. eapply take_rows_twice; eassumption. }
    assert (Hraw : exists rows_in rows_out,
               record_inputs = A2 rows_in /\ record_outputs = A2 rows_out).
    { destruct Hsel as [(_ & -> & ->)|(_ & sel & Hi & Ho)]; [eauto|].
      destruct (take_rows_A2 _ _ _ Hi) as (ri & ? & -> & _).
      destruct (take_rows_A2 _ _ _ Ho) as (ro & ? & -> & _). eauto. }
    destruct Hraw as (rows_in & rows_out & -> & ->).
    apply squeeze_rows in Hsq_in, Hsq_out. subst rows_in rows_out.
    cbn in Hpts. injection Hpts as <-.
    exists raw_in, raw_out, rin, rout, edge, edge0. do 2 eexists.
    split; [exact Hfile_in|]. split; [exact Hfile_out|]. split.
    { destruct Hsel as [(Hd & [= <-] & [= <-])|(Hd & Hsel)]; [left|right]; auto. }
    split; [exact Hedge|]. split; [exact He0|].
    unfold stored_sample. cbn. repeat split; reflexivity.
Qed.


(** *** Loops *)

(** A loop whose bodies all return: the reads add up, the files written
    add up, and every body's result is as its specification [P] says. *)
Lemma for_each_ok {A B} (body : A -> M B) (R : A -> list string)
    (P : gmap string (list (list Q)) -> A -> B -> list (string * h5file) -> Prop) :
  (forall a w w' b, body a w = (w', Ok b) ->
     exists ws, extends w w' (R a) ws [] /\ P (csv_files w) a b ws) ->
  forall l w w' bs,
    for_each body l w = (w', Ok bs) ->
    exists wss,
      extends w w' (flat_map R l) (concat wss) []
      /\ Forall3 (P (csv_files w)) l bs wss.
Proof.
  intros Hbody. induction l as [|a l IH]; intros w w' bs; cbn [for_each].
  - intros Hret. apply ret_ok in Hret as [-> ->]. exists [].
    split; [apply extends_refl | constructor].
  - intros H. apply mbind_ok in H as (b & w1 & Hb & H). cbv beta in H.
    apply mbind_ok in H as (bs' & w2 & Hbs & H). cbv beta in H.
    apply ret_ok in H as [-> ->].
    destruct (Hbody _ _ _ _ Hb) as (ws & Hext1 & HP).
    destruct (IH _ _ _ Hbs) as (wss & Hext2 & Hall).
    exists (ws :: wss). split.
    + pose proof (extends_trans _ _ _ _ _ _ _ _ _ Hext1 Hext2) as Hext.
      cbn in Hext. exact Hext.
    + constructor; [exact HP|]. destruct Hext1 as [Hcsv _]. rewrite <- Hcsv. exact Hall.
Qed.

(** One chunk: its samples' files are read in order, then one HDF5 file
    with one group per sample is written. *)
Lemma generate_chunk_spec (self : PassiveBiVPreparationDataset)
    (data_global_feature data_shape_coeff : ndarray) (i : nat) (chunk : list Z)
    (w w' : world) (u : unit) :
  generate_chunk self data_global_feature data_shape_coeff (i, chunk) w = (w', Ok u) ->
  exists datasets,
    extends w w' (flat_map (sample_files self) chunk)
      [(dataset_h5_path self i, groups_of datasets)] []
    /\ Forall2 (sample_spec self (csv_files w)) chunk datasets.
Proof.
  unfold generate_chunk. cbn [fst snd]. intros H.
  apply mbind_ok in H as (datasets & w1 & Hloop & H). cbv beta in H.
  destruct (for_each_ok
              (generate_sample self data_global_feature data_shape_coeff)
              (sample_files self)
              (fun files idx s ws => ws = [] /\ sample_spec self files idx s))
    with (2 := Hloop) as (wss & Hext & Hall).
  { intros idx w0 w0' s Hs. apply generate_sample_spec in Hs as [Hext Hs].
    exists []. auto. }
  assert (Hws : concat wss = [] /\ Forall2 (sample_spec self (csv_files w)) chunk datasets).
  { clear Hext Hloop H. induction Hall as [|idx s ws chunk datasets wss [-> Hs] Hall IH].
    - split; [reflexivity | constructor].
    - destruct IH as [Hc IH]. split; [cbn; exact Hc | constructor; assumption]. }
  destruct Hws as [Hnil Hspec]. rewrite Hnil in Hext.
  exists datasets. split; [|exact Hspec].
  unfold write_h5 in H. injection H as <- _.
  destruct Hext as (Hc & Hr & Hh & Hs). unfold extends. cbn.
  rewrite Hc, Hr, Hh, Hs, !app_nil_r. auto.
Qed.

Lemma enumerate_from_lookup {A} (l : list A) :
  forall (k i : nat) (a : A),
    l !! i = Some a -> enumerate_from k l !! i = Some ((k + i)%nat, a).
Proof.
  induction l as [|x l IH]; intros k [|i] a Hi; try discriminate.
  - injection Hi as ->. cbn. rewrite Nat.add_0_r. reflexivity.
  - change (enumerate_from (S k) l !! i = Some ((k + S i)%nat, a)).
    change (l !! i = Some a) in Hi.
    rewrite (IH (S k) i a Hi). do 2 f_equal. lia.
Qed.

(** The chunk loop seen from outside: the files written are one per
    chunk, numbered from [k]. *)
Lemma chunk_loop_files (self : PassiveBiVPreparationDataset)
    (files : gmap string (list (list Q))) (chunks : list (list Z)) :
  forall (k : nat) (us : list unit) (wss : list (list (string * h5file))),
    Forall3 (fun (ic : nat * list Z) (_ : unit) ws =>
               exists datasets,
                 ws = [(dataset_h5_path self (fst ic), groups_of datasets)]
                 /\ Forall2 (sample_spec self files) (snd ic) datasets)
            (enumerate_from k chunks) us wss ->
    exists stored,
      concat wss = map (fun p => (dataset_h5_path self (fst p), groups_of (snd p)))
                       (enumerate_from k stored)
      /\ Forall2 (Forall2 (sample_spec self files)) chunks stored.
Proof.
  induction chunks as [|chunk chunks IH]; intros k us wss Hall; cbn in Hall.
  - inversion Hall; subst. exists []. split; [reflexivity | constructor].
  - inversion Hall as [|ic u ws l us' wss' (datasets & -> & Hds) Hrest]; subst.
    destruct (IH _ _ _ Hrest) as (stored & Hcat & Hstored).
    exists (datasets :: stored). cbn. rewrite Hcat. split; [reflexivity|].
    constructor; assumption.
Qed.

Lemma flat_map_enumerate {A B} (f : A -> list B) (l : list A) :
  forall k : nat, flat_map (fun ic : nat * A => f (snd ic)) (enumerate_from k l) = flat_map f l.
Proof. induction l as [|a l IH]; intros k; cbn; [reflexivity|]. rewrite IH. reflexivity. Qed.

Lemma flat_map_concat {A B} (f : A -> list B) (ls : list (list A)) :
  flat_map (flat_map f) ls = flat_map f (concat ls).
Proof.
  induction ls as [|l ls IH]; cbn; [reflexivity|].
  rewrite IH, flat_map_app. reflexivity.
Qed.

(** The generation pass, when it returns: the chunks it makes, the files
    it reads, the HDF5 files it writes and the samples in them. *)
Lemma data_generation_spec (self : PassiveBiVPreparationDataset) (w w' : world) (u : unit) :
  _data_generation self w = (w', Ok u) ->
  exists chunks stored,
    floordiv (len (sample_indices self)) (chunk_file_size self)
      = Ok (len (sample_indices self) / chunk_file_size self)
    /\ array_split (sample_indices self)
         (len (sample_indices self) / chunk_file_size self) = Ok chunks
    /\ extends w w'
         ([global_feature_data_path self; shape_data_path self]
            ++ generation_sample_files self)
         (map (fun p => (dataset_h5_path self (fst p), groups_of (snd p)))
              (enumerate stored)) []
    /\ Forall2 (Forall2 (sample_spec self (csv_files w))) chunks stored.
Proof.
  unfold _data_generation. intros H.
  apply mbind_ok in H as (gf & w1 & Hgf & H). cbv beta in H.
  apply loadtxt_spec in Hgf as [Hext1 _].
  apply mbind_ok in H as (sc & w2 & Hsc & H). cbv beta in H.
  apply loadtxt_spec in Hsc as [Hext2 _].
  apply mbind_ok in H as (n & w3 & Hn & H). cbv beta in H.
  apply lift_ok in Hn as [-> Hn].
  assert (Hdiv : n = len (sample_indices self) / chunk_file_size self).
  { unfold floordiv in Hn. destruct (chunk_file_size self =? 0); [discriminate|].
    injection Hn as <-. reflexivity. }
  apply mbind_ok in H as (chunks & w4 & Hchunks & H). cbv beta in H.
  apply lift_ok in Hchunks as [-> Hchunks].
  apply mbind_ok in H as (us & w5 & Hloop & H). cbv beta in H.
  apply ret_ok in H as [-> _].
  destruct (for_each_ok
              (generate_chunk self gf sc)
              (fun ic => flat_map (sample_files self) (snd ic))
              (fun files ic (_ : unit) ws =>
                 exists datasets,
                   ws = [(dataset_h5_path self (fst ic), groups_of datasets)]
                   /\ Forall2 (sample_spec self files) (snd ic) datasets))
    with (2 := Hloop) as (wss & Hext3 & Hall).
  { intros [i chunk] w0 w0' [] Hb.
    destruct (generate_chunk_spec _ _ _ _ _ _ _ _ Hb) as (datasets & Hext & Hds).
    eexists. split; [exact Hext|]. exists datasets. auto. }
  unfold enumerate in *.
  destruct (chunk_loop_files self _ chunks 0 us wss Hall) as (stored & Hcat & Hstored).
  exists chunks, stored. subst n. split; [exact Hn|]. split; [exact Hchunks|].
  assert (Hcsv : csv_files w2 = csv_files w).
  { destruct Hext1 as [Hc1 _], Hext2 as [Hc2 _]. congruence. }
  rewrite Hcsv in Hstored. split; [|exact Hstored].
  pose proof (extends_trans _ _ _ _ _ _ _ _ _ Hext1 Hext2) as H12.
  pose proof (extends_trans _ _ _ _ _ _ _ _ _ H12 Hext3) as H13.
  cbn [app] in H13. rewrite Hcat in H13.
  rewrite (flat_map_enumerate (flat_map (sample_files self)) chunks 0) in H13.
  rewrite flat_map_concat in H13.
  destruct (array_split_ok _ _ _ Hchunks) as (_ & _ & Hconcat & _).
  rewrite Hconcat in H13. exact H13.
Qed.

End PreparationFacts.

Section GenerationTheorems.
Import Preparation.
Context `{C : CommonConstant} `{E : External}.

Lemma groups_of_lookup (datasets : list sample_dict) (j : nat) (s : sample_dict) :
  datasets !! j = Some s -> groups_of datasets !! j = Some (group_name j, s).
Proof.
  intros Hj. unfold groups_of, enumerate.
  change (map ?f ?l) with (f <$> l).
  rewrite list_lookup_fmap, (enumerate_from_lookup _ 0 j s Hj). reflexivity.
Qed.

Lemma groups_of_length (datasets : list sample_dict) :
  length (groups_of datasets) = length datasets.
Proof.
  unfold groups_of, enumerate. rewrite length_map.
  generalize 0%nat. induction datasets as [|s l IH]; intros k; cbn; [reflexivity|].
  rewrite IH. reflexivity.
Qed.

(** [np.int32] keeps what fits into 32 bits. *)
Lemma int32_id (x : Z) : - 2 ^ 31 <= x < 2 ^ 31 -> int32 x = x.
Proof. intros Hx. unfold int32. rewrite Z.mod_small; lia. Qed.

(** The sizes of the files the generation pass writes are those of the
    sections [np.array_split] makes. *)
Lemma data_generation_file_sizes (self : PassiveBiVPreparationDataset)
    (w w' : world) (u : unit) :
  _data_generation self w = (w', Ok u) ->
  exists writes,
    h5_written w' = (h5_written w ++ writes)%list
    /\ map (fun f => length (snd f)) writes
       = section_sizes (length (sample_indices self))
           (Z.to_nat (len (sample_indices self) / chunk_file_size self)).
Proof.
  intros Hgen. apply data_generation_spec in Hgen
    as (chunks & stored & _ & Hsplit & (_ & _ & Hh5 & _) & Hstored).
  eexists. split; [exact Hh5|].
  destruct (array_split_ok _ _ _ Hsplit) as (_ & _ & _ & <-).
  unfold enumerate. generalize 0%nat. clear Hh5 Hsplit.
  induction Hstored as [|chunk ds chunks stored Hds Hstored IH]; intros k;
    cbn [map enumerate_from fst snd]; [reflexivity|].
  rewrite groups_of_length, (Forall2_length _ _ _ Hds), IH. reflexivity.
Qed.

(** When [chunk_file_size] divides the number of samples, every file
    written holds exactly [chunk_file_size] groups. *)
Lemma data_generation_even_chunks (self : PassiveBiVPreparationDataset)
    (w w' : world) (u : unit) (k : nat) :
  0 < chunk_file_size self ->
  (0 < k)%nat ->
  len (sample_indices self) = chunk_file_size self * Z.of_nat k ->
  _data_generation self w = (w', Ok u) ->
  exists writes,
    h5_written w' = (h5_written w ++ writes)%list
    /\ map (fun f => length (snd f)) writes
       = repeat (Z.to_nat (chunk_file_size self)) k.
Proof.
  intros Hc Hk Hlen Hgen.
  destruct (data_generation_file_sizes self w w' u Hgen) as (writes & Hh5 & Hsizes).
  exists writes. split; [exact Hh5|]. rewrite Hsizes, Hlen.
  rewrite Z.mul_comm, Z.div_mul by lia. rewrite Nat2Z.id.
  unfold len in Hlen.
  replace (length (sample_indices self))
    with (Z.to_nat (chunk_file_size self) * k)%nat by lia.
  apply section_sizes_divisible; lia.
Qed.

End GenerationTheorems.

(** When the chunk size does not divide the number of samples, the
    first section is larger than the chunk size. *)
Lemma first_section_larger (L c : nat) :
  (0 < c)%nat -> (c <= L)%nat -> (L mod c <> 0)%nat ->
  exists s rest,
    Preparation.section_sizes L (L / c) = s :: rest /\ (c < s)%nat.
Proof.
  intros Hc Hle Hrem. unfold Preparation.section_sizes.
  set (N := (L / c)%nat).
  assert (HN : (0 < N)%nat) by (apply Nat.div_str_pos; lia).
  pose proof (Nat.div_mod_eq L c) as Hdc.
  pose proof (Nat.mod_upper_bound L c ltac:(lia)) as Hrc.
  pose proof (Nat.div_mod_eq L N) as HdN.
  pose proof (Nat.mod_upper_bound L N ltac:(lia)) as HrN.
  fold N in Hdc.
  destruct (L mod N)%nat as [|e] eqn:He.
  - cbn [repeat app]. rewrite Nat.sub_0_r.
    destruct N as [|N']; [lia|]. cbn [repeat]. do 2 eexists. split; [reflexivity|]. nia.
  - cbn [repeat app]. do 2 eexists. split; [reflexivity|]. nia.
Qed.

Section UnevenChunks.
Import Preparation.
Context `{C : CommonConstant} `{E : External}.

(** Whenever [chunk_file_size] does not divide the number of samples,
    the first file written holds more than [chunk_file_size] groups. *)
Lemma data_generation_first_file_larger (self : PassiveBiVPreparationDataset)
    (w w' : world) (u : unit) :
  0 < chunk_file_size self ->
  len (sample_indices self) mod chunk_file_size self <> 0 ->
  _data_generation self w = (w', Ok u) ->
  exists path groups rest,
    h5_written w' = (h5_written w ++ (path, groups) :: rest)%list
    /\ chunk_file_size self < Z.of_nat (length groups).
Proof.
  intros Hc Hrem Hgen.
  pose proof (data_generation_spec self w w' u Hgen)
    as (chunks & _ & _ & Hsplit & _ & _).
  apply array_split_ok in Hsplit as (Hpos & _).
  destruct (data_generation_file_sizes self w w' u Hgen) as (writes & Hh5 & Hsizes).
  unfold len in *. set (L := length (sample_indices self)) in *.
  set (c := Z.to_nat (chunk_file_size self)).
  assert (Hcz : chunk_file_size self = Z.of_nat c) by (unfold c; lia).
  rewrite Hcz in *. rewrite <- Nat2Z.inj_div, Nat2Z.id in Hsizes.
  rewrite <- Nat2Z.inj_div in Hpos. rewrite <- Nat2Z.inj_mod in Hrem.
  destruct (first_section_larger L c) as (s & rest & Hsec & Hlt).
  - lia.
  - destruct (Nat.le_gt_cases c L) as [Hle|Hgt]; [exact Hle|].
    rewrite Nat.div_small in Hpos by exact Hgt. lia.
  - lia.
  - rewrite Hsec in Hsizes. destruct writes as [|[path groups] writes]; [discriminate|].
    cbn in Hsizes. injection Hsizes as Hs _.
    exists path, groups, writes. split; [exact Hh5|]. lia.
Qed.

End UnevenChunks.

Section StoredSamples.
Import Preparation.
Context `{C : CommonConstant} `{E : External}.

(** Casting to 32 bits twice is casting once. *)
Lemma int32_int32 (x : Z) : int32 (int32 x) = int32 x.
Proof.
  apply int32_id. unfold int32.
  pose proof (Z.mod_pos_bound (x + 2 ^ 31) (2 ^ 32) ltac:(lia)). lia.
Qed.

(** [l[0]] is the first entry. *)
Lemma py_index_first {A} (l : list A) (a : A) : py_index l 0 = Ok a -> l !! 0%nat = Some a.
Proof.
  unfold py_index. cbn. destruct (0 <? len l); cbn; [|discriminate].
  destruct l as [|x l]; cbn; [discriminate|]. intros [= ->]. reflexivity.
Qed.

(** What [sample_spec] says, without the functions of the class: the
    names of the two files, the rows kept, the columns stored and the
    generator the edges come from. *)
Lemma sample_spec_stored (self : PassiveBiVPreparationDataset)
    (files : gmap string (list (list Q))) (idx : Z) (s : sample_dict) :
  sample_spec self files idx s ->
  exists raw_in raw_out rin rout edges,
    files !! (inputs_data_path self ++ "/ct_case_" ++ format_04d (idx + 1) ++ ".csv")
    = Some raw_in
    /\ files !! (outputs_data_path self ++ "/ct_case_" ++ format_04d (idx + 1) ++ ".csv")
       = Some raw_out
    /\ (if downsampled self
        then exists sel,
               Forall2 (fun k row => raw_in !! k = Some row) sel rin
               /\ Forall2 (fun k row => raw_out !! k = Some row) sel rout
        else rin = raw_in /\ rout = raw_out)
    /\ points s = [int32 (Z.of_nat (length raw_in))]
    /\ node_coord s = A2 (map (firstn 3) rin)
    /\ laplace_coord s = A2 (map (fun row => firstn 8 (skipn 3 row)) rin)
    /\ fiber_and_sheet s = A2 (map (fun row => firstn 6 (skipn 11 row)) rin)
    /\ displacement s = A2 (map (firstn 3) rout)
    /\ stress s = A2 (map (fun row => firstn 1 (skipn 3 row)) rout)
    /\ edges_indices s = map (map int32) edges
    /\ exists g g',
         if String.eqb (platform self) DARWIN
         then exists batch,
                edges_ny g [map (firstn 3) rin] [0] (sections self) (nodes_per_sections self)
                = (Ok batch, g')
                /\ batch !! 0%nat = Some edges
         else edges_nb g (map (firstn 3) rin) (sections self) (nodes_per_sections self)
              = (Ok edges, g').
Proof.
  intros (raw_in & raw_out & rin & rout & edge & edge0 & w1 & w2
          & Hin & Hout & Hkept & Hedge & He0 & Hs).
  destruct Hs as (_ & Hpoints & Hnc & Hlc & Hfs & Hdp & Hst & Hei).
  assert (Hrows : if downsampled self
                  then exists sel,
                         Forall2 (fun k row => raw_in !! k = Some row) sel rin
                         /\ Forall2 (fun k row => raw_out !! k = Some row) sel rout
                  else rin = raw_in /\ rout = raw_out).
  { destruct Hkept as [(-> & -> & ->)|(-> & sel & Hi & Ho)]; [auto|].
    destruct (take_rows_ok _ _ _ Hi) as (? & [= <-] & Fi).
    destruct (take_rows_ok _ _ _ Ho) as (? & [= <-] & Fo). eauto. }
  unfold _generate_distance_based_edges in Hedge.
  destruct (String.eqb (platform self) DARWIN) eqn:Hplatform.
  - apply mbind_ok in Hedge as (r & w3 & Hrng & Hlift).
    apply with_rng_spec in Hrng as [_ [= ->]].
    apply lift_ok in Hlift as [_ Hr].
    exists raw_in, raw_out, rin, rout, edge0.
    repeat (split; [assumption|]).
    exists (rng w1), (snd (edges_ny (rng w1) [map (slice 0 3) rin] [0]
                             (sections self) (nodes_per_sections self))).
    exists edge. split; [|apply py_index_first, He0].
    rewrite <- Hr. apply surjective_pairing.
  - apply mbind_ok in Hedge as (r & w3 & Hrng & Hlift).
    apply with_rng_spec in Hrng as [_ [= ->]].
    apply lift_ok in Hlift as [_ Hr].
    apply bind_ok in Hr as (e & Hr & [= <-]).
    cbn in He0. injection He0 as <-.
    exists raw_in, raw_out, rin, rout, e.
    repeat (split; [assumption|]). split.
    + rewrite Hei, map_map. apply map_ext. intros row. rewrite map_map.
      apply map_ext. intros x. apply int32_int32.
    + exists (rng w1), (snd (edges_nb (rng w1) (map (slice 0 3) rin)
                               (sections self) (nodes_per_sections self))).
      rewrite <- Hr. apply surjective_pairing.
Qed.

End StoredSamples.


(** C1.  Five samples with [chunk_file_size = 2] are written as two
    files, the first with the three groups [idx_0], [idx_1], [idx_2],
    the second with two: [len // chunk_file_size] is only the number of
    sections handed to [np.array_split], which spreads the remainder
    over the first files. *)
Theorem data_generation_uneven_chunks :
  let out := @Preparation._data_generation Examples.constants Examples.toy_external
               Examples.five_samples Examples.start in
  snd out = Ok tt
  /\ map (fun f => (fst f, map fst (snd f))) (Preparation.h5_written (fst out))
     = [("data_0.h5", ["idx_0"; "idx_1"; "idx_2"]);
        ("data_1.h5", ["idx_0"; "idx_1"])].
Proof. vm_compute. split; reflexivity. Qed.


(** The first of the five samples, as it is read and stored: case 1,
    two nodes, all rows kept, and the edges of the generator for the
    platform. *)
Example data_generation_first_sample :
  let out := @Preparation._data_generation Examples.constants Examples.toy_external
               Examples.five_samples Examples.start in
  firstn 4 (Preparation.loadtxt_calls (fst out))
  = ["global.csv"; "shape.csv"; "inputs/ct_case_0001.csv"; "outputs/ct_case_0001.csv"]
  /\ exists s rest others,
       Preparation.h5_written (fst out) = ("data_0.h5", ("idx_0", s) :: rest) :: others
       /\ Preparation.points s = [2]
       /\ Preparation.node_coord s = Preparation.A2 [[0; 1; 2]; [17; 18; 19]]%Q
       /\ Preparation.laplace_coord s
          = Preparation.A2 [[3; 4; 5; 6; 7; 8; 9; 10]; [20; 21; 22; 23; 24; 25; 26; 27]]%Q
       /\ Preparation.fiber_and_sheet s
          = Preparation.A2 [[11; 12; 13; 14; 15; 16]; [28; 29; 30; 31; 32; 33]]%Q
       /\ Preparation.displacement s = Preparation.A2 [[0; 1; 2]; [4; 5; 6]]%Q
       /\ Preparation.stress s = Preparation.A2 [[3]; [7]]%Q
       /\ Preparation.edges_indices s = [[0]; [1]].
Proof.
  vm_compute. split; [reflexivity|]. do 3 eexists. split; [reflexivity|].
  repeat split; reflexivity.
Qed.

(** ** task/passive_biv/data/datasets_preparation_hdf5.py: downsampling *)

Section DownSamplingFacts.
Import Preparation.
Context `{C : CommonConstant} `{E : External}.

Lemma take_rows_raise (sel : list nat) (rows : list (list Q)) (e : exn) :
  take_rows sel (A2 rows) = Raise e -> e = IndexError "index out of bounds".
Proof.
  unfold take_rows.
  destruct (DataTransform.map_result _ sel) as [rs|e'] eqn:Hmap; [discriminate|].
  cbn. intros [= <-]. revert Hmap.
  induction sel as [|i sel IH]; cbn; [discriminate|].
  destruct (rows !! i) as [row|]; cbn; [|intros [= <-]; reflexivity].
  destruct (DataTransform.map_result _ sel) as [rs|e'']; cbn; [discriminate|].
  intros [= <-]. apply IH. reflexivity.
Qed.

(** How [_down_sampling_node] ends on two 2-d arrays: with the
    [TypeError] of the comparison when no node count is configured, with
    the [ValueError] of the guard when the count exceeds the rows at
    hand, and with neither of the two otherwise. *)
Lemma down_sampling_cases (self : PassiveBiVPreparationDataset)
    (rows rows' : list (list Q)) (w : world) :
  match num_down_sample_node self with
  | None => _down_sampling_node self (A2 rows) (A2 rows') w = (w, Raise none_compare_error)
  | Some k =>
      if k >? Z.of_nat (length rows)
      then _down_sampling_node self (A2 rows) (A2 rows') w = (w, Raise node_count_error)
      else snd (_down_sampling_node self (A2 rows) (A2 rows') w) <> Raise node_count_error
           /\ snd (_down_sampling_node self (A2 rows) (A2 rows') w) <> Raise none_compare_error
  end.
Proof.
  unfold _down_sampling_node, mbind, lift, ret. cbn [shape2].
  destruct (num_down_sample_node self) as [k|]; [|reflexivity].
  destruct (k >? Z.of_nat (length rows)); [reflexivity|].
  destruct (k <? 0); [cbn; split; discriminate|].
  destruct (with_rng _ w) as [w1 r] eqn:Hrng.
  apply with_rng_spec in Hrng as [_ ->].
  destruct (take_rows _ (A2 rows)) as [ri|e] eqn:Hri.
  - destruct (take_rows _ (A2 rows')) as [ro|e] eqn:Hro.
    + cbn. split; discriminate.
    + apply take_rows_raise in Hro as ->. cbn. split; discriminate.
  - apply take_rows_raise in Hri as ->. cbn. split; discriminate.
Qed.

(** The guard's error branch is taken exactly when the requested count
    exceeds the rows at hand; the comparison itself fails exactly when
    no count is configured. *)
Lemma down_sampling_error_iff (self : PassiveBiVPreparationDataset)
    (rows rows' : list (list Q)) (w : world) :
  (snd (_down_sampling_node self (A2 rows) (A2 rows') w) = Raise node_count_error
   <-> exists k, num_down_sample_node self = Some k /\ k > Z.of_nat (length rows))
  /\ (snd (_down_sampling_node self (A2 rows) (A2 rows') w) = Raise none_compare_error
      <-> num_down_sample_node self = None).
Proof.
  pose proof (down_sampling_cases self rows rows' w) as Hcases.
  destruct (num_down_sample_node self) as [k|].
  - destruct (Z.gtb_spec k (Z.of_nat (length rows))) as [Hgt|Hle].
    + rewrite Hcases. cbn. split; split; try discriminate.
      * intros _. exists k. split; [reflexivity | lia].
      * reflexivity.
    + destruct Hcases as [Hv Ht]. split; split; try discriminate; try contradiction.
      intros (k' & [= <-] & Hgt). lia.
  - rewrite Hcases. cbn. split; split; try discriminate; try reflexivity.
    intros (k & [=] & _).
Qed.

Lemma for_each_bodies_ok {A B} (body : A -> M B) (l : list A) :
  forall (w w' : world) (bs : list B),
    for_each body l w = (w', Ok bs) ->
    Forall (fun a => exists w1 w2 b, body a w1 = (w2, Ok b)) l.
Proof.
  induction l as [|a l IH]; intros w w' bs; cbn [for_each]; [constructor|].
  intros H. apply mbind_ok in H as (b & w1 & Hb & H). cbv beta in H.
  apply mbind_ok in H as (bs' & w2 & Hbs & H).
  constructor; [eauto | eapply IH, Hbs].
Qed.

Section Validation.
Variable self : PassiveBiVPreparationDataset.
Hypothesis distinct : TRAIN_NAME <> VALIDATION_NAME.
Hypothesis validation : data_type self = VALIDATION_NAME.
Hypothesis unset : val_down_sampling_node self = None.

Lemma validation_requests_none : num_down_sample_node self = None.
Proof.
  unfold num_down_sample_node. rewrite validation.
  destruct (String.eqb_spec VALIDATION_NAME TRAIN_NAME) as [Heq|_]; [|exact unset].
  symmetry in Heq. contradiction.
Qed.

(** No sample gets through the inner loop body. *)
Lemma generate_sample_validation_fails (gf sc : ndarray) (idx : Z)
    (w w' : world) (s : sample_dict) :
  generate_sample self gf sc idx w <> (w', Ok s).
Proof.
  unfold generate_sample. intros H.
  apply mbind_ok in H as (record_inputs & w1 & _ & H). cbv beta in H.
  apply mbind_ok in H as (record_outputs & w2 & _ & H). cbv beta in H.
  apply mbind_ok in H as (pts & w3 & _ & H). cbv beta in H.
  apply mbind_ok in H as (io1 & w4 & Hio1 & _).
  rewrite validation, String.eqb_refl in Hio1. cbn [orb] in Hio1.
  unfold _down_sampling_node, mbind, lift in Hio1.
  rewrite validation_requests_none in Hio1.
  destruct (shape2 record_inputs); [|discriminate].
  destruct (shape2 record_outputs); discriminate.
Qed.

(** With both files of a sample at hand as 2-d arrays, the body raises
    the [TypeError] of the comparison with [None]. *)
Lemma generate_sample_validation_type_error (gf sc : ndarray) (idx : Z) (w : world)
    (rows_in rows_out : list (list Q)) :
  csv_files w !! (inputs_data_path self ++ read_file_name idx) = Some rows_in ->
  squeeze rows_in = Ok (A2 rows_in) ->
  csv_files w !! (outputs_data_path self ++ read_file_name idx) = Some rows_out ->
  squeeze rows_out = Ok (A2 rows_out) ->
  snd (generate_sample self gf sc idx w) = Raise none_compare_error.
Proof.
  intros Hin Hsin Hout Hsout.
  unfold generate_sample, mbind, loadtxt.
  rewrite Hin, Hsin. cbn [csv_files]. rewrite Hout, Hsout. cbn [lift shape0].
  rewrite validation, String.eqb_refl. cbn [orb].
  unfold _down_sampling_node, mbind, lift. cbn [shape2].
  rewrite validation_requests_none. reflexivity.
Qed.

(** Preparing the validation data never completes. *)
Lemma data_generation_validation_fails (w : world) :
  snd (_data_generation self w) <> Ok tt.
Proof.
  destruct (_data_generation self w) as [w' r] eqn:Hgen. cbn. intros ->.
  unfold _data_generation in Hgen.
  apply mbind_ok in Hgen as (gf & w1 & _ & H). cbv beta in H.
  apply mbind_ok in H as (sc & w2 & _ & H). cbv beta in H.
  apply mbind_ok in H as (n & w3 & Hn & H). cbv beta in H.
  apply lift_ok in Hn as [-> Hn].
  apply mbind_ok in H as (chunks & w4 & Hchunks & H). cbv beta in H.
  apply lift_ok in Hchunks as [-> Hchunks].
  apply mbind_ok in H as (us & w5 & Hloop & _).
  apply for_each_bodies_ok in Hloop.
  assert (Hempty : Forall (fun chunk => chunk = []) chunks).
  { clear Hchunks. unfold enumerate in Hloop. revert Hloop. generalize 0%nat.
    induction chunks as [|chunk chunks IH]; intros k Hall; [constructor|].
    cbn in Hall. inversion Hall as [|? ? (wa & wb & b & Hb) Hrest]; subst.
    constructor; [|eapply IH, Hrest].
    unfold generate_chunk in Hb. cbn [fst snd] in Hb.
    apply mbind_ok in Hb as (datasets & wc & Hds & _).
    apply for_each_bodies_ok in Hds.
    destruct chunk as [|idx chunk]; [reflexivity|].
    inversion Hds as [|? ? (wd & we & s & Hs) _]; subst.
    exfalso. exact (generate_sample_validation_fails _ _ _ _ _ _ Hs). }
  destruct (array_split_ok _ _ _ Hchunks) as (Hpos & _ & Hconcat & _).
  assert (Hnil : sample_indices self = []).
  { rewrite <- Hconcat. clear -Hempty.
    induction Hempty as [|chunk chunks -> _ IH]; [reflexivity | exact IH]. }
  unfold floordiv in Hn. destruct (chunk_file_size self =? 0); [discriminate|].
  injection Hn as <-. rewrite Hnil in Hpos. unfold len in Hpos.
  cbn [length Z.of_nat] in Hpos. rewrite Zdiv_0_l in Hpos. lia.
Qed.

End Validation.
End DownSamplingFacts.

(** C4.  With the validation type and no [val_down_sampling_node],
    [_down_sampling_node] is asked for [None] nodes; for every sample
    whose two files load as 2-d arrays the loop body raises the
    [TypeError] of [None > num_nodes], and [_data_generation] never
    returns.  For any object, on 2-d arrays, the guard's [ValueError] is
    raised exactly when the requested node count exceeds the rows at
    hand, and the [TypeError] exactly when no count is configured. *)
Theorem validation_needs_down_sampling_node `{C : CommonConstant}
    `{E : Preparation.External} (self : Preparation.PassiveBiVPreparationDataset) :
  TRAIN_NAME <> VALIDATION_NAME ->
  Preparation.data_type self = VALIDATION_NAME ->
  Preparation.val_down_sampling_node self = None ->
  Preparation.num_down_sample_node self = None
  /\ (forall gf sc idx w rows_in rows_out,
        Preparation.csv_files w
          !! (Preparation.inputs_data_path self ++ Preparation.read_file_name idx)
          = Some rows_in ->
        Preparation.squeeze rows_in = Ok (Preparation.A2 rows_in) ->
        Preparation.csv_files w
          !! (Preparation.outputs_data_path self ++ Preparation.read_file_name idx)
          = Some rows_out ->
        Preparation.squeeze rows_out = Ok (Preparation.A2 rows_out) ->
        snd (Preparation.generate_sample self gf sc idx w)
        = Raise Preparation.none_compare_error)
  /\ (forall w, snd (Preparation._data_generation self w) <> Ok tt)
  /\ (forall (other : Preparation.PassiveBiVPreparationDataset) rows rows' w,
        (snd (Preparation._down_sampling_node other
                (Preparation.A2 rows) (Preparation.A2 rows') w)
         = Raise Preparation.node_count_error
         <-> exists k, Preparation.num_down_sample_node other = Some k
                       /\ k > Z.of_nat (length rows))
        /\ (snd (Preparation._down_sampling_node other
                   (Preparation.A2 rows) (Preparation.A2 rows') w)
            = Raise Preparation.none_compare_error
            <-> Preparation.num_down_sample_node other = None)).
Proof.
  intros Hdistinct Hval Hunset. split; [|split; [|split]].
  - apply validation_requests_none; assumption.
  - intros gf sc idx w rows_in rows_out.
    apply generate_sample_validation_type_error; assumption.
  - apply data_generation_validation_fails; assumption.
  - intros other rows rows' w. apply down_sampling_error_iff.
Qed.

Lemma validation_needs_down_sampling_node_witness :
  let self := Examples.preparation "validation" [0; 1; 2; 3; 4] 2 None in
  @Preparation.num_down_sample_node Examples.constants self = None
  /\ (forall gf sc idx (w : @Preparation.world Examples.toy_external) rows_in rows_out,
        Preparation.csv_files w
          !! (Preparation.inputs_data_path self ++ Preparation.read_file_name idx)
          = Some rows_in ->
        Preparation.squeeze rows_in = Ok (Preparation.A2 rows_in) ->
        Preparation.csv_files w
          !! (Preparation.outputs_data_path self ++ Preparation.read_file_name idx)
          = Some rows_out ->
        Preparation.squeeze rows_out = Ok (Preparation.A2 rows_out) ->
        snd (@Preparation.generate_sample Examples.constants Examples.toy_external
               self gf sc idx w)
        = Raise Preparation.none_compare_error)
  /\ (forall w, snd (@Preparation._data_generation Examples.constants
                       Examples.toy_external self w) <> Ok tt)
  /\ (forall (other : Preparation.PassiveBiVPreparationDataset) rows rows' w,
        (snd (@Preparation._down_sampling_node Examples.constants Examples.toy_external
                other (Preparation.A2 rows) (Preparation.A2 rows') w)
         = Raise Preparation.node_count_error
         <-> exists k, @Preparation.num_down_sample_node Examples.constants other = Some k
                       /\ k > Z.of_nat (length rows))
        /\ (snd (@Preparation._down_sampling_node Examples.constants Examples.toy_external
                   other (Preparation.A2 rows) (Preparation.A2 rows') w)
            = Raise Preparation.none_compare_error
            <-> @Preparation.num_down_sample_node Examples.constants other = None)).
Proof.
  intros self.
  apply (@validation_needs_down_sampling_node Examples.constants Examples.toy_external self).
  - discriminate.
  - reflexivity.
  - reflexivity.
Defined.

(** On the five example cases the validation pass stops at the first
    sample, after reading its two files. *)
Example validation_stops_at_first_sample :
  let self := Examples.preparation "validation" [0; 1; 2; 3; 4] 2 None in
  let out := @Preparation._data_generation Examples.constants Examples.toy_external
               self Examples.start in
  snd out = Raise Preparation.none_compare_error
  /\ Preparation.loadtxt_calls (fst out)
     = ["global.csv"; "shape.csv"; "inputs/ct_case_0001.csv"; "outputs/ct_case_0001.csv"]
  /\ Preparation.h5_written (fst out) = [].
Proof. vm_compute. repeat split; reflexivity. Qed.

(** ** task/passive_biv/data/datasets_preparation_hdf5.py: statistics *)

Section StatsFacts.
Import Preparation.
Context `{C : CommonConstant} `{E : External}.

(** A loop that reads one file per round: however it ends, it has read
    the files of the rounds it began, in order. *)
Lemma for_fold_reads {A S} (body : S -> A -> M S) (R : A -> string) :
  (forall acc a w w' r, body acc a w = (w', r) -> extends w w' [R a] [] []) ->
  forall (l : list A) (acc : S) (w w' : world) (r : result S),
    for_fold body l acc w = (w', r) ->
    exists reads,
      extends w w' reads [] []
      /\ reads `prefix_of` map R l
      /\ (is_ok r = true -> reads = map R l).
Proof.
  intros Hbody. induction l as [|a l IH]; intros acc w w' r; cbn [for_fold].
  - unfold ret. intros [= <- <-]. exists []. split; [apply extends_refl|].
    split; [apply prefix_nil | reflexivity].
  - unfold mbind. destruct (body acc a w) as [w1 [acc'|e]] eqn:Hb.
    + intros Hrest. apply Hbody in Hb.
      destruct (IH _ _ _ _ Hrest) as (reads & Hext & Hpre & Hok).
      exists (R a :: reads). split; [|split].
      * pose proof (extends_trans _ _ _ _ _ _ _ _ _ Hb Hext) as H1. exact H1.
      * cbn. apply prefix_cons, Hpre.
      * intros Hr. cbn. f_equal. apply Hok, Hr.
    + intros [= <- <-]. apply Hbody in Hb. exists [R a]. split; [exact Hb|].
      split; [|discriminate]. cbn. apply prefix_cons, prefix_nil.
Qed.

Lemma stats_analysis_extends name data axis path write (w w' : world) (r : result unit) :
  stats_analysis name data axis path write w = (w', r) ->
  extends w w' [] [] [(name, data, axis, path, write)] /\ r = Ok tt.
Proof.
  unfold stats_analysis, extends. intros [= <- <-]. cbn. rewrite !app_nil_r. auto.
Qed.

Lemma node_stats_step_reads (self : PassiveBiVPreparationDataset) acc (idx : nat)
    (w w' : world) r :
  node_stats_step self acc idx w = (w', r) ->
  extends w w' [inputs_data_path self ++ read_file_name (Z.of_nat idx)] [] [].
Proof.
  unfold node_stats_step. destruct acc as [[a b] c]. unfold mbind, lift.
  destruct (loadtxt _ w) as [w1 [arr|e]] eqn:Hload;
    apply loadtxt_spec in Hload as [Hext _]; intros [= <- _]; exact Hext.
Qed.

Lemma label_stats_step_reads (self : PassiveBiVPreparationDataset) acc (idx : nat)
    (w w' : world) r :
  label_stats_step self acc idx w = (w', r) ->
  extends w w' [outputs_data_path self ++ read_file_name (Z.of_nat idx)] [] [].
Proof.
  unfold label_stats_step. destruct acc as [a b]. unfold mbind, lift.
  destruct (loadtxt _ w) as [w1 [arr|e]] eqn:Hload;
    apply loadtxt_spec in Hload as [Hext _]; intros [= <- _]; exact Hext.
Qed.

(** The node statistics read [node_stats_files], and nothing else. *)
Lemma node_stats_reads (self : PassiveBiVPreparationDataset) (write : bool)
    (w w' : world) (r : result unit) :
  _data_node_stats self write w = (w', r) ->
  exists reads,
    loadtxt_calls w' = (loadtxt_calls w ++ reads)%list
    /\ reads `prefix_of` node_stats_files self
    /\ (r = Ok tt -> reads = node_stats_files self).
Proof.
  unfold _data_node_stats, mbind.
  destruct (for_fold _ _ _ w) as [w1 [[[a b] c]|e]] eqn:Hloop.
  - destruct (for_fold_reads _ _ (node_stats_step_reads self) _ _ _ _ _ Hloop)
      as (reads & Hext & Hpre & Hok).
    destruct (stats_analysis _ a _ _ _ w1) as [w2 r2] eqn:H2.
    apply stats_analysis_extends in H2 as [Hext2 ->].
    destruct (stats_analysis _ b _ _ _ w2) as [w3 r3] eqn:H3.
    apply stats_analysis_extends in H3 as [Hext3 ->].
    intros H4. apply stats_analysis_extends in H4 as [Hext4 ->].
    exists reads. split; [|split; [exact Hpre | intros _; apply Hok; reflexivity]].
    destruct Hext as (_ & Hr & _), Hext2 as (_ & Hr2 & _), Hext3 as (_ & Hr3 & _),
      Hext4 as (_ & Hr4 & _).
    rewrite Hr4, Hr3, Hr2, Hr, !app_nil_r. reflexivity.
  - destruct (for_fold_reads _ _ (node_stats_step_reads self) _ _ _ _ _ Hloop)
      as (reads & Hext & Hpre & _).
    intros [= <- <-]. exists reads. destruct Hext as (_ & Hr & _).
    split; [exact Hr|]. split; [exact Hpre | discriminate].
Qed.

(** The label statistics read [label_stats_files], and nothing else. *)
Lemma label_stats_reads (self : PassiveBiVPreparationDataset) (write : bool)
    (w w' : world) (r : result unit) :
  _data_label_stats self write w = (w', r) ->
  exists reads,
    loadtxt_calls w' = (loadtxt_calls w ++ reads)%list
    /\ reads `prefix_of` label_stats_files self
    /\ (r = Ok tt -> reads = label_stats_files self).
Proof.
  unfold _data_label_stats, mbind.
  destruct (for_fold _ _ _ w) as [w1 [[a b]|e]] eqn:Hloop.
  - destruct (for_fold_reads _ _ (label_stats_step_reads self) _ _ _ _ _ Hloop)
      as (reads & Hext & Hpre & Hok).
    destruct (stats_analysis _ a _ _ _ w1) as [w2 r2] eqn:H2.
    apply stats_analysis_extends in H2 as [Hext2 ->].
    intros H3. apply stats_analysis_extends in H3 as [Hext3 ->].
    exists reads. split; [|split; [exact Hpre | intros _; apply Hok; reflexivity]].
    destruct Hext as (_ & Hr & _), Hext2 as (_ & Hr2 & _), Hext3 as (_ & Hr3 & _).
    rewrite Hr3, Hr2, Hr, !app_nil_r. reflexivity.
  - destruct (for_fold_reads _ _ (label_stats_step_reads self) _ _ _ _ _ Hloop)
      as (reads & Hext & Hpre & _).
    intros [= <- <-]. exists reads. destruct Hext as (_ & Hr & _).
    split; [exact Hr|]. split; [exact Hpre | discriminate].
Qed.

(** The files of the statistics pass are numbered 1 to N. *)
Lemma stats_files_numbered (dir : string) (N : nat) :
  map (fun idx => dir ++ read_file_name (Z.of_nat idx)) (seq 0 N)
  = map (fun k => dir ++ "/ct_case_" ++ format_04d k ++ ".csv")
        (map Z.of_nat (seq 1 N)).
Proof.
  rewrite <- seq_shift, !map_map. apply map_ext. intros idx.
  unfold read_file_name. repeat f_equal. lia.
Qed.

Lemma map_path_inj (dir : string) (l l' : list Z) :
  map (fun idx => dir ++ read_file_name idx) l
  = map (fun idx => dir ++ read_file_name idx) l' ->
  l = l'.
Proof.
  revert l'. induction l as [|a l IH]; intros [|b l']; cbn; try discriminate;
    [reflexivity|].
  intros [= Hab Hrest]. f_equal; [eapply path_inj, Hab | apply IH, Hrest].
Qed.

(** A generation pass and a statistics pass read the same files in the
    same order exactly for the indices 0 to N-1. *)
Lemma same_files_iff (dir : string) (indices : list Z) :
  map (fun idx => dir ++ read_file_name idx) indices
  = map (fun idx => dir ++ read_file_name (Z.of_nat idx)) (seq 0 (length indices))
  <-> indices = map Z.of_nat (seq 0 (length indices)).
Proof.
  rewrite <- (map_map Z.of_nat (fun idx => dir ++ read_file_name idx)).
  split; [apply map_path_inj|]. intros Heq. rewrite <- Heq. reflexivity.
Qed.

(** As sets of files, the two passes agree exactly when the indices are
    0 to N-1 in some order. *)
Lemma same_file_set_iff (dir : string) (indices : list Z) :
  (forall file,
     file ∈ map (fun idx => dir ++ read_file_name idx) indices
     <-> file ∈ map (fun idx => dir ++ read_file_name (Z.of_nat idx))
                    (seq 0 (length indices)))
  <-> Permutation indices (map Z.of_nat (seq 0 (length indices))).
Proof.
  rewrite <- (map_map Z.of_nat (fun idx => dir ++ read_file_name idx)).
  set (numbers := map Z.of_nat (seq 0 (length indices))).
  set (name := fun idx => dir ++ read_file_name idx).
  assert (Hname : forall l idx, name idx ∈ map name l <-> idx ∈ l).
  { intros l idx. rewrite !list_elem_of_In, in_map_iff. split.
    - intros (idx' & Heq & Hin). apply path_inj in Heq. subst. exact Hin.
    - intros Hin. exists idx. auto. }
  split.
  - intros Hsame. symmetry. apply NoDup_Permutation_bis.
    + apply NoDup_ListNoDup. unfold numbers.
      apply (NoDup_fmap_2 (A := nat) Z.of_nat), NoDup_seq.
    + unfold numbers. rewrite length_map, length_seq. lia.
    + intros idx Hin. apply list_elem_of_In, Hname, Hsame, Hname, list_elem_of_In, Hin.
  - intros Hperm file. rewrite !list_elem_of_In, !in_map_iff.
    split; intros (idx & Heq & Hin); exists idx; (split; [exact Heq|]).
    + eapply Permutation_in; [exact Hperm | exact Hin].
    + eapply Permutation_in; [symmetry; exact Hperm | exact Hin].
Qed.

(** The files of the generation pass are the input and the output file
    of every index, in turn. *)
Lemma generation_files_interleaved (self : PassiveBiVPreparationDataset) :
  generation_sample_files self
  = concat (zip_with (fun a b => [a; b])
              (generation_input_files self) (generation_output_files self)).
Proof.
  unfold generation_sample_files, generation_input_files, generation_output_files.
  induction (sample_indices self) as [|idx l IH]; cbn; [reflexivity|].
  rewrite IH. reflexivity.
Qed.

(** Only the number of indices enters the statistics pass. *)
Lemma stats_only_count (self : PassiveBiVPreparationDataset) (indices : list Z)
    (write : bool) :
  length indices = length (sample_indices self) ->
  _data_node_stats (set_sample_indices self indices) write = _data_node_stats self write
  /\ _data_label_stats (set_sample_indices self indices) write
     = _data_label_stats self write.
Proof.
  intros Hlen. unfold _data_node_stats, _data_label_stats. cbn [sample_indices
    set_sample_indices node_coord_stats_path node_laplace_coord_stats_path
    fiber_and_sheet_stats_path displacement_stats_path stress_stats_path].
  rewrite Hlen. split; reflexivity.
Qed.

End StatsFacts.

Section GenerationReads.
Import Preparation.
Context `{C : CommonConstant} `{E : External}.

Lemma extends_reads_upto {A} (reads : list string) (w w' : world) (r : result A)
    writes stats :
  extends w w' reads writes stats -> reads_upto reads w w' r.
Proof. intros (_ & Hr & _). exists reads. auto. Qed.

Lemma reads_upto_same {A} (w : world) (r : result A) : reads_upto [] w w r.
Proof. exists []. rewrite app_nil_r. auto. Qed.

(** Reading in sequence. *)
Lemma mbind_reads {A B} (m : M A) (k : A -> M B) (E1 E2 : list string) :
  (forall w w1 ra, m w = (w1, ra) -> reads_upto E1 w w1 ra) ->
  (forall a w1 w' r, k a w1 = (w', r) -> reads_upto E2 w1 w' r) ->
  forall w w' r, mbind m k w = (w', r) -> reads_upto (E1 ++ E2)%list w w' r.
Proof.
  intros Hm Hk w w' r. unfold mbind.
  destruct (m w) as [w1 [a|e]] eqn:Hmw; apply Hm in Hmw as (r1 & Hc1 & Hp1 & Hf1).
  - intros Hka. apply Hk in Hka as (r2 & Hc2 & Hp2 & Hf2).
    rewrite (Hf1 eq_refl) in Hc1. exists (E1 ++ r2)%list.
    split; [rewrite Hc2, Hc1, app_assoc; reflexivity|].
    split; [apply prefix_app, Hp2|]. intros Hok. rewrite (Hf2 Hok). reflexivity.
  - intros [= <- <-]. exists r1. split; [exact Hc1|].
    split; [apply prefix_app_r, Hp1 | discriminate].
Qed.

Lemma lift_reads {A} (x : result A) (w w' : world) (r : result A) :
  lift x w = (w', r) -> reads_upto [] w w' r.
Proof. unfold lift. intros [= <- <-]. apply reads_upto_same. Qed.

Lemma loadtxt_reads (path : string) (w w' : world) (r : result ndarray) :
  loadtxt path w = (w', r) -> reads_upto [path] w w' r.
Proof. intros H. apply loadtxt_spec in H as [Hext _]. eapply extends_reads_upto, Hext. Qed.

(** The inner loop body reads the two files of its sample, whatever
    comes of it. *)
Lemma generate_sample_reads (self : PassiveBiVPreparationDataset)
    (gf sc : ndarray) (idx : Z) (w w' : world) (r : result sample_dict) :
  generate_sample self gf sc idx w = (w', r) ->
  reads_upto (sample_files self idx) w w' r.
Proof.
  unfold generate_sample, sample_files.
  change [inputs_data_path self ++ read_file_name idx;
          outputs_data_path self ++ read_file_name idx]
    with ([(inputs_data_path self ++ read_file_name idx)%string]
            ++ ([(outputs_data_path self ++ read_file_name idx)%string]
                  ++ ([] ++ ([] ++ ([] ++ ([] ++ ([] ++ [])))))))%list.
  revert w w' r.
  apply mbind_reads; [intros ? ? ?; apply loadtxt_reads|]. intros record_inputs.
  apply mbind_reads; [intros ? ? ?; apply loadtxt_reads|]. intros record_outputs.
  apply mbind_reads; [intros ? ? ?; apply lift_reads|]. intros pts.
  apply mbind_reads.
  { intros w w1 ra H.
    apply (cond_down_sampling_spec self _ (record_inputs, record_outputs)) in H as [Hext _].
    eapply extends_reads_upto, Hext. }
  intros io1. apply mbind_reads.
  { intros w w1 ra H. apply (cond_down_sampling_spec self _ io1) in H as [Hext _].
    eapply extends_reads_upto, Hext. }
  intros io2. cbv zeta.
  apply mbind_reads; [intros ? ? ?; apply lift_reads|]. intros coords.
  apply mbind_reads.
  { intros w w1 ra H. apply edges_extends in H. eapply extends_reads_upto, H. }
  intros edge w w' r. apply lift_reads.
Qed.

(** A loop reads what its rounds read, one after the other. *)
Lemma for_each_reads {A B} (body : A -> M B) (R : A -> list string) :
  (forall a w w' r, body a w = (w', r) -> reads_upto (R a) w w' r) ->
  forall l w w' r, for_each body l w = (w', r) -> reads_upto (flat_map R l) w w' r.
Proof.
  intros Hbody. induction l as [|a l IH]; cbn [for_each flat_map].
  - intros w w' r. unfold ret. intros [= <- <-]. apply reads_upto_same.
  - apply mbind_reads; [apply Hbody|]. intros b.
    rewrite <- (app_nil_r (flat_map R l)).
    apply mbind_reads; [apply IH|]. intros bs w w' r. unfold ret.
    intros [= <- <-]. apply reads_upto_same.
Qed.

Lemma generate_chunk_reads (self : PassiveBiVPreparationDataset) (gf sc : ndarray)
    (ichunk : nat * list Z) (w w' : world) (r : result unit) :
  generate_chunk self gf sc ichunk w = (w', r) ->
  reads_upto (flat_map (sample_files self) (snd ichunk)) w w' r.
Proof.
  unfold generate_chunk. rewrite <- (app_nil_r (flat_map _ _)). revert w w' r.
  apply mbind_reads.
  - apply for_each_reads. intros idx w w' r. apply generate_sample_reads.
  - intros datasets w w' r. unfold write_h5. intros [= <- <-].
    exists []. cbn. rewrite app_nil_r. auto.
Qed.

(** The generation pass reads the two global tables and then the two
    files of every sample, in the order of [sample_indices]: all of
    them when it returns, the first few when it raises. *)
Lemma data_generation_reads (self : PassiveBiVPreparationDataset) (w w' : world)
    (r : result unit) :
  _data_generation self w = (w', r) ->
  reads_upto ([global_feature_data_path self; shape_data_path self]
                ++ generation_sample_files self) w w' r.
Proof.
  unfold _data_generation.
  change ([global_feature_data_path self; shape_data_path self]
            ++ generation_sample_files self)%list
    with ([global_feature_data_path self]
            ++ ([shape_data_path self] ++ generation_sample_files self))%list.
  revert w w' r.
  apply mbind_reads; [intros ? ? ?; apply loadtxt_reads|]. intros gf.
  apply mbind_reads; [intros ? ? ?; apply loadtxt_reads|]. intros sc.
  intros w w' r. unfold mbind at 1.
  destruct (lift (floordiv _ _) w) as [w1 [n|e]] eqn:Hn;
    apply lift_reads in Hn as Hrn.
  2:{ intros [= <- <-]. destruct Hrn as (r1 & Hc & Hp & _).
      exists r1. split; [exact Hc|]. split; [|discriminate].
      etransitivity; [exact Hp | apply prefix_nil]. }
  unfold mbind at 1.
  destruct (lift (array_split _ _) w1) as [w2 [chunks|e]] eqn:Hs;
    apply lift_reads in Hs as Hrs.
  2:{ intros [= <- <-]. destruct Hrn as (r1 & Hc1 & Hp1 & _), Hrs as (r2 & Hc2 & Hp2 & _).
      apply prefix_nil_inv in Hp1, Hp2. subst r1 r2.
      exists []. split; [rewrite Hc2, Hc1, !app_nil_r; reflexivity|].
      split; [apply prefix_nil | discriminate]. }
  assert (Hsame : loadtxt_calls w2 = loadtxt_calls w).
  { destruct Hrn as (r1 & Hc1 & Hp1 & _), Hrs as (r2 & Hc2 & Hp2 & _).
    apply prefix_nil_inv in Hp1, Hp2. subst r1 r2. rewrite Hc2, Hc1, !app_nil_r.
    reflexivity. }
  unfold lift in Hs. injection Hs as _ Hsplit.
  destruct (array_split_ok _ _ _ Hsplit) as (_ & _ & Hconcat & _).
  intros Hloop.
  assert (Hreads : reads_upto (generation_sample_files self ++ [])%list w2 w' r).
  { revert Hloop. generalize w2 w' r. apply mbind_reads.
    - intros wa wb ra Hfor.
      apply (for_each_reads _ (fun ic => flat_map (sample_files self) (snd ic))) in Hfor.
      + unfold enumerate in Hfor.
        rewrite (flat_map_enumerate (flat_map (sample_files self)) chunks 0) in Hfor.
        rewrite flat_map_concat, Hconcat in Hfor. exact Hfor.
      + intros ic wc wd rc. apply generate_chunk_reads.
    - intros us wa wb rb. unfold ret. intros [= <- <-]. apply reads_upto_same. }
  rewrite app_nil_r in Hreads. destruct Hreads as (reads & Hc & Hp & Hf).
  exists reads. rewrite <- Hsame. auto.
Qed.

End GenerationReads.

Section SameCases.
Import Preparation.
Context `{C : CommonConstant} `{E : External}.

(** The files of a run of cases, two per case, name the cases. *)
Lemma case_pairs_inj (in_dir out_dir : string) (l l' : list Z) :
  flat_map (fun idx => [in_dir ++ read_file_name idx; out_dir ++ read_file_name idx]) l
  = flat_map (fun idx => [in_dir ++ read_file_name idx; out_dir ++ read_file_name idx]) l' ->
  l = l'.
Proof.
  revert l'. induction l as [|a l IH]; intros [|b l']; cbn; try discriminate;
    [reflexivity|].
  intros [= Hab _ Hrest]. f_equal; [eapply path_inj, Hab | apply IH, Hrest].
Qed.

Lemma case_pairs_numbered (in_dir out_dir : string) (N : nat) :
  flat_map (fun k => [in_dir ++ "/ct_case_" ++ format_04d k ++ ".csv";
                      out_dir ++ "/ct_case_" ++ format_04d k ++ ".csv"])
           (map Z.of_nat (seq 1 N))
  = flat_map (fun idx => [in_dir ++ read_file_name idx; out_dir ++ read_file_name idx])
             (map Z.of_nat (seq 0 N)).
Proof.
  rewrite <- seq_shift, !map_map.
  induction (seq 0 N) as [|k l IH]; cbn [map flat_map]; [reflexivity|].
  rewrite IH. unfold read_file_name.
  replace (Z.of_nat k + 1) with (Z.of_nat (S k)) by lia. reflexivity.
Qed.

Lemma case_pairs_length {A} (f g : A -> string) (l : list A) :
  length (flat_map (fun a => [f a; g a]) l) = (2 * length l)%nat.
Proof. induction l as [|a l IH]; cbn; [reflexivity|]. rewrite IH. lia. Qed.

End SameCases.

(** C5.  The statistics pass reads the input files (node statistics) and
    the output files (label statistics) named [ct_case_0001.csv] to
    [ct_case_{N:04d}.csv], in this order, where [N] is the number of
    [sample_indices]: all of them when it returns, the first few when it
    raises.  Replacing [sample_indices] by any other list of the same
    length leaves the pass unchanged.  The generation pass reads the two
    global tables and then, for every [idx] of [sample_indices] in
    turn, the input and the output file of case [idx + 1] (all of them
    when it returns, the first few when it raises).  What it has read
    are the cases [1] to [N] in this order only when [sample_indices]
    is [0, ..., N-1], and then they are whenever it returns; the input
    files (and the output files) it has read when it returns are, as a
    set, those of the statistics pass exactly when [sample_indices] is
    a permutation of [0, ..., N-1]. *)
Theorem stats_pass_files `{C : CommonConstant} `{E : Preparation.External}
    (self : Preparation.PassiveBiVPreparationDataset) (write : bool)
    (w : Preparation.world) :
  let N := length (Preparation.sample_indices self) in
  let case_file (dir : string) (k : Z) :=
    dir ++ "/ct_case_" ++ Preparation.format_04d k ++ ".csv" in
  let numbered dir := map (case_file dir) (map Z.of_nat (seq 1 N)) in
  let in_dir := Preparation.inputs_data_path self in
  let out_dir := Preparation.outputs_data_path self in
  let cases (ks : list Z) :=
    ([Preparation.global_feature_data_path self; Preparation.shape_data_path self]
       ++ flat_map (fun k => [case_file in_dir k; case_file out_dir k]) ks)%list in
  let generation := Preparation._data_generation self w in
  (exists reads,
     Preparation.loadtxt_calls (fst (Preparation._data_node_stats self write w))
     = (Preparation.loadtxt_calls w ++ reads)%list
     /\ reads `prefix_of` numbered in_dir
     /\ (snd (Preparation._data_node_stats self write w) = Ok tt ->
         reads = numbered in_dir))
  /\ (exists reads,
        Preparation.loadtxt_calls (fst (Preparation._data_label_stats self write w))
        = (Preparation.loadtxt_calls w ++ reads)%list
        /\ reads `prefix_of` numbered out_dir
        /\ (snd (Preparation._data_label_stats self write w) = Ok tt ->
            reads = numbered out_dir))
  /\ (forall indices,
        length indices = N ->
        Preparation._data_node_stats (Preparation.set_sample_indices self indices) write
        = Preparation._data_node_stats self write
        /\ Preparation._data_label_stats (Preparation.set_sample_indices self indices) write
           = Preparation._data_label_stats self write)
  /\ (exists reads,
        Preparation.loadtxt_calls (fst generation)
        = (Preparation.loadtxt_calls w ++ reads)%list
        /\ reads `prefix_of` cases (map (fun idx => idx + 1) (Preparation.sample_indices self))
        /\ (snd generation = Ok tt ->
            reads = cases (map (fun idx => idx + 1) (Preparation.sample_indices self)))
        /\ (reads = cases (map Z.of_nat (seq 1 N)) ->
            Preparation.sample_indices self = map Z.of_nat (seq 0 N))
        /\ (snd generation = Ok tt ->
            Preparation.sample_indices self = map Z.of_nat (seq 0 N) ->
            reads = cases (map Z.of_nat (seq 1 N))))
  /\ (snd generation = Ok tt ->
      exists ins outs,
        Preparation.loadtxt_calls (fst generation)
        = (Preparation.loadtxt_calls w
             ++ [Preparation.global_feature_data_path self; Preparation.shape_data_path self]
             ++ concat (zip_with (fun a b => [a; b]) ins outs))%list
        /\ length ins = N /\ length outs = N
        /\ (ins = numbered in_dir
            <-> Preparation.sample_indices self = map Z.of_nat (seq 0 N))
        /\ (outs = numbered out_dir
            <-> Preparation.sample_indices self = map Z.of_nat (seq 0 N))
        /\ ((forall file, file ∈ ins <-> file ∈ numbered in_dir)
            <-> Permutation (Preparation.sample_indices self) (map Z.of_nat (seq 0 N)))
        /\ ((forall file, file ∈ outs <-> file ∈ numbered out_dir)
            <-> Permutation (Preparation.sample_indices self) (map Z.of_nat (seq 0 N)))).
Proof.
  intros N case_file numbered in_dir out_dir cases generation.
  subst numbered case_file in_dir out_dir cases. cbv beta.
  rewrite <- !stats_files_numbered.
  (* the reads of the generation pass *)
  assert (Hshape : forall l : list Z,
            flat_map (fun k => [Preparation.inputs_data_path self ++ "/ct_case_"
                                  ++ Preparation.format_04d k ++ ".csv";
                                Preparation.outputs_data_path self ++ "/ct_case_"
                                  ++ Preparation.format_04d k ++ ".csv"])
                     (map (fun idx => idx + 1) l)
            = flat_map (Preparation.sample_files self) l).
  { intros l. induction l as [|a l IH]; cbn [map flat_map]; [reflexivity|].
    rewrite IH. reflexivity. }
  rewrite Hshape, case_pairs_numbered.
  fold (Preparation.generation_sample_files self).
  destruct generation as [w' r] eqn:Hgen. subst generation. cbn [fst snd].
  pose proof (data_generation_reads self w w' r Hgen) as (reads & Hcalls & Hpre & Hfull).
  split; [|split; [|split; [|split; [|]]]].
  - destruct (Preparation._data_node_stats self write w) as [w1 r1] eqn:Hrun.
    apply node_stats_reads in Hrun. exact Hrun.
  - destruct (Preparation._data_label_stats self write w) as [w1 r1] eqn:Hrun.
    apply label_stats_reads in Hrun. exact Hrun.
  - intros indices Hlen. apply stats_only_count, Hlen.
  - exists reads. split; [exact Hcalls|]. split; [exact Hpre|].
    split; [intros ->; apply Hfull; reflexivity|]. split.
    + intros ->. apply prefix_length_eq in Hpre.
      * apply app_inv_head in Hpre. apply case_pairs_inj in Hpre.
        rewrite <- Hpre. reflexivity.
      * rewrite !length_app. unfold Preparation.generation_sample_files,
          Preparation.sample_files.
        rewrite !case_pairs_length, length_map, length_seq. fold N. lia.
    + intros -> Hidx. rewrite (Hfull eq_refl). f_equal.
      unfold Preparation.generation_sample_files. rewrite Hidx at 1. reflexivity.
  - intros ->. specialize (Hfull eq_refl). subst reads.
    exists (Preparation.generation_input_files self),
           (Preparation.generation_output_files self).
    rewrite <- generation_files_interleaved.
    split; [exact Hcalls|].
    split; [unfold Preparation.generation_input_files; apply length_map|].
    split; [unfold Preparation.generation_output_files; apply length_map|].
    split; [apply same_files_iff|]. split; [apply same_files_iff|].
    split; apply same_file_set_iff.
Qed.

(** The indices 3 and 4: the generation pass reads cases 4 and 5, the
    statistics pass cases 1 and 2. *)
Example stats_pass_other_files :
  let self := Examples.preparation "train" [3; 4] 1 None in
  let generation := @Preparation._data_generation Examples.constants
                      Examples.toy_external self Examples.start in
  let node_stats := @Preparation._data_node_stats Examples.toy_external
                      self true Examples.start in
  let label_stats := @Preparation._data_label_stats Examples.toy_external
                       self true Examples.start in
  snd generation = Ok tt
  /\ Preparation.loadtxt_calls (fst generation)
     = ["global.csv"; "shape.csv";
        "inputs/ct_case_0004.csv"; "outputs/ct_case_0004.csv";
        "inputs/ct_case_0005.csv"; "outputs/ct_case_0005.csv"]
  /\ snd node_stats = Ok tt
  /\ Preparation.loadtxt_calls (fst node_stats)
     = ["inputs/ct_case_0001.csv"; "inputs/ct_case_0002.csv"]
  /\ snd label_stats = Ok tt
  /\ Preparation.loadtxt_calls (fst label_stats)
     = ["outputs/ct_case_0001.csv"; "outputs/ct_case_0002.csv"].
Proof. vm_compute. repeat split; reflexivity. Qed.

(** With fewer samples than [chunk_file_size] the generation pass stops
    after the two global tables, whatever the indices are. *)
Example generation_reads_only_tables :
  let self := Examples.preparation "train" [0; 1] 3 None in
  let generation := @Preparation._data_generation Examples.constants
                      Examples.toy_external self Examples.start in
  snd generation = Raise (ValueError "number sections must be larger than 0.")
  /\ Preparation.loadtxt_calls (fst generation) = ["global.csv"; "shape.csv"].
Proof. vm_compute. split; reflexivity. Qed.

(** ** pkg/utils/io.py: where [get_repo_path] ends *)

Section RepoPathResults.
Import Io.
Variable exists_ : string -> bool.

Lemma prefix_empty (s : string) : String.prefix "" s = true.
Proof. destruct s; reflexivity. Qed.

Lemma prefix_refl (s : string) : String.prefix s s = true.
Proof.
  induction s as [|c s IH]; [reflexivity|]. cbn.
  destruct (ascii_dec c c); [exact IH | contradiction].
Qed.

Lemma prefix_trans (a b c : string) :
  String.prefix a b = true -> String.prefix b c = true -> String.prefix a c = true.
Proof.
  revert b c. induction a as [|x a IH]; intros b c; [intros; apply prefix_empty|].
  destruct b as [|y b]; [discriminate|]. destruct c as [|z c]; [discriminate|].
  cbn. destruct (ascii_dec x y) as [->|]; [|discriminate].
  destruct (ascii_dec y z) as [->|]; [|discriminate].
  destruct (ascii_dec z z); [|contradiction]. apply IH.
Qed.

Lemma head_of_prefix (p : string) : String.prefix (head_of p) p = true.
Proof.
  induction p as [|c p IH]; [reflexivity|]. cbn [head_of].
  destruct (has_sep (String c p)); [|reflexivity].
  cbn. destruct (ascii_dec c c); [exact IH | contradiction].
Qed.

Lemma rstrip_sep_prefix (s : string) : String.prefix (rstrip_sep s) s = true.
Proof.
  induction s as [|c s IH]; [reflexivity|]. cbn [rstrip_sep].
  destruct (rstrip_sep s) as [|r0 r].
  - destruct (is_sep c); [reflexivity|]. cbn.
    destruct (ascii_dec c c); [apply prefix_empty | contradiction].
  - cbn. destruct (ascii_dec c c); [exact IH | contradiction].
Qed.

(** A directory name is a prefix of the path it is taken from. *)
Lemma dirname_prefix (p : string) : String.prefix (dirname p) p = true.
Proof.
  unfold dirname. destruct (nonempty (head_of p) && negb (all_sep (head_of p))).
  - eapply prefix_trans; [apply rstrip_sep_prefix | apply head_of_prefix].
  - apply head_of_prefix.
Qed.

Lemma iter_dirname_prefix (k : nat) (d : string) :
  String.prefix (Nat.iter k dirname d) d = true.
Proof.
  induction k as [|k IH]; cbn [Nat.iter nat_rect]; [apply prefix_refl|].
  eapply prefix_trans; [apply dirname_prefix | exact IH].
Qed.

(** The loop stops at the first directory of the walk that is empty or
    holds a [.git] entry, when the fuel reaches that far. *)
Lemma repo_loop_reaches (k : nat) :
  forall (fuel : nat) (d : string),
    (forall j, (j < k)%nat ->
       nonempty (Nat.iter j dirname d) = true
       /\ exists_ (join (Nat.iter j dirname d) ".git") = false) ->
    nonempty (Nat.iter k dirname d) = false
    \/ exists_ (join (Nat.iter k dirname d) ".git") = true ->
    (k < fuel)%nat ->
    repo_loop exists_ fuel d = Some (Nat.iter k dirname d).
Proof.
  induction k as [|k IH]; intros fuel d Hbefore Hstop Hfuel;
    (destruct fuel as [|fuel]; [lia|]); cbn [repo_loop].
  - cbn [Nat.iter nat_rect] in *. destruct Hstop as [-> | ->]; [reflexivity|].
    rewrite andb_false_r. reflexivity.
  - destruct (Hbefore 0%nat ltac:(lia)) as [Hne Hgit]. cbn [Nat.iter nat_rect] in Hne, Hgit.
    rewrite Hne, Hgit. cbn [andb negb]. rewrite Nat.iter_succ_r.
    apply IH; [|rewrite <- Nat.iter_succ_r; exact Hstop | lia].
    intros j Hj. rewrite <- Nat.iter_succ_r. apply Hbefore. lia.
Qed.

End RepoPathResults.

(** X1.  On a relative path [get_repo_path] returns, within as many loop
    tests as the path has characters plus one.  What it returns is the
    nearest ancestor directory with a [.git] entry, or the empty string
    when no ancestor has one; either way it is a prefix of the path. *)
Theorem get_repo_path_relative_result (exists_ : string -> bool) (path : string) :
  Io.relative path = true ->
  exists r k,
    Io.get_repo_path exists_ (S (String.length path)) path = Some r
    /\ r = Nat.iter k Io.dirname (Io.dirname path)
    /\ (r = "" \/ exists_ (Io.join r ".git") = true)
    /\ (forall j, (j < k)%nat ->
          exists_ (Io.join (Nat.iter j Io.dirname (Io.dirname path)) ".git") = false)
    /\ String.prefix r path = true.
Proof.
  intros Hrel. destruct (get_repo_path_relative exists_ path Hrel) as [r Hr].
  unfold Io.get_repo_path in *.
  destruct (repo_loop_first exists_ _ _ _ Hr) as (k & Hk & Hbefore).
  exists r, k. split; [exact Hr|]. split; [exact Hk|]. split; [|split].
  - eapply repo_loop_sound, Hr.
  - intros j Hj. apply Hbefore, Hj.
  - subst r. eapply prefix_trans; [apply iter_dirname_prefix | apply dirname_prefix].
Qed.

Lemma get_repo_path_relative_result_witness :
  let exists_ := fun p => String.eqb p "repo/.git" in
  let path := "repo/pkg/utils/io.py" in
  exists r k,
    Io.get_repo_path exists_ (S (String.length path)) path = Some r
    /\ r = Nat.iter k Io.dirname (Io.dirname path)
    /\ (r = "" \/ exists_ (Io.join r ".git") = true)
    /\ (forall j, (j < k)%nat ->
          exists_ (Io.join (Nat.iter j Io.dirname (Io.dirname path)) ".git") = false)
    /\ String.prefix r path = true.
Proof.
  intros exists_ path.
  apply (get_repo_path_relative_result exists_ path). reflexivity.
Defined.

(** X2.  On any path, absolute ones included: when the walk up from the
    path's directory meets, after [k] steps through non-empty
    directories without a [.git] entry, a directory that has one (or
    the empty string), [get_repo_path] returns that directory. *)
Theorem get_repo_path_finds_nearest (exists_ : string -> bool) (path : string)
    (k fuel : nat) :
  (forall j, (j < k)%nat ->
     Io.nonempty (Nat.iter j Io.dirname (Io.dirname path)) = true
     /\ exists_ (Io.join (Nat.iter j Io.dirname (Io.dirname path)) ".git") = false) ->
  Io.nonempty (Nat.iter k Io.dirname (Io.dirname path)) = false
  \/ exists_ (Io.join (Nat.iter k Io.dirname (Io.dirname path)) ".git") = true ->
  (k < fuel)%nat ->
  Io.get_repo_path exists_ fuel path = Some (Nat.iter k Io.dirname (Io.dirname path))
  /\ String.prefix (Nat.iter k Io.dirname (Io.dirname path)) path = true.
Proof.
  intros Hbefore Hstop Hfuel. split.
  - unfold Io.get_repo_path. apply repo_loop_reaches; assumption.
  - eapply prefix_trans; [apply iter_dirname_prefix | apply dirname_prefix].
Qed.

Lemma get_repo_path_finds_nearest_witness :
  let exists_ := fun p => String.eqb p "/repo/.git" in
  let path := "/repo/pkg/utils/io.py" in
  Io.get_repo_path exists_ 5 path = Some (Nat.iter 2 Io.dirname (Io.dirname path))
  /\ String.prefix (Nat.iter 2 Io.dirname (Io.dirname path)) path = true.
Proof.
  intros exists_ path.
  apply (get_repo_path_finds_nearest exists_ path 2 5).
  - intros [|[|j]] Hj; [vm_compute; auto | vm_compute; auto | lia].
  - right. reflexivity.
  - lia.
Defined.

Section DirnameJoin.
Import Io.

Lemma has_sep_app (a b : string) : has_sep (a ++ b) = has_sep a || has_sep b.
Proof.
  induction a as [|c a IH]; [reflexivity|].
  change (String c a ++ b) with (String c (a ++ b)). cbn [has_sep].
  rewrite IH, orb_assoc. reflexivity.
Qed.

Lemma head_of_no_sep (s : string) : has_sep s = false -> head_of s = "".
Proof. destruct s as [|c s]; [reflexivity|]. cbn [head_of]. intros ->. reflexivity. Qed.

Lemma head_of_app_no_sep (a name : string) :
  has_sep name = false -> head_of (a ++ name) = head_of a.
Proof.
  intros Hname. induction a as [|c a IH]; [apply head_of_no_sep, Hname|].
  change (String c a ++ name) with (String c (a ++ name)). cbn [head_of has_sep].
  rewrite has_sep_app, Hname, orb_false_r, IH. reflexivity.
Qed.

Lemma endswith_has_sep (a : string) : endswith_sep a = true -> has_sep a = true.
Proof.
  induction a as [|c a IH]; [discriminate|]. cbn [endswith_sep has_sep].
  destruct a as [|c' a']; [intros ->; reflexivity|].
  intros H. rewrite (IH H). apply orb_true_r.
Qed.

Lemma head_of_endswith (a : string) : endswith_sep a = true -> head_of a = a.
Proof.
  induction a as [|c a IH]; [discriminate|]. intros Hend.
  cbn [head_of]. rewrite (endswith_has_sep _ Hend).
  destruct a as [|c' a']; [reflexivity|]. f_equal. apply IH. exact Hend.
Qed.

Lemma endswith_app_sep (a : string) : endswith_sep (a ++ String sep "") = true.
Proof.
  induction a as [|c a IH]; [reflexivity|].
  change (String c a ++ String sep "") with (String c (a ++ String sep "")).
  cbn [endswith_sep]. destruct (a ++ String sep "") eqn:Ha; [|exact IH].
  destruct a; discriminate.
Qed.

Lemma rstrip_app_sep (a : string) : rstrip_sep (a ++ String sep "") = rstrip_sep a.
Proof.
  induction a as [|c a IH]; [reflexivity|].
  change (String c a ++ String sep "") with (String c (a ++ String sep "")).
  cbn [rstrip_sep]. rewrite IH. reflexivity.
Qed.

Lemma rstrip_no_trailing (a : string) : endswith_sep a = false -> rstrip_sep a = a.
Proof.
  induction a as [|c a IH]; [reflexivity|]. cbn [endswith_sep rstrip_sep].
  destruct a as [|c' a'].
  - intros ->. reflexivity.
  - intros H. rewrite (IH H). reflexivity.
Qed.

Lemma all_sep_endswith (a : string) :
  nonempty a = true -> all_sep a = true -> endswith_sep a = true.
Proof.
  induction a as [|c a IH]; [discriminate|]. intros _. cbn [all_sep endswith_sep].
  intros H. apply andb_true_iff in H as [Hc Ha].
  destruct a as [|c' a']; [exact Hc|]. apply IH; [reflexivity | exact Ha].
Qed.

Lemma all_sep_app (a b : string) : all_sep (a ++ b) = all_sep a && all_sep b.
Proof.
  induction a as [|c a IH]; [reflexivity|].
  change (String c a ++ b) with (String c (a ++ b)). cbn [all_sep].
  rewrite IH, andb_assoc. reflexivity.
Qed.

Lemma join_no_trailing (a name : string) :
  nonempty a = true -> endswith_sep a = false -> has_sep name = false ->
  join a name = (a ++ String sep "") ++ name.
Proof.
  intros Hne Hend Hname. unfold join. rewrite Hne, Hend. cbn [negb orb].
  assert (Happ : a ++ String sep name = (a ++ String sep "") ++ name).
  { clear. induction a as [|c a IH]; [reflexivity|].
    change (String c a ++ String sep name) with (String c (a ++ String sep name)).
    rewrite IH. reflexivity. }
  destruct name as [|c name]; [rewrite <- Happ; reflexivity|].
  cbn [has_sep] in Hname. apply orb_false_iff in Hname as [-> _]. exact Happ.
Qed.

Lemma join_trailing (a name : string) :
  nonempty a = false \/ endswith_sep a = true -> has_sep name = false ->
  join a name = a ++ name.
Proof.
  intros Ha Hname. unfold join.
  assert (Hc : negb (nonempty a) || endswith_sep a = true).
  { destruct Ha as [-> | ->]; [reflexivity | apply orb_true_r]. }
  rewrite Hc. destruct name as [|c name].
  - clear. induction a as [|c a IH]; [reflexivity|].
    change (String c a ++ "") with (String c (a ++ "")). rewrite <- IH. reflexivity.
  - cbn [has_sep] in Hname. apply orb_false_iff in Hname as [-> _]. reflexivity.
Qed.

End DirnameJoin.

(** X3.  The directory of an entry [name] placed in a directory [d] is [d]
    again, for a name without separator and a directory written
    without trailing separator (or consisting of separators only, as
    the root). *)
Theorem get_cur_abs_dir_join (d name : string) :
  Io.has_sep name = false ->
  Io.endswith_sep d = false \/ Io.all_sep d = true ->
  Io.get_cur_abs_dir (Io.join d name) = d.
Proof.
  intros Hname Hd. unfold Io.get_cur_abs_dir, Io.dirname.
  destruct (Io.nonempty d) eqn:Hne.
  - destruct (Io.endswith_sep d) eqn:Hend.
    + destruct Hd as [Hd|Hall]; [discriminate|].
      rewrite join_trailing by auto.
      rewrite head_of_app_no_sep, head_of_endswith by assumption.
      rewrite Hne, Hall. reflexivity.
    + rewrite join_no_trailing by assumption.
      rewrite head_of_app_no_sep by assumption.
      rewrite head_of_endswith by apply endswith_app_sep.
      assert (Hnall : Io.all_sep d = false).
      { destruct (Io.all_sep d) eqn:Hall; [|reflexivity].
        rewrite (all_sep_endswith d Hne Hall) in Hend. discriminate. }
      rewrite all_sep_app, Hnall. cbn [andb negb].
      replace (Io.nonempty (d ++ String Io.sep "")) with true
        by (destruct d; reflexivity).
      cbn [andb]. rewrite rstrip_app_sep. apply rstrip_no_trailing, Hend.
  - destruct d; [|discriminate]. rewrite join_trailing by auto.
    rewrite head_of_app_no_sep by assumption. reflexivity.
Qed.

Lemma get_cur_abs_dir_join_witness :
  Io.get_cur_abs_dir (Io.join "/repo/pkg" ".git") = "/repo/pkg".
Proof.
  apply (get_cur_abs_dir_join "/repo/pkg" ".git"); [reflexivity | left; reflexivity].
Defined.

Lemma iter_dirname_absolute (k : nat) (d : string) :
  Io.relative d = false -> Io.relative (Nat.iter k Io.dirname d) = false.
Proof.
  intros Hd. induction k as [|k IH]; cbn [Nat.iter nat_rect]; [exact Hd|].
  apply dirname_absolute, IH.
Qed.

(** X4.  The callers pass an absolute path ([os.path.abspath] of the script).
    On an absolute path, what [get_repo_path] returns, when it returns,
    is never the empty string: it is an absolute directory that holds
    a [.git] entry and is a prefix of the path. *)
Theorem get_repo_path_absolute_result (exists_ : string -> bool) (path r : string)
    (fuel : nat) :
  Io.relative path = false ->
  Io.get_repo_path exists_ fuel path = Some r ->
  Io.relative r = false
  /\ r <> ""
  /\ exists_ (Io.join r ".git") = true
  /\ String.prefix r path = true.
Proof.
  intros Habs Hr. unfold Io.get_repo_path in Hr.
  destruct (repo_loop_first exists_ _ _ _ Hr) as (k & Hk & _).
  assert (Hrel : Io.relative r = false).
  { subst r. apply iter_dirname_absolute, dirname_absolute, Habs. }
  assert (Hne : r <> "") by (intros ->; discriminate).
  split; [exact Hrel|]. split; [exact Hne|]. split.
  - destruct (repo_loop_sound exists_ _ _ _ Hr) as [->|Hgit]; [contradiction | exact Hgit].
  - subst r. eapply prefix_trans; [apply iter_dirname_prefix | apply dirname_prefix].
Qed.

Lemma get_repo_path_absolute_result_witness :
  let exists_ := fun p => String.eqb p "/repo/.git" in
  Io.relative "/repo" = false
  /\ "/repo" <> ""
  /\ exists_ (Io.join "/repo" ".git") = true
  /\ String.prefix "/repo" "/repo/task/train/check_dataset.py" = true.
Proof.
  intros exists_.
  apply (get_repo_path_absolute_result exists_ "/repo/task/train/check_dataset.py" "/repo" 5);
    reflexivity.
Defined.

(** ** pkg/train/trainer/base_trainer.py: [TrainerConfig._create_logs_path] *)

Section CreateLogsPathFacts.
Import BaseTrainer.
Context {fs : Type}.
Variable exists_ : fs -> string -> bool.
Variable makedirs : string -> fs -> fs.
Variable MODEL_TRAIN : string.
(** What [os.makedirs] does when it returns: the directory exists
    afterwards, and so does everything that existed before. *)
Hypothesis makedirs_creates : forall p f, exists_ (makedirs p f) p = true.
Hypothesis makedirs_keeps :
  forall p q f, exists_ f q = true -> exists_ (makedirs p f) q = true.

Lemma ensure_dir_exists (p : string) (f : fs) :
  exists_ (ensure_dir exists_ makedirs p f) p = true.
Proof.
  unfold ensure_dir. destruct (exists_ f p) eqn:Hp; [exact Hp | apply makedirs_creates].
Qed.

Lemma ensure_dir_keeps (p q : string) (f : fs) :
  exists_ f q = true -> exists_ (ensure_dir exists_ makedirs p f) q = true.
Proof.
  unfold ensure_dir. destruct (exists_ f p); [auto | apply makedirs_keeps].
Qed.

Lemma create_logs_path_train (self self' : logs_config) (f f' : fs)
    (r : result unit) :
  _create_logs_path exists_ makedirs MODEL_TRAIN MODEL_TRAIN self f = ((self', f'), r) ->
  exists_ f' (exp_logs_path_of self) = true
  /\ (forall q, exists_ f q = true -> exists_ f' q = true)
  /\ match r with
     | Ok _ => self' = set_logs_base_path (exp_logs_path_of self) self
     | Raise e =>
         self' = self
         /\ e = overwrite_error (exp_logs_path_of self)
         /\ overwrite_exp_folder self = Some false
     end.
Proof.
  unfold _create_logs_path. rewrite String.eqb_refl. cbn [negb]. cbv zeta.
  fold (exp_logs_path_of self).
  set (f2 := ensure_dir exists_ makedirs (log_path_of self ++ "/" ++ task_name self)
               (ensure_dir exists_ makedirs (log_path_of self) f)).
  assert (Hkeep : forall q, exists_ f q = true -> exists_ f2 q = true).
  { intros q Hq. subst f2. apply ensure_dir_keeps, ensure_dir_keeps, Hq. }
  destruct (exists_ f2 (exp_logs_path_of self)) eqn:Hexp; cbn [negb].
  - destruct (overwrite_exp_folder self) as [[|]|] eqn:Hover; cbn [default negb];
      intros [= <- <- <-]; repeat split; auto.
  - intros [= <- <- <-]. split; [apply makedirs_creates|].
    split; [|reflexivity]. intros q Hq. apply makedirs_keeps, Hkeep, Hq.
Qed.

End CreateLogsPathFacts.

(** X5.  For a task that is not model training [_create_logs_path] touches
    nothing, whatever the state of the folders.  For model training,
    when it returns, the experiment folder
    [<log>/<task_name>/<exp_name>] exists, everything that existed
    before still does, and [logs_base_path] is that folder; a later
    call for the same experiment with [overwrite_exp_folder] set to
    [False] is then refused with [ValueError], whatever was created in
    between.  (What is asked of [os.makedirs]: the directory it made
    exists afterwards, and so does everything that existed before.) *)
Theorem create_logs_path_refuses_reuse {fs : Type}
    (exists_ : fs -> string -> bool) (makedirs : string -> fs -> fs)
    (MODEL_TRAIN : string) (self : BaseTrainer.logs_config) (f : fs) :
  (forall task_type, task_type <> MODEL_TRAIN ->
     BaseTrainer._create_logs_path exists_ makedirs MODEL_TRAIN task_type self f
     = ((self, f), Ok tt))
  /\ ((forall p f, exists_ (makedirs p f) p = true) ->
      (forall p q f, exists_ f q = true -> exists_ (makedirs p f) q = true) ->
      forall (self' : BaseTrainer.logs_config) (f' : fs),
        BaseTrainer._create_logs_path exists_ makedirs MODEL_TRAIN MODEL_TRAIN self f
        = ((self', f'), Ok tt) ->
        BaseTrainer.logs_base_path self' = Some (BaseTrainer.exp_logs_path_of self)
        /\ exists_ f' (BaseTrainer.exp_logs_path_of self) = true
        /\ (forall q, exists_ f q = true -> exists_ f' q = true)
        /\ forall (again : BaseTrainer.logs_config) (later : fs),
             BaseTrainer.exp_logs_path_of again = BaseTrainer.exp_logs_path_of self ->
             BaseTrainer.overwrite_exp_folder again = Some false ->
             (forall q, exists_ f' q = true -> exists_ later q = true) ->
             snd (BaseTrainer._create_logs_path exists_ makedirs MODEL_TRAIN MODEL_TRAIN
                    again later)
             = Raise (BaseTrainer.overwrite_error (BaseTrainer.exp_logs_path_of self))).
Proof.
  split.
  - intros task_type Hne. unfold BaseTrainer._create_logs_path.
    apply String.eqb_neq in Hne. rewrite Hne. reflexivity.
  - intros Hcreates Hkeeps self' f' Hcall.
    destruct (create_logs_path_train exists_ makedirs MODEL_TRAIN Hcreates Hkeeps
                _ _ _ _ _ Hcall) as (Hexp & Hkeep & ->).
    split; [reflexivity|]. split; [exact Hexp|]. split; [exact Hkeep|].
    intros again later Hsame Hover Hlater.
    unfold BaseTrainer._create_logs_path. rewrite String.eqb_refl. cbn [negb]. cbv zeta.
    fold (BaseTrainer.exp_logs_path_of again).
    rewrite (ensure_dir_keeps exists_ makedirs Hkeeps), Hover, Hsame; [reflexivity|].
    apply (ensure_dir_keeps exists_ makedirs Hkeeps). rewrite Hsame. apply Hlater, Hexp.
Qed.

(** An experiment whose folder exists and may not be reused: an
    evaluation job goes ahead, a second training job is refused. *)
Example create_logs_path_after_training :
  let taken := ["/repo/log/passive_biv/run_1"] in
  BaseTrainer._create_logs_path Examples.listed Examples.add_dir
    "model_train" "evaluation" Examples.experiment taken
  = ((Examples.experiment, taken), Ok tt)
  /\ snd (BaseTrainer._create_logs_path Examples.listed Examples.add_dir
            "model_train" "model_train" Examples.experiment taken)
     = Raise (ValueError
                "the current /repo/log/passive_biv/run_1 directory can't be overwrite, please choice a new exp folder name").
Proof. split; reflexivity. Qed.

Lemma create_logs_path_refuses_reuse_witness :
  let out := BaseTrainer._create_logs_path Examples.listed Examples.add_dir
               "model_train" "model_train" Examples.experiment [] in
  let self' := fst (fst out) in
  let f' := snd (fst out) in
  (forall task_type, task_type <> "model_train" ->
     BaseTrainer._create_logs_path Examples.listed Examples.add_dir
       "model_train" task_type Examples.experiment []
     = ((Examples.experiment, []), Ok tt))
  /\ BaseTrainer.logs_base_path self'
     = Some (BaseTrainer.exp_logs_path_of Examples.experiment)
  /\ Examples.listed f' (BaseTrainer.exp_logs_path_of Examples.experiment) = true
  /\ (forall q, Examples.listed [] q = true -> Examples.listed f' q = true)
  /\ forall (again : BaseTrainer.logs_config) (later : list string),
       BaseTrainer.exp_logs_path_of again = BaseTrainer.exp_logs_path_of Examples.experiment ->
       BaseTrainer.overwrite_exp_folder again = Some false ->
       (forall q, Examples.listed f' q = true -> Examples.listed later q = true) ->
       snd (BaseTrainer._create_logs_path Examples.listed Examples.add_dir
              "model_train" "model_train" again later)
       = Raise (BaseTrainer.overwrite_error
                  (BaseTrainer.exp_logs_path_of Examples.experiment)).
Proof.
  intros out self' f'.
  destruct (create_logs_path_refuses_reuse Examples.listed Examples.add_dir "model_train"
              Examples.experiment []) as [Hother Htrain].
  split; [exact Hother|].
  apply (Htrain); clear Hother Htrain.
  - intros p f. unfold Examples.listed, Examples.add_dir. cbn [existsb].
    rewrite String.eqb_refl. reflexivity.
  - intros p q f Hq. unfold Examples.listed, Examples.add_dir in *. cbn [existsb].
    rewrite Hq. apply orb_true_r.
  - vm_compute. reflexivity.
Defined.

(** ** pkg/train/trainer/base_trainer.py: [create_metrics] *)

Section CreateMetricsFacts.
Import BaseTrainer.

Lemma metric_of_key (p : string) (f : metric_fn) :
  metric_of p = Some f ->
  (p = "mean_absolute_error" /\ f = MeanAbsoluteError)
  \/ (p = "explained_variance" /\ f = ExplainedVariance).
Proof.
  unfold metric_of.
  destruct (String.eqb_spec p "mean_absolute_error") as [->|_];
    [intros [= <-]; auto|].
  destruct (String.eqb_spec p "explained_variance") as [->|_];
    [intros [= <-]; auto | discriminate].
Qed.

Lemma register_metrics_spec (names : list string) :
  forall (metrics metrics' : gmap string metric_fn) (r : result unit),
    register_metrics names metrics = (metrics', r) ->
    exists registered,
      registered `prefix_of` names
      /\ Forall (fun p => is_Some (metric_of p)) registered
      /\ (forall p, metrics' !! p
                    = if decide (p ∈ registered) then metric_of p else metrics !! p)
      /\ match r with
         | Ok _ => registered = names
         | Raise e =>
             exists bad,
               (registered ++ [bad])%list `prefix_of` names
               /\ metric_of bad = None
               /\ e = ValueError
                        ("metrics name do not set properly, please check: " ++ bad)
         end.
Proof.
  induction names as [|p rest IH]; intros metrics metrics' r; cbn [register_metrics].
  - intros [= <- <-]. exists []. repeat split; auto.
  - assert (Hstep : forall f, metric_of p = Some f ->
              register_metrics rest (<[p := f]> metrics) = (metrics', r) ->
              exists registered,
                registered `prefix_of` p :: rest
                /\ Forall (fun p => is_Some (metric_of p)) registered
                /\ (forall q, metrics' !! q
                      = if decide (q ∈ registered) then metric_of q else metrics !! q)
                /\ match r with
                   | Ok _ => registered = p :: rest
                   | Raise e =>
                       exists bad,
                         (registered ++ [bad])%list `prefix_of` p :: rest
                         /\ metric_of bad = None
                         /\ e = ValueError
                                  ("metrics name do not set properly, please check: " ++ bad)
                   end).
    { intros f Hf Hrest. destruct (IH _ _ _ Hrest) as (reg & Hpre & Hall & Hlook & Hr).
      exists (p :: reg). split; [apply prefix_cons, Hpre|].
      split; [constructor; [rewrite Hf; eauto | exact Hall]|]. split.
      - intros q. rewrite Hlook.
        destruct (decide (q ∈ reg)) as [Hin|Hnin].
        + destruct (decide (q ∈ p :: reg)) as [_|Hn]; [reflexivity|].
          exfalso. apply Hn. right. exact Hin.
        + destruct (decide (q = p)) as [->|Hne].
          * rewrite lookup_insert_eq.
            destruct (decide (p ∈ p :: reg)) as [_|Hn]; [auto|].
            exfalso. apply Hn. left.
          * rewrite lookup_insert_ne by congruence.
            destruct (decide (q ∈ p :: reg)) as [Hin|_]; [|reflexivity].
            apply elem_of_cons in Hin as [?|?]; contradiction.
      - destruct r as [[]|e].
        + rewrite Hr. reflexivity.
        + destruct Hr as (bad & Hbad & Hnone & ->). exists bad.
          split; [apply prefix_cons, Hbad | auto]. }
    destruct (String.eqb_spec p "mean_absolute_error") as [->|Hmae];
      [apply (Hstep MeanAbsoluteError); reflexivity|].
    destruct (String.eqb_spec p "explained_variance") as [->|Hev];
      [apply (Hstep ExplainedVariance); reflexivity|].
    intros [= <- <-]. exists []. split; [apply prefix_nil|]. split; [constructor|].
    split; [intros q; reflexivity|]. exists p. split; [apply prefix_cons, prefix_nil|].
    split; [|reflexivity]. unfold metric_of.
    apply String.eqb_neq in Hmae, Hev. rewrite Hmae, Hev. reflexivity.
Qed.

End CreateMetricsFacts.

(** X6.  [create_metrics] registers the names of [metrics_param] in order
    until it meets one it does not know.  It returns exactly when all
    names are known; [self.metrics] then holds the function of every
    name given and keeps its other entries.  At the first unknown name
    it raises [ValueError] naming it, with the names before it already
    registered.  Without [metrics_param] nothing changes. *)
Theorem create_metrics_registers (metrics_param : option (list string))
    (metrics : gmap string BaseTrainer.metric_fn) :
  let names := default [] metrics_param in
  let out := BaseTrainer.create_metrics metrics_param metrics in
  (snd out = Ok tt <-> Forall (fun p => is_Some (BaseTrainer.metric_of p)) names)
  /\ exists registered,
       registered `prefix_of` names
       /\ Forall (fun p => is_Some (BaseTrainer.metric_of p)) registered
       /\ (forall p, fst out !! p
                     = if decide (p ∈ registered) then BaseTrainer.metric_of p
                       else metrics !! p)
       /\ match snd out with
          | Ok _ => registered = names
          | Raise e =>
              exists bad,
                (registered ++ [bad])%list `prefix_of` names
                /\ BaseTrainer.metric_of bad = None
                /\ e = ValueError
                         ("metrics name do not set properly, please check: " ++ bad)
          end.
Proof.
  intros names out. unfold BaseTrainer.create_metrics in out. fold names in out.
  destruct (register_metrics_spec names metrics (fst out) (snd out))
    as (reg & Hpre & Hall & Hlook & Hr); [subst out; apply surjective_pairing|].
  split; [|exists reg; auto].
  destruct (snd out) as [[]|e].
  - subst reg. split; auto.
  - destruct Hr as (bad & [tail Hbad] & Hnone & _). split; [discriminate|].
    intros Hnames. exfalso. rewrite Hbad in Hnames.
    apply Forall_app in Hnames as [Hnames _]. apply Forall_app in Hnames as [_ Hb].
    inversion Hb as [|? ? [f Hf] _]; subst. congruence.
Qed.

(** A known name, then an unknown one, then a known one. *)
Example create_metrics_stops :
  BaseTrainer.create_metrics
    (Some ["explained_variance"; "mse"; "mean_absolute_error"]) ∅
  = ({[ "explained_variance" := BaseTrainer.ExplainedVariance ]},
     Raise (ValueError "metrics name do not set properly, please check: mse")).
Proof. reflexivity. Qed.

(** ** pkg/train/trainer/base_trainer.py: [compute_loss] *)

Section ComputeLossFacts.
Import BaseTrainer.
Context {T L : Type}.
Variable fn : option (T -> T -> result L).
Variables predictions labels : gmap string T.

Lemma compute_for_labels_ok (names : list string) :
  forall losses losses' : gmap string L,
    compute_for_labels fn predictions labels names losses = Ok losses' ->
    Forall (fun name => exists v, label_loss fn predictions labels name v) names
    /\ (forall name, name ∉ names -> losses' !! name = losses !! name)
    /\ (forall name, name ∈ names -> exists v, label_loss fn predictions labels name v /\ losses' !! name = Some v).
Proof.
  induction names as [|name rest IH]; intros losses losses'; cbn [compute_for_labels].
  - intros [= <-]. split; [constructor|]. split; [reflexivity|].
    intros name Hin. apply elem_of_nil in Hin. contradiction.
  - intros H. apply bind_ok in H as (prediction & Hp & H). apply getitem_ok in Hp.
    apply bind_ok in H as (label & Hl & H). apply getitem_ok in Hl.
    apply bind_ok in H as (v & Hv & H).
    assert (Hname : label_loss fn predictions labels name v).
    { destruct fn as [f|] eqn:Hfn; [|discriminate]. exists f, prediction, label. auto. }
    destruct (IH _ _ H) as (Hall & Hframe & Hin).
    split; [constructor; eauto|]. split.
    + intros k Hk. rewrite Hframe.
      * apply lookup_insert_ne. intros <-. apply Hk. left.
      * intros Hr. apply Hk. right. exact Hr.
    + intros k Hk. destruct (decide (k ∈ rest)) as [Hr|Hnr]; [apply Hin, Hr|].
      apply elem_of_cons in Hk as [->|Hk]; [|contradiction].
      exists v. split; [exact Hname|]. rewrite (Hframe name Hnr). apply lookup_insert_eq.
Qed.

Lemma compute_for_labels_returns (names : list string) :
  Forall (fun name => exists v, label_loss fn predictions labels name v) names ->
  forall losses : gmap string L,
    exists losses', compute_for_labels fn predictions labels names losses = Ok losses'.
Proof.
  induction 1 as [|name rest (v & f & p & l & Hfn & Hp & Hl & Hv) _ IH]; intros losses;
    cbn [compute_for_labels]; [eauto|].
  unfold getitem. rewrite Hp, Hl, Hfn. cbn [Py.bind]. rewrite Hv. cbn [Py.bind].
  rewrite <- Hfn. apply IH.
Qed.

End ComputeLossFacts.

(** X7.  [compute_loss], and [compute_metrics] with the metric function in
    place of the loss, returns exactly when [self.labels] is set and
    every label name is a key of both the predictions and the labels on
    which the loss function returns.  The result then has one entry per
    label name, the loss of that name's prediction and label, and no
    other entry. *)
Theorem compute_loss_per_label {T L : Type} (self_labels : option (list string))
    (self_loss : option (T -> T -> result L)) (predictions labels : gmap string T) :
  let out := BaseTrainer.compute_loss self_labels self_loss predictions labels in
  (is_ok out = true <->
   exists names,
     self_labels = Some names
     /\ Forall (fun name =>
                  exists v, BaseTrainer.label_loss self_loss predictions labels name v)
               names)
  /\ forall names losses,
       self_labels = Some names ->
       out = Ok losses ->
       forall name,
         match losses !! name with
         | Some v =>
             name ∈ names
             /\ BaseTrainer.label_loss self_loss predictions labels name v
         | None => name ∉ names
         end.
Proof.
  intros out. subst out. unfold BaseTrainer.compute_loss. split.
  - split.
    + destruct self_labels as [names|]; [|discriminate].
      destruct (BaseTrainer.compute_for_labels _ _ _ names ∅) as [losses|e] eqn:H;
        [|discriminate].
      intros _. exists names. split; [reflexivity|].
      apply (compute_for_labels_ok _ _ _ _ _ _ H).
    + intros (names & -> & Hall).
      destruct (compute_for_labels_returns _ _ _ _ Hall ∅) as (losses & ->). reflexivity.
  - intros names losses -> H name.
    destruct (compute_for_labels_ok _ _ _ _ _ _ H) as (_ & Hframe & Hin).
    destruct (decide (name ∈ names)) as [Hn|Hn].
    + destruct (Hin name Hn) as (v & Hv & ->). auto.
    + rewrite (Hframe name Hn), lookup_empty. exact Hn.
Qed.

(** Two labels, an absolute difference as the loss. *)
Example compute_loss_two_labels :
  let diff := fun a b : Z => Ok (Z.abs (a - b)) in
  BaseTrainer.compute_loss (Some ["displacement"; "stress"]) (Some diff)
    {[ "displacement" := 5; "stress" := 1 ]} {[ "displacement" := 2; "stress" := 4 ]}
  = Ok {[ "displacement" := 3; "stress" := 3 ]}
  /\ BaseTrainer.compute_loss (Some ["displacement"; "stress"]) (Some diff)
       {[ "displacement" := 5 ]} {[ "displacement" := 2; "stress" := 4 ]}
     = Raise (KeyError "stress").
Proof. split; vm_compute; reflexivity. Qed.

(** ** pkg/train/trainer/base_trainer.py: [create_optimize] *)

(** X8.  [create_optimize] returns exactly when the name is [adam], the model
    is set, a learning rate is configured and [Adam] accepts it; the
    optimizer is then the one [Adam] built, and in every other case
    [self.optimizer] stays as it was.  For any other name the message of
    the [ValueError] is built from the key [optimizer], not [name]: when
    the configuration has no such key the call raises [KeyError]
    instead. *)
Theorem create_optimize_outcome {model optimizer : Type}
    (Adam : model -> value -> result optimizer) (str_of : value -> string)
    (optimizer_param : gmap string value)
    (self_model : option model) (self_optimizer : option optimizer) :
  let out := BaseTrainer.create_optimize Adam str_of optimizer_param
               self_model self_optimizer in
  (snd out = Ok tt <->
   exists name m lr o,
     optimizer_param !! "name" = Some name
     /\ eq_str name "adam" = true
     /\ self_model = Some m
     /\ optimizer_param !! "learning_rate" = Some lr
     /\ Adam m lr = Ok o
     /\ fst out = Some o)
  /\ (snd out <> Ok tt -> fst out = self_optimizer)
  /\ (forall name,
        optimizer_param !! "name" = Some name ->
        eq_str name "adam" = false ->
        snd out
        = match optimizer_param !! "optimizer" with
          | Some v =>
              Raise (ValueError
                       ("optimizer name do not set properly, please check: " ++ str_of v))
          | None => Raise (KeyError "optimizer")
          end).
Proof.
  intros out. subst out. unfold BaseTrainer.create_optimize, getitem.
  destruct (optimizer_param !! "name") as [name|] eqn:Hname; cbn [fst snd].
  - destruct (eq_str name "adam") eqn:Hadam.
    + destruct self_model as [m|]; cbn [fst snd].
      * destruct (optimizer_param !! "learning_rate") as [lr|] eqn:Hlr; cbn [Py.bind].
        -- destruct (Adam m lr) as [o|e] eqn:Ho; cbn [fst snd].
           ++ split; [|split].
              ** split; [intros _; exists name, m, lr, o; repeat split; auto
                        | intros _; reflexivity].
              ** intros H. contradiction.
              ** intros name' [= <-] H. congruence.
           ++ split; [|split].
              ** split; [discriminate|].
                 intros (? & ? & ? & ? & _ & _ & [= <-] & [= <-] & H & _). congruence.
              ** reflexivity.
              ** intros name' [= <-] H. congruence.
        -- split; [|split].
           ++ split; [discriminate|].
              intros (? & ? & ? & ? & _ & _ & _ & [=] & _).
           ++ reflexivity.
           ++ intros name' [= <-] H. congruence.
      * split; [|split].
        -- split; [discriminate|]. intros (? & ? & ? & ? & _ & _ & [=] & _).
        -- reflexivity.
        -- intros name' [= <-] H. congruence.
    + split; [|split].
      * split; [destruct (optimizer_param !! "optimizer"); discriminate|].
        intros (? & ? & ? & ? & [= <-] & H & _). congruence.
      * reflexivity.
      * intros name' _ _. destruct (optimizer_param !! "optimizer"); reflexivity.
  - split; [|split].
    + split; [discriminate|]. intros (? & ? & ? & ? & [=] & _).
    + reflexivity.
    + intros name' [=].
Qed.

(** The configuration names the optimizer [sgd] under the key [name]. *)
Example create_optimize_sgd :
  let Adam := fun (m : unit) (lr : value) => Ok lr in
  let str_of := fun v => match v with VStr s => s | _ => "" end in
  BaseTrainer.create_optimize Adam str_of
    {[ "name" := VStr "sgd"; "learning_rate" := VFloat (1 # 1000) ]} (Some tt) None
  = (None, Raise (KeyError "optimizer")).
Proof. reflexivity. Qed.

Section TrainStepTrace.
Import BaseTrainer.
Context `{F : Framework}.

Lemma train_batch_stamped (data : batch_data) (batch : nat)
    (metrics m2 : gmap string Q) (st st' : run_state) :
  train_batch data batch metrics st = (st', Ok m2) ->
  clock st' = (4 + clock st)%nat
  /\ batch_end_calls st' = (batch_end_calls st ++ [(batch, m2)])%list
  /\ exists m1, m2 = stamped (clock st) (get_last_lr (net st')) m1.
Proof.
  unfold train_batch.
  destruct (forward_loss (net st) data) as [loss|e]; [|intros [= _ ?]; discriminate].
  destruct (record_loss loss metrics) as [m1|e]; [|intros [= _ ?]; discriminate].
  destruct (has_grad_problem (net st) data); [intros [= _ ?]; discriminate|].
  intros [= <- <-]. cbn. split; [reflexivity|]. split; [reflexivity|].
  exists m1. reflexivity.
Qed.

Lemma train_batch_raise_clock (data : batch_data) (batch : nat)
    (metrics : gmap string Q) (st st' : run_state) (e : exn) :
  train_batch data batch metrics st = (st', Raise e) -> net st' = net st.
Proof.
  unfold train_batch.
  destruct (forward_loss (net st) data) as [loss|e0]; [|intros [= <- _]; reflexivity].
  destruct (record_loss loss metrics) as [m1|e0]; [|intros [= <- _]; reflexivity].
  destruct (has_grad_problem (net st) data); [intros [= <- _]; reflexivity|].
  discriminate.
Qed.

Lemma train_loop_trace (pes : option Z) (data_loader : list batch_data) :
  forall (batch : nat) (metrics : gmap string Q) (st st' : run_state)
         (r : result (nat * gmap string Q)),
    train_loop pes data_loader batch metrics st = (st', r) ->
    exists calls,
      batch_end_calls st' = (batch_end_calls st ++ calls)%list
      /\ map fst calls = seq batch (length calls)
      /\ forall batch' metrics',
           r = Ok (batch', metrics') ->
           batch' = (batch + length calls)%nat
           /\ clock st' = (clock st + 4 * length calls)%nat
           /\ match last calls with
              | None => metrics' = metrics /\ st' = st
              | Some seen =>
                  snd seen = metrics'
                  /\ exists m1,
                       metrics' = stamped (clock st' - 4) (get_last_lr (net st')) m1
              end.
Proof.
  induction data_loader as [|data rest IH]; intros batch metrics st st' r;
    cbn [train_loop].
  - intros [= <- <-]. exists []. rewrite app_nil_r. split; [reflexivity|].
    split; [reflexivity|]. intros b m [= <- <-]. cbn. repeat split; lia.
  - destruct (reached pes batch).
    + intros [= <- <-]. exists []. rewrite app_nil_r. split; [reflexivity|].
      split; [reflexivity|]. intros b m [= <- <-]. cbn. repeat split; lia.
    + destruct (train_batch data batch metrics st) as [st1 [m2|e]] eqn:Hb.
      * intros Hloop.
        destruct (train_batch_stamped _ _ _ _ _ _ Hb) as (Hclock & Hcalls & m1 & Hm2).
        destruct (IH _ _ _ _ _ Hloop) as (calls & Hc & Hnum & Hok).
        exists ((batch, m2) :: calls). split; [|split].
        -- rewrite Hc, Hcalls, <- app_assoc. reflexivity.
        -- cbn. rewrite Hnum. reflexivity.
        -- intros b m Hr. destruct (Hok b m Hr) as (Hbatch & Hclk & Hlast).
           cbn [length]. split; [lia|]. split; [lia|].
           rewrite last_cons. destruct (last calls) as [seen|].
           ++ exact Hlast.
           ++ destruct Hlast as [-> ->]. cbn [snd]. split; [reflexivity|].
              exists m1. rewrite Hclock.
              replace (4 + clock st - 4)%nat with (clock st) by lia. exact Hm2.
      * intros [= <- <-]. exists []. rewrite app_nil_r.
        split; [apply (train_batch_raise _ _ _ _ _ _ Hb)|].
        split; [reflexivity|]. discriminate.
Qed.

End TrainStepTrace.

(** X9.  However [train_step] ends, [on_train_batch_end] has been called once
    for every batch that ran to its end, with the batch numbers
    0, 1, 2, ... in order.  When it returns, what it returns is the
    dictionary the last call was handed, with the entries named after a
    loss or an error divided by the number of calls: the callbacks see
    running sums.  With no call at all it returns the empty dictionary;
    the closing division never fails. *)
Theorem train_step_callbacks `{F : BaseTrainer.Framework}
    (per_epoch_steps : option Z) (data_loader : list BaseTrainer.batch_data)
    (st st' : BaseTrainer.run_state) (r : result (gmap string Q)) :
  BaseTrainer.train_step per_epoch_steps data_loader st = (st', r) ->
  exists calls,
    BaseTrainer.batch_end_calls st' = (BaseTrainer.batch_end_calls st ++ calls)%list
    /\ map fst calls = seq 0 (length calls)
    /\ forall m, r = Ok m ->
         match last calls with
         | None => m = ∅
         | Some seen =>
             forall p, m !! p = BaseTrainer.averaged (length calls) p <$> snd seen !! p
         end.
Proof.
  unfold BaseTrainer.train_step.
  set (st0 := {| BaseTrainer.net := BaseTrainer.set_train_mode (BaseTrainer.net st);
                 BaseTrainer.clock := BaseTrainer.clock st;
                 BaseTrainer.batch_end_calls := BaseTrainer.batch_end_calls st |}).
  destruct (BaseTrainer.train_loop per_epoch_steps data_loader 0 ∅ st0)
    as [st1 res] eqn:Hloop.
  destruct (train_loop_trace _ _ _ _ _ _ _ Hloop) as (calls & Hcalls & Hnum & Hok).
  intros Hres. exists calls.
  destruct res as [[b metrics]|e]; injection Hres as <- Hr.
  - split; [exact Hcalls|]. split; [exact Hnum|]. intros m ->.
    destruct (Hok b metrics eq_refl) as (Hb & _ & Hlast). cbn in Hb.
    destruct (last calls) as [seen|] eqn:Hl.
    + destruct Hlast as [Hseen _].
      destruct (average_metrics_ok b metrics) as (m' & Hm' & Hlook).
      { destruct calls; [discriminate | cbn in Hb; lia]. }
      rewrite Hm' in Hr. injection Hr as <-. intros p.
      rewrite Hlook, Hseen, Hb. reflexivity.
    + destruct Hlast as [-> _]. rewrite average_metrics_empty in Hr.
      injection Hr as <-. reflexivity.
  - split; [exact Hcalls|]. split; [exact Hnum|]. intros m ->. discriminate.
Qed.

Lemma train_step_callbacks_witness :
  let out := @BaseTrainer.train_step Examples.counting_framework
               None [1%Q; 3%Q] Examples.fresh_run in
  exists calls,
    BaseTrainer.batch_end_calls (fst out)
    = (BaseTrainer.batch_end_calls Examples.fresh_run ++ calls)%list
    /\ map fst calls = seq 0 (length calls)
    /\ forall m, snd out = Ok m ->
         match last calls with
         | None => m = ∅
         | Some seen =>
             forall p, m !! p = BaseTrainer.averaged (length calls) p <$> snd seen !! p
         end.
Proof.
  intros out.
  apply (@train_step_callbacks Examples.counting_framework
           None [1%Q; 3%Q] Examples.fresh_run (fst out) (snd out)).
  apply surjective_pairing.
Defined.

(** X10.  When [train_step] returns after at least one batch, the clock has
    been read four times per batch, and the timing entries and the
    learning rate in the returned dictionary are those of the last
    batch alone: they are overwritten at every step and not averaged. *)
Theorem train_step_last_batch_times `{F : BaseTrainer.Framework}
    (per_epoch_steps : option Z) (data_loader : list BaseTrainer.batch_data)
    (st st' : BaseTrainer.run_state) (m : gmap string Q) :
  BaseTrainer.train_step per_epoch_steps data_loader st = (st', Ok m) ->
  BaseTrainer.batches_done st st' <> 0%nat ->
  let c := (BaseTrainer.clock st' - 4)%nat in
  BaseTrainer.clock st'
  = (BaseTrainer.clock st + 4 * BaseTrainer.batches_done st st')%nat
  /\ m !! "time_2_device"
     = Some (BaseTrainer.time_at (1 + c) - BaseTrainer.time_at c)%Q
  /\ m !! "time_2_fw"
     = Some (BaseTrainer.time_at (2 + c) - BaseTrainer.time_at (1 + c))%Q
  /\ m !! "time_2_bw"
     = Some (BaseTrainer.time_at (3 + c) - BaseTrainer.time_at (2 + c))%Q
  /\ m !! "time_per_step"
     = Some (BaseTrainer.time_at (3 + c) - BaseTrainer.time_at c)%Q
  /\ m !! "lr" = Some (BaseTrainer.get_last_lr (BaseTrainer.net st')).
Proof.
  unfold BaseTrainer.train_step, BaseTrainer.batches_done.
  set (st0 := {| BaseTrainer.net := BaseTrainer.set_train_mode (BaseTrainer.net st);
                 BaseTrainer.clock := BaseTrainer.clock st;
                 BaseTrainer.batch_end_calls := BaseTrainer.batch_end_calls st |}).
  destruct (BaseTrainer.train_loop per_epoch_steps data_loader 0 ∅ st0)
    as [st1 res] eqn:Hloop.
  destruct (train_loop_trace _ _ _ _ _ _ _ Hloop) as (calls & Hcalls & Hnum & Hok).
  intros Hres. destruct res as [[b metrics]|e]; [|discriminate].
  injection Hres as <- Hr. cbn [BaseTrainer.batch_end_calls] in Hcalls.
  rewrite Hcalls, length_app. intros Hdone.
  destruct (Hok b metrics eq_refl) as (Hb & Hclk & Hlast). cbn in Hb, Hclk.
  destruct (last calls) as [seen|] eqn:Hl;
    [|apply last_None in Hl; subst calls; cbn in Hdone; lia].
  destruct Hlast as (_ & m1 & Hm).
  destruct (average_metrics_ok b metrics) as (m' & Hm' & Hlook).
  { rewrite Hb. destruct calls; [discriminate Hl | discriminate]. }
  rewrite Hm' in Hr. injection Hr as <-.
  split; [subst st0; cbn [BaseTrainer.batch_end_calls]; lia|].
  rewrite !Hlook. subst metrics.
  unfold BaseTrainer.stamped, BaseTrainer.update_times.
  repeat split;
    repeat (rewrite lookup_insert_ne by discriminate); rewrite lookup_insert_eq;
    reflexivity.
Qed.

Lemma train_step_last_batch_times_witness :
  let out := @BaseTrainer.train_step Examples.counting_framework
               None [1%Q; 3%Q] Examples.fresh_run in
  exists m,
    snd out = Ok m
    /\ let c := (BaseTrainer.clock (fst out) - 4)%nat in
       BaseTrainer.clock (fst out)
       = (BaseTrainer.clock Examples.fresh_run
          + 4 * BaseTrainer.batches_done Examples.fresh_run (fst out))%nat
       /\ m !! "time_2_device"
          = Some (@BaseTrainer.time_at Examples.counting_framework (1 + c) - @BaseTrainer.time_at Examples.counting_framework c)%Q
       /\ m !! "time_2_fw"
          = Some (@BaseTrainer.time_at Examples.counting_framework (2 + c) - @BaseTrainer.time_at Examples.counting_framework (1 + c))%Q
       /\ m !! "time_2_bw"
          = Some (@BaseTrainer.time_at Examples.counting_framework (3 + c) - @BaseTrainer.time_at Examples.counting_framework (2 + c))%Q
       /\ m !! "time_per_step"
          = Some (@BaseTrainer.time_at Examples.counting_framework (3 + c) - @BaseTrainer.time_at Examples.counting_framework c)%Q
       /\ m !! "lr" = Some (@BaseTrainer.get_last_lr Examples.counting_framework (BaseTrainer.net (fst out))).
Proof.
  intros out.
  destruct (snd out) as [m|e] eqn:Hout; [|vm_compute in Hout; discriminate].
  exists m. split; [reflexivity|].
  apply (@train_step_last_batch_times Examples.counting_framework
           None [1%Q; 3%Q] Examples.fresh_run (fst out) m).
  - transitivity (fst out, snd out); [apply surjective_pairing|].
    rewrite Hout. reflexivity.
  - vm_compute. discriminate.
Defined.

(** ** pkg/train/trainer/base_trainer.py: [validation_step] *)

Section ValidationFacts.
Import BaseTrainer.
Context `{V : Validation}.

Lemma same_change_refl (m m' : gmap string Q) : same_change m m m' m'.
Proof. intros key. ring. Qed.

Lemma same_change_trans (m m1 m2 m' m1' m2' : gmap string Q) :
  same_change m m1 m' m1' -> same_change m1 m2 m1' m2' -> same_change m m2 m' m2'.
Proof.
  intros H1 H2 key. specialize (H1 key). specialize (H2 key). lra.
Qed.

Lemma same_change_accumulate (k : string) (v : Q) (m m' : gmap string Q) :
  same_change m (accumulate k v m) m' (accumulate k v m').
Proof. intros key. rewrite !mval_accumulate. ring. Qed.

Lemma same_change_fold {A} (g : A -> string) (h : A -> Q) (l : list A) :
  forall m m' : gmap string Q,
    same_change m (fold_left (fun m e => accumulate (g e) (h e) m) l m)
                m' (fold_left (fun m e => accumulate (g e) (h e) m) l m').
Proof.
  induction l as [|e l IH]; intros m m'; cbn [fold_left]; [apply same_change_refl|].
  eapply same_change_trans; [apply same_change_accumulate | apply IH].
Qed.

(** A loop over the metric names whose steps change two dictionaries
    alike changes them alike, and ends alike. *)
Lemma same_change_steps (step : string -> gmap string Q -> result (gmap string Q))
    (names : list string) :
  (forall p m m' m1, step p m = Ok m1 ->
     exists m1', step p m' = Ok m1' /\ same_change m m1 m' m1') ->
  forall m m' m1,
    fold_left (fun acc p => Py.bind acc (step p)) names (Ok m) = Ok m1 ->
    exists m1',
      fold_left (fun acc p => Py.bind acc (step p)) names (Ok m') = Ok m1'
      /\ same_change m m1 m' m1'.
Proof.
  intros Hstep. induction names as [|p names IH]; intros m m' m1; cbn [fold_left].
  - intros [= <-]. exists m'. split; [reflexivity | apply same_change_refl].
  - cbn [Py.bind]. destruct (step p m) as [ma|e] eqn:Hp.
    + intros Hrest. destruct (Hstep p m m' ma Hp) as (ma' & -> & Hch).
      destruct (IH ma ma' m1 Hrest) as (m1' & Hfold & Hch').
      exists m1'. split; [exact Hfold | eapply same_change_trans; eassumption].
    + intros Hrest. exfalso. clear -Hrest.
      induction names as [|q names IH]; [discriminate | exact (IH Hrest)].
Qed.

Lemma val_batch_same_change (n : model_state) (data : batch_data)
    (m m' m1 : gmap string Q) :
  val_batch n data m = Ok m1 ->
  exists m1', val_batch n data m' = Ok m1' /\ same_change m m1 m' m1'.
Proof.
  unfold val_batch.
  destruct (val_forward n data) as [outs|e]; [|discriminate]. cbn [Py.bind].
  destruct (compute_validation_loss outs data) as [[item|items|]|e]; [| | |discriminate];
    cbn [Py.bind].
  - unfold val_metrics_tensor. intros Hfold.
    destruct (same_change_steps
                (fun p m =>
                   Py.bind (compute_metrics p outs data) (fun results =>
                   match results with
                   | MetricTensor item => Ok (accumulate ("val_" ++ p) item m)
                   | MetricDict _ => Raise (no_attribute "dict" "item")
                   | MetricOther t => Raise (no_attribute t "item")
                   end)) metric_names) with
      (m := accumulate "val_loss" item m) (m' := accumulate "val_loss" item m') (m1 := m1)
      as (m1' & Hfold' & Hch).
    + intros p a a' a1. destruct (compute_metrics p outs data) as [[r|rs|t]|e];
        cbn [Py.bind]; try discriminate.
      intros [= <-]. eexists. split; [reflexivity | apply same_change_accumulate].
    + exact Hfold.
    + exists m1'. split; [exact Hfold'|].
      eapply same_change_trans; [apply same_change_accumulate | exact Hch].
  - unfold val_metrics_dict. intros Hfold.
    destruct (same_change_steps
                (fun p m =>
                   Py.bind (compute_metrics p outs data) (fun results =>
                   match results with
                   | MetricDict rs =>
                       Ok (fold_left
                             (fun m entry =>
                                accumulate ("val_" ++ fst entry ++ "_" ++ p) (snd entry) m)
                             (map_to_list rs) m)
                   | MetricTensor _ => Raise (no_attribute "Tensor" "items")
                   | MetricOther t => Raise (no_attribute t "items")
                   end)) metric_names) with
      (m := fold_left (fun m entry => accumulate (fst entry ++ "_val_loss") (snd entry) m)
              (map_to_list items) m)
      (m' := fold_left (fun m entry => accumulate (fst entry ++ "_val_loss") (snd entry) m)
               (map_to_list items) m')
      (m1 := m1)
      as (m1' & Hfold' & Hch).
    + intros p a a' a1. destruct (compute_metrics p outs data) as [[r|rs|t]|e];
        cbn [Py.bind]; try discriminate.
      intros [= <-]. eexists. split; [reflexivity|].
      apply (same_change_fold (fun entry => "val_" ++ fst entry ++ "_" ++ p) snd).
    + exact Hfold.
    + exists m1'. split; [exact Hfold'|].
      eapply same_change_trans; [|exact Hch].
      apply (same_change_fold (fun entry => fst entry ++ "_val_loss") snd).
  - intros [= <-]. exists m'. split; [reflexivity | apply same_change_refl].
Qed.

(** What a batch adds to a dictionary is its contribution. *)
Lemma val_batch_contribution (n : model_state) (data : batch_data)
    (m m1 : gmap string Q) (key : string) :
  val_batch n data m = Ok m1 ->
  (mval m1 key == mval m key + val_contribution n key data)%Q.
Proof.
  intros Hb. destruct (val_batch_same_change n data m ∅ m1 Hb) as (m0 & Hm0 & Hch).
  unfold val_contribution. rewrite Hm0. specialize (Hch key).
  unfold mval at 2 in Hch. rewrite lookup_empty in Hch. cbn in Hch. lra.
Qed.

(** The loop visits every batch, and sums the contributions. *)
Lemma val_loop_ok (n : model_state) (data_loader : list batch_data) :
  forall (total_batch total_batch' : nat) (m m' : gmap string Q),
    val_loop n data_loader total_batch m = Ok (total_batch', m') ->
    total_batch' = (total_batch + length data_loader)%nat
    /\ (data_loader = [] -> m' = m)
    /\ forall key, (mval m' key == mval m key + val_sum n key data_loader)%Q.
Proof.
  induction data_loader as [|data rest IH]; intros t t' m m'; cbn [val_loop].
  - intros [= <- <-]. cbn. split; [lia|]. split; [reflexivity|].
    intros key. unfold val_sum. cbn. ring.
  - destruct (val_batch n data m) as [m1|e] eqn:Hb; [|discriminate]. cbn [Py.bind].
    intros Hrest. destruct (IH _ _ _ _ Hrest) as (Ht & _ & Hsum).
    cbn [length]. split; [lia|]. split; [discriminate|].
    intros key. rewrite (Hsum key), (val_batch_contribution _ _ _ _ key Hb).
    unfold val_sum. cbn. ring.
Qed.

Lemma average_all_fold (total_batch : nat) (keys : list string) :
  total_batch <> 0%nat ->
  NoDup keys ->
  forall acc : gmap string Q,
    (forall p, p ∈ keys -> is_Some (acc !! p)) ->
    exists acc',
      fold_left
        (fun acc p =>
           Py.bind acc (fun m =>
           Py.bind (getitem m p) (fun v =>
           Py.bind (div_batch v total_batch) (fun q => Ok (<[p := q]> m)))))
        keys (Ok acc) = Ok acc'
      /\ forall p, acc' !! p =
           if decide (p ∈ keys)
           then (fun v => v / inject_Z (Z.of_nat total_batch))%Q <$> acc !! p
           else acc !! p.
Proof.
  intros Hbatch Hnodup. induction Hnodup as [|k keys Hk Hnodup IH]; intros acc Hdom.
  - exists acc. split; [reflexivity|]. intros p.
    destruct (decide (p ∈ [])) as [Hin|_]; [|reflexivity].
    apply elem_of_nil in Hin. contradiction.
  - cbn [fold_left Py.bind].
    destruct (Hdom k) as [v Hv]; [left|].
    assert (Hstep :
      Py.bind (getitem acc k) (fun v =>
        Py.bind (div_batch v total_batch) (fun q => Ok (<[k := q]> acc)))
      = Ok (<[k := (v / inject_Z (Z.of_nat total_batch))%Q]> acc)).
    { unfold getitem. rewrite Hv. cbn [Py.bind]. unfold div_batch.
      destruct total_batch; [contradiction | reflexivity]. }
    rewrite Hstep.
    destruct (IH (<[k := (v / inject_Z (Z.of_nat total_batch))%Q]> acc))
      as (acc' & Hfold & Hacc').
    { intros p Hp. destruct (decide (p = k)) as [->|Hne].
      - rewrite lookup_insert_eq. eauto.
      - rewrite lookup_insert_ne by congruence. apply Hdom. right. exact Hp. }
    exists acc'. split; [exact Hfold|]. intros p. rewrite Hacc'.
    destruct (decide (p = k)) as [->|Hne].
    + destruct (decide (k ∈ keys)) as [Hin|_]; [contradiction|].
      destruct (decide (k ∈ k :: keys)) as [_|Hnin]; [|exfalso; apply Hnin; left].
      rewrite lookup_insert_eq, Hv. reflexivity.
    + rewrite lookup_insert_ne by congruence.
      destruct (decide (p ∈ keys)) as [Hin|Hnin];
        destruct (decide (p ∈ k :: keys)) as [Hin'|Hnin']; try reflexivity.
      * exfalso. apply Hnin'. right. exact Hin.
      * apply elem_of_cons in Hin'. destruct Hin' as [->|Hin']; contradiction.
Qed.

(** With a positive batch count the closing loop divides every entry;
    on the empty dictionary it does nothing, whatever the count. *)
Lemma average_all_ok (total_batch : nat) (metrics : gmap string Q) :
  total_batch <> 0%nat \/ metrics = ∅ ->
  exists metrics',
    average_all total_batch metrics = Ok metrics'
    /\ forall p, metrics' !! p
                 = (fun v => v / inject_Z (Z.of_nat total_batch))%Q <$> metrics !! p.
Proof.
  intros [Hbatch | ->].
  - unfold average_all.
    destruct (average_all_fold total_batch (map fst (map_to_list metrics)) Hbatch
                (NoDup_fst_map_to_list metrics) metrics) as (m' & Hfold & Hm').
    { intros p Hp. apply list_elem_of_fmap in Hp. destruct Hp as ([p' v] & -> & Hin).
      apply elem_of_map_to_list in Hin. simpl. eauto. }
    exists m'. split; [exact Hfold|]. intros p. rewrite Hm'.
    destruct (decide (p ∈ map fst (map_to_list metrics))) as [_|Hnin]; [reflexivity|].
    destruct (metrics !! p) as [v|] eqn:Hp; [|reflexivity].
    exfalso. apply Hnin. apply list_elem_of_fmap. exists (p, v). split; [reflexivity|].
    apply elem_of_map_to_list. exact Hp.
  - exists ∅. unfold average_all. rewrite map_to_list_empty. split; [reflexivity|].
    intros p. rewrite lookup_empty. reflexivity.
Qed.


(** The loop returns when every batch on its own does. *)
Lemma val_loop_returns (n : model_state) (data_loader : list batch_data) :
  Forall (fun data => is_ok (val_batch n data ∅) = true) data_loader ->
  forall (total_batch : nat) (m : gmap string Q),
    exists r, val_loop n data_loader total_batch m = Ok r.
Proof.
  induction 1 as [|data rest Hdata _ IH]; intros t m; cbn [val_loop]; [eauto|].
  destruct (val_batch n data ∅) as [m0|e] eqn:Hb; [|discriminate].
  destruct (val_batch_same_change n data ∅ m m0 Hb) as (m1 & -> & _).
  cbn [Py.bind]. apply IH.
Qed.

End ValidationFacts.

(** X11.  [validation_step] does nothing and returns the empty dictionary when
    [validation_step_check] says no.  Otherwise it puts the model in
    evaluation mode and goes through every batch of the loader; it
    returns when every batch can be evaluated (the closing division
    never fails, also on an empty loader), and every entry of what it
    returns, whatever its name, is the sum recorded under that name
    over all batches divided by the number of batches. *)
Theorem validation_step_averages `{V : BaseTrainer.Validation}
    (n : BaseTrainer.model_state) (data_loader : list BaseTrainer.batch_data)
    (epoch : Z) (is_last_epoch : bool) :
  (BaseTrainer.validation_step_check epoch is_last_epoch = false ->
   BaseTrainer.validation_step n data_loader epoch is_last_epoch = (n, Ok ∅))
  /\ (BaseTrainer.validation_step_check epoch is_last_epoch = true ->
      let n' := BaseTrainer.set_eval_mode n in
      fst (BaseTrainer.validation_step n data_loader epoch is_last_epoch) = n'
      /\ (Forall (fun data => is_ok (BaseTrainer.val_batch n' data ∅) = true) data_loader ->
          exists m,
            snd (BaseTrainer.validation_step n data_loader epoch is_last_epoch) = Ok m)
      /\ forall m,
           snd (BaseTrainer.validation_step n data_loader epoch is_last_epoch) = Ok m ->
           (data_loader = [] -> m = ∅)
           /\ forall key q,
                m !! key = Some q ->
                (q == BaseTrainer.val_sum n' key data_loader
                      / inject_Z (Z.of_nat (length data_loader)))%Q).
Proof.
  unfold BaseTrainer.validation_step. split; [intros ->; reflexivity|].
  intros ->. cbn [negb fst snd]. split; [reflexivity|]. split.
  - intros Hall.
    destruct (val_loop_returns _ _ Hall 0%nat ∅) as ([t metrics] & Hloop).
    rewrite Hloop. cbn [Py.bind fst snd].
    destruct (val_loop_ok _ _ _ _ _ _ Hloop) as (Ht & Hnil & _).
    destruct (average_all_ok t metrics) as (m & Hm & _); [|eauto].
    destruct data_loader; [right; apply Hnil; reflexivity | left; cbn in Ht; lia].
  - intros m.
    destruct (BaseTrainer.val_loop (BaseTrainer.set_eval_mode n) data_loader 0 ∅)
      as [[t metrics]|e] eqn:Hloop; [|discriminate].
    cbn [Py.bind fst snd].
    destruct (val_loop_ok _ _ _ _ _ _ Hloop) as (Ht & Hnil & Hsum). cbn in Ht.
    destruct (average_all_ok t metrics) as (m' & Hm' & Hlook).
    { destruct data_loader; [right; apply Hnil; reflexivity | left; cbn in Ht; lia]. }
    rewrite Hm'. intros [= <-]. split.
    + intros Hl. apply map_eq. intros p. rewrite Hlook, (Hnil Hl), !lookup_empty.
      reflexivity.
    + intros key q. rewrite Hlook. destruct (metrics !! key) as [v|] eqn:Hv; [|discriminate].
      intros [= <-]. specialize (Hsum key). unfold BaseTrainer.mval in Hsum.
      rewrite Hv, lookup_empty in Hsum. cbn in Hsum. rewrite Hsum, Ht, Qplus_0_l.
      reflexivity.
Qed.

(** Two batches with losses 1 and 3: the returned loss is 2 and the
    returned metric, the mean of the squares, is 5. *)
Example validation_step_two_batches :
  let out := @BaseTrainer.validation_step Examples.counting_framework
               Examples.counting_validation 0%nat [1%Q; 3%Q] 1 true in
  exists loss metric,
    snd out = Ok {[ "val_loss" := loss; "val_mean_absolute_error" := metric ]}
    /\ (loss == 2)%Q /\ (metric == 5)%Q.
Proof.
  eexists _, _. split; [vm_compute; reflexivity|]. split; reflexivity.
Qed.

(** ** pkg/train/module/data_transform.py: transforms of configured entries *)

Section ConfiguredFacts.
Import DataTransform.
Context {C T : Type}.
Variable config : gmap string C.
Variable transform : string -> T -> result T.

Lemma for_configured_spec (items : list (string * T)) :
  NoDup (map fst items) ->
  forall (d d' : gmap string T) (r : result unit),
    (forall name fea, (name, fea) ∈ items -> d !! name = Some fea) ->
    for_configured config transform items d = (d', r) ->
    dom d' = dom d
    /\ (forall name,
          name ∉ map fst items \/ config !! name = None ->
          d' !! name = d !! name)
    /\ (r = Ok tt ->
        forall name fea,
          (name, fea) ∈ items ->
          is_Some (config !! name) ->
          exists fea', transform name fea = Ok fea' /\ d' !! name = Some fea').
Proof.
  induction items as [|[name fea] rest IH]; intros Hnodup d d' r Hd;
    cbn [for_configured].
  - intros [= <- <-]. repeat split; auto.
    intros _ name fea Hin. apply elem_of_nil in Hin. contradiction.
  - cbn [map fst] in Hnodup. apply NoDup_cons in Hnodup as [Hfresh Hnodup].
    assert (Hrest : forall d1 : gmap string T,
               (forall k, k <> name -> d1 !! k = d !! k) ->
               forall name' fea', (name', fea') ∈ rest -> d1 !! name' = Some fea').
    { intros d1 Hd1 name' fea' Hin. rewrite Hd1.
      - apply Hd. right. exact Hin.
      - intros ->. apply Hfresh. apply list_elem_of_fmap.
        exists (name, fea'). split; [reflexivity | exact Hin]. }
    destruct (decide (is_Some (config !! name))) as [Hcfg|Hcfg].
    + destruct (transform name fea) as [fea1|e] eqn:Htr.
      * intros Hloop.
        destruct (IH Hnodup _ _ _ (Hrest (<[name := fea1]> d)
                   (fun k Hk => lookup_insert_ne d name k fea1 (not_eq_sym Hk))) Hloop)
          as (Hdom & Hframe & Hdone).
        split; [|split].
        -- rewrite Hdom, dom_insert_L.
           apply subseteq_union_1_L, singleton_subseteq_l, elem_of_dom.
           rewrite (Hd name fea); [eauto|left].
        -- intros k Hk. rewrite Hframe.
           ++ apply lookup_insert_ne. intros <-. destruct Hk as [Hk|Hk].
              ** apply Hk. cbn. left.
              ** rewrite Hk in Hcfg. destruct Hcfg as [? [=]].
           ++ destruct Hk as [Hk|Hk]; [left|right; exact Hk].
              intros Hin. apply Hk. cbn. right. exact Hin.
        -- intros Hr k v Hin Hk. apply elem_of_cons in Hin as [[= -> ->]|Hin].
           ++ exists fea1. split; [exact Htr|]. rewrite Hframe.
              ** apply lookup_insert_eq.
              ** left. exact Hfresh.
           ++ apply (Hdone Hr k v Hin Hk).
      * intros [= <- <-]. repeat split; auto. discriminate.
    + intros Hloop.
      destruct (IH Hnodup _ _ _ (Hrest d (fun _ _ => eq_refl)) Hloop)
        as (Hdom & Hframe & Hdone).
      split; [exact Hdom|]. split.
      * intros k Hk. apply Hframe. destruct Hk as [Hk|Hk]; [left|right; exact Hk].
        intros Hin. apply Hk. cbn. right. exact Hin.
      * intros Hr k v Hin Hk. apply elem_of_cons in Hin as [[= -> ->]|Hin].
        -- contradiction.
        -- apply (Hdone Hr k v Hin Hk).
Qed.

(** The loop completes when the transform returns on every configured
    item. *)
Lemma for_configured_returns (items : list (string * T)) :
  (forall name fea, (name, fea) ∈ items -> is_Some (config !! name) ->
     is_ok (transform name fea) = true) ->
  forall d : gmap string T, snd (for_configured config transform items d) = Ok tt.
Proof.
  induction items as [|[name fea] rest IH]; intros Hall d; cbn [for_configured];
    [reflexivity|].
  assert (Hrest : forall name' fea', (name', fea') ∈ rest -> is_Some (config !! name') ->
                    is_ok (transform name' fea') = true).
  { intros name' fea' Hin. apply Hall. right. exact Hin. }
  destruct (decide (is_Some (config !! name))) as [Hcfg|Hcfg]; [|apply IH, Hrest].
  specialize (Hall name fea ltac:(left) Hcfg).
  destruct (transform name fea); [apply IH, Hrest | discriminate].
Qed.

Lemma for_configured_dict (d d' : gmap string T) (r : result unit) :
  for_configured config transform (map_to_list d) d = (d', r) ->
  dom d' = dom d
  /\ (forall name, config !! name = None -> d' !! name = d !! name)
  /\ (r = Ok tt ->
      forall name fea,
        d !! name = Some fea ->
        is_Some (config !! name) ->
        exists fea', transform name fea = Ok fea' /\ d' !! name = Some fea').
Proof.
  intros Hloop.
  destruct (for_configured_spec (map_to_list d) (NoDup_fst_map_to_list d) d d' r)
    as (Hdom & Hframe & Hdone).
  - intros name fea Hin. apply elem_of_map_to_list. exact Hin.
  - exact Hloop.
  - split; [exact Hdom|]. split.
    + intros name Hname. apply Hframe. right. exact Hname.
    + intros Hr name fea Hfea. apply Hdone; [exact Hr|].
      apply elem_of_map_to_list. exact Hfea.
Qed.

(** Both dictionaries of a sample after a call. *)
Lemma call_configured_spec (s s' : gmap string T * gmap string T) (r : result unit) :
  call_configured config transform s = (s', r) ->
  (dom (fst s') = dom (fst s) /\ dom (snd s') = dom (snd s))
  /\ (forall name, config !! name = None ->
        fst s' !! name = fst s !! name /\ snd s' !! name = snd s !! name)
  /\ (r = Ok tt ->
      forall name fea,
        is_Some (config !! name) ->
        (fst s !! name = Some fea ->
         exists fea', transform name fea = Ok fea' /\ fst s' !! name = Some fea')
        /\ (snd s !! name = Some fea ->
            exists fea', transform name fea = Ok fea' /\ snd s' !! name = Some fea')).
Proof.
  destruct s as [context feature]. unfold call_configured.
  destruct (for_configured config transform (map_to_list context) context)
    as [context' rc] eqn:Hc.
  destruct (for_configured_dict _ _ _ Hc) as (Hdc & Hfc & Hokc).
  destruct rc as [[]|e].
  - destruct (for_configured config transform (map_to_list feature) feature)
      as [feature' rf] eqn:Hf.
    destruct (for_configured_dict _ _ _ Hf) as (Hdf & Hff & Hokf).
    intros [= <- <-]. cbn [fst snd]. split; [auto|]. split; [auto|].
    intros Hr name fea Hcfg. split; intros Hfea.
    + apply (Hokc eq_refl name fea Hfea Hcfg).
    + apply (Hokf Hr name fea Hfea Hcfg).
  - intros [= <- <-]. cbn [fst snd]. split; [auto|]. split; [auto|]. discriminate.
Qed.

(** A call returns when the transform returns on every configured
    entry of the sample. *)
Lemma call_configured_returns (s : gmap string T * gmap string T) :
  (forall name fea, is_Some (config !! name) ->
     fst s !! name = Some fea \/ snd s !! name = Some fea ->
     is_ok (transform name fea) = true) ->
  snd (call_configured config transform s) = Ok tt.
Proof.
  destruct s as [context feature]. cbn [fst snd]. intros Hall. unfold call_configured.
  pose proof (for_configured_returns (map_to_list context)) as Hc.
  destruct (for_configured config transform (map_to_list context) context)
    as [context' rc] eqn:Hce.
  specialize (Hc ltac:(intros name fea Hin Hcfg; apply Hall; [exact Hcfg|];
                        left; apply elem_of_map_to_list; exact Hin) context).
  rewrite Hce in Hc. cbn in Hc. subst rc.
  pose proof (for_configured_returns (map_to_list feature)) as Hf.
  destruct (for_configured config transform (map_to_list feature) feature)
    as [feature' rf] eqn:Hfe.
  specialize (Hf ltac:(intros name fea Hin Hcfg; apply Hall; [exact Hcfg|];
                        right; apply elem_of_map_to_list; exact Hin) feature).
  rewrite Hfe in Hf. exact Hf.
Qed.

End ConfiguredFacts.

Section ConfiguredCalls.
Import DataTransform.
Context {C T : Type}.
Variable config : gmap string C.

(** A call whose transform takes every configured entry of [s] to the
    entry of [target], where [target] has the other entries of [s],
    returns [target]. *)
Lemma call_configured_to (transform : string -> T -> result T)
    (s target : gmap string T * gmap string T) :
  dom (fst target) = dom (fst s) -> dom (snd target) = dom (snd s) ->
  (forall name, config !! name = None ->
     fst target !! name = fst s !! name /\ snd target !! name = snd s !! name) ->
  (forall name fea, is_Some (config !! name) ->
     (fst s !! name = Some fea ->
      exists fea0, fst target !! name = Some fea0 /\ transform name fea = Ok fea0)
     /\ (snd s !! name = Some fea ->
         exists fea0, snd target !! name = Some fea0 /\ transform name fea = Ok fea0)) ->
  call_configured config transform s = (target, Ok tt).
Proof.
  intros Hd1 Hd2 Hframe Hcfg.
  destruct (call_configured config transform s) as [s' r] eqn:Hcall.
  assert (Hr : r = Ok tt).
  { pose proof (call_configured_returns config transform s) as H.
    rewrite Hcall in H. apply H. intros name fea Hc [Hin|Hin].
    - destruct (proj1 (Hcfg name fea Hc) Hin) as (fea0 & _ & ->). reflexivity.
    - destruct (proj2 (Hcfg name fea Hc) Hin) as (fea0 & _ & ->). reflexivity. }
  subst r. destruct (call_configured_spec _ _ _ _ _ Hcall) as ((Hs1 & Hs2) & Hf & Hok).
  f_equal. destruct s' as [c' f'], target as [ct ft]. cbn [fst snd] in *.
  f_equal; apply map_eq; intros name.
  - destruct (config !! name) as [c|] eqn:Hc.
    + destruct (fst s !! name) as [fea|] eqn:Hfea.
      * destruct (proj1 (Hok eq_refl name fea ltac:(rewrite Hc; eauto)) Hfea)
          as (fea' & Htr & ->).
        destruct (proj1 (Hcfg name fea ltac:(rewrite Hc; eauto)) Hfea)
          as (fea0 & -> & Htr0). congruence.
      * apply not_elem_of_dom in Hfea.
        assert (H1 : c' !! name = None) by (apply not_elem_of_dom; rewrite Hs1; exact Hfea).
        assert (H2 : ct !! name = None) by (apply not_elem_of_dom; rewrite Hd1; exact Hfea).
        congruence.
    + rewrite (proj1 (Hf name Hc)), (proj1 (Hframe name Hc)). reflexivity.
  - destruct (config !! name) as [c|] eqn:Hc.
    + destruct (snd s !! name) as [fea|] eqn:Hfea.
      * destruct (proj2 (Hok eq_refl name fea ltac:(rewrite Hc; eauto)) Hfea)
          as (fea' & Htr & ->).
        destruct (proj2 (Hcfg name fea ltac:(rewrite Hc; eauto)) Hfea)
          as (fea0 & -> & Htr0). congruence.
      * apply not_elem_of_dom in Hfea.
        assert (H1 : f' !! name = None) by (apply not_elem_of_dom; rewrite Hs2; exact Hfea).
        assert (H2 : ft !! name = None) by (apply not_elem_of_dom; rewrite Hd2; exact Hfea).
        congruence.
    + rewrite (proj2 (Hf name Hc)), (proj2 (Hframe name Hc)). reflexivity.
Qed.

(** When [g] undoes [f] on every entry, a call with [g] undoes a call
    with [f]. *)
Lemma call_configured_undo (f g : string -> T -> result T)
    (s s1 : gmap string T * gmap string T) :
  (forall name fea fea', f name fea = Ok fea' -> g name fea' = Ok fea) ->
  call_configured config f s = (s1, Ok tt) ->
  call_configured config g s1 = (s, Ok tt).
Proof.
  intros Hundo Hcall.
  destruct (call_configured_spec _ _ _ _ _ Hcall) as ((Hs1 & Hs2) & Hf & Hok).
  apply call_configured_to.
  - symmetry. exact Hs1.
  - symmetry. exact Hs2.
  - intros name Hc. destruct (Hf name Hc) as [-> ->]. auto.
  - intros name fea' Hc. split; intros Hin.
    + destruct (fst s !! name) as [fea|] eqn:Hfea.
      * destruct (proj1 (Hok eq_refl name fea Hc) Hfea) as (fea1 & Htr & H1).
        exists fea. split; [reflexivity|]. apply Hundo. congruence.
      * apply not_elem_of_dom in Hfea. rewrite <- Hs1 in Hfea.
        apply not_elem_of_dom in Hfea. congruence.
    + destruct (snd s !! name) as [fea|] eqn:Hfea.
      * destruct (proj2 (Hok eq_refl name fea Hc) Hfea) as (fea1 & Htr & H1).
        exists fea. split; [reflexivity|]. apply Hundo. congruence.
      * apply not_elem_of_dom in Hfea. rewrite <- Hs2 in Hfea.
        apply not_elem_of_dom in Hfea. congruence.
Qed.

End ConfiguredCalls.

(** ** pkg/train/module/data_transform.py: [ClampTensor] *)

Section ClampFacts.
Import DataTransform.

Lemma clamp1_upper (mn mx x : Q) : (Qmin (Qmax x mn) mx <= mx)%Q.
Proof. apply Q.le_min_r. Qed.

Lemma clamp1_lower (mn mx x : Q) : (mn <= mx)%Q -> (mn <= Qmin (Qmax x mn) mx)%Q.
Proof. intros H. apply Q.min_glb; [apply Q.le_max_r | exact H]. Qed.

Lemma clamp1_inside (mn mx x : Q) :
  (mn <= x)%Q -> (x <= mx)%Q -> Qmin (Qmax x mn) mx = x.
Proof.
  intros Hlo Hhi. unfold Qmin, Qmax, GenericMinMax.gmin, GenericMinMax.gmax.
  destruct (Qcompare_spec x mn); try lra;
    destruct (Qcompare_spec x mx); try lra; reflexivity.
Qed.

Lemma clamp1_crossed (mn mx x : Q) :
  (mx < mn)%Q -> Qmin (Qmax x mn) mx = mx.
Proof.
  intros Hlt. pose proof (Q.le_max_r x mn) as Hmax.
  unfold Qmin, GenericMinMax.gmin.
  destruct (Qcompare_spec (Qmax x mn) mx); [lra | lra | reflexivity].
Qed.

Lemma clamp1_idempotent (mn mx x : Q) :
  Qmin (Qmax (Qmin (Qmax x mn) mx) mn) mx = Qmin (Qmax x mn) mx.
Proof.
  destruct (Qlt_le_dec mx mn) as [Hlt|Hle].
  - rewrite !(clamp1_crossed mn mx) by exact Hlt. reflexivity.
  - apply clamp1_inside; [apply clamp1_lower, Hle | apply clamp1_upper].
Qed.

Lemma all_entries_map (P : Q -> Prop) (f : Q -> Q) (t : tensor) :
  (forall x, P (f x)) -> all_entries P (map_tensor f t).
Proof.
  intros HP. destruct t as [x|v|rows]; cbn.
  - apply HP.
  - apply Forall_fmap, Forall_true. intros x. apply HP.
  - apply Forall_fmap, Forall_true. intros row. apply Forall_fmap, Forall_true.
    intros x. apply HP.
Qed.

Lemma map_tensor_id (f : Q -> Q) (P : Q -> Prop) (t : tensor) :
  (forall x, P x -> f x = x) -> all_entries P t -> map_tensor f t = t.
Proof.
  intros Hf. destruct t as [x|v|rows]; cbn; intros HP.
  - f_equal. apply Hf, HP.
  - f_equal. induction HP as [|x v Hx _ IH]; cbn; [reflexivity|].
    rewrite (Hf x Hx), IH. reflexivity.
  - f_equal. induction HP as [|row rows Hrow _ IH]; cbn; [reflexivity|].
    rewrite IH. f_equal. induction Hrow as [|x v Hx _ IHv]; cbn; [reflexivity|].
    rewrite (Hf x Hx), IHv. reflexivity.
Qed.

Lemma clamp_idempotent (mn mx : Q) (t : tensor) :
  clamp mn mx (clamp mn mx t) = clamp mn mx t.
Proof.
  unfold clamp.
  apply (map_tensor_id _ (fun y => exists x, y = Qmin (Qmax x mn) mx)).
  - intros y [x ->]. apply clamp1_idempotent.
  - apply all_entries_map. eauto.
Qed.

Context `{CC : CommonConstant}.

Lemma clamp_entry_ok (clamp_config : gmap string (gmap string Q))
    (name : string) (fea fea' : tensor) :
  clamp_entry clamp_config name fea = Ok fea' ->
  exists limits min_val max_val,
    clamp_config !! name = Some limits
    /\ limits !! MAX_VAL = Some max_val
    /\ limits !! MIN_VAL = Some min_val
    /\ fea' = clamp min_val max_val fea.
Proof.
  unfold clamp_entry. intros H.
  apply bind_ok in H as (limits & Hl & H). apply getitem_ok in Hl.
  apply bind_ok in H as (max_val & Hmx & H). apply getitem_ok in Hmx.
  apply bind_ok in H as (min_val & Hmn & H). apply getitem_ok in Hmn.
  injection H as <-. exists limits, min_val, max_val. auto.
Qed.

End ClampFacts.

(** X12.  When [ClampTensor] returns, every entry of the sample with
    configured limits has been replaced by its clamped tensor: all its
    numbers are at most [max_val], and at least [min_val] when
    [min_val <= max_val]; a tensor already within the limits is
    unchanged. *)
Theorem clamp_tensor_range `{CC : CommonConstant}
    (clamp_config : gmap string (gmap string Q))
    (s s' : DataTransform.sample) (side : bool) (name : string)
    (fea : DataTransform.tensor) :
  DataTransform.ClampTensor_call clamp_config s = (s', Ok tt) ->
  is_Some (clamp_config !! name) ->
  DataTransform.side_of side s !! name = Some fea ->
  exists limits min_val max_val fea',
    clamp_config !! name = Some limits
    /\ limits !! MAX_VAL = Some max_val
    /\ limits !! MIN_VAL = Some min_val
    /\ DataTransform.side_of side s' !! name = Some fea'
    /\ fea' = DataTransform.clamp min_val max_val fea
    /\ DataTransform.all_entries (fun x => (x <= max_val)%Q) fea'
    /\ ((min_val <= max_val)%Q ->
        DataTransform.all_entries (fun x => (min_val <= x)%Q) fea')
    /\ (DataTransform.all_entries (fun x => (min_val <= x <= max_val)%Q) fea ->
        fea' = fea).
Proof.
  intros Hcall Hcfg Hfea. unfold DataTransform.ClampTensor_call in Hcall.
  destruct (call_configured_spec _ _ _ _ _ Hcall) as (_ & _ & Hok).
  assert (Hentry : exists fea', DataTransform.clamp_entry clamp_config name fea = Ok fea'
                                /\ DataTransform.side_of side s' !! name = Some fea').
  { destruct side; cbn [DataTransform.side_of] in *.
    - apply (proj1 (Hok eq_refl name fea Hcfg) Hfea).
    - apply (proj2 (Hok eq_refl name fea Hcfg) Hfea). }
  destruct Hentry as (fea' & Htr & Hlook).
  apply clamp_entry_ok in Htr as (limits & mn & mx & Hl & Hmx & Hmn & ->).
  exists limits, mn, mx, (DataTransform.clamp mn mx fea).
  repeat (split; [assumption || reflexivity|]). split; [|split].
  - apply all_entries_map. intros x. apply clamp1_upper.
  - intros Hle. apply all_entries_map. intros x. apply clamp1_lower, Hle.
  - intros Hin. unfold DataTransform.clamp.
    apply (map_tensor_id _ (fun x => (mn <= x <= mx)%Q)); [|exact Hin].
    intros x [Hlo Hhi]. apply clamp1_inside; assumption.
Qed.

Lemma clamp_tensor_range_witness :
  let out := @DataTransform.ClampTensor_call Examples.constants
               Examples.clamp_limits Examples.node_sample in
  let fea := DataTransform.T1 [1%Q; 2%Q] in
  exists limits min_val max_val fea',
    Examples.clamp_limits !! "pressure" = Some limits
    /\ limits !! @MAX_VAL Examples.constants = Some max_val
    /\ limits !! @MIN_VAL Examples.constants = Some min_val
    /\ DataTransform.side_of true (fst out) !! "pressure" = Some fea'
    /\ fea' = DataTransform.clamp min_val max_val fea
    /\ DataTransform.all_entries (fun x => (x <= max_val)%Q) fea'
    /\ ((min_val <= max_val)%Q ->
        DataTransform.all_entries (fun x => (min_val <= x)%Q) fea')
    /\ (DataTransform.all_entries (fun x => (min_val <= x <= max_val)%Q) fea ->
        fea' = fea).
Proof.
  intros out fea.
  apply (@clamp_tensor_range Examples.constants Examples.clamp_limits
           Examples.node_sample (fst out) true "pressure" fea).
  - transitivity (fst out, snd out); [apply surjective_pairing|].
    apply (f_equal (pair (fst out))). vm_compute. reflexivity.
  - vm_compute. eauto.
  - vm_compute. reflexivity.
Defined.

(** X13.  Clamping twice is clamping once: a second call of [ClampTensor] on
    the sample a first call returned returns the same sample. *)
Theorem clamp_tensor_idempotent `{CC : CommonConstant}
    (clamp_config : gmap string (gmap string Q)) (s s' : DataTransform.sample) :
  DataTransform.ClampTensor_call clamp_config s = (s', Ok tt) ->
  DataTransform.ClampTensor_call clamp_config s' = (s', Ok tt).
Proof.
  intros Hcall. unfold DataTransform.ClampTensor_call in *.
  destruct (call_configured_spec _ _ _ _ _ Hcall) as ((Hd1 & Hd2) & Hframe & Hok).
  apply call_configured_to; try reflexivity; [auto|].
  assert (Hfix : forall name fea fea',
            DataTransform.clamp_entry clamp_config name fea = Ok fea' ->
            DataTransform.clamp_entry clamp_config name fea' = Ok fea').
  { intros name fea fea' Htr.
    apply clamp_entry_ok in Htr as (limits & mn & mx & Hl & Hmx & Hmn & ->).
    unfold DataTransform.clamp_entry, getitem. rewrite Hl. cbn [Py.bind].
    rewrite Hmx, Hmn. cbn [Py.bind]. rewrite clamp_idempotent. reflexivity. }
  intros name fea' Hcfg. split; intros Hin.
  - destruct (fst s !! name) as [fea|] eqn:Hfea.
    + destruct (proj1 (Hok eq_refl name fea Hcfg) Hfea) as (fea1 & Htr & H1).
      exists fea'. split; [exact Hin|]. apply (Hfix name fea). congruence.
    + apply not_elem_of_dom in Hfea. rewrite <- Hd1 in Hfea.
      apply not_elem_of_dom in Hfea. congruence.
  - destruct (snd s !! name) as [fea|] eqn:Hfea.
    + destruct (proj2 (Hok eq_refl name fea Hcfg) Hfea) as (fea1 & Htr & H1).
      exists fea'. split; [exact Hin|]. apply (Hfix name fea). congruence.
    + apply not_elem_of_dom in Hfea. rewrite <- Hd2 in Hfea.
      apply not_elem_of_dom in Hfea. congruence.
Qed.

Lemma clamp_tensor_idempotent_witness :
  let out := @DataTransform.ClampTensor_call Examples.constants
               Examples.clamp_limits Examples.node_sample in
  @DataTransform.ClampTensor_call Examples.constants Examples.clamp_limits (fst out)
  = (fst out, Ok tt).
Proof.
  intros out.
  apply (@clamp_tensor_idempotent Examples.constants Examples.clamp_limits
           Examples.node_sample (fst out)).
  transitivity (fst out, snd out); [apply surjective_pairing|].
  apply (f_equal (pair (fst out))). vm_compute. reflexivity.
Defined.

(** ** pkg/train/module/data_transform.py: [SqueezeDataDim], [UnSqueezeDataDim] *)

Section SqueezeFacts.
Import DataTransform.

Lemma wrap_dim_range (dim : Z) (n k : nat) :
  wrap_dim dim (S n) = Ok k -> (k <= n)%nat.
Proof.
  unfold wrap_dim. rewrite Nat.max_l by lia.
  destruct (dim <? - Z.of_nat (S n)) eqn:Hlo; [discriminate|].
  destruct (Z.of_nat (S n) - 1 <? dim) eqn:Hhi; [discriminate|]. cbn [orb].
  apply Z.ltb_ge in Hlo, Hhi. intros [= <-]. destruct (dim <? 0) eqn:Hneg.
  - apply Z.ltb_lt in Hneg. lia.
  - apply Z.ltb_ge in Hneg. lia.
Qed.

(** Squeezing the dimension that was just inserted gives the tensor
    back. *)
Lemma unsqueeze_squeeze (dim : Z) (t t' : shaped) :
  unsqueeze dim t = Ok t' -> squeeze dim t' = Ok t.
Proof.
  unfold unsqueeze, squeeze. intros H.
  apply bind_ok in H as (k & Hk & H). injection H as <-. cbn [shape data].
  pose proof (wrap_dim_range _ _ _ Hk) as Hle.
  assert (Hlen : length (take k (shape t) ++ 1%nat :: drop k (shape t))
                 = S (length (shape t))).
  { rewrite length_app, length_take_le by exact Hle. cbn [length].
    rewrite length_drop. lia. }
  rewrite Hlen, Hk. cbn [Py.bind].
  rewrite (list_lookup_middle _ _ _ k) by (symmetry; apply length_take_le, Hle).
  rewrite <- (length_take_le (shape t) k Hle) at 1.
  rewrite delete_middle, take_drop. destruct t. reflexivity.
Qed.

(** An unsqueezed tensor has one dimension more, of size 1, and the
    same numbers. *)
Lemma unsqueeze_shape (dim : Z) (t t' : shaped) :
  unsqueeze dim t = Ok t' ->
  length (shape t') = S (length (shape t))
  /\ data t' = data t
  /\ exists k, (k <= length (shape t))%nat /\ shape t' !! k = Some 1%nat
               /\ delete k (shape t') = shape t.
Proof.
  unfold unsqueeze. intros H.
  apply bind_ok in H as (k & Hk & H). injection H as <-. cbn [shape data].
  pose proof (wrap_dim_range _ _ _ Hk) as Hle.
  split; [|split; [reflexivity|]].
  - rewrite length_app, length_take_le by exact Hle. cbn [length].
    rewrite length_drop. lia.
  - exists k. split; [exact Hle|]. split.
    + apply list_lookup_middle. symmetry. apply length_take_le, Hle.
    + rewrite <- (length_take_le (shape t) k Hle) at 1.
      rewrite delete_middle. apply take_drop.
Qed.

End SqueezeFacts.

(** X14.  [SqueezeDataDim] undoes [UnSqueezeDataDim]: when the second returns
    on a sample, the first, with the same configuration, returns the
    original sample from its result.  Every configured entry had one
    dimension of size 1 more in between, with the same numbers. *)
Theorem squeeze_undoes_unsqueeze (feature_config : gmap string Z)
    (s s1 : gmap string DataTransform.shaped * gmap string DataTransform.shaped) :
  DataTransform.UnSqueezeDataDim_call feature_config s = (s1, Ok tt) ->
  DataTransform.SqueezeDataDim_call feature_config s1 = (s, Ok tt)
  /\ forall name fea,
       is_Some (feature_config !! name) ->
       fst s !! name = Some fea \/ snd s !! name = Some fea ->
       exists fea',
         (fst s !! name = Some fea -> fst s1 !! name = Some fea')
         /\ (snd s !! name = Some fea -> snd s1 !! name = Some fea')
         /\ length (DataTransform.shape fea') = S (length (DataTransform.shape fea))
         /\ DataTransform.data fea' = DataTransform.data fea.
Proof.
  intros Hcall. unfold DataTransform.UnSqueezeDataDim_call in Hcall. split.
  - unfold DataTransform.SqueezeDataDim_call.
    eapply call_configured_undo; [|exact Hcall].
    intros name fea fea'. unfold DataTransform.unsqueeze_entry, DataTransform.squeeze_entry.
    destruct (getitem feature_config name) as [dim|e]; [|discriminate]. cbn [Py.bind].
    apply unsqueeze_squeeze.
  - destruct (call_configured_spec _ _ _ _ _ Hcall) as (_ & _ & Hok).
    intros name fea Hcfg Hin.
    assert (Hun : exists fea', DataTransform.unsqueeze_entry feature_config name fea = Ok fea'
                    /\ (fst s !! name = Some fea -> fst s1 !! name = Some fea')
                    /\ (snd s !! name = Some fea -> snd s1 !! name = Some fea')).
    { destruct Hin as [Hin|Hin].
      - destruct (proj1 (Hok eq_refl name fea Hcfg) Hin) as (fea' & Htr & Hl).
        exists fea'. split; [exact Htr|]. split; [auto|]. intros Hin2.
        destruct (proj2 (Hok eq_refl name fea Hcfg) Hin2) as (fea2 & Htr2 & Hl2).
        congruence.
      - destruct (proj2 (Hok eq_refl name fea Hcfg) Hin) as (fea' & Htr & Hl).
        exists fea'. split; [exact Htr|]. split; [|auto]. intros Hin2.
        destruct (proj1 (Hok eq_refl name fea Hcfg) Hin2) as (fea2 & Htr2 & Hl2).
        congruence. }
    destruct Hun as (fea' & Htr & H1 & H2). exists fea'.
    split; [exact H1|]. split; [exact H2|].
    unfold DataTransform.unsqueeze_entry in Htr.
    destruct (getitem feature_config name) as [dim|e]; [|discriminate]. cbn [Py.bind] in Htr.
    destruct (unsqueeze_shape _ _ _ Htr) as (Hlen & Hdata & _). auto.
Qed.

Lemma squeeze_undoes_unsqueeze_witness :
  let out := DataTransform.UnSqueezeDataDim_call Examples.last_dim Examples.shaped_sample in
  DataTransform.SqueezeDataDim_call Examples.last_dim (fst out)
  = (Examples.shaped_sample, Ok tt)
  /\ forall name fea,
       is_Some (Examples.last_dim !! name) ->
       fst Examples.shaped_sample !! name = Some fea
       \/ snd Examples.shaped_sample !! name = Some fea ->
       exists fea',
         (fst Examples.shaped_sample !! name = Some fea -> fst (fst out) !! name = Some fea')
         /\ (snd Examples.shaped_sample !! name = Some fea -> snd (fst out) !! name = Some fea')
         /\ length (DataTransform.shape fea') = S (length (DataTransform.shape fea))
         /\ DataTransform.data fea' = DataTransform.data fea.
Proof.
  intros out.
  apply (squeeze_undoes_unsqueeze Examples.last_dim Examples.shaped_sample (fst out)).
  transitivity (fst out, snd out); [apply surjective_pairing|].
  apply (f_equal (pair (fst out))). vm_compute. reflexivity.
Defined.

(** A matrix of two rows and three columns, unsqueezed at the end. *)
Example unsqueeze_example :
  let t := {| DataTransform.shape := [2; 3]%nat; DataTransform.data := [1; 2; 3; 4; 5; 6]%Q |} in
  DataTransform.unsqueeze (-1) t
  = Ok {| DataTransform.shape := [2; 3; 1]%nat; DataTransform.data := [1; 2; 3; 4; 5; 6]%Q |}
  /\ DataTransform.squeeze 0 t = Ok t
  /\ DataTransform.squeeze 2 t = Raise (IndexError "Dimension out of range").
Proof. repeat split; reflexivity. Qed.

(** ** pkg/train/module/data_transform.py: [ToTensor] *)

Section ToTensorFacts.
Import DataTransform.
Context {A T : Type}.
Variable tensor_of : dtype -> A -> result T.
Variable description : gmap string string.

Lemma to_tensor_loop_ok (items : list (string * A)) :
  NoDup (map fst items) ->
  forall out out' : gmap string T,
    to_tensor_loop tensor_of description items out = Ok out' ->
    (forall name, name ∉ map fst items -> out' !! name = out !! name)
    /\ (forall name fea, (name, fea) ∈ items ->
          exists t, converted tensor_of description name fea t /\ out' !! name = Some t).
Proof.
  induction items as [|[name fea] rest IH]; intros Hnodup out out'; cbn [to_tensor_loop].
  - intros [= <-]. split; [reflexivity|]. intros name fea Hin.
    apply elem_of_nil in Hin. contradiction.
  - cbn [map fst] in Hnodup. apply NoDup_cons in Hnodup as [Hfresh Hnodup].
    destruct (decide (is_Some (description !! name))) as [Hcfg|Hcfg]; [|discriminate].
    intros H. apply bind_ok in H as (kind & Hkind & H). apply getitem_ok in Hkind.
    apply bind_ok in H as (dt & Hdt & H). apply getitem_ok in Hdt.
    apply bind_ok in H as (t & Ht & H).
    destruct (IH Hnodup _ _ H) as (Hframe & Hin). split.
    + intros k Hk. rewrite Hframe.
      * apply lookup_insert_ne. intros <-. apply Hk. cbn. left.
      * intros Hr. apply Hk. cbn. right. exact Hr.
    + intros k v Hkv. apply elem_of_cons in Hkv as [[= -> ->]|Hkv]; [|apply Hin, Hkv].
      exists t. split; [exists kind, dt; auto|].
      rewrite (Hframe name Hfresh). apply lookup_insert_eq.
Qed.

Lemma to_tensor_loop_returns (items : list (string * A)) :
  (forall name fea, (name, fea) ∈ items ->
     exists t, converted tensor_of description name fea t) ->
  forall out : gmap string T,
    exists out', to_tensor_loop tensor_of description items out = Ok out'.
Proof.
  induction items as [|[name fea] rest IH]; intros Hall out; cbn [to_tensor_loop];
    [eauto|].
  destruct (Hall name fea ltac:(left)) as (t & kind & dt & Hkind & Hdt & Ht).
  destruct (decide (is_Some (description !! name))) as [_|Hn];
    [|exfalso; apply Hn; rewrite Hkind; eauto].
  unfold getitem. rewrite Hkind. cbn [Py.bind]. rewrite Hdt. cbn [Py.bind].
  rewrite Ht. cbn [Py.bind]. apply IH. intros name' fea' Hin. apply Hall. right. exact Hin.
Qed.

(** The loop over a dictionary's own items. *)
Lemma to_tensor_dict (d : gmap string A) :
  (is_ok (to_tensor_loop tensor_of description (map_to_list d) ∅) = true <->
   forall name fea, d !! name = Some fea ->
     exists t, converted tensor_of description name fea t)
  /\ forall out,
       to_tensor_loop tensor_of description (map_to_list d) ∅ = Ok out ->
       dom out = dom d
       /\ forall name fea, d !! name = Some fea ->
            exists t, converted tensor_of description name fea t /\ out !! name = Some t.
Proof.
  assert (Hok : forall out,
    to_tensor_loop tensor_of description (map_to_list d) ∅ = Ok out ->
    dom out = dom d
    /\ forall name fea, d !! name = Some fea ->
         exists t, converted tensor_of description name fea t /\ out !! name = Some t).
  { intros out H.
    destruct (to_tensor_loop_ok _ (NoDup_fst_map_to_list d) _ _ H) as (Hframe & Hin).
    assert (Hconv : forall name fea, d !! name = Some fea ->
              exists t, converted tensor_of description name fea t /\ out !! name = Some t).
    { intros name fea Hfea. apply Hin, elem_of_map_to_list, Hfea. }
    split; [|exact Hconv]. apply set_eq. intros name. rewrite !elem_of_dom. split.
    - intros [t Ht]. destruct (d !! name) as [fea|] eqn:Hfea; [eauto|].
      rewrite Hframe, lookup_empty in Ht; [discriminate|].
      intros Hk. apply list_elem_of_fmap in Hk as ([k v] & -> & Hkv).
      apply elem_of_map_to_list in Hkv. cbn in Hfea. congruence.
    - intros [fea Hfea]. destruct (Hconv name fea Hfea) as (t & _ & ->). eauto. }
  split; [|exact Hok]. split.
  - destruct (to_tensor_loop _ _ _ ∅) as [out|e] eqn:H; [|discriminate].
    intros _ name fea Hfea. destruct (Hok out eq_refl) as [_ Hconv].
    destruct (Hconv name fea Hfea) as (t & Ht & _). eauto.
  - intros Hall. destruct (to_tensor_loop_returns (map_to_list d)) with (out := ∅ : gmap string T)
      as (out & ->); [|reflexivity].
    intros name fea Hin. apply Hall, elem_of_map_to_list, Hin.
Qed.

End ToTensorFacts.

(** X15.  [ToTensor] returns exactly when every entry of the context and of
    the features is described, with the type [float] or [int], and
    converts.  The two dictionaries it returns then have the keys of the
    sample, each with the tensor of its entry. *)
Theorem to_tensor_converts {A T : Type} (tensor_of : DataTransform.dtype -> A -> result T)
    (context_list feature_list : gmap string string)
    (s : gmap string A * gmap string A) :
  let out := DataTransform.ToTensor_call tensor_of context_list feature_list s in
  (is_ok out = true <->
   (forall name fea, fst s !! name = Some fea ->
      exists t, DataTransform.converted tensor_of context_list name fea t)
   /\ (forall name fea, snd s !! name = Some fea ->
         exists t, DataTransform.converted tensor_of feature_list name fea t))
  /\ forall context_tensor feature_tensor,
       out = Ok (context_tensor, feature_tensor) ->
       dom context_tensor = dom (fst s)
       /\ dom feature_tensor = dom (snd s)
       /\ (forall name fea, fst s !! name = Some fea ->
             exists t, DataTransform.converted tensor_of context_list name fea t
                       /\ context_tensor !! name = Some t)
       /\ (forall name fea, snd s !! name = Some fea ->
             exists t, DataTransform.converted tensor_of feature_list name fea t
                       /\ feature_tensor !! name = Some t).
Proof.
  intros out. subst out. unfold DataTransform.ToTensor_call.
  destruct (to_tensor_dict tensor_of context_list (fst s)) as (Hc & Hcok).
  destruct (to_tensor_dict tensor_of feature_list (snd s)) as (Hf & Hfok).
  destruct (DataTransform.to_tensor_loop tensor_of context_list _ ∅) as [c|e]; cbn [Py.bind].
  - destruct (DataTransform.to_tensor_loop tensor_of feature_list _ ∅) as [f|e];
      cbn [Py.bind].
    + split.
      * split; [intros _; split; [apply Hc | apply Hf]; reflexivity | reflexivity].
      * intros c' f' [= <- <-]. destruct (Hcok c eq_refl), (Hfok f eq_refl). auto.
    + split; [|discriminate]. split; [discriminate|]. intros [_ H]. apply Hf, H.
  - split; [|discriminate]. split; [discriminate|]. intros [H _]. apply Hc, H.
Qed.

(** A float entry and an int entry convert; an entry that is not
    described is refused. *)
Example to_tensor_example :
  let tensor_of := fun (dt : DataTransform.dtype) (fea : list Z) => Ok (dt, fea) in
  DataTransform.ToTensor_call tensor_of
    {[ "pressure" := "float" ]} {[ "edges" := "int" ]}
    ({[ "pressure" := [1; 2] ]}, {[ "edges" := [0; 1] ]})
  = Ok ({[ "pressure" := (DataTransform.float32, [1; 2]) ]},
        {[ "edges" := (DataTransform.int64, [0; 1]) ]})
  /\ DataTransform.ToTensor_call tensor_of
       {[ "pressure" := "float" ]} {[ "edges" := "int" ]}
       ({[ "pressure" := [1; 2] ]}, {[ "stress" := [0; 1] ]})
     = Raise (ValueError "please check your feature list and add stress").
Proof. split; vm_compute; reflexivity. Qed.

(** ** pkg/train/module/data_transform.py: [CovertToModelInputs] *)

Section ModelInputsFacts.
Import DataTransform.
Context {T : Type}.
Variable labels_name : list string.

(** The inputs after a loop: the entries of the items that are not
    labels, on top of the inputs there were. *)
Lemma split_items_inputs (multi_obj : bool) (items : list (string * T)) :
  NoDup (map fst items) ->
  forall (inputs inputs' : gmap string T) (labels labels' : labels_value),
    split_items labels_name multi_obj items inputs labels = (inputs', labels') ->
    forall name,
      inputs' !! name
      = match list_to_map (M := gmap string T) items !! name with
        | Some fea => if is_label labels_name name then inputs !! name else Some fea
        | None => inputs !! name
        end.
Proof.
  induction items as [|[k v] rest IH]; intros Hnodup inputs inputs' labels labels';
    cbn [split_items].
  - intros [= <- <-] name. cbn. rewrite lookup_empty. reflexivity.
  - cbn [map fst] in Hnodup. apply NoDup_cons in Hnodup as [Hfresh Hnodup].
    assert (Hrest : list_to_map (M := gmap string T) rest !! k = None).
    { apply not_elem_of_list_to_map_1. exact Hfresh. }
    destruct (is_label labels_name k) eqn:Hlab; intros H name;
      rewrite (IH Hnodup _ _ _ _ H name); rewrite list_to_map_cons;
      (destruct (decide (name = k)) as [->|Hne]).
    + rewrite lookup_insert_eq, Hrest, Hlab. reflexivity.
    + rewrite lookup_insert_ne by congruence. reflexivity.
    + rewrite !lookup_insert_eq, Hrest, Hlab. reflexivity.
    + rewrite !(lookup_insert_ne _ k name) by congruence. reflexivity.
Qed.

(** The label dictionary of a multi-objective loop. *)
Lemma split_items_labels_dict (items : list (string * T)) :
  NoDup (map fst items) ->
  forall (inputs inputs' : gmap string T) (d : gmap string T) (labels' : labels_value),
    split_items labels_name true items inputs (LabelsDict d) = (inputs', labels') ->
    exists d',
      labels' = LabelsDict d'
      /\ forall name,
           d' !! name
           = match list_to_map (M := gmap string T) items !! name with
             | Some fea => if is_label labels_name name then Some fea else d !! name
             | None => d !! name
             end.
Proof.
  induction items as [|[k v] rest IH]; intros Hnodup inputs inputs' d labels';
    cbn [split_items].
  - intros [= <- <-]. exists d. split; [reflexivity|]. intros name. cbn.
    rewrite lookup_empty. reflexivity.
  - cbn [map fst] in Hnodup. apply NoDup_cons in Hnodup as [Hfresh Hnodup].
    assert (Hrest : list_to_map (M := gmap string T) rest !! k = None).
    { apply not_elem_of_list_to_map_1. exact Hfresh. }
    destruct (is_label labels_name k) eqn:Hlab; intros H;
      destruct (IH Hnodup _ _ _ _ H) as (d' & -> & Hd'); exists d';
      (split; [reflexivity|]); intros name; rewrite Hd', list_to_map_cons;
      (destruct (decide (name = k)) as [->|Hne]).
    + rewrite !lookup_insert_eq, Hrest, Hlab. reflexivity.
    + rewrite !(lookup_insert_ne _ k name) by congruence. reflexivity.
    + rewrite lookup_insert_eq, Hrest, Hlab. reflexivity.
    + rewrite lookup_insert_ne by congruence. reflexivity.
Qed.

(** The label of a single-objective loop: the one there was when no
    item is a label, else the entry of one of the items that are. *)
Lemma split_items_labels_one (items : list (string * T)) :
  forall (inputs inputs' : gmap string T) (labels labels' : labels_value),
    split_items labels_name false items inputs labels = (inputs', labels') ->
    (labels' = labels
     /\ forall name fea, (name, fea) ∈ items -> is_label labels_name name = false)
    \/ exists name fea,
         (name, fea) ∈ items /\ is_label labels_name name = true
         /\ labels' = LabelsOne fea.
Proof.
  induction items as [|[k v] rest IH]; intros inputs inputs' labels labels';
    cbn [split_items].
  - intros [= <- <-]. left. split; [reflexivity|]. intros name fea Hin.
    apply elem_of_nil in Hin. contradiction.
  - destruct (is_label labels_name k) eqn:Hlab; intros H;
      destruct (IH _ _ _ _ H) as [[-> Hnone]|(name & fea & Hin & Hl & ->)].
    + right. exists k, v. split; [left|]. auto.
    + right. exists name, fea. split; [right; exact Hin | auto].
    + left. split; [reflexivity|]. intros name fea Hin.
      apply elem_of_cons in Hin as [[= -> ->]|Hin]; [exact Hlab | eapply Hnone, Hin].
    + right. exists name, fea. split; [right; exact Hin | auto].
Qed.

End ModelInputsFacts.

(** X16.  [CovertToModelInputs] never raises.  The inputs it returns are the
    entries of the sample that are not named as labels, the features
    taking precedence over the context for a name in both.  With
    [multi_obj] the labels are the dictionary of the entries that are
    named as labels; without it they are one of these entries, taken
    from the features when the features have one, and [None] when the
    sample has none. *)
Theorem model_inputs_split {T : Type} (labels_name : list string) (multi_obj : bool)
    (s : gmap string T * gmap string T) :
  let out := DataTransform.CovertToModelInputs_call labels_name multi_obj s in
  let merged := snd s ∪ fst s in
  (forall name,
     fst out !! name
     = if DataTransform.is_label labels_name name then None else merged !! name)
  /\ match snd out with
     | DataTransform.LabelsDict d =>
         multi_obj = true
         /\ forall name,
              d !! name
              = if DataTransform.is_label labels_name name then merged !! name else None
     | DataTransform.LabelsOne fea =>
         multi_obj = false
         /\ exists name,
              DataTransform.is_label labels_name name = true
              /\ (snd s !! name = Some fea
                  \/ (fst s !! name = Some fea
                      /\ forall other, DataTransform.is_label labels_name other = true ->
                           snd s !! other = None))
     | DataTransform.LabelsNone =>
         multi_obj = false
         /\ forall name, DataTransform.is_label labels_name name = true ->
              merged !! name = None
     end.
Proof.
  intros out merged. subst out merged. unfold DataTransform.CovertToModelInputs_call.
  destruct (DataTransform.split_items labels_name multi_obj (map_to_list (fst s)) ∅ _)
    as [inputs1 labels1] eqn:H1.
  destruct (DataTransform.split_items labels_name multi_obj (map_to_list (snd s))
              inputs1 labels1) as [inputs2 labels2] eqn:H2.
  cbn [fst snd]. split.
  - intros name.
    rewrite (split_items_inputs _ _ _ (NoDup_fst_map_to_list _) _ _ _ _ H2 name).
    rewrite (split_items_inputs _ _ _ (NoDup_fst_map_to_list _) _ _ _ _ H1 name).
    rewrite !list_to_map_to_list, lookup_union, lookup_empty.
    destruct (snd s !! name), (fst s !! name), (DataTransform.is_label labels_name name);
      reflexivity.
  - destruct multi_obj.
    + destruct (split_items_labels_dict _ _ (NoDup_fst_map_to_list _) _ _ _ _ H1)
        as (d1 & -> & Hd1).
      destruct (split_items_labels_dict _ _ (NoDup_fst_map_to_list _) _ _ _ _ H2)
        as (d2 & -> & Hd2).
      split; [reflexivity|]. intros name.
      rewrite Hd2, Hd1, !list_to_map_to_list, lookup_union, lookup_empty.
      destruct (snd s !! name), (fst s !! name), (DataTransform.is_label labels_name name);
        reflexivity.
    + destruct (split_items_labels_one _ _ _ _ _ _ H2)
        as [[-> Hnone2]|(name & fea & Hin & Hl & ->)].
      * destruct (split_items_labels_one _ _ _ _ _ _ H1)
          as [[-> Hnone1]|(name & fea & Hin & Hl & ->)].
        -- split; [reflexivity|]. intros name Hl. rewrite lookup_union.
           destruct (snd s !! name) as [fea|] eqn:Hs.
           ++ apply elem_of_map_to_list in Hs. rewrite (Hnone2 _ _ Hs) in Hl. discriminate.
           ++ destruct (fst s !! name) as [fea|] eqn:Hf; [|reflexivity].
              apply elem_of_map_to_list in Hf. rewrite (Hnone1 _ _ Hf) in Hl. discriminate.
        -- split; [reflexivity|]. exists name. split; [exact Hl|]. right.
           split; [apply elem_of_map_to_list, Hin|]. intros other Ho.
           destruct (snd s !! other) as [v|] eqn:Hs; [|reflexivity].
           apply elem_of_map_to_list in Hs. rewrite (Hnone2 _ _ Hs) in Ho. discriminate.
      * split; [reflexivity|]. exists name. split; [exact Hl|]. left.
        apply elem_of_map_to_list, Hin.
Qed.

(** The stress is the label; the other entries are inputs. *)
Example model_inputs_example :
  DataTransform.CovertToModelInputs_call ["stress"] false
    ({[ "pressure" := 1 ]}, {[ "node_coord" := 2; "stress" := 3 ]})
  = ({[ "pressure" := 1; "node_coord" := 2 ]}, DataTransform.LabelsOne 3).
Proof. vm_compute. reflexivity. Qed.

Section ModelInputsOrder.
Import DataTransform.
Context {T : Type}.
Variable labels_name : list string.

(** Without [multi_obj], a loop leaves the last label it met. *)
Lemma split_items_last (items : list (string * T)) :
  forall (inputs : gmap string T) (labels : labels_value),
    snd (split_items labels_name false items inputs labels)
    = match last (List.filter (fun entry => is_label labels_name (fst entry)) items) with
      | Some entry => LabelsOne (snd entry)
      | None => labels
      end.
Proof.
  induction items as [|[name fea] rest IH]; intros inputs labels;
    cbn [split_items List.filter fst]; [reflexivity|].
  destruct (is_label labels_name name); rewrite IH; [|reflexivity].
  rewrite last_cons. destruct (last (List.filter _ rest)); reflexivity.
Qed.

(** On a sample whose items come in the order of [map_to_list], the
    call on item lists is the call on [gmap]s. *)
Lemma model_inputs_call_ordered (multi_obj : bool) (s : gmap string T * gmap string T) :
  CovertToModelInputs_call labels_name multi_obj s
  = CovertToModelInputs_ordered labels_name multi_obj
      (map_to_list (fst s)) (map_to_list (snd s)).
Proof. reflexivity. Qed.

End ModelInputsOrder.

(** X26.  Without [multi_obj], the labels [CovertToModelInputs] returns
    are the last entry named as a label that the two loops meet: the
    features come after the context, each dictionary in its insertion
    order; [None] when no entry is named as a label. *)
Theorem model_inputs_last_label {T : Type} (labels_name : list string)
    (context feature : list (string * T)) :
  snd (DataTransform.CovertToModelInputs_ordered labels_name false context feature)
  = match last (List.filter (fun entry => DataTransform.is_label labels_name (fst entry))
                  (context ++ feature)) with
    | Some entry => DataTransform.LabelsOne (snd entry)
    | None => DataTransform.LabelsNone
    end.
Proof.
  unfold DataTransform.CovertToModelInputs_ordered.
  destruct (DataTransform.split_items labels_name false context ∅ DataTransform.LabelsNone)
    as [inputs labels] eqn:Hc.
  rewrite split_items_last, List.filter_app, last_app.
  destruct (last (List.filter _ feature)) as [e|]; [reflexivity|].
  pose proof (split_items_last labels_name context ∅ DataTransform.LabelsNone) as Hl.
  rewrite Hc in Hl. exact Hl.
Qed.

(** Two labels, [stress] inserted before [displacement]: the later one
    is kept, whatever the order of the two names. *)
Example model_inputs_two_labels :
  snd (DataTransform.CovertToModelInputs_ordered ["displacement"; "stress"] false
         [("pressure", 1)] [("stress", 2); ("node_coord", 3); ("displacement", 4)])
  = DataTransform.LabelsOne 4
  /\ snd (DataTransform.CovertToModelInputs_ordered ["displacement"; "stress"] false
            [("pressure", 1)] [("displacement", 4); ("node_coord", 3); ("stress", 2)])
     = DataTransform.LabelsOne 2.
Proof. split; reflexivity. Qed.

(** ** pkg/train/module/data_transform.py: [NormalNorm] *)

Section NormalFacts.
Import DataTransform.

Lemma standard_row_zip (row means stds : list Q) :
  zip_with Qdiv (zip_with Qminus row means) stds
  = zip_with (fun x ms => standard x (fst ms) (snd ms)) row (zip means stds).
Proof.
  revert means stds.
  induction row as [|x row IH]; intros [|mu means] [|sd stds]; cbn; try reflexivity.
  f_equal. apply IH.
Qed.

(** With statistics as wide as the rows, the transform standardises
    every row column by column. *)
Lemma normal_transform_rows (rows : list (list Q)) (means stds : list Q) :
  Forall (fun row => length row = length means) rows ->
  length stds = length means ->
  _normal_transform (T2 rows) (T1 means) (T1 stds)
  = Ok (standard_tensor (T2 rows) (T1 means) (T1 stds)).
Proof.
  intros Hrows Hstd. unfold _normal_transform, sub, div. cbn [binop].
  rewrite (map_result_pure _ (fun row => zip_with Qminus row means)).
  2:{ eapply Forall_impl; [exact Hrows|]. intros row Hrow. apply bcast1_same, Hrow. }
  cbn [Py.bind binop].
  rewrite (map_result_pure _ (fun r => zip_with Qdiv r stds)).
  2:{ apply Forall_forall. intros r Hr. apply list_elem_of_fmap in Hr as (row & -> & Hin).
      rewrite Forall_forall in Hrows. apply bcast1_same.
      rewrite !length_zip_with. rewrite (Hrows row Hin). lia. }
  cbn. f_equal. f_equal. rewrite map_map. apply map_ext. intros row.
  apply standard_row_zip.
Qed.

Lemma normal_transform_vector (v : list Q) (mu sd : Q) :
  _normal_transform (T1 v) (T0 mu) (T0 sd)
  = Ok (standard_tensor (T1 v) (T0 mu) (T0 sd)).
Proof.
  unfold _normal_transform, sub, div. cbn. rewrite map_map. reflexivity.
Qed.

End NormalFacts.

(** X17.  When [NormalNorm] returns, every entry of the sample with configured
    statistics has been replaced by [(x - mean) / std], with the mean
    and the deviation stored for its name.  For a 2-d entry and
    statistics with one number per column this is, place by place, the
    number minus the mean of its column, divided by the deviation of
    its column. *)
Theorem normal_norm_standardises `{CC : CommonConstant} (self : DataTransform.Norm)
    (s s' : DataTransform.sample) (side : bool) (name : string)
    (fea : DataTransform.tensor) :
  DataTransform.NormalNorm_call self s = (s', Ok tt) ->
  is_Some (DataTransform.feature_config self !! name) ->
  DataTransform.side_of side s !! name = Some fea ->
  exists stats mean_val std_val fea',
    DataTransform.feature_config self !! name = Some stats
    /\ stats !! MEAN_VAL = Some mean_val
    /\ stats !! STD_VAL = Some std_val
    /\ DataTransform.side_of side s' !! name = Some fea'
    /\ DataTransform._normal_transform fea mean_val std_val = Ok fea'
    /\ forall rows means stds,
         fea = DataTransform.T2 rows ->
         mean_val = DataTransform.T1 means ->
         std_val = DataTransform.T1 stds ->
         Forall (fun row => length row = length means) rows ->
         length stds = length means ->
         Forall (fun sd => ~ (sd == 0)%Q) stds ->
         fea' = DataTransform.standard_tensor fea mean_val std_val
         /\ forall i j x mu sd,
              DataTransform.entry fea i j = Some x ->
              means !! j = Some mu -> stds !! j = Some sd ->
              DataTransform.entry fea' i j = Some ((x - mu) / sd)%Q.
Proof.
  intros Hcall Hcfg Hfea. unfold DataTransform.NormalNorm_call in Hcall.
  destruct (call_spec _ _ _ _ _ Hcall) as (_ & _ & Hok).
  assert (Hentry : exists fea', DataTransform.normal_entry self name fea = Ok fea'
                                /\ DataTransform.side_of side s' !! name = Some fea').
  { destruct side; cbn [DataTransform.side_of] in *.
    - apply (proj1 (Hok eq_refl name fea Hcfg) Hfea).
    - apply (proj2 (Hok eq_refl name fea Hcfg) Hfea). }
  destruct Hentry as (fea' & Htr & Hlook). unfold DataTransform.normal_entry in Htr.
  apply bind_ok in Htr as (stats & Hs & Htr). apply getitem_ok in Hs.
  apply bind_ok in Htr as (mean_val & Hm & Htr). apply getitem_ok in Hm.
  apply bind_ok in Htr as (std_val & Hsd & Htr). apply getitem_ok in Hsd.
  exists stats, mean_val, std_val, fea'. repeat (split; [assumption|]).
  intros rows means stds -> -> -> Hrows Hlen _.
  rewrite (normal_transform_rows rows means stds Hrows Hlen) in Htr.
  injection Htr as <-. split; [reflexivity|].
  intros i j x mu sd Hx Hmu Hsdj. cbn [DataTransform.standard_tensor DataTransform.entry] in *.
  rewrite list_lookup_fmap. destruct (rows !! i) as [row|]; [|discriminate]. cbn in *.
  rewrite lookup_zip_with, Hx. cbn. rewrite lookup_zip_with, Hmu. cbn. rewrite Hsdj.
  reflexivity.
Qed.

Lemma normal_norm_standardises_witness :
  let out := @DataTransform.NormalNorm_call Examples.constants
               Examples.column_norm Examples.node_sample in
  let fea := DataTransform.T2 [[0%Q; 10%Q]; [1%Q; 20%Q]] in
  exists stats mean_val std_val fea',
    DataTransform.feature_config Examples.column_norm !! "node_coord" = Some stats
    /\ stats !! @MEAN_VAL Examples.constants = Some mean_val
    /\ stats !! @STD_VAL Examples.constants = Some std_val
    /\ DataTransform.side_of false (fst out) !! "node_coord" = Some fea'
    /\ DataTransform._normal_transform fea mean_val std_val = Ok fea'
    /\ forall rows means stds,
         fea = DataTransform.T2 rows ->
         mean_val = DataTransform.T1 means ->
         std_val = DataTransform.T1 stds ->
         Forall (fun row => length row = length means) rows ->
         length stds = length means ->
         Forall (fun sd => ~ (sd == 0)%Q) stds ->
         fea' = DataTransform.standard_tensor fea mean_val std_val
         /\ forall i j x mu sd,
              DataTransform.entry fea i j = Some x ->
              means !! j = Some mu -> stds !! j = Some sd ->
              DataTransform.entry fea' i j = Some ((x - mu) / sd)%Q.
Proof.
  intros out fea.
  apply (@normal_norm_standardises Examples.constants Examples.column_norm
           Examples.node_sample (fst out) false "node_coord" fea).
  - transitivity (fst out, snd out); [apply surjective_pairing|].
    apply (f_equal (pair (fst out))). vm_compute. reflexivity.
  - vm_compute. eauto.
  - vm_compute. reflexivity.
Defined.

(** ** pkg/train/module/data_transform.py: [MaxMinNorm] applied twice *)

Section MaxMinTwice.
Import DataTransform.

Lemma scaled_top (mn mx : Q) : (mn < mx)%Q -> (scaled mx mn mx == 1)%Q.
Proof. intros H. unfold scaled. field. lra. Qed.

Lemma scaled_bottom (mn mx : Q) : (mn < mx)%Q -> (scaled mn mn mx == 0)%Q.
Proof. intros H. unfold scaled. field. lra. Qed.

Lemma scaled_unit (y mn mx : Q) : (mn == 0)%Q -> (mx == 1)%Q -> (scaled y mn mx == y)%Q.
Proof. intros H0 H1. unfold scaled. rewrite H0, H1. field. Qed.

Lemma scale_row_lookup (row mins maxs : list Q) (j : nat) (v : Q) :
  scale_row row mins maxs !! j = Some v ->
  exists x mn mx,
    row !! j = Some x /\ mins !! j = Some mn /\ maxs !! j = Some mx
    /\ v = scaled x mn mx.
Proof.
  unfold scale_row. rewrite lookup_zip_with.
  destruct (row !! j) as [x|]; [|discriminate]. cbn.
  rewrite lookup_zip_with.
  destruct (mins !! j) as [mn|]; [|discriminate]. cbn.
  destruct (maxs !! j) as [mx|]; [|discriminate]. cbn.
  intros [= <-]. eauto 10.
Qed.

Lemma scale_row_lookup_Some (row mins maxs : list Q) (j : nat) (x mn mx : Q) :
  row !! j = Some x -> mins !! j = Some mn -> maxs !! j = Some mx ->
  scale_row row mins maxs !! j = Some (scaled x mn mx).
Proof.
  intros Hx Hmn Hmx. unfold scale_row.
  rewrite lookup_zip_with, Hx. cbn. rewrite lookup_zip_with, Hmn. cbn.
  rewrite Hmx. reflexivity.
Qed.

Lemma scale_row_length (row mins maxs : list Q) :
  length row = length mins -> length maxs = length mins ->
  length (scale_row row mins maxs) = length mins.
Proof.
  intros Hr Hm. unfold scale_row. rewrite !length_zip_with. lia.
Qed.

Section Rows.
Variables (rows : list (list Q)) (maxs mins : list Q).
Hypothesis bounds : column_bounds rows maxs mins.
Hypothesis max_attained : attained rows maxs.
Hypothesis min_attained : attained rows mins.
Hypothesis above : Forall2 Qlt mins maxs.

Let rows1 := map (fun row => scale_row row mins maxs) rows.

(** After scaling, the largest number of every column is 1 and the
    smallest is 0. *)
Lemma scaled_rows_extrema (maxs1 mins1 : list Q) :
  column_bounds rows1 maxs1 mins1 ->
  attained rows1 maxs1 -> attained rows1 mins1 ->
  (forall j v, maxs1 !! j = Some v -> (v == 1)%Q)
  /\ (forall j v, mins1 !! j = Some v -> (v == 0)%Q).
Proof.
  intros Hb1 Hmax1 Hmin1. unfold column_bounds in bounds, Hb1.
  rewrite Forall_forall in bounds. rewrite Forall_forall in Hb1.
  assert (Hunit : forall row1 j v, row1 ∈ rows1 -> row1 !! j = Some v -> in_unit v).
  { intros row1 j v Hin Hv. apply list_elem_of_fmap in Hin as (row & -> & Hrow).
    apply scale_row_lookup in Hv as (x & mn & mx & Hx & Hmn & Hmx & ->).
    destruct (bounds row Hrow) as [Hlo Hhi].
    apply scaled_in_unit.
    - eapply (Forall2_lookup_lr _ _ _ _ _ _ Hlo); eassumption.
    - eapply (Forall2_lookup_lr _ _ _ _ _ _ Hhi); eassumption.
    - eapply (Forall2_lookup_lr _ _ _ _ _ _ above); eassumption. }
  split; intros j v Hv.
  - destruct (Hmax1 j v Hv) as (row1 & Hin1 & Hv1).
    pose proof (Hunit row1 j v Hin1 Hv1) as [_ Hle].
    pose proof Hin1 as Hin1'.
    apply list_elem_of_fmap in Hin1' as (row & -> & Hrow).
    apply scale_row_lookup in Hv1 as (x & mn & mx & Hx & Hmn & Hmx & _).
    destruct (max_attained j mx Hmx) as (r & Hr & Hrj).
    assert (Hr1 : scale_row r mins maxs ∈ rows1).
    { apply list_elem_of_fmap. eauto. }
    destruct (Hb1 _ Hr1) as [_ Hhi1].
    pose proof (scale_row_lookup_Some r mins maxs j mx mn mx Hrj Hmn Hmx) as Htop.
    pose proof (Forall2_lookup_lr _ _ _ _ _ _ Hhi1 Htop Hv) as Hge.
    rewrite scaled_top in Hge
      by (eapply (Forall2_lookup_lr _ _ _ _ _ _ above); eassumption).
    apply Qle_antisym; assumption.
  - destruct (Hmin1 j v Hv) as (row1 & Hin1 & Hv1).
    pose proof (Hunit row1 j v Hin1 Hv1) as [Hge _].
    pose proof Hin1 as Hin1'.
    apply list_elem_of_fmap in Hin1' as (row & -> & Hrow).
    apply scale_row_lookup in Hv1 as (x & mn & mx & Hx & Hmn & Hmx & _).
    destruct (min_attained j mn Hmn) as (r & Hr & Hrj).
    assert (Hr1 : scale_row r mins maxs ∈ rows1).
    { apply list_elem_of_fmap. eauto. }
    destruct (Hb1 _ Hr1) as [Hlo1 _].
    pose proof (scale_row_lookup_Some r mins maxs j mn mn mx Hrj Hmn Hmx) as Hbot.
    pose proof (Forall2_lookup_lr _ _ _ _ _ _ Hlo1 Hv Hbot) as Hle.
    rewrite scaled_bottom in Hle
      by (eapply (Forall2_lookup_lr _ _ _ _ _ _ above); eassumption).
    apply Qle_antisym; assumption.
Qed.

End Rows.

(** Scaling rows whose columns already run from 0 to 1 changes no
    number. *)
Lemma scale_row_unit (row mins maxs : list Q) :
  length row = length mins -> length maxs = length mins ->
  (forall j v, maxs !! j = Some v -> (v == 1)%Q) ->
  (forall j v, mins !! j = Some v -> (v == 0)%Q) ->
  Forall2 Qeq (scale_row row mins maxs) row.
Proof.
  intros Hr Hm H1 H0. apply Forall2_same_length_lookup.
  split; [rewrite scale_row_length by assumption; congruence|].
  intros j v x Hv Hx.
  apply scale_row_lookup in Hv as (x' & mn & mx & Hx' & Hmn & Hmx & ->).
  assert (x' = x) as -> by congruence.
  apply scaled_unit; eauto.
Qed.


Lemma tensor_equiv_refl (t : tensor) : tensor_equiv t t.
Proof.
  destruct t as [x|v|rows]; cbn.
  - reflexivity.
  - apply Forall_Forall2_diag, Forall_true. reflexivity.
  - apply Forall_Forall2_diag, Forall_true. intros row.
    apply Forall_Forall2_diag, Forall_true. reflexivity.
Qed.

(** Per-sample min-max scaling applied to its own result changes no
    number, when the maximum of every column is strictly above its
    minimum. *)
Lemma max_min_transform_twice (fea mx mn fea1 : tensor) :
  well_shaped fea ->
  _calculate_max_min fea = Ok (mx, mn) ->
  strictly_above mx mn ->
  _normal_max_min_transform fea mx mn = Ok fea1 ->
  exists mx1 mn1 fea2,
    _calculate_max_min fea1 = Ok (mx1, mn1)
    /\ _normal_max_min_transform fea1 mx1 mn1 = Ok fea2
    /\ tensor_equiv fea2 fea1.
Proof.
  intros Hshape Hcalc Habove Htr.
  pose proof (calculate_max_min_extrema _ _ _ Hshape Hcalc) as Hext.
  destruct (transform_in_unit _ _ _ Hext Habove) as [Htr' _].
  rewrite Htr' in Htr. injection Htr as <-.
  destruct fea as [x|v|rows], mx as [mx|maxs|?], mn as [mn|mins|?];
    cbn [dim0_extrema strictly_above] in Hext, Habove; try contradiction.
  - destruct Hext as [-> ->]. exfalso. revert Habove. apply Qlt_irrefl.
  - (* a vector *)
    destruct Hext as [[Hmxin Hmax] [Hmnin Hmin]]. cbn [scaled_tensor].
    set (v1 := map (fun x => scaled x mn mx) v).
    assert (Hunit : Forall in_unit v1).
    { apply Forall_fmap, Forall_forall. intros x Hx. rewrite Forall_forall in Hmax, Hmin.
      apply scaled_in_unit; auto. }
    destruct v1 as [|y v1'] eqn:Hv1.
    { destruct v; [apply elem_of_nil in Hmxin; contradiction | discriminate]. }
    eexists _, _, _. split; [reflexivity|]. rewrite <- Hv1 in *.
    split; [apply transform_vector|]. cbn [scaled_tensor tensor_equiv].
    assert (Hext1 : dim0_extrema (T1 v1) (T0 (fold_left Qmax v1' y)) (T0 (fold_left Qmin v1' y))).
    { apply calculate_max_min_extrema; [exact I|]. rewrite Hv1. reflexivity. }
    destruct Hext1 as [[Hmx1in Hmax1] [Hmn1in Hmin1]].
    rewrite Forall_forall in Hunit, Hmax1, Hmin1.
    assert (Htop : (fold_left Qmax v1' y == 1)%Q).
    { apply Qle_antisym; [apply (Hunit _ Hmx1in)|].
      rewrite <- (scaled_top mn mx Habove). apply Hmax1.
      subst v1. apply list_elem_of_fmap. eauto. }
    assert (Hbot : (fold_left Qmin v1' y == 0)%Q).
    { apply Qle_antisym; [|apply (Hunit _ Hmn1in)].
      rewrite <- (scaled_bottom mn mx Habove). apply Hmin1.
      subst v1. apply list_elem_of_fmap. eauto. }
    apply Forall2_fmap_l, Forall_Forall2_diag, Forall_true. intros q. cbn.
    apply scaled_unit; assumption.
  - (* rows *)
    destruct Hext as (Hbounds & Hmaxatt & Hminatt). cbn [scaled_tensor].
    set (rows1 := map (fun row => scale_row row mins maxs) rows).
    assert (Hlenm : length maxs = length mins) by (symmetry; eapply Forall2_length, Habove).
    assert (Hrect1 : rectangular (length mins) rows1).
    { apply Forall_fmap, Forall_forall. intros row Hrow. cbn.
      unfold column_bounds in Hbounds. rewrite Forall_forall in Hbounds.
      destruct (Hbounds row Hrow) as [Hlo _].
      apply scale_row_length; [symmetry; eapply Forall2_length, Hlo | exact Hlenm]. }
    destruct rows1 as [|r1 rows1'] eqn:Hrows1.
    { destruct rows; [discriminate Hcalc | discriminate]. }
    eexists _, _, _. split; [reflexivity|]. rewrite <- Hrows1 in *.
    assert (Hext1 : dim0_extrema (T2 rows1)
                      (T1 (fold_left (zip_with Qmax) rows1' r1))
                      (T1 (fold_left (zip_with Qmin) rows1' r1))).
    { apply calculate_max_min_extrema; [eexists; exact Hrect1|].
      rewrite Hrows1. reflexivity. }
    cbn [dim0_extrema] in Hext1. destruct Hext1 as (Hb1 & Hmax1 & Hmin1).
    destruct (scaled_rows_extrema rows maxs mins Hbounds Hmaxatt Hminatt Habove _ _
                Hb1 Hmax1 Hmin1) as [Htop Hbot].
    set (maxs1 := fold_left (zip_with Qmax) rows1' r1) in *.
    set (mins1 := fold_left (zip_with Qmin) rows1' r1) in *.
    assert (Hlens : Forall (fun row1 => length row1 = length mins1) rows1
                    /\ length maxs1 = length mins1).
    { unfold column_bounds in Hb1. split.
      - eapply Forall_impl; [exact Hb1|]. intros row1 [Hlo _]. cbn in Hlo.
        symmetry. eapply Forall2_length, Hlo.
      - rewrite Hrows1 in Hb1. inversion Hb1 as [|? ? [Hlo Hhi] _]; subst.
        apply Forall2_length in Hlo, Hhi. congruence. }
    destruct Hlens as [Hrows1len Hmaxs1len].
    split; [apply transform_rows; assumption|].
    cbn [scaled_tensor tensor_equiv].
    apply Forall2_fmap_l, Forall_Forall2_diag.
    eapply Forall_impl; [exact Hrows1len|]. intros row1 Hlen. cbn.
    apply scale_row_unit; assumption.
Qed.

End MaxMinTwice.

Section NormAsConfigured.
Import DataTransform.

Lemma for_items_configured (self : Norm) (transform : string -> tensor -> result tensor)
    (items : list (string * tensor)) :
  forall d : dict,
    for_items self transform items d
    = for_configured (feature_config self) transform items d.
Proof.
  induction items as [|[name fea] rest IH]; intros d; cbn [for_items for_configured];
    [reflexivity|].
  destruct (decide (is_Some (feature_config self !! name))); [|apply IH].
  destruct (transform name fea); [apply IH | reflexivity].
Qed.

(** The loops of the two [Norm] classes are the loop of the other
    transforms, on [feature_config]. *)
Lemma call_configured_norm (self : Norm) (transform : string -> tensor -> result tensor)
    (s : sample) :
  call self transform s = call_configured (feature_config self) transform s.
Proof.
  destruct s as [context feature]. unfold call, call_configured.
  rewrite !for_items_configured. reflexivity.
Qed.

End NormAsConfigured.



(** ** Chunk sizes *)

Lemma Forall_repeat {A} (P : A -> Prop) (x : A) (k : nat) :
  (k <> 0%nat -> P x) -> Forall P (repeat x k).
Proof.
  intros HP. induction k as [|k IH]; cbn; constructor.
  - apply HP. lia.
  - destruct k; [constructor|]. apply IH. intros _. apply HP. lia.
Qed.

(** With [n = L // c] sections, every section holds at least [c] and
    fewer than [2 c] entries. *)
Lemma section_sizes_bounds (L c : nat) :
  (0 < c)%nat -> (c <= L)%nat ->
  Forall (fun s => (c <= s < 2 * c)%nat) (Preparation.section_sizes L (L / c)).
Proof.
  intros Hc HL. unfold Preparation.section_sizes. cbv zeta.
  set (n := (L / c)%nat).
  assert (Hn : (0 < n)%nat) by (apply Nat.div_str_pos; lia).
  pose proof (Nat.div_mod_eq L c) as HLc. fold n in HLc.
  pose proof (Nat.mod_upper_bound L c ltac:(lia)) as Hr.
  pose proof (Nat.div_mod_eq L n) as HLn.
  pose proof (Nat.mod_upper_bound L n ltac:(lia)) as Hm.
  apply Forall_app. split; apply Forall_repeat; intros Hk; nia.
Qed.

Section FileSizes.
Import Preparation.
Context `{C : CommonConstant} `{E : External}.

(** X19.  When [_data_generation] returns with a positive [chunk_file_size],
    it has written [len(sample_indices) // chunk_file_size] files, and
    every file holds at least [chunk_file_size] samples and fewer than
    twice as many: the samples left over by the division are spread
    over the first files, not put in a file of their own. *)
Theorem data_generation_file_size_bounds (self : PassiveBiVPreparationDataset)
    (w w' : world) (u : unit) :
  0 < chunk_file_size self ->
  _data_generation self w = (w', Ok u) ->
  exists writes,
    h5_written w' = (h5_written w ++ writes)%list
    /\ Z.of_nat (length writes) = len (sample_indices self) / chunk_file_size self
    /\ Forall (fun f => chunk_file_size self <= Z.of_nat (length (snd f))
                        < 2 * chunk_file_size self) writes.
Proof.
  intros Hc Hgen.
  destruct (data_generation_file_sizes self w w' u Hgen) as (writes & Hw & Hsizes).
  destruct (data_generation_spec self w w' u Hgen) as (chunks & stored & _ & Hsplit & _ & _).
  apply array_split_ok in Hsplit as (Hpos & _ & _ & _).
  exists writes. split; [exact Hw|].
  unfold len in *. set (L := length (sample_indices self)) in *.
  set (c := Z.to_nat (chunk_file_size self)).
  assert (Hcz : chunk_file_size self = Z.of_nat c) by (unfold c; lia).
  rewrite Hcz in *.
  assert (Hdiv : Z.to_nat (Z.of_nat L / Z.of_nat c) = (L / c)%nat).
  { rewrite <- Nat2Z.inj_div. apply Nat2Z.id. }
  rewrite Hdiv in Hsizes.
  assert (HcL : (c <= L)%nat).
  { destruct (le_lt_dec c L) as [|Hlt]; [assumption|].
    rewrite Z.div_small in Hpos by lia. lia. }
  split.
  - apply (f_equal (@length nat)) in Hsizes. rewrite length_map in Hsizes.
    rewrite Hsizes. destruct (section_sizes_sum L (L / c)) as [_ Hlen].
    + apply Nat.div_str_pos. lia.
    + rewrite Hlen. apply Nat2Z.inj_div.
  - pose proof (section_sizes_bounds L c ltac:(lia) HcL) as Hb.
    rewrite <- Hsizes in Hb. apply Forall_fmap in Hb.
    eapply Forall_impl; [exact Hb|]. intros f Hf. cbn in Hf. lia.
Qed.
End FileSizes.

Lemma data_generation_file_size_bounds_witness :
  let self := Examples.five_samples in
  let out := @Preparation._data_generation Examples.constants Examples.toy_external
               self Examples.start in
  exists writes,
    Preparation.h5_written (fst out) = (Preparation.h5_written Examples.start ++ writes)%list
    /\ Z.of_nat (length writes)
       = len (Preparation.sample_indices self) / Preparation.chunk_file_size self
    /\ Forall (fun f => Preparation.chunk_file_size self <= Z.of_nat (length (snd f))
                        < 2 * Preparation.chunk_file_size self) writes.
Proof.
  intros self out.
  apply (@data_generation_file_size_bounds Examples.constants Examples.toy_external
           self Examples.start (fst out) tt).
  - reflexivity.
  - transitivity (fst out, snd out); [apply surjective_pairing|].
    apply (f_equal (pair (fst out))). vm_compute. reflexivity.
Defined.

Section TooFewSamples.
Import Preparation.
Context `{C : CommonConstant} `{E : External}.

(** X20.  With a zero [chunk_file_size] the division fails; with fewer
    samples than [chunk_file_size] (or a negative one) [np.array_split]
    is asked for no sections and refuses.  Either way the two global
    tables have been read and no file is written. *)
Theorem data_generation_too_few_samples (self : PassiveBiVPreparationDataset)
    (w : world) (gf_rows sc_rows : list (list Q)) (gf sc : ndarray) :
  csv_files w !! global_feature_data_path self = Some gf_rows ->
  squeeze gf_rows = Ok gf ->
  csv_files w !! shape_data_path self = Some sc_rows ->
  squeeze sc_rows = Ok sc ->
  len (sample_indices self) < chunk_file_size self \/ chunk_file_size self <= 0 ->
  extends w (fst (_data_generation self w))
    [global_feature_data_path self; shape_data_path self] [] []
  /\ snd (_data_generation self w)
     = Raise (if chunk_file_size self =? 0 then ZeroDivisionError
              else ValueError "number sections must be larger than 0.").
Proof.
  intros Hgf Hsgf Hsc Hssc Hfew.
  unfold _data_generation, mbind, loadtxt. rewrite Hgf, Hsgf. cbn [csv_files].
  rewrite Hsc, Hssc. unfold lift, floordiv.
  assert (Hext : forall r : result unit,
    extends w (fst ({| csv_files := csv_files w;
       loadtxt_calls := (loadtxt_calls w ++ [global_feature_data_path self])
                          ++ [shape_data_path self];
       h5_written := h5_written w; stats_calls := stats_calls w; rng := rng w |}, r))
      [global_feature_data_path self; shape_data_path self] [] []).
  { intros r. unfold extends. cbn. rewrite !app_nil_r, <- app_assoc. auto. }
  destruct (chunk_file_size self =? 0) eqn:Hz; [split; [apply Hext | reflexivity]|].
  apply Z.eqb_neq in Hz. unfold array_split.
  assert (Hn : len (sample_indices self) / chunk_file_size self <= 0).
  { unfold len in *. destruct Hfew as [Hlt|Hneg].
    - rewrite Z.div_small; lia.
    - rewrite <- Z.div_opp_opp by exact Hz. apply Z.div_le_upper_bound; lia. }
  apply Z.leb_le in Hn. rewrite Hn. split; [apply Hext | reflexivity].
Qed.
End TooFewSamples.

Lemma data_generation_too_few_samples_witness :
  let self := Examples.preparation "train" [0; 1] 3 None in
  let out := @Preparation._data_generation Examples.constants Examples.toy_external
               self Examples.start in
  Preparation.extends Examples.start (fst out) ["global.csv"; "shape.csv"] [] []
  /\ snd out = Raise (ValueError "number sections must be larger than 0.").
Proof.
  intros self out.
  apply (@data_generation_too_few_samples Examples.constants Examples.toy_external
           self Examples.start (Examples.table 5 9 0) (Examples.table 5 59 0)
           (Preparation.A2 (Examples.table 5 9 0)) (Preparation.A2 (Examples.table 5 59 0)));
    try (vm_compute; reflexivity).
  left. vm_compute. reflexivity.
Defined.

Section StoredOrder.
Import Preparation.
Context `{C : CommonConstant} `{E : External}.

Lemma sample_spec_index (self : PassiveBiVPreparationDataset)
    (files : gmap string (list (list Q))) (idx : Z) (s : sample_dict) :
  sample_spec self files idx s -> index s = [int32 idx].
Proof.
  intros (raw_in & raw_out & rin & rout & edge & edge0 & w1 & w2 & _ & _ & _ & _ & _ & Hs).
  apply Hs.
Qed.

Lemma groups_of_names (datasets : list sample_dict) :
  map fst (groups_of datasets) = map group_name (seq 0 (length datasets)).
Proof.
  unfold groups_of, enumerate. generalize 0%nat.
  induction datasets as [|s rest IH]; intros k; [reflexivity|].
  cbn. f_equal. apply IH.
Qed.

Lemma groups_of_index (self : PassiveBiVPreparationDataset)
    (files : gmap string (list (list Q))) (chunk : list Z) (datasets : list sample_dict) :
  Forall2 (sample_spec self files) chunk datasets ->
  map (fun g => index (snd g)) (groups_of datasets) = map (fun idx => [int32 idx]) chunk.
Proof.
  unfold groups_of, enumerate. generalize 0%nat.
  intros k Hall. revert k.
  induction Hall as [|idx s chunk datasets Hs _ IH]; intros k; [reflexivity|].
  cbn. rewrite (sample_spec_index _ _ _ _ Hs). f_equal. apply IH.
Qed.

Lemma enumerate_from_fst {A} (l : list A) :
  forall k : nat, map fst (enumerate_from k l) = seq k (length l).
Proof.
  induction l as [|a l IH]; intros k; [reflexivity|]. cbn. f_equal. apply IH.
Qed.

(** X21.  The files are numbered from 0 in the order of the chunks, the groups
    of every file are named [idx_0], [idx_1], ... in order, and the
    [index] datasets, read file by file and group by group, are the
    sample indices in their order: every sample is stored exactly
    once. *)
Theorem data_generation_keeps_order (self : PassiveBiVPreparationDataset)
    (w w' : world) (u : unit) :
  _data_generation self w = (w', Ok u) ->
  exists writes,
    h5_written w' = (h5_written w ++ writes)%list
    /\ map fst writes = map (dataset_h5_path self) (seq 0 (length writes))
    /\ Forall (fun f => map fst (snd f) = map group_name (seq 0 (length (snd f)))) writes
    /\ concat (map (fun f => map (fun g => index (snd g)) (snd f)) writes)
       = map (fun idx => [int32 idx]) (sample_indices self).
Proof.
  intros Hgen.
  destruct (data_generation_spec self w w' u Hgen)
    as (chunks & stored & _ & Hsplit & Hext & Hall).
  destruct Hext as (_ & _ & Hw & _).
  apply array_split_ok in Hsplit as (_ & _ & Hconcat & _).
  eexists. split; [exact Hw|]. unfold enumerate.
  split; [|split].
  - rewrite length_map, map_map. cbn [fst].
    assert (Hlen : length (enumerate_from 0 stored) = length stored).
    { rewrite <- (length_map fst), enumerate_from_fst. apply length_seq. }
    rewrite Hlen, <- (enumerate_from_fst stored 0), map_map. reflexivity.
  - apply Forall_fmap, Forall_forall. intros [i datasets] _. cbv [compose]. cbn [snd].
    rewrite groups_of_length. apply groups_of_names.
  - rewrite <- Hconcat. clear Hconcat Hw Hgen. generalize 0%nat.
    induction Hall as [|chunk datasets chunks stored Hcd _ IH]; intros k; [reflexivity|].
    cbn. rewrite map_app. f_equal; [|apply IH].
    apply (groups_of_index self (csv_files w)). exact Hcd.
Qed.
End StoredOrder.

Lemma data_generation_keeps_order_witness :
  let self := Examples.five_samples in
  let out := @Preparation._data_generation Examples.constants Examples.toy_external
               self Examples.start in
  exists writes,
    Preparation.h5_written (fst out) = (Preparation.h5_written Examples.start ++ writes)%list
    /\ map fst writes
       = map (Preparation.dataset_h5_path self) (seq 0 (length writes))
    /\ Forall (fun f => map fst (snd f)
                        = map Preparation.group_name (seq 0 (length (snd f)))) writes
    /\ concat (map (fun f => map (fun g => Preparation.index (snd g)) (snd f)) writes)
       = map (fun idx => [Preparation.int32 idx]) (Preparation.sample_indices self).
Proof.
  intros self out.
  apply (@data_generation_keeps_order Examples.constants Examples.toy_external
           self Examples.start (fst out) tt).
  transitivity (fst out, snd out); [apply surjective_pairing|].
  apply (f_equal (pair (fst out))). vm_compute. reflexivity.
Defined.

Section TrainDownSampling.
Import Preparation.
Context `{C : CommonConstant} `{E : External}.

(** When no sample gets through the loop body, [_data_generation] does
    not return. *)
Lemma data_generation_needs_samples (self : PassiveBiVPreparationDataset) :
  (forall gf sc idx w w' s, generate_sample self gf sc idx w <> (w', Ok s)) ->
  forall w, snd (_data_generation self w) <> Ok tt.
Proof.
  intros Hfail w.
  destruct (_data_generation self w) as [w' r] eqn:Hgen. cbn. intros ->.
  unfold _data_generation in Hgen.
  apply mbind_ok in Hgen as (gf & w1 & _ & H). cbv beta in H.
  apply mbind_ok in H as (sc & w2 & _ & H). cbv beta in H.
  apply mbind_ok in H as (n & w3 & Hn & H). cbv beta in H.
  apply lift_ok in Hn as [-> Hn].
  apply mbind_ok in H as (chunks & w4 & Hchunks & H). cbv beta in H.
  apply lift_ok in Hchunks as [-> Hchunks].
  apply mbind_ok in H as (us & w5 & Hloop & _).
  apply for_each_bodies_ok in Hloop.
  assert (Hempty : Forall (fun chunk => chunk = []) chunks).
  { clear Hchunks. unfold enumerate in Hloop. revert Hloop. generalize 0%nat.
    induction chunks as [|chunk chunks IH]; intros k Hall; [constructor|].
    cbn in Hall. inversion Hall as [|? ? (wa & wb & b & Hb) Hrest]; subst.
    constructor; [|eapply IH, Hrest].
    unfold generate_chunk in Hb. cbn [fst snd] in Hb.
    apply mbind_ok in Hb as (datasets & wc & Hds & _).
    apply for_each_bodies_ok in Hds.
    destruct chunk as [|idx chunk]; [reflexivity|].
    inversion Hds as [|? ? (wd & we & s & Hs) _]; subst.
    exfalso. exact (Hfail _ _ _ _ _ _ Hs). }
  destruct (array_split_ok _ _ _ Hchunks) as (Hpos & _ & Hconcat & _).
  assert (Hnil : sample_indices self = []).
  { rewrite <- Hconcat. clear -Hempty.
    induction Hempty as [|chunk chunks -> _ IH]; [reflexivity | exact IH]. }
  unfold floordiv in Hn. destruct (chunk_file_size self =? 0); [discriminate|].
  injection Hn as <-. rewrite Hnil in Hpos. unfold len in Hpos.
  cbn [length Z.of_nat] in Hpos. rewrite Zdiv_0_l in Hpos. lia.
Qed.

(** X22.  Preparing training data with [val_down_sampling_node] set and
    [train_down_sampling_node] unset: the first test of the loop body
    sends every sample to [_down_sampling_node], which then asks for
    the training count, [None]. *)
Theorem train_needs_train_down_sampling_node (self : PassiveBiVPreparationDataset) :
  data_type self = TRAIN_NAME ->
  train_down_sampling_node self = None ->
  truthy (val_down_sampling_node self) = true ->
  num_down_sample_node self = None
  /\ (forall gf sc idx w rows_in rows_out,
        csv_files w !! (inputs_data_path self ++ read_file_name idx) = Some rows_in ->
        squeeze rows_in = Ok (A2 rows_in) ->
        csv_files w !! (outputs_data_path self ++ read_file_name idx) = Some rows_out ->
        squeeze rows_out = Ok (A2 rows_out) ->
        snd (generate_sample self gf sc idx w) = Raise none_compare_error)
  /\ (forall w, snd (_data_generation self w) <> Ok tt).
Proof.
  intros Htrain Hunset Hval.
  assert (Hnone : num_down_sample_node self = None).
  { unfold num_down_sample_node. rewrite Htrain, String.eqb_refl. exact Hunset. }
  split; [exact Hnone|]. split.
  - intros gf sc idx w rows_in rows_out Hin Hsin Hout Hsout.
    unfold generate_sample, mbind, loadtxt.
    rewrite Hin, Hsin. cbn [csv_files]. rewrite Hout, Hsout. cbn [lift shape0].
    rewrite Hval, orb_true_r.
    unfold _down_sampling_node, mbind, lift. cbn [shape2].
    rewrite Hnone. reflexivity.
  - apply data_generation_needs_samples.
    intros gf sc idx w w' s H. unfold generate_sample in H.
    apply mbind_ok in H as (record_inputs & w1 & _ & H). cbv beta in H.
    apply mbind_ok in H as (record_outputs & w2 & _ & H). cbv beta in H.
    apply mbind_ok in H as (pts & w3 & _ & H). cbv beta in H.
    apply mbind_ok in H as (io1 & w4 & Hio1 & _).
    rewrite Hval, orb_true_r in Hio1.
    unfold _down_sampling_node, mbind, lift in Hio1. rewrite Hnone in Hio1.
    destruct (shape2 record_inputs); [|discriminate].
    destruct (shape2 record_outputs); discriminate.
Qed.
End TrainDownSampling.

Lemma train_needs_train_down_sampling_node_witness :
  let self := Examples.preparation "train" [0; 1; 2; 3; 4] 2 (Some 1) in
  @Preparation.num_down_sample_node Examples.constants self = None
  /\ (forall gf sc idx (w : @Preparation.world Examples.toy_external) rows_in rows_out,
        Preparation.csv_files w
          !! (Preparation.inputs_data_path self ++ Preparation.read_file_name idx)
          = Some rows_in ->
        Preparation.squeeze rows_in = Ok (Preparation.A2 rows_in) ->
        Preparation.csv_files w
          !! (Preparation.outputs_data_path self ++ Preparation.read_file_name idx)
          = Some rows_out ->
        Preparation.squeeze rows_out = Ok (Preparation.A2 rows_out) ->
        snd (@Preparation.generate_sample Examples.constants Examples.toy_external
               self gf sc idx w)
        = Raise Preparation.none_compare_error)
  /\ (forall w, snd (@Preparation._data_generation Examples.constants
                       Examples.toy_external self w) <> Ok tt).
Proof.
  intros self.
  apply (@train_needs_train_down_sampling_node Examples.constants Examples.toy_external self);
    reflexivity.
Defined.

Section DownSamplingRows.
Import Preparation.
Context `{C : CommonConstant} `{E : External}.

(** X23.  When [_down_sampling_node] returns, a node count [k] between 0 and
    the number of nodes is configured, and the rows it returns are the
    rows of the two arrays at the indices [np.random.choice] drew, in
    the order drawn: row [j] of the inputs and row [j] of the outputs
    returned belong to the same node.  Only the random generator has
    moved. *)
Theorem down_sampling_rows (self : PassiveBiVPreparationDataset)
    (rows_in rows_out : list (list Q)) (w w' : world) (ri ro : ndarray) :
  _down_sampling_node self (A2 rows_in) (A2 rows_out) w = (w', Ok (ri, ro)) ->
  exists k kept_in kept_out,
    num_down_sample_node self = Some k
    /\ 0 <= k <= Z.of_nat (length rows_in)
    /\ ri = A2 kept_in /\ ro = A2 kept_out
    /\ (let select_nodes := fst (random_choice (rng w) (length rows_in) (Z.to_nat k)) in
        length kept_in = length select_nodes
        /\ length kept_out = length select_nodes
        /\ forall j i, select_nodes !! j = Some i ->
             exists row_in row_out,
               rows_in !! i = Some row_in /\ rows_out !! i = Some row_out
               /\ kept_in !! j = Some row_in /\ kept_out !! j = Some row_out)
    /\ extends w w' [] [] [].
Proof.
  unfold _down_sampling_node. intros H.
  apply mbind_ok in H as (n & w1 & Hn & H). apply lift_ok in Hn as [-> Hn].
  cbn [shape2] in Hn. injection Hn as <-.
  apply mbind_ok in H as (n' & w1 & Hn' & H). apply lift_ok in Hn' as [-> _].
  destruct (num_down_sample_node self) as [k|]; [|discriminate].
  destruct (Z.gtb_spec k (Z.of_nat (length rows_in))) as [|Hle]; [discriminate|].
  destruct (Z.ltb_spec k 0) as [|Hge]; [discriminate|].
  apply mbind_ok in H as (sel & w1 & Hsel & H).
  apply with_rng_spec in Hsel as [Hext [= ->]].
  apply mbind_ok in H as (ri' & w2 & Hri & H). apply lift_ok in Hri as [-> Hri].
  apply mbind_ok in H as (ro' & w2 & Hro & H). apply lift_ok in Hro as [-> Hro].
  apply ret_ok in H as [-> [= -> ->]].
  apply take_rows_ok in Hri as (kept_in & -> & Hin).
  apply take_rows_ok in Hro as (kept_out & -> & Hout).
  exists k, kept_in, kept_out. split; [reflexivity|]. split; [lia|].
  split; [reflexivity|]. split; [reflexivity|]. split; [|exact Hext].
  cbv zeta. split; [symmetry; eapply Forall2_length, Hin|].
  split; [symmetry; eapply Forall2_length, Hout|].
  intros j i Hj.
  destruct (Forall2_lookup_l _ _ _ _ _ Hin Hj) as (row_in & Hkin & Hrin).
  destruct (Forall2_lookup_l _ _ _ _ _ Hout Hj) as (row_out & Hkout & Hrout).
  exists row_in, row_out. auto.
Qed.

End DownSamplingRows.

Lemma down_sampling_rows_witness :
  let self := Examples.preparation "validation" [0] 1 (Some 1) in
  let rows_in := Examples.table 2 17 0 in
  let rows_out := Examples.table 2 4 0 in
  exists k kept_in kept_out,
    @Preparation.num_down_sample_node Examples.constants self = Some k
    /\ 0 <= k <= Z.of_nat (length rows_in)
    /\ Preparation.A2 [hd [] rows_in] = Preparation.A2 kept_in
    /\ Preparation.A2 [hd [] rows_out] = Preparation.A2 kept_out
    /\ (let select_nodes :=
          fst (@Preparation.random_choice Examples.toy_external
                 (Preparation.rng Examples.start) (length rows_in) (Z.to_nat k)) in
        length kept_in = length select_nodes
        /\ length kept_out = length select_nodes
        /\ forall j i, select_nodes !! j = Some i ->
             exists row_in row_out,
               rows_in !! i = Some row_in /\ rows_out !! i = Some row_out
               /\ kept_in !! j = Some row_in /\ kept_out !! j = Some row_out)
    /\ Preparation.extends Examples.start
         (fst (@Preparation._down_sampling_node Examples.constants Examples.toy_external
                 self (Preparation.A2 rows_in) (Preparation.A2 rows_out) Examples.start))
         [] [] [].
Proof.
  intros self rows_in rows_out.
  apply (@down_sampling_rows Examples.constants Examples.toy_external self
           rows_in rows_out Examples.start).
  vm_compute. reflexivity.
Defined.

Section PartialOutput.
Import Preparation.
Context `{C : CommonConstant} `{E : External}.

Lemma mbind_cases {A B} (m : M A) (k : A -> M B) (w w' : world) (r : result B) :
  mbind m k w = (w', r) ->
  (exists a w1, m w = (w1, Ok a) /\ k a w1 = (w', r))
  \/ (exists e, m w = (w', Raise e) /\ r = Raise e).
Proof.
  unfold mbind. destruct (m w) as [w1 [a|e]].
  - intros Hk. left. eauto.
  - intros [= <- <-]. right. eauto.
Qed.

(** Running [m] and then [k] writes no file when neither does. *)
Lemma mbind_no_write {A B} (m : M A) (k : A -> M B) :
  (forall w w' r, m w = (w', r) -> h5_written w' = h5_written w) ->
  (forall a w w' r, k a w = (w', r) -> h5_written w' = h5_written w) ->
  forall w w' r, mbind m k w = (w', r) -> h5_written w' = h5_written w.
Proof.
  intros Hm Hk w w' r H.
  apply mbind_cases in H as [(a & w1 & Hma & Hka)|(e & Hme & _)].
  - rewrite (Hk _ _ _ _ Hka). eapply Hm, Hma.
  - eapply Hm, Hme.
Qed.

Lemma lift_no_write {A} (x : result A) (w w' : world) (r : result A) :
  lift x w = (w', r) -> h5_written w' = h5_written w.
Proof. unfold lift. intros [= <- _]. reflexivity. Qed.

Lemma ret_no_write {A} (a : A) (w w' : world) (r : result A) :
  ret a w = (w', r) -> h5_written w' = h5_written w.
Proof. unfold ret. intros [= <- _]. reflexivity. Qed.

Lemma loadtxt_no_write (path : string) (w w' : world) (r : result ndarray) :
  loadtxt path w = (w', r) -> h5_written w' = h5_written w.
Proof. intros H. apply loadtxt_spec in H as [(_ & _ & Hw & _) _]. rewrite Hw. apply app_nil_r. Qed.

Lemma down_sampling_no_write (self : PassiveBiVPreparationDataset) (a b : ndarray)
    (w w' : world) r :
  _down_sampling_node self a b w = (w', r) -> h5_written w' = h5_written w.
Proof.
  intros H. apply down_sampling_spec in H as [(_ & _ & Hw & _) _].
  rewrite Hw. apply app_nil_r.
Qed.

Lemma edges_no_write (self : PassiveBiVPreparationDataset) (coords : list (list Q))
    (w w' : world) r :
  _generate_distance_based_edges self coords w = (w', r) -> h5_written w' = h5_written w.
Proof.
  intros H. apply edges_extends in H as (_ & _ & Hw & _). rewrite Hw. apply app_nil_r.
Qed.

(** The body of the inner loop writes no file, however it ends. *)
Lemma generate_sample_no_write (self : PassiveBiVPreparationDataset)
    (gf sc : ndarray) (idx : Z) (w w' : world) (r : result sample_dict) :
  generate_sample self gf sc idx w = (w', r) -> h5_written w' = h5_written w.
Proof.
  unfold generate_sample. revert w w' r.
  apply mbind_no_write; [apply loadtxt_no_write|]. intros record_inputs.
  apply mbind_no_write; [apply loadtxt_no_write|]. intros record_outputs.
  apply mbind_no_write; [apply lift_no_write|]. intros points.
  apply mbind_no_write.
  { destruct (_ || _); [apply down_sampling_no_write | apply ret_no_write]. }
  intros io1. apply mbind_no_write.
  { destruct (_ && _); [apply down_sampling_no_write | apply ret_no_write]. }
  intros io2. apply mbind_no_write; [apply lift_no_write|]. intros coords.
  apply mbind_no_write; [apply edges_no_write|]. intros edge.
  apply lift_no_write.
Qed.

Lemma for_each_no_write {A B} (body : A -> M B) (l : list A) :
  (forall a w w' r, body a w = (w', r) -> h5_written w' = h5_written w) ->
  forall w w' r, for_each body l w = (w', r) -> h5_written w' = h5_written w.
Proof.
  intros Hbody. induction l as [|a l IH]; cbn [for_each]; [apply ret_no_write|].
  apply mbind_no_write; [apply Hbody|]. intros b.
  apply mbind_no_write; [exact IH|]. intros bs. apply ret_no_write.
Qed.

(** A chunk writes its file, with one group per sample, when all its
    samples got through, and nothing otherwise. *)
Lemma generate_chunk_writes (self : PassiveBiVPreparationDataset)
    (gf sc : ndarray) (i : nat) (chunk : list Z) (w w' : world) (r : result unit) :
  generate_chunk self gf sc (i, chunk) w = (w', r) ->
  match r with
  | Ok _ => exists groups,
              h5_written w' = (h5_written w ++ [(dataset_h5_path self i, groups)])%list
              /\ length groups = length chunk
  | Raise _ => h5_written w' = h5_written w
  end.
Proof.
  destruct r as [u|e].
  - intros H. apply generate_chunk_spec in H as (datasets & (_ & _ & Hw & _) & Hall).
    exists (groups_of datasets). split; [exact Hw|].
    rewrite groups_of_length. symmetry. eapply Forall2_length, Hall.
  - unfold generate_chunk. cbn [fst snd]. intros H.
    apply mbind_cases in H as [(datasets & w1 & Hds & Hw)|(e' & Hds & _)].
    + unfold write_h5 in Hw. discriminate.
    + apply (for_each_no_write _ _ (generate_sample_no_write self gf sc) _ _ _ Hds).
Qed.

(** The outer loop, from chunk number [k] on: the files of the chunks
    it completed, in order, and fewer files than chunks when it
    raises. *)
Lemma chunk_loop_writes (self : PassiveBiVPreparationDataset) (gf sc : ndarray)
    (chunks : list (list Z)) :
  forall (k : nat) (w w' : world) (r : result (list unit)),
    for_each (generate_chunk self gf sc) (enumerate_from k chunks) w = (w', r) ->
    exists writes,
      h5_written w' = (h5_written w ++ writes)%list
      /\ map fst writes = map (dataset_h5_path self) (seq k (length writes))
      /\ map (fun f => length (snd f)) writes
         = map (@length Z) (take (length writes) chunks)
      /\ match r with
         | Ok _ => length writes = length chunks
         | Raise _ => (length writes < length chunks)%nat
         end.
Proof.
  induction chunks as [|chunk chunks IH]; intros k w w' r; cbn [enumerate_from for_each].
  - unfold ret. intros [= <- <-]. exists []. rewrite app_nil_r. auto.
  - intros H. apply mbind_cases in H as [(u & w1 & Hchunk & H)|(e & Hchunk & ->)].
    + apply generate_chunk_writes in Hchunk as (groups & Hw1 & Hlen).
      apply mbind_cases in H as [(us & w2 & Hrest & H)|(e & Hrest & ->)].
      * apply IH in Hrest as (writes & Hw2 & Hnames & Hsizes & Hcount).
        unfold ret in H. injection H as <- <-.
        exists ((dataset_h5_path self k, groups) :: writes).
        split; [rewrite Hw2, Hw1, <- app_assoc; reflexivity|].
        cbn. rewrite Hnames, Hsizes, Hlen. auto.
      * apply IH in Hrest as (writes & Hw2 & Hnames & Hsizes & Hcount).
        exists ((dataset_h5_path self k, groups) :: writes).
        split; [rewrite Hw2, Hw1, <- app_assoc; reflexivity|].
        cbn. rewrite Hnames, Hsizes, Hlen. split; [reflexivity|].
        split; [reflexivity | lia].
    + apply generate_chunk_writes in Hchunk. exists []. rewrite app_nil_r.
      split; [exact Hchunk|]. cbn. repeat split. lia.
Qed.

(** X24.  When [_data_generation] raises, the files it has written are those
    of the chunks before the one that failed, numbered from 0, each with
    all the samples of its chunk; the failing chunk and those after it
    have no file.  When it returns there is one file per chunk. *)
Theorem data_generation_partial_output (self : PassiveBiVPreparationDataset)
    (w w' : world) (r : result unit) :
  _data_generation self w = (w', r) ->
  exists writes,
    h5_written w' = (h5_written w ++ writes)%list
    /\ map fst writes = map (dataset_h5_path self) (seq 0 (length writes))
    /\ forall chunks,
         array_split (sample_indices self)
           (len (sample_indices self) / chunk_file_size self) = Ok chunks ->
         map (fun f => length (snd f)) writes
         = map (@length Z) (take (length writes) chunks)
         /\ match r with
            | Ok _ => length writes = length chunks
            | Raise _ => (length writes < length chunks)%nat
            end.
Proof.
  unfold _data_generation. intros H.
  assert (Hearly : forall e, h5_written w' = h5_written w ->
            exists writes,
              h5_written w' = (h5_written w ++ writes)%list
              /\ map fst writes = map (dataset_h5_path self) (seq 0 (length writes))
              /\ forall chunks,
                   array_split (sample_indices self)
                     (len (sample_indices self) / chunk_file_size self) = Ok chunks ->
                   map (fun f : string * h5file => length (snd f)) writes
                   = map (@length Z) (take (length writes) chunks)
                   /\ match Raise e : result unit with
                      | Ok _ => length writes = length chunks
                      | Raise _ => (length writes < length chunks)%nat
                      end).
  { intros e Hw. exists []. rewrite app_nil_r. split; [exact Hw|].
    split; [reflexivity|]. intros chunks Hch. split; [reflexivity|].
    apply array_split_ok in Hch as (Hpos & Hlen & _). cbn. lia. }
  apply mbind_cases in H as [(gf & w1 & Hgf & H)|(e & Hgf & ->)];
    [|apply (Hearly e), (loadtxt_no_write _ _ _ _ Hgf)].
  apply loadtxt_no_write in Hgf.
  apply mbind_cases in H as [(sc & w2 & Hsc & H)|(e & Hsc & ->)];
    [|apply (Hearly e); etransitivity; [apply (loadtxt_no_write _ _ _ _ Hsc) | exact Hgf]].
  apply loadtxt_no_write in Hsc. rewrite Hgf in Hsc.
  apply mbind_cases in H as [(n & w3 & Hn & H)|(e & Hn & ->)];
    [|apply (Hearly e); etransitivity; [apply (lift_no_write _ _ _ _ Hn) | exact Hsc]].
  apply lift_ok in Hn as [-> Hn].
  apply mbind_cases in H as [(chunks & w4 & Hchunks & H)|(e & Hchunks & ->)];
    [|apply (Hearly e); etransitivity; [apply (lift_no_write _ _ _ _ Hchunks) | exact Hsc]].
  apply lift_ok in Hchunks as [-> Hchunks].
  unfold floordiv in Hn. destruct (chunk_file_size self =? 0); [discriminate|].
  injection Hn as <-.
  assert (Hloop : exists rl,
            for_each (generate_chunk self gf sc) (enumerate chunks) w2 = (w', rl)
            /\ is_ok rl = is_ok r).
  { apply mbind_cases in H as [(us & w5 & Hl & Hret)|(e & Hl & ->)].
    - unfold ret in Hret. injection Hret as <- <-. eauto.
    - eauto. }
  destruct Hloop as (rl & Hl & Hok).
  apply chunk_loop_writes in Hl as (writes & Hw & Hnames & Hsizes & Hcount).
  exists writes. rewrite Hw, Hsc. split; [reflexivity|]. split; [exact Hnames|].
  intros chunks' Hch. rewrite Hchunks in Hch. injection Hch as <-.
  split; [exact Hsizes|]. destruct rl, r; try discriminate; lia.
Qed.

End PartialOutput.

Lemma data_generation_partial_output_witness :
  let self := Examples.preparation "train" [0; 1; 2; 7] 2 None in
  let out := @Preparation._data_generation Examples.constants Examples.toy_external
               self Examples.start in
  exists writes,
    Preparation.h5_written (fst out) = (Preparation.h5_written Examples.start ++ writes)%list
    /\ map fst writes
       = map (Preparation.dataset_h5_path self) (seq 0 (length writes))
    /\ forall chunks,
         Preparation.array_split (Preparation.sample_indices self)
           (len (Preparation.sample_indices self) / Preparation.chunk_file_size self)
         = Ok chunks ->
         map (fun f => length (snd f)) writes
         = map (@length Z) (take (length writes) chunks)
         /\ match snd out with
            | Ok _ => length writes = length chunks
            | Raise _ => (length writes < length chunks)%nat
            end.
Proof.
  intros self out.
  apply (@data_generation_partial_output Examples.constants Examples.toy_external
           self Examples.start (fst out) (snd out)).
  apply surjective_pairing.
Defined.

(** Four samples in chunks of two, the last of them without files: the
    first file is written, the second is not. *)
Example data_generation_second_chunk_fails :
  let self := Examples.preparation "train" [0; 1; 2; 7] 2 None in
  let out := @Preparation._data_generation Examples.constants Examples.toy_external
               self Examples.start in
  snd out = Raise (FileNotFoundError "inputs/ct_case_0008.csv")
  /\ map (fun f => (fst f, map fst (snd f))) (Preparation.h5_written (fst out))
     = [("data_0.h5", ["idx_0"; "idx_1"])].
Proof. vm_compute. split; reflexivity. Qed.

Section StatsData.
Import Preparation.
Context `{C : CommonConstant} `{E : External}.

Lemma stacked_snoc (a b : nat) (pre : list (list (list Q))) (rows : list (list Q))
    (acc' : option ndarray) :
  extend (stacked a b pre) (A2 (map (slice a b) rows)) = Ok acc' ->
  acc' = stacked a b (pre ++ [rows]).
Proof.
  destruct pre as [|t pre]; cbn [stacked extend app].
  - intros [= <-]. cbn. rewrite app_nil_r. reflexivity.
  - unfold concatenate. destruct (_ =? _)%nat; [|discriminate]. cbn.
    intros [= <-]. f_equal. f_equal.
    change (t :: pre ++ [rows])%list with ((t :: pre) ++ [rows])%list.
    rewrite map_app, concat_app. cbn. rewrite app_nil_r, app_assoc. reflexivity.
Qed.

Lemma node_stats_loop (self : PassiveBiVPreparationDataset) (l : list nat) :
  forall (pre : list (list (list Q))) (w w' : world) acc',
    for_fold (node_stats_step self) l
      (stacked 0 3 pre, stacked 3 11 pre, stacked 11 17 pre) w = (w', Ok acc') ->
    exists tables,
      Forall2 (fun idx rows =>
                 csv_files w !! (inputs_data_path self ++ read_file_name (Z.of_nat idx))
                 = Some rows) l tables
      /\ acc' = (stacked 0 3 (pre ++ tables), stacked 3 11 (pre ++ tables),
                 stacked 11 17 (pre ++ tables))
      /\ csv_files w' = csv_files w
      /\ stats_calls w' = stats_calls w.
Proof.
  induction l as [|idx l IH]; intros pre w w' acc'; cbn [for_fold].
  - unfold ret. intros [= <- <-]. exists []. rewrite app_nil_r. auto.
  - intros H. apply mbind_ok in H as (acc1 & w1 & Hstep & Hrest).
    unfold node_stats_step in Hstep.
    apply mbind_ok in Hstep as (arr & w0 & Hload & Hstep).
    apply loadtxt_spec in Hload as [Hext Harr].
    destruct (Harr arr eq_refl) as (rows & Hrows & Hsq).
    apply lift_ok in Hstep as [-> Hstep].
    apply bind_ok in Hstep as (nc & Hnc & Hstep).
    apply slice_cols_ok in Hnc as (rows' & -> & ->).
    apply squeeze_rows in Hsq as ->.
    apply bind_ok in Hstep as (s1 & Hs1 & Hstep). apply stacked_snoc in Hs1 as ->.
    cbn [slice_cols Py.bind] in Hstep.
    apply bind_ok in Hstep as (s2 & Hs2 & Hstep). apply stacked_snoc in Hs2 as ->.
    apply bind_ok in Hstep as (s3 & Hs3 & Hstep). apply stacked_snoc in Hs3 as ->.
    injection Hstep as <-.
    destruct (IH _ _ _ _ Hrest) as (tables & Hall & -> & Hcsv & Hst).
    destruct Hext as (Hcsv1 & _ & _ & Hst1). rewrite app_nil_r in Hst1.
    exists (rows :: tables). rewrite <- !app_assoc. cbn [app].
    split; [|split; [reflexivity | split; congruence]].
    constructor; [exact Hrows|].
    eapply Forall2_impl; [exact Hall|]. intros i t Hi. cbn in Hi. congruence.
Qed.

Lemma label_stats_loop (self : PassiveBiVPreparationDataset) (l : list nat) :
  forall (pre : list (list (list Q))) (w w' : world) acc',
    for_fold (label_stats_step self) l (stacked 0 3 pre, stacked 3 4 pre) w
    = (w', Ok acc') ->
    exists tables,
      Forall2 (fun idx rows =>
                 csv_files w !! (outputs_data_path self ++ read_file_name (Z.of_nat idx))
                 = Some rows) l tables
      /\ acc' = (stacked 0 3 (pre ++ tables), stacked 3 4 (pre ++ tables))
      /\ csv_files w' = csv_files w
      /\ stats_calls w' = stats_calls w.
Proof.
  induction l as [|idx l IH]; intros pre w w' acc'; cbn [for_fold].
  - unfold ret. intros [= <- <-]. exists []. rewrite app_nil_r. auto.
  - intros H. apply mbind_ok in H as (acc1 & w1 & Hstep & Hrest).
    unfold label_stats_step in Hstep.
    apply mbind_ok in Hstep as (arr & w0 & Hload & Hstep).
    apply loadtxt_spec in Hload as [Hext Harr].
    destruct (Harr arr eq_refl) as (rows & Hrows & Hsq).
    apply lift_ok in Hstep as [-> Hstep].
    apply bind_ok in Hstep as (nc & Hnc & Hstep).
    apply slice_cols_ok in Hnc as (rows' & -> & ->).
    apply squeeze_rows in Hsq as ->.
    apply bind_ok in Hstep as (s1 & Hs1 & Hstep). apply stacked_snoc in Hs1 as ->.
    cbn [slice_cols Py.bind] in Hstep.
    apply bind_ok in Hstep as (s2 & Hs2 & Hstep). apply stacked_snoc in Hs2 as ->.
    injection Hstep as <-.
    destruct (IH _ _ _ _ Hrest) as (tables & Hall & -> & Hcsv & Hst).
    destruct Hext as (Hcsv1 & _ & _ & Hst1). rewrite app_nil_r in Hst1.
    exists (rows :: tables). rewrite <- !app_assoc. cbn [app].
    split; [|split; [reflexivity | split; congruence]].
    constructor; [exact Hrows|].
    eapply Forall2_impl; [exact Hall|]. intros i t Hi. cbn in Hi. congruence.
Qed.

(** X25.  When [_data_stats] returns, it has read the input and the output
    file of the cases [1 .. len(sample_indices)] (whatever the sample
    indices are) and the two global tables, and has asked for eight
    statistics along axis 0, in this order: node coordinates, Laplace
    coordinates, fibre and sheet directions (columns [0:3], [3:11] and
    [11:17] of the inputs, stacked in file order), material parameters
    and pressure (columns [1:7] and [7:9] of the global table), shape
    coefficients (columns [1:] of the shape table), displacement and
    stress (columns [0:3] and [3:4] of the stacked outputs). *)
Theorem data_stats_calls (self : PassiveBiVPreparationDataset) (w w' : world) (u : unit) :
  _data_stats self w = (w', Ok u) ->
  exists inputs outputs gf sc,
    Forall2 (fun idx rows =>
               csv_files w !! (inputs_data_path self ++ read_file_name (Z.of_nat idx))
               = Some rows) (seq 0 (length (sample_indices self))) inputs
    /\ Forall2 (fun idx rows =>
                  csv_files w !! (outputs_data_path self ++ read_file_name (Z.of_nat idx))
                  = Some rows) (seq 0 (length (sample_indices self))) outputs
    /\ csv_files w !! global_feature_data_path self = Some gf
    /\ csv_files w !! shape_data_path self = Some sc
    /\ stats_calls w' = (stats_calls w ++ stats_pass_calls self inputs outputs gf sc)%list.
Proof.
  unfold _data_stats. intros H.
  apply mbind_ok in H as ([] & w1 & Hnode & H). cbv beta in H.
  apply mbind_ok in H as ([] & w2 & Hglobal & Hlabel).
  (* node statistics *)
  unfold _data_node_stats in Hnode.
  apply mbind_ok in Hnode as ([[a b] c] & wa & Hloop & Hnode).
  apply (node_stats_loop self _ []) in Hloop as (inputs & Hin & [= -> -> ->] & Hcsva & Hsta).
  cbn [app] in Hnode.
  apply mbind_ok in Hnode as ([] & wb & H1 & Hnode).
  apply stats_analysis_extends in H1 as [(Hc1 & _ & _ & Hs1) _].
  apply mbind_ok in Hnode as ([] & wc & H2 & H3).
  apply stats_analysis_extends in H2 as [(Hc2 & _ & _ & Hs2) _].
  apply stats_analysis_extends in H3 as [(Hc3 & _ & _ & Hs3) _].
  (* global statistics *)
  unfold _data_global_feature_stats in Hglobal.
  apply mbind_ok in Hglobal as (gfa & wd & Hgf & Hglobal).
  apply loadtxt_spec in Hgf as [(Hc4 & _ & _ & Hs4) Hgf].
  destruct (Hgf gfa eq_refl) as (gf & Hgfrows & Hgfsq).
  apply mbind_ok in Hglobal as (sca & we & Hsc & Hglobal).
  apply loadtxt_spec in Hsc as [(Hc5 & _ & _ & Hs5) Hsc].
  destruct (Hsc sca eq_refl) as (sc & Hscrows & Hscsq).
  apply mbind_ok in Hglobal as (ga & wf & Hga & Hglobal).
  apply lift_ok in Hga as [-> Hga].
  apply slice_cols_ok in Hga as (gf' & -> & ->). apply squeeze_rows in Hgfsq as ->.
  apply mbind_ok in Hglobal as ([] & wg & H6 & Hglobal).
  apply stats_analysis_extends in H6 as [(Hc6 & _ & _ & Hs6) _].
  apply mbind_ok in Hglobal as (gb & wh & Hgb & Hglobal).
  apply lift_ok in Hgb as [-> Hgb]. cbn [slice_cols] in Hgb. injection Hgb as <-.
  apply mbind_ok in Hglobal as ([] & wi & H7 & Hglobal).
  apply stats_analysis_extends in H7 as [(Hc7 & _ & _ & Hs7) _].
  apply mbind_ok in Hglobal as (gc & wj & Hgc & H8).
  apply lift_ok in Hgc as [-> Hgc].
  destruct sca as [x|v|sc']; try discriminate. apply squeeze_rows in Hscsq as ->.
  cbn [slice_cols_from] in Hgc. injection Hgc as <-.
  apply stats_analysis_extends in H8 as [(Hc8 & _ & _ & Hs8) _].
  (* label statistics *)
  unfold _data_label_stats in Hlabel.
  apply mbind_ok in Hlabel as ([d e] & wk & Hloop & Hlabel).
  apply (label_stats_loop self _ []) in Hloop as (outputs & Hout & [= -> ->] & Hcsvk & Hstk).
  cbn [app] in Hlabel.
  apply mbind_ok in Hlabel as ([] & wl & H9 & H10).
  apply stats_analysis_extends in H9 as [(Hc9 & _ & _ & Hs9) _].
  apply stats_analysis_extends in H10 as [(Hc10 & _ & _ & Hs10) _].
  rewrite !app_nil_r in *.
  assert (Hcsv2 : csv_files w2 = csv_files w) by congruence.
  exists inputs, outputs, gf, sc. split; [exact Hin|]. split; [|split; [|split]].
  - eapply Forall2_impl; [exact Hout|]. intros i t Hi. cbn in Hi. congruence.
  - congruence.
  - congruence.
  - rewrite Hs10, Hs9, Hstk, Hs8, Hs7, Hs6, Hs5, Hs4, Hs3, Hs2, Hs1, Hsta.
    unfold stats_pass_calls. rewrite <- !app_assoc. reflexivity.
Qed.
End StatsData.

Lemma data_stats_calls_witness :
  let self := Examples.five_samples in
  let out := @Preparation._data_stats Examples.toy_external self Examples.start in
  exists inputs outputs gf sc,
    Forall2 (fun idx rows =>
               Preparation.csv_files Examples.start
                 !! (Preparation.inputs_data_path self
                       ++ Preparation.read_file_name (Z.of_nat idx))
               = Some rows) (seq 0 (length (Preparation.sample_indices self))) inputs
    /\ Forall2 (fun idx rows =>
                  Preparation.csv_files Examples.start
                    !! (Preparation.outputs_data_path self
                          ++ Preparation.read_file_name (Z.of_nat idx))
                  = Some rows) (seq 0 (length (Preparation.sample_indices self))) outputs
    /\ Preparation.csv_files Examples.start
         !! Preparation.global_feature_data_path self = Some gf
    /\ Preparation.csv_files Examples.start !! Preparation.shape_data_path self = Some sc
    /\ Preparation.stats_calls (fst out)
       = (Preparation.stats_calls Examples.start
            ++ Preparation.stats_pass_calls self inputs outputs gf sc)%list.
Proof.
  intros self out.
  apply (data_stats_calls self Examples.start (fst out) tt).
  transitivity (fst out, snd out); [apply surjective_pairing|].
  apply (f_equal (pair (fst out))). vm_compute. reflexivity.
Defined.
